(** * Blizzard 2.1: the IRS 990 transform and load pipeline

    A shallow embedding of the parts of the repository that turn one
    parsed filing into entity-attribute-value rows and persist them:

    - [src/etl/transformer.py]   ([IRS990Transformer])
    - [src/etl/loader.py]        ([PostgreSQLLoader])
    - [src/xml/parser.py]        ([XMLParser])
    - [src/repeating_groups/detector.py], [nested_detector.py], [utils.py]

    Conventions of the embedding.

    - Python [str] is [string]; characters are code points below 256.
    - Python [None] is [None] of an [option]; a dictionary whose iteration
      order matters is an association list in insertion order, a dictionary
      used only for counting is a [gmap].
    - A Python exception is a value of [exn]; code that may raise returns a
      [result]; [try/except] is a [match] on it.
    - lxml (the XPath engine, [getpath]), pandas ([read_csv]) and the file
      system are libraries, not code of the repository.  The XPath engine
      and [getpath] are parameters of the development; a reference engine
      for documents without namespaces is given after the code and used
      to evaluate the code on concrete documents.
    - A parsed document is an immutable tree; a node is addressed by the
      list of child indices that leads to it from the root, which gives
      nodes the identity lxml elements have.
    - The relational store is a record of tables, each a list of rows; the
      SQL statements of the loader are functions on it. *)

From stdpp Require Import gmap strings list.
From Stdlib Require Import ZArith QArith String Ascii DecimalString.
From Stdlib Require Import Sorting.Permutation Sorting.Sorted.

Local Open Scope string_scope.
Local Open Scope list_scope.

(** ** Exceptions and results *)

(** The exception classes of [src/core/exceptions.py] that the modelled
    code raises, and the foreign ones it catches. *)
Inductive exn : Type :=
| ValueError
| XPathEvalError
| IOError (msg : string)
| XMLProcessingError (msg : string)
| ConcordanceError (msg : string)
| DatabaseError (msg : string).

Inductive result (A : Type) : Type :=
| Ok (a : A)
| Raise (e : exn).
Arguments Ok {A} a.
Arguments Raise {A} e.

Definition bind {A B} (r : result A) (k : A -> result B) : result B :=
  match r with
  | Ok a => k a
  | Raise e => Raise e
  end.

Notation "'do' x <- r ; k" := (bind r (fun x => k))
  (at level 10, x name, r at level 100, k at level 200).

(** [str(e)] for the messages that are built from a caught exception; the
    name of the class stands for the message of the two without one. *)
Definition exn_str (e : exn) : string :=
  match e with
  | ValueError => "ValueError"
  | XPathEvalError => "XPathEvalError"
  | IOError m => m
  | XMLProcessingError m => m
  | ConcordanceError m => m
  | DatabaseError m => m
  end.

(** ** Python strings *)

Module PyStr.

Definition code (c : ascii) : nat := nat_of_ascii c.

Definition between (lo hi : nat) (c : ascii) : bool :=
  (lo <=? code c)%nat && (code c <=? hi)%nat.

(** [\d] on code points below 256. *)
Definition is_digit (c : ascii) : bool := between 48 57 c.
Definition is_upper_ascii (c : ascii) : bool := between 65 90 c.
Definition is_lower_ascii (c : ascii) : bool := between 97 122 c.
Definition is_alnum_ascii (c : ascii) : bool :=
  is_digit c || is_upper_ascii c || is_lower_ascii c.

(** [str.isspace] on code points below 256. *)
Definition is_space (c : ascii) : bool :=
  between 9 13 c || between 28 32 c
  || (code c =? 133)%nat || (code c =? 160)%nat.

(** [str.lower] on one code point below 256: A-Z and the Latin-1 capitals
    (all of 192..222 but the multiplication sign 215) move up by 32. *)
Definition lower_char (c : ascii) : ascii :=
  if is_upper_ascii c
     || (between 192 222 c && negb (code c =? 215)%nat)
  then ascii_of_nat (code c + 32)
  else c.

Fixpoint map (f : ascii -> ascii) (s : string) : string :=
  match s with
  | EmptyString => EmptyString
  | String c s' => String (f c) (map f s')
  end.

Fixpoint filter (p : ascii -> bool) (s : string) : string :=
  match s with
  | EmptyString => EmptyString
  | String c s' => if p c then String c (filter p s') else filter p s'
  end.

Fixpoint forallb (p : ascii -> bool) (s : string) : bool :=
  match s with
  | EmptyString => true
  | String c s' => p c && forallb p s'
  end.

Definition lower (s : string) : string := map lower_char s.

(** [s.lstrip()], [s.rstrip()], [s.strip()] *)
Fixpoint lstrip_by (p : ascii -> bool) (s : string) : string :=
  match s with
  | EmptyString => EmptyString
  | String c s' => if p c then lstrip_by p s' else s
  end.

Fixpoint rstrip_by (p : ascii -> bool) (s : string) : string :=
  match s with
  | EmptyString => EmptyString
  | String c s' =>
      match rstrip_by p s' with
      | EmptyString => if p c then EmptyString else String c EmptyString
      | r => String c r
      end
  end.

Definition strip_by (p : ascii -> bool) (s : string) : string :=
  rstrip_by p (lstrip_by p s).

Definition strip (s : string) : string := strip_by is_space s.

(** [s.startswith(p)] *)
Definition startswith (s p : string) : bool := String.prefix p s.

(** [needle in s] *)
Fixpoint contains (s needle : string) : bool :=
  String.prefix needle s ||
  match s with
  | EmptyString => false
  | String _ s' => contains s' needle
  end.

(** [x in (t1, ..., tn)] *)
Definition mem (x : string) (l : list string) : bool :=
  existsb (String.eqb x) l.

(** Truthiness of an optional string: [None] and [''] are false. *)
Definition truthy (o : option string) : bool :=
  match o with
  | Some s => negb (String.eqb s "")
  | None => false
  end.

(** [s[-n:]] for [n > 0] *)
Definition last_n (n : nat) (s : string) : string :=
  String.substring (String.length s - n) n s.

End PyStr.

(** ** Decimal literals: [float] on cleaned text

    [_convert_value] applies [float] only to text from which every
    character but digits, ['.'] and ['-'] has been removed.  On that
    alphabet [float] accepts exactly an optional ['-'], then digits with at
    most one ['.'] among them and at least one digit, and raises
    [ValueError] otherwise.  The value is kept as the exact rational the
    literal denotes (Python rounds it to the nearest double). *)

Module PyFloat.

Definition digit_val (c : ascii) : Z := Z.of_nat (PyStr.code c) - 48.

(** Digits read left to right: the number so far and how many digits. *)
Fixpoint digits (s : string) (acc : Z) (n : nat) : Z * nat * string :=
  match s with
  | String c s' =>
      if PyStr.is_digit c then digits s' (10 * acc + digit_val c) (S n)
      else (acc, n, s)
  | EmptyString => (acc, n, s)
  end.

Definition unsigned (s : string) : option Q :=
  let '(ip, ni, rest) := digits s 0 0%nat in
  match rest with
  | EmptyString => if (0 <? ni)%nat then Some (inject_Z ip) else None
  | String c rest' =>
      if Ascii.eqb c "." then
        let '(fp, nf, rest'') := digits rest' 0 0%nat in
        match rest'' with
        | EmptyString =>
            if (0 <? ni + nf)%nat
            then Some (Qred (inject_Z ip + inject_Z fp / inject_Z (10 ^ Z.of_nat nf)))
            else None
        | String _ _ => None
        end
      else None
  end.

Definition float (s : string) : result Q :=
  let '(neg, body) :=
    match s with
    | String c s' => if Ascii.eqb c "-" then (true, s') else (false, s)
    | EmptyString => (false, s)
    end in
  match unsigned body with
  | Some q => Ok (if neg then Qred (- q) else q)
  | None => Raise ValueError
  end.

End PyFloat.

(** ** The value converter: [IRS990Transformer._convert_value] *)

(** The four typed slots of a value row, each possibly [None]. *)
Record Slots : Type := mkSlots {
  text_value : option string;
  numeric_value : option Q;
  boolean_value : option bool;
  date_value : option string
}.

Definition no_slots : Slots := mkSlots None None None None.

(** [re.sub(r'[^\d.-]', '', value)] *)
Definition numeric_char (c : ascii) : bool :=
  PyStr.is_digit c || Ascii.eqb c "." || Ascii.eqb c "-".

Definition clean_numeric (value : string) : string :=
  PyStr.filter numeric_char value.

Definition truthy_tokens : list string :=
  ["true"; "yes"; "1"; "t"; "y"; "x"].

(** The body of [_convert_value]; the [try] around [float] catches
    [ValueError] only, any other exception would propagate. *)
Definition _convert_value (value data_type : string) : result Slots :=
  if String.eqb data_type "" || String.eqb data_type "text" then
    Ok (mkSlots (Some value) None None None)
  else if String.eqb data_type "numeric" then
    match PyFloat.float (clean_numeric value) with
    | Ok q => Ok (mkSlots None (Some q) None None)
    | Raise ValueError => Ok (mkSlots (Some value) None None None)
    | Raise e => Raise e
    end
  else if String.eqb data_type "checkbox" || String.eqb data_type "boolean" then
    let lower_val := PyStr.lower value in
    Ok (mkSlots None None (Some (PyStr.mem lower_val truthy_tokens)) None)
  else if String.eqb data_type "date" then
    Ok (mkSlots None None None (Some value))
  else
    Ok (mkSlots (Some value) None None None).

(** How many of the four slots are populated. *)
Definition populated (s : Slots) : nat :=
  (if text_value s is Some _ then 1 else 0)
  + (if numeric_value s is Some _ then 1 else 0)
  + (if boolean_value s is Some _ then 1 else 0)
  + (if date_value s is Some _ then 1 else 0).

(** ** [convert_value] of [src/repeating_groups/utils.py]

    A second converter, with the type names ['number'], ['boolean'] and
    ['date'].  The transformer does not call it.  It keeps a text rendering
    next to the typed slot; [str_float] stands for Python's [str] of a
    float. *)
Section UtilsConvert.
Variable str_float : Q -> string.

Definition utils_convert_value (value : option string) (data_type : string)
  : Slots :=
  match value with
  | None => no_slots
  | Some value =>
      if String.eqb data_type "number" then
        match PyFloat.float (clean_numeric value) with
        | Ok q => mkSlots (Some (str_float q)) (Some q) None None
        | Raise _ => mkSlots (Some value) None None None
        end
      else if String.eqb data_type "boolean" then
        let lower_value := PyStr.lower value in
        if PyStr.mem lower_value ["true"; "yes"; "1"; "t"; "y"] then
          mkSlots (Some "true") None (Some true) None
        else if PyStr.mem lower_value ["false"; "no"; "0"; "f"; "n"] then
          mkSlots (Some "false") None (Some false) None
        else mkSlots (Some value) None None None
      else if String.eqb data_type "date" then
        mkSlots (Some value) None None (Some value)
      else mkSlots (Some value) None None None
  end.
End UtilsConvert.


(** ** Dictionaries in insertion order *)

(** A Python [dict] with string keys: assigning to a key that is present
    replaces the value where it stands, a new key goes to the end. *)
Section SDict.
Context {V : Type}.

Fixpoint sget (k : string) (d : list (string * V)) : option V :=
  match d with
  | [] => None
  | (k', v) :: d' => if String.eqb k k' then Some v else sget k d'
  end.

Fixpoint sset (k : string) (v : V) (d : list (string * V))
  : list (string * V) :=
  match d with
  | [] => [(k, v)]
  | (k', v') :: d' =>
      if String.eqb k k' then (k', v) :: d' else (k', v') :: sset k v d'
  end.

Definition smem (k : string) (d : list (string * V)) : bool :=
  if sget k d is Some _ then true else false.
End SDict.

(** Counting occurrences, as the loops
    [if k in counts: counts[k] += 1 else: counts[k] = 1] do, and the test
    [any(count > 1 for count in counts.values())]. *)
Section Counting.
Context `{Countable K}.

Definition count_step (m : gmap K nat) (k : K) : gmap K nat :=
  match m !! k with
  | Some c => <[k := S c]> m
  | None => <[k := 1%nat]> m
  end.

Definition count_keys (ks : list K) : gmap K nat :=
  fold_left count_step ks ∅.

Definition any_repeated (m : gmap K nat) : bool :=
  existsb (fun kc => (1 <? snd kc)%nat) (map_to_list m).
End Counting.

(** ** Parsed documents *)

(** An element as lxml presents it: the namespace of its tag (prefix as
    written and URI), its local name, [.text], its attributes by name
    (Clark notation for qualified ones), [.nsmap] and its element
    children. *)
#[warnings="-register-all"]
Inductive Tree : Type := Elem {
  e_prefix : option string;
  e_ns : option string;
  e_local : string;
  e_text : option string;
  e_attrib : list (string * string);
  e_nsmap : list (option string * string);
  e_children : list Tree
}.

(** A reference to an element of a parsed document: the root of the
    document it belongs to, the child indices leading to it, and the
    element itself. *)
Record Node : Type := mkNode {
  n_root : Tree;
  n_path : list nat;
  n_here : Tree
}.

Definition root_node (t : Tree) : Node := mkNode t [] t.

(** [list(element)], [for child in element] *)
Definition children (n : Node) : list Node :=
  imap (fun i c => mkNode (n_root n) (n_path n ++ [i]) c)
       (e_children (n_here n)).

(** [etree.QName(element).localname] *)
Definition localname (n : Node) : string := e_local (n_here n).

(** [element.text] *)
Definition text (n : Node) : option string := e_text (n_here n).

(** [element.get(name)] *)
Definition attr (n : Node) (name : string) : option string :=
  sget name (e_attrib (n_here n)).

(** The element found by following child indices from a root. *)
Fixpoint subtree (t : Tree) (p : list nat) : option Tree :=
  match p with
  | [] => Some t
  | i :: p' =>
      match e_children t !! i with
      | Some c => subtree c p'
      | None => None
      end
  end.

(** The prefix-to-URI dictionary passed to XPath evaluation. *)
Definition Namespaces : Type := list (string * string).

(** An item of an XPath result: an element, or a value without [.text]
    (a string or a number). *)
Inductive XItem : Type :=
| XNode (n : Node)
| XAtom.

(** lxml.  [parse] is [etree.parse(path, parser).getroot()]; [xpath] is
    [element.xpath(expr, namespaces=ns)], raising on an undefined prefix
    or a malformed expression (a result that is not a list is counted as
    raising: every caller moves on in both cases); [getpath] is
    [element.getroottree().getpath(element)]; [tostring] is
    [etree.tostring(root)]. *)
Class Lxml : Type := {
  parse : string -> result Tree;
  xpath : Node -> string -> Namespaces -> result (list XItem);
  getpath : Node -> string;
  tostring : Tree -> string
}.

(** The rest of the environment: [os.path.exists], [pandas.read_csv],
    [int] on text, [hashlib.sha256(...).hexdigest()], and the location
    rewriting of [_create_xpath_variations], which rebuilds an expression
    with regular expressions made from the prefixes of the document. *)
Record DataFrame : Type := mkFrame {
  columns : list string;
  rows : list (list (option string))
}.

Class Host : Type := {
  path_exists : string -> bool;
  read_csv : string -> result DataFrame;
  py_int : string -> result Z;
  sha256_hex : string -> string;
  _create_xpath_variations : string -> Namespaces -> list string
}.

(** [os.path.basename] *)
Fixpoint basename (s : string) : string :=
  match s with
  | EmptyString => EmptyString
  | String c s' =>
      if PyStr.contains s' "/" then basename s'
      else if Ascii.eqb c "/" then s' else s
  end.

(** [s.split('-')[0]] *)
Fixpoint before_dash (s : string) : string :=
  match s with
  | EmptyString => EmptyString
  | String c s' =>
      if Ascii.eqb c "-" then EmptyString else String c (before_dash s')
  end.

(** ** The transformed document

    The dictionaries the transformer returns and the loader reads.  A field
    is [None] when the key holds [None]; the loader reads every key but
    ['country'] with [dict.get(key)], which does not tell a missing key
    from [None]. *)

Module Metadata.
Record t : Type := mk {
  filing_id : option string;
  ein : option string;
  tax_period : option string;
  form_type : option string;
  form_version : option string;
  tax_year : option Z;
  submission_date : option string;
  object_id : option string
}.
Definition empty : t := mk None None None None None None None None.
End Metadata.

Module Organization.
(** [country] is read with [get('country', 'US')] on insertion, so a
    missing key (outer [None]) differs from a key holding [None]. *)
Record t : Type := mk {
  ein : option string;
  name : option string;
  address_line1 : option string;
  address_line2 : option string;
  city : option string;
  state : option string;
  zip : option string;
  country : option (option string);
  website : option string
}.
Definition empty : t := mk None None None None None None None None None.
End Organization.

Module FilingValue.
Record t : Type := mk {
  filing_id : string;
  field_id : Z;
  slots : Slots
}.
End FilingValue.

Module RepeatingGroup.
Record t : Type := mk {
  group_id : Z;
  filing_id : string;
  parent_group_id : option Z;
  name : option string;
  xpath : option string
}.
End RepeatingGroup.

Module GroupValue.
(** The keys [_process_repeating_groups] writes: a group value carries
    its group, its field and the four slots. *)
Record t : Type := mk {
  group_id : Z;
  field_id : Z;
  slots : Slots
}.
End GroupValue.

Record ProcessedData : Type := mkProcessed {
  metadata : Metadata.t;
  organization : Organization.t;
  filing_values : list FilingValue.t;
  repeating_groups : list RepeatingGroup.t;
  group_values : list GroupValue.t;
  xml_hash : option string
}.

(** ** The concordance registry and the state of [IRS990Transformer] *)

Module FieldInfo.
Record t : Type := mk {
  var_name : string;
  field_id : Z;
  xpath : string;
  data_type : string
}.
End FieldInfo.

(** [{'ONE': [...], 'MANY': [...]}] *)
Record TableFields : Type := mkTable {
  ONE : list FieldInfo.t;
  MANY : list FieldInfo.t
}.

Inductive Level : Type := WARNING | ERROR.

(** The attributes of the transformer, and the warning and error records
    it hands to its logger. *)
Record TState : Type := mkTState {
  concordance_path : string;
  field_ids : list (string * Z);
  data_types : list (string * string);
  tables : list (string * TableFields);
  field_loaded : bool;
  log : list (Level * string)
}.

Definition set_log (st : TState) (l : list (Level * string)) : TState :=
  mkTState (concordance_path st) (field_ids st) (data_types st) (tables st)
           (field_loaded st) l.

Definition logger (lv : Level) (msg : string) (st : TState) : TState :=
  set_log st (log st ++ [(lv, msg)]).

(** [row[col] if col in row and pd.notna(row[col]) else None] *)
Fixpoint column_index (col : string) (cols : list string) : option nat :=
  match cols with
  | [] => None
  | c :: cols' =>
      if String.eqb col c then Some 0%nat
      else option_map S (column_index col cols')
  end.

Definition cell (df : DataFrame) (row : list (option string)) (col : string)
  : option string :=
  match column_index col (columns df) with
  | Some i => mjoin (row !! i)
  | None => None
  end.

(** ['canonical' if 'canonical' in df.columns else 'LEGACY'] *)
Definition pick_column (df : DataFrame) (canonical legacy : string) : string :=
  if PyStr.mem canonical (columns df) then canonical else legacy.

Definition or_default (o : option string) (d : string) : string :=
  match o with
  | Some s => s
  | None => d
  end.

(** One turn of the loop over the rows of the concordance. *)
Definition concordance_row (df : DataFrame) (acc : TState * Z)
  (row : list (option string)) : TState * Z :=
  let '(st, field_id) := acc in
  let var_name := cell df row (pick_column df "variable_name" "VAR_NAME") in
  let xpath := cell df row (pick_column df "xpath" "XPATH") in
  let data_type :=
    or_default (cell df row (pick_column df "data_type_simple" "DATA_TYPE_SIMPLE"))
               "text" in
  let rdb_table :=
    or_default (cell df row (pick_column df "rdb_table" "DATABASE_TABLE"))
               "filing_values" in
  let relationship :=
    or_default (cell df row (pick_column df "rdb_relationship" "RELATIONSHIP"))
               "ONE" in
  match var_name, xpath with
  | Some var_name, Some xpath =>
      if String.eqb var_name "" || String.eqb xpath "" then acc
      else
        let tables' :=
          if negb (String.eqb rdb_table "")
             && negb (String.eqb rdb_table "filing_values")
          then
            let tf := default (mkTable [] []) (sget rdb_table (tables st)) in
            let fi := FieldInfo.mk var_name field_id xpath data_type in
            let tf' :=
              if String.eqb relationship "MANY"
              then mkTable (ONE tf) (MANY tf ++ [fi])
              else mkTable (ONE tf ++ [fi]) (MANY tf) in
            sset rdb_table tf' (tables st)
          else tables st in
        (mkTState (concordance_path st)
                  (sset var_name field_id (field_ids st))
                  (sset var_name data_type (data_types st))
                  tables' (field_loaded st) (log st),
         (field_id + 1)%Z)
  | _, _ => acc
  end.

Section Transformer.
Context {LX : Lxml} {HS : Host}.

(** [IRS990Transformer._load_concordance]: whatever is raised inside the
    [try] is logged and raised again as [ConcordanceError]. *)
Definition _load_concordance (st : TState) : result TState :=
  let attempt : result TState :=
    if negb (path_exists (concordance_path st)) then
      Raise (ConcordanceError
               ("Concordance file not found: " +:+ concordance_path st))
    else
      do df <- read_csv (concordance_path st);
      let '(st', _) := fold_left (concordance_row df) (rows df) (st, 1%Z) in
      Ok (mkTState (concordance_path st') (field_ids st') (data_types st')
                   (tables st') true (log st')) in
  match attempt with
  | Ok st' => Ok st'
  | Raise e =>
      Raise (ConcordanceError ("Failed to load concordance: " +:+ exn_str e))
  end.

(** [IRS990Transformer.__init__] *)
Definition IRS990Transformer (concordance_path : string) : result TState :=
  _load_concordance (mkTState concordance_path [] [] [] false []).

(** The test [elements and hasattr(elements[0], 'text') and
    elements[0].text], and the stripped text it guards. *)
Definition first_text (elements : list XItem) : option string :=
  match elements with
  | XNode n :: _ =>
      match text n with
      | Some t => if String.eqb t "" then None else Some (PyStr.strip t)
      | None => None
      end
  | _ => None
  end.

(** The local function [get_text] of [_extract_metadata] and of
    [_extract_organization_info]. *)
Fixpoint get_text (root : Node) (namespaces : Namespaces)
  (patterns : list string) : option string :=
  match patterns with
  | [] => None
  | pattern :: rest =>
      match xpath root pattern namespaces with
      | Ok elements =>
          match first_text elements with
          | Some t => Some t
          | None => get_text root namespaces rest
          end
      | Raise _ => get_text root namespaces rest
      end
  end.

Definition ein_patterns : list string :=
  ["//*[local-name()='EIN']";
   "//irs:ReturnHeader/irs:Filer/irs:EIN";
   "//default:ReturnHeader/default:Filer/default:EIN"].

Definition tax_period_patterns : list string :=
  ["//*[local-name()='TaxPeriodEndDt']";
   "//irs:ReturnHeader/irs:TaxPeriodEndDt";
   "//default:ReturnHeader/default:TaxPeriodEndDt"].

Definition form_type_patterns : list string :=
  ["//*[local-name()='ReturnTypeCd']";
   "//irs:ReturnHeader/irs:ReturnTypeCd";
   "//default:ReturnHeader/default:ReturnTypeCd"].

Definition submission_patterns : list string :=
  ["//*[local-name()='ReturnTs']";
   "//irs:ReturnHeader/irs:ReturnTs";
   "//default:ReturnHeader/default:ReturnTs"].

(** The search for [returnVersion]: the plain attribute, then the
    attribute qualified by each namespace in turn, then ['Unknown']. *)
Fixpoint qualified_version (root : Node) (uris : list string)
  : option string :=
  match uris with
  | [] => None
  | ns :: rest =>
      let v := attr root ("{" +:+ ns +:+ "}returnVersion") in
      if PyStr.truthy v then v else
        match rest with
        | [] => v
        | _ => qualified_version root rest
        end
  end.

Definition form_version_of (root : Node) (uris : list string) : string :=
  let v := attr root "returnVersion" in
  let v := if PyStr.truthy v then v else
             match uris with
             | [] => v
             | _ => qualified_version root uris
             end in
  match v with
  | Some s => if String.eqb s "" then "Unknown" else s
  | None => "Unknown"
  end.

(** [int(tax_period.split('-')[0])], [None] on [ValueError]. *)
Definition tax_year_of (tax_period : string) : result (option Z) :=
  match py_int (before_dash tax_period) with
  | Ok y => Ok (Some y)
  | Raise ValueError => Ok None
  | Raise e => Raise e
  end.

(** [IRS990Transformer._extract_metadata] *)
Definition _extract_metadata (root : Node) (namespaces : Namespaces)
  (file_name : string) : result Metadata.t :=
  let ein := get_text root namespaces ein_patterns in
  if negb (PyStr.truthy ein) then
    Raise (XMLProcessingError "EIN not found in XML")
  else
  let tax_period := get_text root namespaces tax_period_patterns in
  if negb (PyStr.truthy tax_period) then
    Raise (XMLProcessingError "Tax period not found in XML")
  else
  let form_type := get_text root namespaces form_type_patterns in
  if negb (PyStr.truthy form_type) then
    Raise (XMLProcessingError "Form type not found in XML")
  else
  let ein := default "" ein in
  let tax_period := default "" tax_period in
  let form_type := default "" form_type in
  let form_version := form_version_of root (List.map snd namespaces) in
  do tax_year <- tax_year_of tax_period;
  let submission_date := get_text root namespaces submission_patterns in
  let filing_id := ein +:+ "_" +:+ tax_period +:+ "_" +:+ form_type in
  Ok (Metadata.mk (Some filing_id) (Some ein) (Some tax_period)
                  (Some form_type) (Some form_version) tax_year
                  submission_date (Some file_name)).
End Transformer.

Section TransformerDocument.
Context {LX : Lxml} {HS : Host}.

(** [IRS990Transformer._extract_organization_info] *)
Definition _extract_organization_info (root : Node) (namespaces : Namespaces)
  (ein : option string) : Organization.t :=
  let get_text := get_text root namespaces in
  let org_name := get_text
    ["//*[local-name()='BusinessNameLine1Txt']";
     "//irs:ReturnHeader/irs:Filer/irs:Name/irs:BusinessNameLine1Txt";
     "//default:ReturnHeader/default:Filer/default:Name/default:BusinessNameLine1Txt";
     "//irs:ReturnHeader/irs:Filer/irs:BusinessName/irs:BusinessNameLine1Txt"] in
  let address_line1 := get_text
    ["//*[local-name()='USAddress']/*[local-name()='AddressLine1Txt']";
     "//*[local-name()='ForeignAddress']/*[local-name()='AddressLine1Txt']"] in
  let address_line2 := get_text
    ["//*[local-name()='USAddress']/*[local-name()='AddressLine2Txt']";
     "//*[local-name()='ForeignAddress']/*[local-name()='AddressLine2Txt']"] in
  let city := get_text
    ["//*[local-name()='USAddress']/*[local-name()='CityNm']";
     "//*[local-name()='ForeignAddress']/*[local-name()='CityNm']"] in
  let state := get_text
    ["//*[local-name()='USAddress']/*[local-name()='StateAbbreviationCd']"] in
  let zip_code := get_text
    ["//*[local-name()='USAddress']/*[local-name()='ZIPCd']"] in
  let country := get_text
    ["//*[local-name()='ForeignAddress']/*[local-name()='CountryCd']"] in
  let country := if negb (PyStr.truthy country) then Some "US" else country in
  let website := get_text ["//*[local-name()='WebsiteAddressTxt']"] in
  Organization.mk ein org_name address_line1 address_line2 city state
                  zip_code (Some country) website.

(** The search of [_extract_value_from_xml] for the location of a
    variable: tables in order, ['ONE'] before ['MANY'], the first entry
    of each list that bears the name; the search stops at the first
    non-empty location. *)
Definition field_lists (tbls : list (string * TableFields))
  : list (list FieldInfo.t) :=
  flat_map (fun kv => [ONE (snd kv); MANY (snd kv)]) tbls.

Fixpoint find_xpath (var_name : string) (lists : list (list FieldInfo.t))
  (xpath : option string) : option string :=
  match lists with
  | [] => xpath
  | l :: rest =>
      let xpath :=
        match List.find (fun fi => String.eqb (FieldInfo.var_name fi) var_name) l with
        | Some fi => Some (FieldInfo.xpath fi)
        | None => xpath
        end in
      if PyStr.truthy xpath then xpath else find_xpath var_name rest xpath
  end.

(** [IRS990Transformer._extract_value_from_xml] *)
Definition _extract_value_from_xml (st : TState) (root : Node)
  (var_name : string) (namespaces : Namespaces) : option string :=
  let xpath := find_xpath var_name (field_lists (tables st)) None in
  match xpath with
  | Some xpath =>
      if String.eqb xpath "" then None
      else get_text root namespaces (_create_xpath_variations xpath namespaces)
  | None => None
  end.

(** Whether a variable is a ['MANY'] field of some table. *)
Definition is_many_field (st : TState) (var_name : string) : bool :=
  existsb (fun kv =>
             existsb (fun fi => String.eqb (FieldInfo.var_name fi) var_name)
                     (MANY (snd kv)))
          (tables st).

(** Results of a loop that appends to a list and may raise. *)
Fixpoint collect {A B} (f : A -> result (list B)) (l : list A)
  : result (list B) :=
  match l with
  | [] => Ok []
  | a :: l' =>
      do x <- f a;
      do xs <- collect f l';
      Ok (x ++ xs)
  end.

(** One turn of the loop of [_extract_filing_values]. *)
Definition filing_value_of (st : TState) (root : Node) (filing_id : string)
  (namespaces : Namespaces) (entry : string * Z)
  : result (list FilingValue.t) :=
  let '(var_name, field_id) := entry in
  if is_many_field st var_name then Ok []
  else
    let data_type := default "text" (sget var_name (data_types st)) in
    match _extract_value_from_xml st root var_name namespaces with
    | Some value =>
        do slots <- _convert_value value data_type;
        Ok [FilingValue.mk filing_id field_id slots]
    | None => Ok []
    end.

(** [IRS990Transformer._extract_filing_values] *)
Definition _extract_filing_values (st : TState) (root : Node)
  (filing_id : string) (namespaces : Namespaces)
  : result (list FilingValue.t) * TState :=
  if negb (field_loaded st) then
    (Ok [], logger WARNING "Concordance not loaded, can't extract filing values" st)
  else
    (collect (filing_value_of st root filing_id namespaces) (field_ids st), st).

(** The loop of [_detect_repeating_groups] over the elements one
    pattern selects.  An item that is not an element makes the loop
    raise, which ends the pattern with the groups found so far. *)
Fixpoint detect_elements (root : Node) (elements : list XItem)
  (repeating_groups : list (string * list Node))
  : list (string * list Node) :=
  match elements with
  | [] => repeating_groups
  | XNode element :: rest =>
      let child_counts := count_keys (List.map localname (children element)) in
      let repeating_groups :=
        if any_repeated child_counts
        then sset (getpath element) (children element) repeating_groups
        else repeating_groups in
      detect_elements root rest repeating_groups
  | XAtom :: _ => repeating_groups
  end.

Definition group_patterns : list string :=
  ["//*[contains(local-name(), 'Grp')]";
   "//*[contains(local-name(), 'Group')]";
   "//*[contains(local-name(), 'Table')]";
   "//irs:*[contains(local-name(), 'Grp')]";
   "//default:*[contains(local-name(), 'Grp')]"].

(** [IRS990Transformer._detect_repeating_groups] *)
Definition _detect_repeating_groups (root : XItem) (namespaces : Namespaces)
  : list (string * list Node) :=
  match root with
  | XNode root =>
      fold_left
        (fun repeating_groups pattern =>
           match xpath root pattern namespaces with
           | Ok elements => detect_elements root elements repeating_groups
           | Raise _ => repeating_groups
           end)
        group_patterns []
  | XAtom => []
  end.
End TransformerDocument.

(** ** Table names and field templates *)

Definition table_mappings : list (string * string) :=
  [("OfficerDirectorTrustee", "compensation_officers");
   ("CompensationHighest", "compensation_highest");
   ("GrantsToDomesticOrg", "grants_domestic");
   ("GrantsToForeignOrg", "foreign_org_grants");
   ("ForeignActivities", "foreign_activities");
   ("ExpenseOther", "expenses_other");
   ("ProgSrvcAccomplishment", "program_service_accomplishment");
   ("RelatedOrgInfo", "related_org_info");
   ("UnrelatedBusiness", "unrelated_business");
   ("SupplementalInfo", "supplemental_info");
   ("DisregardedEntityGrp", "disregarded_entities");
   ("LandBuildingEquipmentGrp", "land_buildings_equipment");
   ("InvestmentIncomeGrp", "investment_income");
   ("OtherRevenueGrp", "revenue_misc");
   ("FunctionalExpenseGrp", "functional_expenses")].

(** [re.sub(r'_+', '_', s)] *)
Fixpoint collapse_underscores (s : string) : string :=
  match s with
  | EmptyString => EmptyString
  | String c s' =>
      if Ascii.eqb c "_" then
        String c (PyStr.lstrip_by (Ascii.eqb "_") (collapse_underscores s'))
      else String c (collapse_underscores s')
  end.

(** The generic name: everything but letters and digits becomes ['_'],
    lower case, runs of ['_'] collapsed, ['_'] stripped at both ends. *)
Definition clean_name_of (group_path : string) : string :=
  let clean_name :=
    PyStr.lower
      (PyStr.map (fun c => if PyStr.is_alnum_ascii c then c else "_"%char)
                 group_path) in
  let clean_name := collapse_underscores clean_name in
  PyStr.strip_by (Ascii.eqb "_") clean_name.

(** [IRS990Transformer._guess_table_name] *)
Definition _guess_table_name (group_path : string) : string :=
  match List.find (fun kv => PyStr.contains group_path (fst kv)) table_mappings with
  | Some kv => snd kv
  | None =>
      let clean_name := clean_name_of group_path in
      if PyStr.contains group_path "PartVII"
         || PyStr.contains group_path "Compensation"
         || PyStr.contains group_path "Officer"
      then "compensation_officers"
      else if PyStr.contains group_path "Expense" then "expenses_other"
      else if PyStr.contains group_path "Grant"
              || PyStr.contains group_path "Foreign"
      then "foreign_org_grants"
      else if PyStr.contains group_path "Supplemental"
              || PyStr.contains group_path "Information"
      then "supplemental_info"
      else "repeating_" +:+ PyStr.last_n 50 clean_name
  end.

(** A field template: ['name'], ['path'], ['type']. *)
Record FieldSpec : Type := mkSpec {
  spec_name : string;
  spec_path : string;
  spec_type : string
}.

Definition common_fields : list (string * list FieldSpec) :=
  [("compensation_officers",
    [mkSpec "PersonNm" "./PersonNm" "text";
     mkSpec "TitleTxt" "./TitleTxt" "text";
     mkSpec "OfficerInd" "./OfficerInd" "boolean";
     mkSpec "ReportableCompFromOrgAmt" "./ReportableCompFromOrgAmt" "numeric";
     mkSpec "ReportableCompFromRltdOrgAmt" "./ReportableCompFromRltdOrgAmt" "numeric"]);
   ("expenses_other",
    [mkSpec "Desc" "./Desc" "text";
     mkSpec "TotalAmt" "./TotalAmt" "numeric";
     mkSpec "ProgramServicesAmt" "./ProgramServicesAmt" "numeric";
     mkSpec "MgmtAndGeneralAmt" "./MgmtAndGeneralAmt" "numeric";
     mkSpec "FundraisingAmt" "./FundraisingAmt" "numeric"]);
   ("foreign_org_grants",
    [mkSpec "RegionTxt" "./RegionTxt" "text";
     mkSpec "PurposeOfGrantTxt" "./PurposeOfGrantTxt" "text";
     mkSpec "CashGrantAmt" "./CashGrantAmt" "numeric";
     mkSpec "NonCashAssistanceAmt" "./NonCashAssistanceAmt" "numeric";
     mkSpec "MannerOfCashDisbursementTxt" "./MannerOfCashDisbursementTxt" "text"]);
   ("supplemental_info",
    [mkSpec "FormAndLineReferenceDesc" "./FormAndLineReferenceDesc" "text";
     mkSpec "ExplanationTxt" "./ExplanationTxt" "text"])].

Definition default_fields : list FieldSpec :=
  [mkSpec "Value" "." "text";
   mkSpec "Amount" "./Amt" "numeric";
   mkSpec "Description" "./Desc" "text";
   mkSpec "Name" "./Nm" "text";
   mkSpec "Text" "./Txt" "text"].

(** One turn of the loop of [_get_fields_for_table] that creates the
    field entries. *)
Definition add_field_spec (table_name : string)
  (acc : TState * Z * list FieldInfo.t) (field_spec : FieldSpec)
  : TState * Z * list FieldInfo.t :=
  let '(st, next_field_id, fields) := acc in
  let var_name := table_name +:+ "_" +:+ spec_name field_spec in
  if smem var_name (field_ids st) then acc
  else
    let field_id := next_field_id in
    (mkTState (concordance_path st)
              (sset var_name field_id (field_ids st))
              (sset var_name (spec_type field_spec) (data_types st))
              (tables st) (field_loaded st) (log st),
     (next_field_id + 1)%Z,
     fields ++ [FieldInfo.mk var_name field_id (spec_path field_spec)
                             (spec_type field_spec)]).

(** [IRS990Transformer._get_fields_for_table] *)
Definition _get_fields_for_table (st : TState) (table_name : string)
  : list FieldInfo.t * TState :=
  match sget table_name (tables st) with
  | Some (mkTable _ (fi :: many)) => (fi :: many, st)
  | _ =>
      let st := logger WARNING
        ("No MANY fields found for table " +:+ table_name
         +:+ ", using generic field definitions") st in
      let field_specs := default default_fields (sget table_name common_fields) in
      let next_field_id := (Z.of_nat (List.length (field_ids st)) + 1)%Z in
      let '(st, _, fields) :=
        fold_left (add_field_spec table_name) field_specs
                  (st, next_field_id, []) in
      (fields, st)
  end.

Section TransformerGroups.
Context {LX : Lxml} {HS : Host}.

(** The first loop of [_extract_value_from_element]: the direct children
    that bear the name, the first of them with text. *)
Fixpoint direct_child_text (field_name : string) (cs : list Node)
  : option string :=
  match cs with
  | [] => None
  | child :: rest =>
      if String.eqb (localname child) field_name then
        match text child with
        | Some t =>
            if String.eqb t "" then direct_child_text field_name rest
            else Some (PyStr.strip t)
        | None => direct_child_text field_name rest
        end
      else direct_child_text field_name rest
  end.

(** The second loop: [.//prefix:name] for each prefix in turn. *)
Fixpoint prefixed_text (element : Node) (field_name : string)
  (namespaces : Namespaces) (prefixes : list string) : option string :=
  match prefixes with
  | [] => None
  | prefix :: rest =>
      let found :=
        match xpath element (".//" +:+ prefix +:+ ":" +:+ field_name) namespaces with
        | Ok elements => first_text elements
        | Raise _ => None
        end in
      match found with
      | Some t => Some t
      | None => prefixed_text element field_name namespaces rest
      end
  end.

(** [IRS990Transformer._extract_value_from_element] *)
Definition _extract_value_from_element (element : Node) (field_name : string)
  (namespaces : Namespaces) : option string :=
  match direct_child_text field_name (children element) with
  | Some t => Some t
  | None =>
  match prefixed_text element field_name namespaces (List.map fst namespaces) with
  | Some t => Some t
  | None =>
  let by_local_name :=
    match xpath element (".//*[local-name()='" +:+ field_name +:+ "']") [] with
    | Ok elements => first_text elements
    | Raise _ => None
    end in
  match by_local_name with
  | Some t => Some t
  | None =>
  match xpath element (".//*[contains(local-name(), '" +:+ field_name +:+ "')]") [] with
  | Raise _ => None
  | Ok elements =>
      match first_text elements with
      | Some t => Some t
      | None =>
          match xpath element
                  (".//*[ends-with(local-name(), '" +:+ field_name +:+ "')]") [] with
          | Ok elements => first_text elements
          | Raise _ => None
          end
      end
  end end end end.

(** The value rows of one field of one row of a group. *)
Definition group_value_of (group_id : Z) (namespaces : Namespaces)
  (group_element : Node) (field_info : FieldInfo.t)
  : result (list GroupValue.t) :=
  match _extract_value_from_element group_element
          (FieldInfo.var_name field_info) namespaces with
  | Some element_value =>
      do slots <- _convert_value element_value (FieldInfo.data_type field_info);
      Ok [GroupValue.mk group_id (FieldInfo.field_id field_info) slots]
  | None => Ok []
  end.

(** The loop of [_process_repeating_groups] over the detected groups,
    with its counter [group_id]. *)
Fixpoint process_groups (st : TState) (filing_id : string)
  (namespaces : Namespaces) (group_id : Z)
  (detected_groups : list (string * list Node))
  : result (list RepeatingGroup.t * list GroupValue.t) * TState :=
  match detected_groups with
  | [] => (Ok ([], []), st)
  | (group_xpath, group_elements) :: rest =>
      let table_name := _guess_table_name group_xpath in
      if String.eqb table_name "" then
        process_groups st filing_id namespaces group_id rest
      else
        let '(table_fields, st) := _get_fields_for_table st table_name in
        let group := RepeatingGroup.mk group_id filing_id None
                                       (Some table_name) (Some group_xpath) in
        match collect (fun group_element =>
                         collect (group_value_of group_id namespaces group_element)
                                 table_fields)
                      group_elements with
        | Raise e => (Raise e, st)
        | Ok values =>
            match process_groups st filing_id namespaces (group_id + 1) rest with
            | (Ok (groups, more), st) => (Ok (group :: groups, values ++ more), st)
            | (Raise e, st) => (Raise e, st)
            end
        end
  end.

Definition return_data_patterns : list string :=
  ["//*[local-name()='ReturnData']"; "//irs:ReturnData"; "//default:ReturnData"].

(** The search for the [ReturnData] element: the first item of the first
    pattern that selects anything. *)
Fixpoint find_return_data (root : Node) (namespaces : Namespaces)
  (patterns : list string) : option XItem :=
  match patterns with
  | [] => None
  | pattern :: rest =>
      match xpath root pattern namespaces with
      | Ok (first :: _) => Some first
      | _ => find_return_data root namespaces rest
      end
  end.

(** [IRS990Transformer._process_repeating_groups] *)
Definition _process_repeating_groups (st : TState) (root : Node)
  (filing_id : string) (namespaces : Namespaces)
  : result (list RepeatingGroup.t * list GroupValue.t) * TState :=
  let repeating_root :=
    default (XNode root) (find_return_data root namespaces return_data_patterns) in
  let detected_groups := _detect_repeating_groups repeating_root namespaces in
  process_groups st filing_id namespaces 1 detected_groups.

(** The namespace dictionary [_process_xml_file] builds from
    [root.nsmap]: the declared prefixes, the default namespace under
    ['default'], and ['irs'] as a second name for ['default']. *)
Definition namespaces_of (root : Tree) : Namespaces :=
  let namespaces :=
    fold_left (fun d pu => match fst pu with
                           | Some prefix => sset prefix (snd pu) d
                           | None => d
                           end) (e_nsmap root) [] in
  let namespaces :=
    match List.find (fun pu => if fst pu is None then true else false)
                    (e_nsmap root) with
    | Some pu => sset "default" (snd pu) namespaces
    | None => namespaces
    end in
  match sget "default" namespaces with
  | Some uri => sset "irs" uri namespaces
  | None => namespaces
  end.

(** The body of the [try] of [_process_xml_file]. *)
Definition process_xml_body (st : TState) (xml_file : string)
  : result ProcessedData * TState :=
  match parse xml_file with
  | Raise e => (Raise e, st)
  | Ok tree =>
      let root := root_node tree in
      let namespaces := namespaces_of tree in
      let file_name := basename xml_file in
      match _extract_metadata root namespaces file_name with
      | Raise e => (Raise e, st)
      | Ok metadata =>
          let organization :=
            _extract_organization_info root namespaces (Metadata.ein metadata) in
          let filing_id := default "" (Metadata.filing_id metadata) in
          match _extract_filing_values st root filing_id namespaces with
          | (Raise e, st) => (Raise e, st)
          | (Ok filing_values, st) =>
              match _process_repeating_groups st root filing_id namespaces with
              | (Raise e, st) => (Raise e, st)
              | (Ok (repeating_groups, group_values), st) =>
                  (Ok (mkProcessed metadata organization filing_values
                         repeating_groups group_values
                         (Some (sha256_hex (tostring tree)))), st)
              end
          end
      end
  end.

(** [IRS990Transformer._process_xml_file]: any exception is logged and
    the result is [None]. *)
Definition _process_xml_file (st : TState) (xml_file : string)
  : option ProcessedData * TState :=
  match process_xml_body st xml_file with
  | (Ok data, st) => (Some data, st)
  | (Raise e, st) =>
      (None, logger ERROR ("Error processing XML file " +:+ xml_file
                           +:+ ": " +:+ exn_str e) st)
  end.

(** [IRS990Transformer.transform] *)
Fixpoint transform (st : TState) (xml_files : list string)
  : list ProcessedData * TState :=
  match xml_files with
  | [] => ([], st)
  | xml_file :: rest =>
      match _process_xml_file st xml_file with
      | (Some processed_data, st) =>
          let '(results, st) := transform st rest in
          (processed_data :: results, st)
      | (None, st) =>
          transform (logger WARNING ("Failed to transform " +:+ xml_file) st) rest
      end
  end.
End TransformerGroups.

(** ** [XMLParser] of [src/xml/parser.py] *)

Module XMLParser.

(** The metadata dictionary of the parser; [tax_year] stays text here and
    [filing_id] is set only when its three parts were found. *)
Record metadata_t : Type := mkMetadata {
  ein : option string;
  tax_period : option string;
  tax_year : option string;
  form_type : option string;
  form_version : option string;
  submission_date : option string;
  filing_id : option string
}.

Record org_info_t : Type := mkOrgInfo {
  name : option string;
  address_line1 : option string;
  address_line2 : option string;
  city : option string;
  state : option string;
  zip_code : option string;
  country : option string;
  website : option string
}.

Section Parser.
Context {LX : Lxml}.

(** [NAMESPACES] of [src/core/constants.py] *)
Definition NAMESPACES : Namespaces :=
  [("irs", "http://www.irs.gov/efile");
   ("xsi", "http://www.w3.org/2001/XMLSchema-instance")].

(** [XMLParser.__init__]: [namespaces or NAMESPACES] *)
Definition init (namespaces : option Namespaces) : Namespaces :=
  match namespaces with
  | Some (b :: ns) => b :: ns
  | _ => NAMESPACES
  end.

(** The namespaces taken from the document when the parser has none. *)
Definition document_namespaces (root : Node) : Namespaces :=
  let nsmap := e_nsmap (n_here root) in
  let namespaces :=
    fold_left (fun d pu => match fst pu with
                           | Some prefix => sset prefix (snd pu) d
                           | None => d
                           end) nsmap [] in
  match List.find (fun pu => if fst pu is None then true else false) nsmap with
  | Some pu => sset "irs" (snd pu) (sset "default" (snd pu) namespaces)
  | None => namespaces
  end.

Fixpoint qualified_version (root : Node) (uris : list string)
  : option string :=
  match uris with
  | [] => None
  | ns :: rest =>
      let form_version := attr root ("{" +:+ ns +:+ "}returnVersion") in
      if PyStr.truthy form_version then form_version
      else qualified_version root rest
  end.

(** [XMLParser._extract_metadata]; the second component is
    [self.namespaces] afterwards. *)
Definition _extract_metadata (self_namespaces : Namespaces) (root : Node)
  : metadata_t * Namespaces :=
  let namespaces :=
    match self_namespaces with
    | [] => document_namespaces root
    | _ => self_namespaces
    end in
  let get_text := get_text root namespaces in
  let ein := get_text
    ["//*[local-name()='EIN']";
     "//irs:ReturnHeader/irs:Filer/irs:EIN";
     "//default:ReturnHeader/default:Filer/default:EIN";
     "//ein"; "//EIN"] in
  let tax_period := get_text
    ["//*[local-name()='TaxPeriodEndDt']";
     "//irs:ReturnHeader/irs:TaxPeriodEndDt";
     "//default:ReturnHeader/default:TaxPeriodEndDt";
     "//taxPeriodEndDate"; "//TaxPeriodEndDt"] in
  let tax_year :=
    match tax_period with
    | Some tp => if String.eqb tp "" then None else Some (before_dash tp)
    | None => None
    end in
  let form_type := get_text
    ["//*[local-name()='ReturnTypeCd']";
     "//irs:ReturnHeader/irs:ReturnTypeCd";
     "//default:ReturnHeader/default:ReturnTypeCd";
     "//returnType"; "//ReturnTypeCd"] in
  let form_version := attr root "returnVersion" in
  let form_version :=
    if PyStr.truthy form_version then form_version
    else
      match qualified_version root (List.map snd (e_nsmap (n_here root))) with
      | Some v => Some v
      | None => form_version
      end in
  let form_version :=
    if PyStr.truthy form_version then form_version else Some "Unknown" in
  let submission_date := get_text
    ["//*[local-name()='ReturnTs']";
     "//irs:ReturnHeader/irs:ReturnTs";
     "//default:ReturnHeader/default:ReturnTs";
     "//submissionDate"; "//ReturnTs"] in
  let filing_id :=
    if PyStr.truthy ein && PyStr.truthy tax_period && PyStr.truthy form_type
    then Some (default "" ein +:+ "_" +:+ default "" tax_period
               +:+ "_" +:+ default "" form_type)
    else None in
  (mkMetadata ein tax_period tax_year form_type form_version
              submission_date filing_id, namespaces).

(** [XMLParser._extract_organization_info] *)
Definition _extract_organization_info (self_namespaces : Namespaces)
  (root : Node) : org_info_t :=
  let get_text := get_text root self_namespaces in
  let name := get_text
    ["//*[local-name()='BusinessNameLine1Txt']";
     "//irs:ReturnHeader/irs:Filer/irs:Name/irs:BusinessNameLine1Txt";
     "//default:ReturnHeader/default:Filer/default:Name/default:BusinessNameLine1Txt";
     "//irs:ReturnHeader/irs:Filer/irs:BusinessName/irs:BusinessNameLine1Txt"] in
  let address_line1 := get_text
    ["//*[local-name()='USAddress']/*[local-name()='AddressLine1Txt']";
     "//*[local-name()='ForeignAddress']/*[local-name()='AddressLine1Txt']"] in
  let address_line2 := get_text
    ["//*[local-name()='USAddress']/*[local-name()='AddressLine2Txt']";
     "//*[local-name()='ForeignAddress']/*[local-name()='AddressLine2Txt']"] in
  let city := get_text
    ["//*[local-name()='USAddress']/*[local-name()='CityNm']";
     "//*[local-name()='ForeignAddress']/*[local-name()='CityNm']"] in
  let state := get_text
    ["//*[local-name()='USAddress']/*[local-name()='StateAbbreviationCd']"] in
  let zip_code := get_text
    ["//*[local-name()='USAddress']/*[local-name()='ZIPCd']"] in
  let country := get_text
    ["//*[local-name()='ForeignAddress']/*[local-name()='CountryCd']"] in
  let country := if PyStr.truthy country then country else Some "US" in
  let website := get_text ["//*[local-name()='WebsiteAddressTxt']"] in
  mkOrgInfo name address_line1 address_line2 city state zip_code country
            website.
End Parser.
End XMLParser.

(** ** Group validation: [RepeatingGroupDetector._validate_groups] *)

(** [sorted] on a list of strings (code point order); any sort gives the
    same list, insertion sort is the one written here. *)
Fixpoint sorted_insert (x : string) (l : list string) : list string :=
  match l with
  | [] => [x]
  | y :: l' => if String.leb x y then x :: l else y :: sorted_insert x l'
  end.

Fixpoint sorted (l : list string) : list string :=
  match l with
  | [] => []
  | x :: l' => sorted_insert x (sorted l')
  end.

(** The local names of the children of an element. *)
Definition child_names (n : Node) : list string :=
  List.map localname (children n).

(** [structure_key]: the sorted tuple of the grandchild names of a row. *)
Definition structure_key (child : Node) : list string :=
  sorted (child_names child).

(** Whether a candidate passes: it has children, and some structure key
    is counted more than once among them. *)
Definition validates (element : Node) : bool :=
  match children element with
  | [] => false
  | cs => any_repeated (count_keys (List.map structure_key cs))
  end.

Definition _validate_groups (potential_groups : list (Node * string))
  : list (Node * string) :=
  List.filter (fun en => validates (fst en)) potential_groups.

(** ** Hierarchy: [build_group_hierarchy] of [nested_detector.py] *)

Section Hierarchy.
Context {LX : Lxml}.

(** The inner loop: the closest enclosing group of [child_path] among
    the paths of the groups, with the length of the candidate so far. *)
Definition parent_step (child_path : string) (acc : option string * nat)
  (entry : string * Node) : option string * nat :=
  let '(parent_path, parent_path_len) := acc in
  let path := fst entry in
  if String.eqb path child_path
     || (String.length path <=? parent_path_len)%nat
  then acc
  else if PyStr.startswith child_path (path +:+ "/")
  then (Some path, String.length path)
  else acc.

Definition find_parent (group_paths : list (string * Node))
  (child_path : string) : option string :=
  fst (fold_left (parent_step child_path) group_paths (None, 0%nat)).

Definition build_group_hierarchy (groups : list (Node * string))
  : list (string * string) :=
  let group_paths :=
    fold_left (fun d en => sset (getpath (fst en)) (fst en) d) groups [] in
  fold_left
    (fun group_hierarchy entry =>
       let child_path := fst entry in
       let parent_path := find_parent group_paths child_path in
       match parent_path with
       | Some p =>
           if String.eqb p "" then group_hierarchy
           else sset child_path p group_hierarchy
       | None => group_hierarchy
       end)
    group_paths [].
End Hierarchy.

(** ** The relational store

    Each table is the list of its rows, in insertion order.  The columns
    filled from the clock ([last_updated_timestamp], [processed_timestamp],
    [storage_date]) are left out.  Of the constraints of the schema only
    the uniqueness that the [ON CONFLICT] clauses name is modelled. *)

Module OrgRow.
Record t : Type := mk {
  ein : string;
  name : option string;
  address_line1 : option string;
  address_line2 : option string;
  city : option string;
  state : option string;
  zip : option string;
  country : option string;
  website : option string
}.
End OrgRow.

Module FilingRow.
Record t : Type := mk {
  filing_id : string;
  object_id : option string;
  ein : string;
  tax_period : option string;
  form_type : option string;
  form_version : option string;
  tax_year : option Z;
  submission_date : option string
}.
End FilingRow.

Module FilingValueRow.
Record t : Type := mk {
  filing_id : string;
  field_id : Z;
  slots : Slots
}.
Definition key (r : t) : string * Z := (filing_id r, field_id r).
End FilingValueRow.

Module GroupRow.
Record t : Type := mk {
  group_id : Z;
  filing_id : string;
  parent_group_id : option Z;
  name : option string;
  xpath : option string
}.
End GroupRow.

Module GroupValueRow.
Record t : Type := mk {
  group_id : Z;
  field_id : Z;
  slots : Slots
}.
Definition key (r : t) : Z * Z := (group_id r, field_id r).
End GroupValueRow.

Module XmlMetadataRow.
Record t : Type := mk {
  filing_id : string;
  xml_hash : string
}.
End XmlMetadataRow.

Record Tables : Type := mkTables {
  organizations : list OrgRow.t;
  filings : list FilingRow.t;
  filing_values_tbl : list FilingValueRow.t;
  repeating_groups_tbl : list GroupRow.t;
  repeating_group_values : list GroupValueRow.t;
  xml_metadata : list XmlMetadataRow.t
}.

(** The database: the tables, and the sequence behind
    [repeating_groups.group_id] (the last value it gave out), which a
    rollback does not rewind. *)
Record Db : Type := mkDb {
  db_tables : Tables;
  group_id_seq : Z
}.

Definition empty_db : Db := mkDb (mkTables [] [] [] [] [] []) 0.

(** What a sequence of statements inside a transaction comes to. *)
Inductive outcome : Type :=
| Done (db : Db)
| Failed (e : exn) (db : Db).

Definition andthen (o : outcome) (k : Db -> outcome) : outcome :=
  match o with
  | Done db => k db
  | Failed e db => Failed e db
  end.

(** [COALESCE(a, b)] *)
Definition COALESCE {A} (a b : option A) : option A :=
  match a with
  | Some x => Some x
  | None => b
  end.

(** ** SQL of the loader *)

Module Sql.

Definition with_tables (db : Db) (t : Tables) : Db := mkDb t (group_id_seq db).

(** [SELECT ein FROM organizations WHERE ein = %s], [fetchone()] *)
Definition organization_exists (db : Db) (ein : string) : bool :=
  existsb (fun r => String.eqb (OrgRow.ein r) ein) (organizations (db_tables db)).

(** [UPDATE organizations SET c = COALESCE(%s, c), ... WHERE ein = %s] *)
Definition merge_organization (o : Organization.t) (r : OrgRow.t) : OrgRow.t :=
  OrgRow.mk (OrgRow.ein r)
    (COALESCE (Organization.name o) (OrgRow.name r))
    (COALESCE (Organization.address_line1 o) (OrgRow.address_line1 r))
    (COALESCE (Organization.address_line2 o) (OrgRow.address_line2 r))
    (COALESCE (Organization.city o) (OrgRow.city r))
    (COALESCE (Organization.state o) (OrgRow.state r))
    (COALESCE (Organization.zip o) (OrgRow.zip r))
    (COALESCE (mjoin (Organization.country o)) (OrgRow.country r))
    (COALESCE (Organization.website o) (OrgRow.website r)).

Definition update_organization (db : Db) (ein : string) (o : Organization.t)
  : Db :=
  let t := db_tables db in
  with_tables db
    (mkTables
       (List.map (fun r => if String.eqb (OrgRow.ein r) ein
                           then merge_organization o r else r)
                 (organizations t))
       (filings t) (filing_values_tbl t) (repeating_groups_tbl t)
       (repeating_group_values t) (xml_metadata t)).

(** [INSERT INTO organizations (...) VALUES (...)] *)
Definition insert_organization (db : Db) (ein : string) (o : Organization.t)
  : Db :=
  let t := db_tables db in
  let country :=
    match Organization.country o with
    | Some c => c
    | None => Some "US"
    end in
  with_tables db
    (mkTables
       (organizations t ++
          [OrgRow.mk ein (Organization.name o) (Organization.address_line1 o)
             (Organization.address_line2 o) (Organization.city o)
             (Organization.state o) (Organization.zip o) country
             (Organization.website o)])
       (filings t) (filing_values_tbl t) (repeating_groups_tbl t)
       (repeating_group_values t) (xml_metadata t)).

(** [SELECT filing_id FROM filings WHERE filing_id = %s] *)
Definition filing_exists (db : Db) (filing_id : string) : bool :=
  existsb (fun r => String.eqb (FilingRow.filing_id r) filing_id)
          (filings (db_tables db)).

(** [UPDATE filings SET object_id = %s, form_version = %s, tax_year = %s
    WHERE filing_id = %s] *)
Definition overwrite_filing (m : Metadata.t) (r : FilingRow.t) : FilingRow.t :=
  FilingRow.mk (FilingRow.filing_id r) (Metadata.object_id m)
    (FilingRow.ein r) (FilingRow.tax_period r) (FilingRow.form_type r)
    (Metadata.form_version m) (Metadata.tax_year m)
    (FilingRow.submission_date r).

Definition update_filing (db : Db) (filing_id : string) (m : Metadata.t) : Db :=
  let t := db_tables db in
  with_tables db
    (mkTables (organizations t)
       (List.map (fun r => if String.eqb (FilingRow.filing_id r) filing_id
                           then overwrite_filing m r else r)
                 (filings t))
       (filing_values_tbl t) (repeating_groups_tbl t)
       (repeating_group_values t) (xml_metadata t)).

(** [INSERT INTO filings (...) VALUES (...)] *)
Definition insert_filing (db : Db) (filing_id ein : string) (m : Metadata.t)
  : Db :=
  let t := db_tables db in
  with_tables db
    (mkTables (organizations t)
       (filings t ++
          [FilingRow.mk filing_id (Metadata.object_id m) ein
             (Metadata.tax_period m) (Metadata.form_type m)
             (Metadata.form_version m) (Metadata.tax_year m)
             (Metadata.submission_date m)])
       (filing_values_tbl t) (repeating_groups_tbl t)
       (repeating_group_values t) (xml_metadata t)).

(** One proposed row of an [INSERT ... ON CONFLICT (key) DO UPDATE SET
    ... = EXCLUDED. ...]: the rows that bear the key take the new
    columns; when there is none the row is inserted. *)
Section Upsert.
Context {R K : Type} (key : R -> K) (eqb : K -> K -> bool).

Definition upsert_row (tbl : list R) (r : R) : list R :=
  if existsb (fun r' => eqb (key r') (key r)) tbl
  then List.map (fun r' => if eqb (key r') (key r) then r else r') tbl
  else tbl ++ [r].

(** Whether two of the proposed rows bear the same key. *)
Fixpoint key_twice (rs : list R) : bool :=
  match rs with
  | [] => false
  | r :: rs' => existsb (fun r' => eqb (key r') (key r)) rs' || key_twice rs'
  end.

(** One statement.  PostgreSQL rejects a command that would touch a
    row a second time, that is one proposing a key twice. *)
Definition upsert_statement (tbl : list R) (rs : list R) : result (list R) :=
  if key_twice rs then
    Raise (DatabaseError
             "ON CONFLICT DO UPDATE command cannot affect row a second time")
  else Ok (fold_left upsert_row rs tbl).
End Upsert.

Definition fv_key_eqb (a b : string * Z) : bool :=
  String.eqb (fst a) (fst b) && (snd a =? snd b)%Z.

Definition gv_key_eqb (a b : Z * Z) : bool :=
  (fst a =? fst b)%Z && (snd a =? snd b)%Z.

(** [l[i:i+n]] for [i] in [range(0, len(l), n)], [n > 0] *)
Fixpoint chunks_from {A} (n : nat) (cur : list A) (l : list A)
  : list (list A) :=
  match l with
  | [] => match cur with
          | [] => []
          | _ => [cur]
          end
  | x :: l' =>
      let cur := cur ++ [x] in
      if (List.length cur =? n)%nat then cur :: chunks_from n [] l'
      else chunks_from n cur l'
  end.

Definition chunks {A} (n : nat) (l : list A) : list (list A) :=
  chunks_from n [] l.

(** The batches of a loop [for i in range(0, len(l), batch_size)]:
    [range] raises [ValueError] on a zero step and is empty on a
    negative one. *)
Definition batches {A} (batch_size : Z) (l : list A) : result (list (list A)) :=
  if (batch_size =? 0)%Z then Raise ValueError
  else if (batch_size <? 0)%Z then Ok []
  else Ok (chunks (Z.to_nat batch_size) l).

(** The page size of [psycopg2.extras.execute_values]: one statement
    per page of the argument list. *)
Definition page_size : nat := 100.

(** [execute_values] with the upsert into [filing_values]. *)
Fixpoint execute_pages {R K} (key : R -> K) (eqb : K -> K -> bool)
  (tbl : list R) (pages : list (list R)) : list R * option exn :=
  match pages with
  | [] => (tbl, None)
  | page :: rest =>
      match upsert_statement key eqb tbl page with
      | Ok tbl => execute_pages key eqb tbl rest
      | Raise e => (tbl, Some e)
      end
  end.

Definition execute_values {R K} (key : R -> K) (eqb : K -> K -> bool)
  (tbl : list R) (argslist : list R) : list R * option exn :=
  execute_pages key eqb tbl (chunks page_size argslist).

End Sql.

(** ** [PostgreSQLLoader] of [src/etl/loader.py] *)

(** The dictionaries [load] returns. *)
Inductive LoadResult : Type :=
| Success (filing_id : string)
          (filing_values_count repeating_groups_count group_values_count : nat)
| Error (error : string) (filing_id : string).

Section Loader.
(** [self.batch_size] *)
Variable batch_size : Z.

(** [PostgreSQLLoader._load_organization] *)
Definition _load_organization (db : Db) (organization : Organization.t)
  : outcome :=
  let ein := Organization.ein organization in
  if negb (PyStr.truthy ein) then
    Failed (DatabaseError "Missing EIN in organization data") db
  else
    let ein := default "" ein in
    if Sql.organization_exists db ein
    then Done (Sql.update_organization db ein organization)
    else Done (Sql.insert_organization db ein organization).

(** [PostgreSQLLoader._load_filing_record] *)
Definition _load_filing_record (db : Db) (metadata : Metadata.t) : outcome :=
  let filing_id := Metadata.filing_id metadata in
  let ein := Metadata.ein metadata in
  if negb (PyStr.truthy filing_id) || negb (PyStr.truthy ein) then
    Failed (DatabaseError "Missing filing_id or EIN in metadata") db
  else
    let filing_id := default "" filing_id in
    let ein := default "" ein in
    if Sql.filing_exists db filing_id
    then Done (Sql.update_filing db filing_id metadata)
    else Done (Sql.insert_filing db filing_id ein metadata).

Definition with_filing_values (db : Db) (tbl : list FilingValueRow.t) : Db :=
  let t := db_tables db in
  Sql.with_tables db
    (mkTables (organizations t) (filings t) tbl (repeating_groups_tbl t)
              (repeating_group_values t) (xml_metadata t)).

Definition with_group_values (db : Db) (tbl : list GroupValueRow.t) : Db :=
  let t := db_tables db in
  Sql.with_tables db
    (mkTables (organizations t) (filings t) (filing_values_tbl t)
              (repeating_groups_tbl t) tbl (xml_metadata t)).

(** The tuple built for one filing value. *)
Definition filing_value_row (value : FilingValue.t) : FilingValueRow.t :=
  FilingValueRow.mk (FilingValue.filing_id value) (FilingValue.field_id value)
                    (FilingValue.slots value).

(** The loop of [_load_filing_values] over the batches. *)
Fixpoint load_value_batches (db : Db) (bs : list (list FilingValue.t))
  : outcome :=
  match bs with
  | [] => Done db
  | batch :: rest =>
      let batch_values := List.map filing_value_row batch in
      match Sql.execute_values FilingValueRow.key Sql.fv_key_eqb
              (filing_values_tbl (db_tables db)) batch_values with
      | (tbl, None) => load_value_batches (with_filing_values db tbl) rest
      | (tbl, Some e) => Failed e (with_filing_values db tbl)
      end
  end.

(** [PostgreSQLLoader._load_filing_values] *)
Definition _load_filing_values (db : Db) (filing_values : list FilingValue.t)
  : outcome :=
  match filing_values with
  | [] => Done db
  | _ =>
      match Sql.batches batch_size filing_values with
      | Ok bs => load_value_batches db bs
      | Raise e => Failed e db
      end
  end.

(** The loop over the groups: each is inserted, the sequence gives its
    [group_id], and [group_id_map] records it under the client-side id. *)
Definition insert_group (acc : Db * gmap Z Z) (group : RepeatingGroup.t)
  : Db * gmap Z Z :=
  let '(db, group_id_map) := acc in
  let client_group_id := RepeatingGroup.group_id group in
  let db_group_id := (group_id_seq db + 1)%Z in
  let t := db_tables db in
  (mkDb (mkTables (organizations t) (filings t) (filing_values_tbl t)
           (repeating_groups_tbl t ++
              [GroupRow.mk db_group_id (RepeatingGroup.filing_id group)
                 (RepeatingGroup.parent_group_id group)
                 (RepeatingGroup.name group) (RepeatingGroup.xpath group)])
           (repeating_group_values t) (xml_metadata t))
        db_group_id,
   <[client_group_id := db_group_id]> group_id_map).

(** The tuples of one batch: the values whose group is in the map, under
    the [group_id] the database gave. *)
Definition group_value_rows (group_id_map : gmap Z Z)
  (batch : list GroupValue.t) : list GroupValueRow.t :=
  flat_map (fun value =>
              match group_id_map !! GroupValue.group_id value with
              | Some db_group_id =>
                  [GroupValueRow.mk db_group_id (GroupValue.field_id value)
                                    (GroupValue.slots value)]
              | None => []
              end) batch.

Fixpoint load_group_batches (db : Db) (group_id_map : gmap Z Z)
  (bs : list (list GroupValue.t)) : outcome :=
  match bs with
  | [] => Done db
  | batch :: rest =>
      match group_value_rows group_id_map batch with
      | [] => load_group_batches db group_id_map rest
      | batch_values =>
          match Sql.execute_values GroupValueRow.key Sql.gv_key_eqb
                  (repeating_group_values (db_tables db)) batch_values with
          | (tbl, None) =>
              load_group_batches (with_group_values db tbl) group_id_map rest
          | (tbl, Some e) => Failed e (with_group_values db tbl)
          end
      end
  end.

(** [PostgreSQLLoader._load_repeating_groups] *)
Definition _load_repeating_groups (db : Db)
  (repeating_groups : list RepeatingGroup.t)
  (group_values : list GroupValue.t) : outcome :=
  match repeating_groups with
  | [] => Done db
  | _ =>
      let '(db, group_id_map) :=
        fold_left insert_group repeating_groups (db, ∅) in
      match group_values with
      | [] => Done db
      | _ =>
          match Sql.batches batch_size group_values with
          | Ok bs => load_group_batches db group_id_map bs
          | Raise e => Failed e db
          end
      end
  end.

(** [PostgreSQLLoader._store_xml_metadata] *)
Definition _store_xml_metadata (db : Db) (filing_id xml_hash : string) : Db :=
  let t := db_tables db in
  let same r := String.eqb (XmlMetadataRow.filing_id r) filing_id in
  let tbl :=
    if existsb same (xml_metadata t)
    then List.map (fun r => if same r
                            then XmlMetadataRow.mk (XmlMetadataRow.filing_id r) xml_hash
                            else r) (xml_metadata t)
    else xml_metadata t ++ [XmlMetadataRow.mk filing_id xml_hash] in
  Sql.with_tables db
    (mkTables (organizations t) (filings t) (filing_values_tbl t)
              (repeating_groups_tbl t) (repeating_group_values t) tbl).

(** The statements of one document, in the order of [_load_filing]. *)
Definition load_statements (db : Db) (filing_id : string)
  (processed_data : ProcessedData) : outcome :=
  andthen (_load_organization db (organization processed_data)) (fun db =>
  andthen (_load_filing_record db (metadata processed_data)) (fun db =>
  andthen (_load_filing_values db (filing_values processed_data)) (fun db =>
  andthen (_load_repeating_groups db (repeating_groups processed_data)
                                  (group_values processed_data)) (fun db =>
  match xml_hash processed_data with
  | Some h => Done (_store_xml_metadata db filing_id h)
  | None => Done db
  end)))).

(** [PostgreSQLLoader._load_filing]: one transaction per document.  On
    an exception the tables go back to what they were; the sequence
    keeps the values it gave out. *)
Definition _load_filing (db : Db) (processed_data : ProcessedData)
  : result LoadResult * Db :=
  let filing_id := Metadata.filing_id (metadata processed_data) in
  if negb (PyStr.truthy filing_id) then
    (Raise (DatabaseError "Missing filing_id in metadata"), db)
  else
    let filing_id := default "" filing_id in
    match load_statements db filing_id processed_data with
    | Done db' =>
        (Ok (Success filing_id
               (List.length (filing_values processed_data))
               (List.length (repeating_groups processed_data))
               (List.length (group_values processed_data))), db')
    | Failed e db' =>
        (Raise (DatabaseError ("Error loading filing " +:+ filing_id
                               +:+ ": " +:+ exn_str e)),
         mkDb (db_tables db) (group_id_seq db'))
    end.

(** [PostgreSQLLoader.load] *)
Fixpoint load (db : Db) (processed_data_list : list ProcessedData)
  : list LoadResult * Db :=
  match processed_data_list with
  | [] => ([], db)
  | processed_data :: rest =>
      let '(r, db) := _load_filing db processed_data in
      let result :=
        match r with
        | Ok result => result
        | Raise e =>
            Error (exn_str e)
                  (default "unknown" (Metadata.filing_id (metadata processed_data)))
        end in
      let '(results, db) := load db rest in
      (result :: results, db)
  end.
End Loader.

(** ** A reference environment for documents without namespaces

    Used to run the code on concrete documents.  The engine evaluates the
    expression shapes below the way XPath 1.0 does and raises on every
    other expression.  On a document that declares no namespace the
    transformer passes an empty prefix dictionary, so that lxml raises as
    well on every prefixed pattern of the code (undefined prefix) and on
    [ends-with] (not a function of XPath 1.0):

    - [//STEP], [//STEP/STEP] and [.//STEP], where [STEP] is
      [*[local-name()='N']] or [*[contains(local-name(), 'N')]]. *)

Module Reference.

Inductive Pred : Type :=
| NameIs (name : string)
| NameContains (part : string).

Definition satisfies (p : Pred) (t : Tree) : bool :=
  match p with
  | NameIs name => String.eqb (e_local t) name
  | NameContains part => PyStr.contains (e_local t) part
  end.

(** [s] without the prefix [p], when it starts with it. *)
Fixpoint strip_prefix (p s : string) : option string :=
  match p, s with
  | EmptyString, _ => Some s
  | String a p', String b s' =>
      if Ascii.eqb a b then strip_prefix p' s' else None
  | String _ _, EmptyString => None
  end.

(** The text up to the first quote, and what follows the quote. *)
Fixpoint until_quote (s : string) : option (string * string) :=
  match s with
  | EmptyString => None
  | String c s' =>
      if Ascii.eqb c "'" then Some (EmptyString, s')
      else match until_quote s' with
           | Some (a, b) => Some (String c a, b)
           | None => None
           end
  end.

Definition parse_step (s : string) : option (Pred * string) :=
  match strip_prefix "*[local-name()='" s with
  | Some r =>
      match until_quote r with
      | Some (name, r) =>
          match strip_prefix "]" r with
          | Some r => Some (NameIs name, r)
          | None => None
          end
      | None => None
      end
  | None =>
      match strip_prefix "*[contains(local-name(), '" s with
      | Some r =>
          match until_quote r with
          | Some (part, r) =>
              match strip_prefix ")]" r with
              | Some r => Some (NameContains part, r)
              | None => None
              end
          | None => None
          end
      | None => None
      end
  end.

(** Every element below [t], in document order. *)
Fixpoint descendants (root : Tree) (path : list nat) (t : Tree) {struct t}
  : list Node :=
  (fix go (i : nat) (cs : list Tree) {struct cs} : list Node :=
     match cs with
     | [] => []
     | c :: cs' =>
         (mkNode root (path ++ [i]) c :: descendants root (path ++ [i]) c)
         ++ go (S i) cs'
     end) 0%nat (e_children t).

Definition parent_tree (n : Node) : option Tree :=
  match n_path n with
  | [] => None
  | p => subtree (n_root n) (removelast p)
  end.

Definition items (ns : list Node) : list XItem := List.map XNode ns.

Definition ref_xpath (ctx : Node) (expr : string) (namespaces : Namespaces)
  : result (list XItem) :=
  match strip_prefix ".//" expr with
  | Some r =>
      match parse_step r with
      | Some (p, EmptyString) =>
          Ok (items (List.filter (fun n => satisfies p (n_here n))
                       (descendants (n_root ctx) (n_path ctx) (n_here ctx))))
      | _ => Raise XPathEvalError
      end
  | None =>
      match strip_prefix "//" expr with
      | Some r =>
          let everything :=
            root_node (n_root ctx) :: descendants (n_root ctx) [] (n_root ctx) in
          match parse_step r with
          | Some (p, EmptyString) =>
              Ok (items (List.filter (fun n => satisfies p (n_here n)) everything))
          | Some (p, String c r) =>
              match (if Ascii.eqb c "/" then parse_step r else None) with
              | Some (q, EmptyString) =>
                  Ok (items (List.filter
                               (fun n => satisfies q (n_here n)
                                         && match parent_tree n with
                                            | Some t => satisfies p t
                                            | None => false
                                            end) everything))
              | _ => Raise XPathEvalError
              end
          | None => Raise XPathEvalError
          end
      | None => Raise XPathEvalError
      end
  end.

Definition string_of_nat (n : nat) : string :=
  NilZero.string_of_uint (Nat.to_uint n).

Definition same_name (a b : Tree) : bool := String.eqb (e_local a) (e_local b).

(** One segment of [getpath] for the child [i] of [t]: the name, with
    its position among the siblings of that name when there are any. *)
Definition segment (t : Tree) (i : nat) : string :=
  match e_children t !! i with
  | Some c =>
      let before :=
        List.length (List.filter (same_name c) (firstn i (e_children t))) in
      let after := existsb (same_name c) (skipn (S i) (e_children t)) in
      let occur :=
        if (0 <? before)%nat then S before
        else if after then 1%nat else 0%nat in
      "/" +:+ e_local c
          +:+ (if (0 <? occur)%nat then "[" +:+ string_of_nat occur +:+ "]" else "")
  | None => ""
  end.

Fixpoint path_from (t : Tree) (p : list nat) : string :=
  match p with
  | [] => ""
  | i :: p' =>
      segment t i +:+
      match e_children t !! i with
      | Some c => path_from c p'
      | None => ""
      end
  end.

Definition ref_getpath (n : Node) : string :=
  "/" +:+ e_local (n_root n) +:+ path_from (n_root n) (n_path n).

(** A file system with the given parsed documents. *)
Definition ref_parse (files : list (string * Tree)) (path : string)
  : result Tree :=
  match sget path files with
  | Some t => Ok t
  | None => Raise (IOError ("Error reading file '" +:+ path +:+ "'"))
  end.

(** lxml over the given files; [serialize] is [etree.tostring]. *)
Definition lxml (serialize : Tree -> string) (files : list (string * Tree))
  : Lxml :=
  {| parse := ref_parse files;
     xpath := ref_xpath;
     getpath := ref_getpath;
     tostring := serialize |}.

(** [int] on a string of ASCII digits; [ValueError] on anything else. *)
Definition ref_int (s : string) : result Z :=
  match PyFloat.digits s 0 0%nat with
  | (z, S _, EmptyString) => Ok z
  | _ => Raise ValueError
  end.

(** The host: the concordance files that exist, with what [read_csv]
    makes of them; [digest] is the SHA-256 digest in hexadecimal.  With
    an empty prefix dictionary and a location without [':'],
    [_create_xpath_variations] returns the location three times. *)
Definition host (digest : string -> string)
  (frames : list (string * result DataFrame)) : Host :=
  {| path_exists := fun p => smem p frames;
     read_csv := fun p => default (Raise (IOError p)) (sget p frames);
     py_int := ref_int;
     sha256_hex := digest;
     _create_xpath_variations := fun x _ => [x; x; x] |}.

(** An element without namespace, attributes or text of its own. *)
Definition el (name : string) (cs : list Tree) : Tree :=
  Elem None None name None [] [] cs.

(** An element that holds text only. *)
Definition leaf (name value : string) : Tree :=
  Elem None None name (Some value) [] [] [].

End Reference.

(** ** Vocabulary of the statements *)

(** Exactly one of the four slots is populated. *)
Definition one_slot (s : Slots) : Prop := populated s = 1%nat.

Section RowCounts.
Context {LX : Lxml} {HS : Host}.

(** How many rows a concordance entry gives: one when the variable is
    not a ['MANY'] field and a value was located, none otherwise. *)
Definition rows_of_entry (st : TState) (root : Node) (ns : Namespaces)
  (entry : string * Z) : nat :=
  if is_many_field st (fst entry) then 0%nat
  else if _extract_value_from_xml st root (fst entry) ns is Some _ then 1%nat
       else 0%nat.

(** How many rows a field gives for one row of a group. *)
Definition rows_of_field (ns : Namespaces) (group_element : Node)
  (field_info : FieldInfo.t) : nat :=
  if _extract_value_from_element group_element
       (FieldInfo.var_name field_info) ns is Some _ then 1%nat else 0%nat.
End RowCounts.


Section ErrorVocabulary.
Context {LX : Lxml} {HS : Host}.

(** A document lacks a required metadata field when the locator finds
    no text for the employer id, for the end of the tax period or for
    the return type. *)
Definition missing_required (root : Node) (ns : Namespaces) : Prop :=
  PyStr.truthy (get_text root ns ein_patterns) = false
  \/ PyStr.truthy (get_text root ns tax_period_patterns) = false
  \/ PyStr.truthy (get_text root ns form_type_patterns) = false.

(** The records a failed document leaves in the log. *)
Definition failure_records (xml_file msg : string) : list (Level * string) :=
  [(ERROR, "Error processing XML file " +:+ xml_file +:+ ": " +:+ msg);
   (WARNING, "Failed to transform " +:+ xml_file)].

Definition add_records (st : TState) (l : list (Level * string)) : TState :=
  set_log st (log st ++ l).
End ErrorVocabulary.

(** A concordance lacks a required column when it has neither spelling of
    the variable-name column, or neither spelling of the location column. *)
Definition lacks_required_column (df : DataFrame) : Prop :=
  (~ In "variable_name" (columns df) /\ ~ In "VAR_NAME" (columns df))
  \/ (~ In "xpath" (columns df) /\ ~ In "XPATH" (columns df)).


(** Two rows have the same shape when the sets of the local names of
    their children are equal. *)
Definition same_shape (a b : Node) : Prop :=
  forall x, In x (child_names a) <-> In x (child_names b).

(** The shape of a row recurs among the children of a container. *)
Definition shape_recurs (element : Node) : Prop :=
  exists i j ci cj,
    (i < j)%nat
    /\ children element !! i = Some ci
    /\ children element !! j = Some cj
    /\ same_shape ci cj.

(** The children of a container have pairwise distinct shapes. *)
Definition shapes_distinct (element : Node) : Prop :=
  forall i j ci cj,
    i <> j ->
    children element !! i = Some ci ->
    children element !! j = Some cj ->
    ~ same_shape ci cj.

(** How often [k] occurs in [ks]. *)
Definition occurrences `{EqDecision K} (k : K) (ks : list K) : nat :=
  List.length (List.filter (fun k' => bool_decide (k' = k)) ks).


(** The count a counting dictionary holds for a key, zero when the key is
    not in it. *)
Definition cnt `{Countable K} (m : gmap K nat) (k : K) : nat :=
  default 0%nat (m !! k).

(** ** Documents and stores used in the examples *)

Module Examples.
Import Reference.

(** An [OfficerGrp] of two rows. *)
Definition officer_rows : Tree :=
  el "OfficerGrp"
    [el "Officer" [leaf "PersonNm" "John Smith"; leaf "TitleTxt" "President"];
     el "Officer" [leaf "PersonNm" "Jane Doe"; leaf "TitleTxt" "Treasurer"]].

(** A return that holds it; no namespaces. *)
Definition officers_doc : Tree :=
  el "Return"
    [el "ReturnHeader"
       [leaf "ReturnTypeCd" "990";
        el "Filer" [leaf "EIN" "123456789"];
        leaf "TaxPeriodEndDt" "2020-12-31"];
     el "ReturnData" [el "IRS990" [officer_rows]]].

(** The [OfficerGrp] element of the return. *)
Definition officer_group : Node :=
  mkNode officers_doc [1%nat; 0%nat; 0%nat] officer_rows.

(** A serialization and a digest to run the examples with. *)
Definition plain_serialize : Tree -> string := fun t => e_local t.
Definition plain_digest : string -> string := fun s => s.

(** The same return without its [EIN]. *)
Definition no_ein_doc : Tree :=
  el "Return"
    [el "ReturnHeader"
       [leaf "ReturnTypeCd" "990";
        leaf "TaxPeriodEndDt" "2020-12-31"];
     el "ReturnData" []].

(** A concordance that declares the two fields of an officer row. *)
Definition officers_frame : DataFrame :=
  mkFrame
    ["variable_name"; "xpath"; "data_type_simple"; "rdb_table"; "rdb_relationship"]
    [[Some "PersonNm"; Some "PersonNm"; Some "text";
      Some "compensation_officers"; Some "MANY"];
     [Some "TitleTxt"; Some "TitleTxt"; Some "text";
      Some "compensation_officers"; Some "MANY"]].

(** A table that can be read but has neither a variable-name column nor
    a location column. *)
Definition headless_frame : DataFrame :=
  mkFrame ["description"; "data_type_simple"]
          [[Some "Total revenue"; Some "numeric"]].

Definition files : list (string * Tree) :=
  [("a.xml", officers_doc); ("bad.xml", no_ein_doc)].

(** The environment of the examples, whatever the serialization and the
    digest function are. *)
Definition LX (serialize : Tree -> string) : Lxml := lxml serialize files.

Definition HS (digest : string -> string) : Host :=
  host digest [("concordance.csv", Ok officers_frame);
               ("headless.csv", Ok headless_frame)].

(** The registry [IRS990Transformer('concordance.csv')] builds. *)
Definition officers_state : TState :=
  mkTState "concordance.csv"
    [("PersonNm", 1%Z); ("TitleTxt", 2%Z)]
    [("PersonNm", "text"); ("TitleTxt", "text")]
    [("compensation_officers",
      mkTable []
        [FieldInfo.mk "PersonNm" 1 "PersonNm" "text";
         FieldInfo.mk "TitleTxt" 2 "TitleTxt" "text"])]
    true [].

Definition text_slot (s : string) : Slots := mkSlots (Some s) None None None.

(** What the transformer returns for [a.xml]; the last component is the
    digest of the serialized document. *)
Definition officers_data (xml_hash : string) : ProcessedData :=
  mkProcessed
    (Metadata.mk (Some "123456789_2020-12-31_990") (Some "123456789")
       (Some "2020-12-31") (Some "990") (Some "Unknown") (Some 2020%Z)
       None (Some "a.xml"))
    (Organization.mk (Some "123456789") None None None None None None
       (Some (Some "US")) None)
    []
    [RepeatingGroup.mk 1 "123456789_2020-12-31_990" None
       (Some "compensation_officers")
       (Some "/Return/ReturnData/IRS990/OfficerGrp")]
    [GroupValue.mk 1 1 (text_slot "John Smith");
     GroupValue.mk 1 2 (text_slot "President");
     GroupValue.mk 1 1 (text_slot "Jane Doe");
     GroupValue.mk 1 2 (text_slot "Treasurer")]
    (Some xml_hash).

(** Two transformed documents as the loader accepts them: the first
    with one group, the second with a group nested in another, the
    nested one naming its parent by the client-side id [1]. *)
Definition plain_data (filing_id ein : string)
  (groups : list RepeatingGroup.t) : ProcessedData :=
  mkProcessed
    (Metadata.mk (Some filing_id) (Some ein) (Some "2020-12-31")
       (Some "990") (Some "2020v4.0") (Some 2020%Z) None (Some "x.xml"))
    (Organization.mk (Some ein) (Some "Org") None None None None None
       (Some (Some "US")) None)
    [] groups [] None.

Definition first_data : ProcessedData :=
  plain_data "111111111_2020-12-31_990" "111111111"
    [RepeatingGroup.mk 1 "111111111_2020-12-31_990" None
       (Some "grants") (Some "/Return/ReturnData/GrantGrp")].

Definition nested_data : ProcessedData :=
  plain_data "222222222_2020-12-31_990" "222222222"
    [RepeatingGroup.mk 1 "222222222_2020-12-31_990" None
       (Some "grants") (Some "/Return/ReturnData/GrantGrp");
     RepeatingGroup.mk 2 "222222222_2020-12-31_990" (Some 1%Z)
       (Some "payments") (Some "/Return/ReturnData/GrantGrp/Grant/PaymentGrp")].

(** A transformed document with two filing values and no group. *)
Definition valued_data : ProcessedData :=
  mkProcessed
    (Metadata.mk (Some "333333333_2020-12-31_990") (Some "333333333")
       (Some "2020-12-31") (Some "990") (Some "2020v4.0") (Some 2020%Z)
       None (Some "v.xml"))
    (Organization.mk (Some "333333333") (Some "Org") None None None None None
       (Some (Some "US")) None)
    [FilingValue.mk "333333333_2020-12-31_990" 1 (text_slot "To serve");
     FilingValue.mk "333333333_2020-12-31_990" 2
                    (mkSlots None (Some 1000000%Q) None None)]
    [] [] None.

(** A store that holds one filing, and metadata for the same filing
    that carry neither a version, a year nor an object id. *)
Definition stored_filing : FilingRow.t :=
  FilingRow.mk "123456789_2020-12-31_990" (Some "a.xml") "123456789"
    (Some "2020-12-31") (Some "990") (Some "2020v4.0") (Some 2020%Z)
    (Some "2021-05-01").

Definition one_filing_db : Db :=
  mkDb (mkTables [] [stored_filing] [] [] [] []) 0.

Definition bare_metadata : Metadata.t :=
  Metadata.mk (Some "123456789_2020-12-31_990") (Some "123456789")
    None None None None None None.

(** A store that holds one organization, and incoming data for it that
    carry the employer id only. *)
Definition stored_org : OrgRow.t :=
  OrgRow.mk "123456789" (Some "Test Charity") (Some "123 Main St") None
    (Some "Anytown") (Some "CA") (Some "90210") (Some "US") None.

Definition one_org_db : Db :=
  mkDb (mkTables [stored_org] [] [] [] [] []) 0.

Definition bare_organization : Organization.t :=
  Organization.mk (Some "123456789") None None None None None None None None.
End Examples.


(** [p] is a strict, segment-aligned prefix of [c]: [c] is [p], a ['/'],
    and more. *)
Definition seg_prefix (p c : string) : Prop :=
  exists rest, c = p +:+ "/" +:+ rest.

(** The structural paths of the confirmed groups. *)
Definition group_path_list {LX : Lxml} (groups : list (Node * string))
  : list string :=
  List.map (fun en => getpath (fst en)) groups.


(** What the inner loop of [build_group_hierarchy] has established after
    the paths [seen]: its candidate is one of them, a non-empty strict
    segment-aligned prefix of the child's path, and none of them that is
    such a prefix is longer than the length it holds. *)
Definition closest (child : string) (seen : list string)
  (acc : option string * nat) : Prop :=
  match fst acc with
  | Some p => In p seen /\ seg_prefix p child
              /\ snd acc = String.length p /\ (0 < snd acc)%nat
  | None => snd acc = 0%nat
  end
  /\ forall q, In q seen -> seg_prefix q child ->
               (String.length q <= snd acc)%nat.


(** ** Vocabulary for the store *)

(** How many organization rows bear an employer id, and how many filing
    rows bear a filing id. *)
Definition org_count (db : Db) (ein : string) : nat :=
  List.length (List.filter (fun r => String.eqb (OrgRow.ein r) ein)
                           (organizations (db_tables db))).

Definition filing_count (db : Db) (filing_id : string) : nat :=
  List.length (List.filter (fun r => String.eqb (FilingRow.filing_id r) filing_id)
                           (filings (db_tables db))).

(** No two rows of a table bear the same key: the employer id for
    organizations, the filing id for filings, [(filing_id, field_id)] for
    filing values and [(group_id, field_id)] for group values. *)
Definition keys_unique (db : Db) : Prop :=
  NoDup (List.map OrgRow.ein (organizations (db_tables db)))
  /\ NoDup (List.map FilingRow.filing_id (filings (db_tables db)))
  /\ NoDup (List.map FilingValueRow.key (filing_values_tbl (db_tables db)))
  /\ NoDup (List.map GroupValueRow.key (repeating_group_values (db_tables db))).

(** The row of a table that bears a key. *)
Definition find_key {R K} (key : R -> K) (eqb : K -> K -> bool) (k : K)
  (tbl : list R) : option R :=
  List.find (fun r => eqb (key r) k) tbl.

(** The filing value stored under a key, and the last of the incoming
    values that bears it. *)
Definition stored_value (db : Db) (k : string * Z) : option FilingValueRow.t :=
  find_key FilingValueRow.key Sql.fv_key_eqb k (filing_values_tbl (db_tables db)).

Definition last_value (k : string * Z) (values : list FilingValue.t)
  : option FilingValueRow.t :=
  find_key FilingValueRow.key Sql.fv_key_eqb k
           (rev (List.map filing_value_row values)).

(** ** Vocabulary for table names and field ids *)

(** The characters of a lower-case SQL identifier: [a-z], [0-9], ['_']. *)
Definition ident_char (c : ascii) : bool :=
  PyStr.is_lower_ascii c || PyStr.is_digit c || Ascii.eqb c "_".

Definition is_identifier (s : string) : Prop :=
  s <> "" /\ PyStr.forallb ident_char s = true.

(** The variable names a template list stands for in a table. *)
Definition template_names (table_name : string) (specs : list FieldSpec)
  : list string :=
  List.map (fun spec => table_name +:+ "_" +:+ spec_name spec) specs.
(** ** Vocabulary for field ids *)

(** The variable a row of the concordance registers: the row must hold
    a variable name and a location, both non-empty. *)
Definition accepted_name (df : DataFrame) (row : list (option string))
  : option string :=
  match cell df row (pick_column df "variable_name" "VAR_NAME"),
        cell df row (pick_column df "xpath" "XPATH") with
  | Some var_name, Some xpath =>
      if String.eqb var_name "" || String.eqb xpath "" then None
      else Some var_name
  | _, _ => None
  end.

Definition accepted_names (df : DataFrame) : list string :=
  omap (accepted_name df) (rows df).

(** The table a row of the concordance names, ['filing_values'] when the
    cell is empty. *)
Definition row_table (df : DataFrame) (row : list (option string)) : string :=
  or_default (cell df row (pick_column df "rdb_table" "DATABASE_TABLE"))
             "filing_values".

(** The ids of a registry are consecutive from 1, in the order the
    variables were registered. *)
Definition ids_sequential (d : list (string * Z)) : Prop :=
  List.map snd d = List.map Z.of_nat (List.seq 1 (List.length d)).

(** The id a registry holds for a variable is the position, counted
    from 1, of the last of the registered names that is this variable. *)
Definition last_row_wins (d : list (string * Z)) (names : list string) : Prop :=
  forall v id,
    sget v d = Some id ->
    exists i, names !! i = Some v /\ id = Z.of_nat (S i)
              /\ forall j, (i < j)%nat -> names !! j <> Some v.

(** What the loop over the rows of the concordance keeps true of the
    registry and of its counter. *)
Definition registry_ok (st : TState) (fid : Z) : Prop :=
  NoDup (List.map fst (field_ids st))
  /\ NoDup (List.map snd (field_ids st))
  /\ List.map fst (field_ids st) = List.map fst (data_types st)
  /\ (forall x, In x (List.map snd (field_ids st)) -> (1 <= x < fid)%Z)
  /\ (1 <= fid)%Z.

(** ** Vocabulary for the state of the transformer *)

(** The record [transform] leaves for a file it could not process. *)
Definition is_failure (r : Level * string) : bool :=
  match fst r with
  | WARNING => PyStr.startswith (snd r) "Failed to transform "
  | ERROR => false
  end.

(** How many files the log reports as failed. *)
Definition failures (st : TState) : nat :=
  List.length (List.filter is_failure (log st)).

(** What the transformer may change once it is built: it may register
    generic fields; it leaves the tables of the concordance alone,
    forgets no variable, and keeps consecutive ids consecutive. *)
Definition grows (st st' : TState) : Prop :=
  tables st' = tables st
  /\ field_loaded st' = field_loaded st
  /\ concordance_path st' = concordance_path st
  /\ (forall k, smem k (field_ids st) = true -> smem k (field_ids st') = true)
  /\ (ids_sequential (field_ids st) -> ids_sequential (field_ids st')).

(** What processing one document may change: the same, and it reports no
    file as failed. *)
Definition extends (st st' : TState) : Prop :=
  grows st st' /\ failures st' = failures st.

(** A variable is listed in the tables of the concordance. *)
Definition registered_in_tables (st : TState) (var : string) : Prop :=
  exists kv fi,
    In kv (tables st)
    /\ (In fi (ONE (snd kv)) \/ In fi (MANY (snd kv)))
    /\ FieldInfo.var_name fi = var.

(** Two of the rows bear the same local name. *)
Definition repeats_a_name (rows : list Node) : Prop :=
  exists i j ci cj,
    (i < j)%nat /\ rows !! i = Some ci /\ rows !! j = Some cj
    /\ localname ci = localname cj.

(** ** Vocabulary for the search by patterns *)

(** What a pattern contributes to [get_text]: the text of the first
    element it selects, when the expression evaluates. *)
Definition pattern_text {LX : Lxml} (root : Node) (ns : Namespaces) (pattern : string)
  : option string :=
  match xpath root pattern ns with
  | Ok elements => first_text elements
  | Raise _ => None
  end.


(** What holds of an entry of the dictionary of detected groups. *)
Definition detected_entry {LX : Lxml} (root : Node) (ns : Namespaces)
  (entry : string * list Node) : Prop :=
  exists pattern elements element,
    In pattern group_patterns
    /\ xpath root pattern ns = Ok elements
    /\ In (XNode element) elements
    /\ fst entry = getpath element
    /\ snd entry = children element
    /\ repeats_a_name (children element).

(** ** Vocabulary for the groups of the store *)

(** The database an outcome leaves, committed or not. *)
Definition outcome_db (o : outcome) : Db :=
  match o with
  | Done db => db
  | Failed _ db => db
  end.


(** The row [_load_repeating_groups] inserts for a group, under the id
    the sequence gave. *)
Definition stored_group (group_id : Z) (g : RepeatingGroup.t) : GroupRow.t :=
  GroupRow.mk group_id (RepeatingGroup.filing_id g)
    (RepeatingGroup.parent_group_id g) (RepeatingGroup.name g)
    (RepeatingGroup.xpath g).

(** The rows inserted for a list of groups when the sequence stands at
    [seq]. *)
Fixpoint stored_groups (seq : Z) (groups : list RepeatingGroup.t)
  : list GroupRow.t :=
  match groups with
  | [] => []
  | g :: groups' => stored_group (seq + 1) g :: stored_groups (seq + 1) groups'
  end.

(** No two stored groups bear the same id, and the sequence has passed
    every id in the table. *)
Definition group_ids_fresh (db : Db) : Prop :=
  NoDup (List.map GroupRow.group_id (repeating_groups_tbl (db_tables db)))
  /\ forall r, In r (repeating_groups_tbl (db_tables db)) ->
               (GroupRow.group_id r <= group_id_seq db)%Z.

(** The write of an entity table: the rows that bear the key are
    rewritten, and a row is added when there is none. *)
Definition entity_write {R} (f : R -> string) (g : R -> R) (new : R)
  (e : string) (l : list R) : list R :=
  if existsb (fun r => String.eqb (f r) e) l
  then List.map (fun r => if String.eqb (f r) e then g r else r) l
  else l ++ [new].

(** The row [_load_organization] inserts, and the row [_load_filing_record]
    inserts. *)
Definition new_organization (e : string) (o : Organization.t) : OrgRow.t :=
  OrgRow.mk e (Organization.name o) (Organization.address_line1 o)
    (Organization.address_line2 o) (Organization.city o)
    (Organization.state o) (Organization.zip o)
    (match Organization.country o with
     | Some c => c
     | None => Some "US"
     end)
    (Organization.website o).

Definition new_filing (f e : string) (m : Metadata.t) : FilingRow.t :=
  FilingRow.mk f (Metadata.object_id m) e (Metadata.tax_period m)
    (Metadata.form_type m) (Metadata.form_version m) (Metadata.tax_year m)
    (Metadata.submission_date m).

(** The filing values a loader with the given batch size sends to the
    store. *)
Definition sent_values (batch_size : Z) (values : list FilingValue.t)
  : list FilingValue.t :=
  if (0 <? batch_size)%Z then values else [].

(** ** More documents and concordances for the examples *)

Module MoreExamples.
Import Reference.

(** A group of payments inside each row of a group of grants. *)
Definition payment_rows : Tree :=
  el "PaymentGrp"
    [el "Payment" [leaf "Amt" "100"; leaf "Dt" "2020-01-31"];
     el "Payment" [leaf "Dt" "2020-02-29"; leaf "Amt" "200"]].

Definition grant_rows : Tree :=
  el "GrantGrp"
    [el "Grant" [leaf "RecipientNm" "First"; payment_rows];
     el "Grant" [leaf "RecipientNm" "Second"; payment_rows]].

Definition grants_doc : Tree :=
  el "Return"
    [el "ReturnHeader"
       [leaf "ReturnTypeCd" "990";
        el "Filer" [leaf "EIN" "987654321"];
        leaf "TaxPeriodEndDt" "2021-06-30"];
     el "ReturnData" [grant_rows]].

(** The [GrantGrp] element, and the [PaymentGrp] of its first row. *)
Definition grant_group : Node :=
  mkNode grants_doc [1%nat; 0%nat] grant_rows.

Definition payment_group : Node :=
  mkNode grants_doc [1%nat; 0%nat; 0%nat; 1%nat] payment_rows.

Definition grant_groups : list (Node * string) :=
  [(grant_group, "GrantGrp"); (payment_group, "PaymentGrp")].

Definition files : list (string * Tree) :=
  [("a.xml", Examples.officers_doc); ("bad.xml", Examples.no_ein_doc);
   ("g.xml", grants_doc)].

Definition LX (serialize : Tree -> string) : Lxml := lxml serialize files.

(** A concordance that names no table: two variables, one of them
    twice. *)
Definition plain_frame : DataFrame :=
  mkFrame ["variable_name"; "xpath"; "data_type_simple"]
    [[Some "EIN"; Some "//*[local-name()='EIN']"; Some "text"];
     [Some "TaxPeriodEndDt"; Some "//*[local-name()='TaxPeriodEndDt']"; Some "date"];
     [Some "EIN"; Some "//*[local-name()='EIN']"; None];
     [None; Some "//*[local-name()='Nothing']"; Some "text"]].

Definition HS (digest : string -> string) : Host :=
  host digest [("concordance.csv", Ok Examples.officers_frame);
               ("plain.csv", Ok plain_frame)].

(** The registry [IRS990Transformer('plain.csv')] builds. *)
Definition plain_state : TState :=
  mkTState "plain.csv"
    [("EIN", 3%Z); ("TaxPeriodEndDt", 2%Z)]
    [("EIN", "text"); ("TaxPeriodEndDt", "date")]
    [] true [].

(** A transformed document with two groups and three group values, one
    of which names a group the document does not have. *)
Definition grouped_data : ProcessedData :=
  mkProcessed
    (Metadata.mk (Some "987654321_2021-06-30_990") (Some "987654321")
       (Some "2021-06-30") (Some "990") (Some "2021v4.0") (Some 2021%Z)
       None (Some "g.xml"))
    (Organization.mk (Some "987654321") (Some "Grantmaker") None None None
       None None None None)
    [FilingValue.mk "987654321_2021-06-30_990" 1 (Examples.text_slot "x")]
    [RepeatingGroup.mk 1 "987654321_2021-06-30_990" None
       (Some "grants") (Some "/Return/ReturnData/GrantGrp");
     RepeatingGroup.mk 2 "987654321_2021-06-30_990" None
       (Some "payments") (Some "/Return/ReturnData/GrantGrp/Grant[1]/PaymentGrp")]
    [GroupValue.mk 1 7 (Examples.text_slot "First");
     GroupValue.mk 2 8 (Examples.text_slot "100");
     GroupValue.mk 5 9 (Examples.text_slot "stray")]
    (Some "abc").

(** A store that holds three groups of earlier documents. *)
Definition three_groups_db : Db :=
  mkDb (mkTables [] [] []
          [GroupRow.mk 1 "f1" None None None; GroupRow.mk 2 "f1" None None None;
           GroupRow.mk 3 "f2" None None None]
          [] [])
       3.
End MoreExamples.

(** ** [XMLDirectoryExtractor] of [src/etl/extractor.py] *)

(** What [extract] comes to: a batch of paths, or [ExtractionError]. *)
Inductive extraction : Type :=
| Batch (files : list string)
| ExtractionError (msg : string).

(** [XMLDirectoryExtractor._batch_files]: the slices
    [file_paths[i:i + batch_size]] for [i] in
    [range(0, len(file_paths), batch_size)]. *)
Definition _batch_files (batch_size : Z) (file_paths : list string)
  : result (list (list string)) :=
  Sql.batches batch_size file_paths.

(** [XMLDirectoryExtractor.extract].  [found] is what the file system
    gives [_find_xml_files]: [None] when [directory_path] is not a
    directory, the paths that match otherwise.  The loop over the batches
    returns in its first turn. *)
Definition extract (directory_path : string) (batch_size : Z)
  (found : option (list string)) : extraction :=
  match found with
  | None =>
      ExtractionError ("Failed to extract XML files: Directory not found: "
                       +:+ directory_path)
  | Some [] => Batch []
  | Some xml_files =>
      match _batch_files batch_size xml_files with
      | Raise e => ExtractionError ("Failed to extract XML files: " +:+ exn_str e)
      | Ok (batch :: _) => Batch batch
      | Ok [] => Batch []
      end
  end.

(** ** [process_xml_files] of [cli/commands/process_command.py] *)

(** The statistics the command returns (the clock apart). *)
Record Stats : Type := mkStats {
  total_files : nat;
  processed_files : nat;
  failed_files : nat;
  skipped_files : nat;
  processed_values : nat;
  processed_groups : nat
}.

(** One turn of the loop over the results of [load]. *)
Definition tally (stats : Stats) (result : LoadResult) : Stats :=
  match result with
  | Success _ filing_values_count repeating_groups_count _ =>
      mkStats (total_files stats) (processed_files stats + 1)
              (failed_files stats) (skipped_files stats)
              (processed_values stats + filing_values_count)
              (processed_groups stats + repeating_groups_count)
  | Error _ _ =>
      mkStats (total_files stats) (processed_files stats)
              (failed_files stats + 1) (skipped_files stats)
              (processed_values stats) (processed_groups stats)
  end.

(** What the command comes to: the statistics, with the transformer and
    the store as it leaves them, or the exception it lets through. *)
Inductive command_result : Type :=
| Finished (stats : Stats) (st : TState) (db : Db)
| Raised (e : exn)
| RaisedExtractionError (msg : string).

Section ProcessCommand.
Context {LX : Lxml} {HS : Host}.

(** The loop over the batches.  [max_files] limits the files only when
    it is neither [None] nor [0]. *)
Fixpoint process_batches (batch_size : Z) (max_files : option Z)
  (batches : list (list string)) (st : TState) (db : Db) (stats : Stats)
  (processed_count : Z) : Stats * TState * Db :=
  match batches with
  | [] => (stats, st, db)
  | batch :: rest =>
      let limit :=
        match max_files with
        | Some m => if (m =? 0)%Z then None else Some m
        | None => None
        end in
      match limit with
      | Some m =>
          if (processed_count >=? m)%Z then (stats, st, db)
          else
            let remaining := (m - processed_count)%Z in
            let batch :=
              if (remaining <? Z.of_nat (List.length batch))%Z
              then firstn (Z.to_nat remaining) batch else batch in
            let '(transformed_data, st) := transform st batch in
            let '(load_results, db) := load batch_size db transformed_data in
            let stats := fold_left tally load_results stats in
            process_batches batch_size max_files rest st db stats
              (processed_count + Z.of_nat (List.length batch))
      | None =>
          let '(transformed_data, st) := transform st batch in
          let '(load_results, db) := load batch_size db transformed_data in
          let stats := fold_left tally load_results stats in
          process_batches batch_size max_files rest st db stats
            (processed_count + Z.of_nat (List.length batch))
      end
  end.

(** [process_xml_files].  [settings] is what
    [Settings.from_file(credentials_path)] comes to: the exception it
    raises, or the store its parameters lead to.  [found] is what
    [_find_xml_files] gets from the directory.  The settings and the
    transformer are made before the [try]; what is raised inside it is
    raised again.  [validate_xml] and [skip_existing] play no part: the
    validator is made and not used, [skip_existing] is not read. *)
Definition process_xml_files (settings : result Db)
  (found : option (list string))
  (xml_dir concordance_path : string) (batch_size : Z) (max_files : option Z)
  : command_result :=
  match settings with
  | Raise e => Raised e
  | Ok db =>
      match IRS990Transformer concordance_path with
      | Raise e => Raised e
      | Ok st =>
          match found with
          | None => RaisedExtractionError ("Directory not found: " +:+ xml_dir)
          | Some all_xml_files =>
              let stats := mkStats (List.length all_xml_files) 0 0 0 0 0 in
              match _batch_files batch_size all_xml_files with
              | Raise e => Raised e
              | Ok batches =>
                  let '(stats, st, db) :=
                    process_batches batch_size max_files batches st db stats 0 in
                  Finished stats st db
              end
          end
      end
  end.
End ProcessCommand.

(** ** Vocabulary for the command *)

(** One pass over a list of files: transform them all, load what comes
    out, count the results. *)
Definition one_pass {LX : Lxml} {HS : Host} (batch_size : Z)
  (files : list string) (st : TState) (db : Db) (stats : Stats)
  : Stats * TState * Db :=
  let '(transformed_data, st) := transform st files in
  let '(load_results, db) := load batch_size db transformed_data in
  (fold_left tally load_results stats, st, db).

(** The files [max_files] lets through: all of them for [None] and for
    [0], the first [max_files] otherwise, none when it is negative. *)
Definition files_taken (max_files : option Z) (files : list string)
  : list string :=
  match max_files with
  | Some m => if (m =? 0)%Z then files else firstn (Z.to_nat m) files
  | None => files
  end.

(** ** [RepeatingGroupDetector] of [src/repeating_groups/detector.py] *)

(** [element.getparent()]: the element one step up the path, [None] for
    the root of the document. *)
Definition getparent (n : Node) : option Node :=
  match n_path n with
  | [] => None
  | p =>
      option_map (mkNode (n_root n) (removelast p))
                 (subtree (n_root n) (removelast p))
  end.

(** An entry of ['fields']: ['name'], ['path'], ['sample']. *)
Record FieldMeta : Type := mkFieldMeta {
  fm_name : string;
  fm_path : string;
  fm_sample : option string
}.

(** The dictionary that describes a group.  ['parent_path'] is set by
    [find_repeating_groups], ['nesting_level'] and ['parent_xpath'] by
    [find_nested_repeating_groups], ['nested_groups'] by whoever finds
    nested groups; a key that was not set is [None]. *)
#[warnings="-register-all"]
Inductive GroupInfo : Type := mkGroupInfo {
  gi_name : string;
  gi_path : string;
  gi_count : nat;
  gi_fields : list FieldMeta;
  gi_sample_values : list (list (string * option string));
  gi_element : Node;
  gi_parent_path : option string;
  gi_nesting_level : option Z;
  gi_parent_xpath : option (option string);
  gi_nested_groups : option (list GroupInfo)
}.

(** [group['nested_groups'] = nested_groups] *)
Definition set_nested_groups (g : GroupInfo) (nested : list GroupInfo)
  : GroupInfo :=
  mkGroupInfo (gi_name g) (gi_path g) (gi_count g) (gi_fields g)
    (gi_sample_values g) (gi_element g) (gi_parent_path g)
    (gi_nesting_level g) (gi_parent_xpath g) (Some nested).

(** What [RepeatingGroupError] carries. *)
Inductive detection (A : Type) : Type :=
| Detected (a : A)
| RepeatingGroupError (msg : string).
Arguments Detected {A} a.
Arguments RepeatingGroupError {A} msg.

(** [group_info['parent_path'] = parent_path] *)
Definition set_parent_path (g : GroupInfo) (parent_path : string) : GroupInfo :=
  mkGroupInfo (gi_name g) (gi_path g) (gi_count g) (gi_fields g)
    (gi_sample_values g) (gi_element g) (Some parent_path)
    (gi_nesting_level g) (gi_parent_xpath g) (gi_nested_groups g).

(** [group_info['nesting_level'] = level] and
    [group_info['parent_xpath'] = parent_group_xpath] *)
Definition set_nesting (g : GroupInfo) (level : Z)
  (parent_group_xpath : option string) : GroupInfo :=
  mkGroupInfo (gi_name g) (gi_path g) (gi_count g) (gi_fields g)
    (gi_sample_values g) (gi_element g) (gi_parent_path g)
    (Some level) (Some parent_group_xpath) (gi_nested_groups g).

(** [if nested_groups: group['nested_groups'] = nested_groups] *)
Definition attach_nested (g : GroupInfo) (nested_groups : list GroupInfo)
  : GroupInfo :=
  match nested_groups with
  | [] => g
  | _ => set_nested_groups g nested_groups
  end.

Section Detector.
Context {LX : Lxml}.

(** [etree.parse(path).getroot()] with the default parser, which keeps
    the text the parser of the transformer drops. *)
Variable etree_parse : string -> result Tree.

(** [self.namespaces]: [namespaces or {}], so that [None] and the empty
    dictionary are one. *)
Variable self_namespaces : Namespaces.

(** [RepeatingGroupDetector._has_repeating_children] *)
Definition _has_repeating_children (element : Node) : bool :=
  any_repeated (count_keys (List.map localname (children element))).

(** The first loop of [_identify_potential_groups] over the elements of
    one pattern: the elements that have repeating children, under their
    own names.  An item that is not an element makes the loop raise,
    which ends the pattern with the candidates found so far. *)
Fixpoint candidates_by_name (elements : list XItem)
  (potential_groups : list (Node * string)) : list (Node * string) :=
  match elements with
  | [] => potential_groups
  | XNode element :: rest =>
      candidates_by_name rest
        (if _has_repeating_children element
         then potential_groups ++ [(element, localname element)]
         else potential_groups)
  | XAtom :: _ => potential_groups
  end.

(** The second loop: the parents, when they have repeating children,
    under the name of the element that was selected. *)
Fixpoint candidates_by_child (elements : list XItem)
  (potential_groups : list (Node * string)) : list (Node * string) :=
  match elements with
  | [] => potential_groups
  | XNode element :: rest =>
      let element_name := localname element in
      candidates_by_child rest
        (match getparent element with
         | Some parent =>
             if _has_repeating_children parent
             then potential_groups ++ [(parent, element_name)]
             else potential_groups
         | None => potential_groups
         end)
  | XAtom :: _ => potential_groups
  end.

Definition grp_patterns : list string :=
  [".//*[contains(local-name(), 'Grp')]";
   ".//*[contains(local-name(), 'Group')]";
   ".//irs:*[contains(local-name(), 'Grp')]";
   ".//default:*[contains(local-name(), 'Grp')]"].

Definition common_group_patterns : list string :=
  [".//*[contains(local-name(), 'Compensation')]";
   ".//*[contains(local-name(), 'Officer')]";
   ".//*[contains(local-name(), 'Director')]";
   ".//*[contains(local-name(), 'Highest')]";
   ".//*[contains(local-name(), 'Grant')]";
   ".//*[contains(local-name(), 'Expense')]";
   ".//*[contains(local-name(), 'Program')]";
   ".//*[contains(local-name(), 'Table')]";
   ".//*[contains(local-name(), 'List')]";
   ".//*[contains(local-name(), 'Schedule')]"].

(** One of the two loops over the patterns: a pattern that raises is
    passed over. *)
Definition scan_patterns
  (scan : list XItem -> list (Node * string) -> list (Node * string))
  (search_root : XItem) (patterns : list string)
  (potential_groups : list (Node * string)) : list (Node * string) :=
  match search_root with
  | XNode search_root =>
      fold_left
        (fun potential_groups pattern =>
           match xpath search_root pattern self_namespaces with
           | Ok elements => scan elements potential_groups
           | Raise _ => potential_groups
           end)
        patterns potential_groups
  | XAtom => potential_groups
  end.

(** The last loop: a candidate whose path was seen already is dropped. *)
Fixpoint remove_duplicates (seen : list string)
  (potential_groups : list (Node * string)) : list (Node * string) :=
  match potential_groups with
  | [] => []
  | (element, name) :: rest =>
      let element_path := getpath element in
      if PyStr.mem element_path seen then remove_duplicates seen rest
      else (element, name) :: remove_duplicates (element_path :: seen) rest
  end.

(** [RepeatingGroupDetector._identify_potential_groups] *)
Definition _identify_potential_groups (root : Node) : list (Node * string) :=
  let return_data_elem :=
    find_return_data root self_namespaces return_data_patterns in
  let search_root := default (XNode root) return_data_elem in
  let potential_groups :=
    scan_patterns candidates_by_name search_root grp_patterns [] in
  let potential_groups :=
    scan_patterns candidates_by_child search_root common_group_patterns
                  potential_groups in
  remove_duplicates [] potential_groups.

(** The dictionary of the names and texts of the children of a row:
    a name that comes again replaces the text where it stands. *)
Definition sample_of (child : Node) : list (string * option string) :=
  fold_left (fun sample grandchild =>
               sset (localname grandchild) (text grandchild) sample)
            (children child) [].

(** [RepeatingGroupDetector._extract_group_metadata] *)
Definition _extract_group_metadata (group_info : Node * string) : GroupInfo :=
  let '(element, name) := group_info in
  let element_path := getpath element in
  let rows := children element in
  let fields :=
    match rows with
    | first_child :: _ =>
        List.map (fun grandchild =>
                    mkFieldMeta (localname grandchild)
                                (".//" +:+ localname grandchild)
                                (text grandchild))
                 (children first_child)
    | [] => []
    end in
  let sample_values := List.map sample_of (firstn 3 rows) in
  mkGroupInfo name element_path (List.length rows) fields sample_values
              element None None None None.

(** [RepeatingGroupDetector._load_xml] *)
Definition _load_xml (file_path : string) : detection Node :=
  match etree_parse file_path with
  | Ok tree => Detected (root_node tree)
  | Raise e =>
      RepeatingGroupError ("Failed to parse XML file " +:+ file_path +:+ ": "
                           +:+ exn_str e)
  end.

(** [RepeatingGroupDetector.find_repeating_groups]: the groups it
    returns and [self.group_hierarchy] as it leaves it. *)
Definition find_repeating_groups (xml_file_path : string)
  : detection (list GroupInfo * list (string * string)) :=
  match _load_xml xml_file_path with
  | RepeatingGroupError msg => RepeatingGroupError msg
  | Detected root =>
      let potential_groups := _identify_potential_groups root in
      let validated_groups := _validate_groups potential_groups in
      let group_hierarchy := build_group_hierarchy validated_groups in
      let results :=
        List.map
          (fun group =>
             let group_info := _extract_group_metadata group in
             match sget (getpath (fst group)) group_hierarchy with
             | Some parent_path => set_parent_path group_info parent_path
             | None => group_info
             end)
          validated_groups in
      Detected (results, group_hierarchy)
  end.
End Detector.

(** ** [nested_detector.py]: nested groups *)

Section NestedDetector.
Context {LX : Lxml}.
Variable etree_parse : string -> result Tree.

(** [is_nested_in_another_group].  [same_element] is the comparison
    [parent_elem == element], which is identity of elements. *)
Definition is_nested_in_another_group (same_element : Node -> Node -> bool)
  (element : Node) (groups : list (Node * string)) : bool :=
  let element_path := getpath element in
  existsb
    (fun group =>
       let parent_elem := fst group in
       if same_element parent_elem element then false
       else PyStr.startswith element_path (getpath parent_elem +:+ "/"))
    groups.

(** The element the search starts from: the first item
    [parent_group_xpath] selects, the root when there is no expression;
    [None] when the function returns the empty list instead. *)
Definition nested_search_root (root : Node)
  (parent_group_xpath : option string) (namespaces : Namespaces)
  : option XItem :=
  if PyStr.truthy parent_group_xpath then
    match xpath root (default "" parent_group_xpath) namespaces with
    | Ok (first :: _) => Some first
    | _ => None
    end
  else Some (XNode root).

(** [find_nested_repeating_groups].  [namespaces] is [namespaces or {}].
    The function calls itself with [current_level + 1] as long as that
    is below [max_nesting_level]; [fuel] bounds the calls that remain.
    A search root that is not an element makes every pattern raise and
    leaves no candidate. *)
Fixpoint nested_groups_upto (fuel : nat) (xml_file_path : string)
  (parent_group_xpath : option string) (max_nesting_level current_level : Z)
  (namespaces : Namespaces) : list GroupInfo :=
  if (current_level >=? max_nesting_level)%Z then []
  else
    match fuel with
    | O => []
    | S fuel =>
        match etree_parse xml_file_path with
        | Raise _ => []
        | Ok tree =>
            let root := root_node tree in
            match nested_search_root root parent_group_xpath namespaces with
            | None => []
            | Some XAtom => []
            | Some (XNode search_root) =>
                let potential_groups :=
                  _identify_potential_groups namespaces search_root in
                let validated_groups := _validate_groups potential_groups in
                List.map
                  (fun group =>
                     let group_info := _extract_group_metadata group in
                     let group_info :=
                       set_nesting group_info (current_level + 1)
                                   parent_group_xpath in
                     if (current_level + 1 <? max_nesting_level)%Z then
                       attach_nested group_info
                         (nested_groups_upto fuel xml_file_path
                            (Some (gi_path group_info)) max_nesting_level
                            (current_level + 1) namespaces)
                     else group_info)
                  validated_groups
            end
        end
    end.

Definition find_nested_repeating_groups (xml_file_path : string)
  (parent_group_xpath : option string) (max_nesting_level current_level : Z)
  (namespaces : Namespaces) : list GroupInfo :=
  nested_groups_upto (Z.to_nat (max_nesting_level - current_level))
    xml_file_path parent_group_xpath max_nesting_level current_level
    namespaces.

(** [RepeatingGroupDetector.find_nested_groups] *)
Definition find_nested_groups (self_namespaces : Namespaces)
  (max_nesting_level : Z) (xml_file_path : string)
  : detection (list GroupInfo) :=
  match find_repeating_groups etree_parse self_namespaces xml_file_path with
  | RepeatingGroupError msg => RepeatingGroupError msg
  | Detected (top_level_groups, _) =>
      Detected
        (List.map
           (fun group =>
              attach_nested group
                (find_nested_repeating_groups xml_file_path
                   (Some (gi_path group)) max_nesting_level 1 self_namespaces))
           top_level_groups)
  end.
End NestedDetector.

(** ** Vocabulary for the groups the detector reports *)

(** A group found at nesting level [level] under the expression
    [parent_xpath]: it carries both, the level does not pass [bound],
    and the groups attached to it, of which there is at least one when
    the key is there, are found one level further under its own path. *)
Fixpoint levelled (bound level : Z) (parent_xpath : option string)
  (g : GroupInfo) {struct g} : Prop :=
  match g with
  | mkGroupInfo _ path _ _ _ _ _ nesting_level parent nested_groups =>
      nesting_level = Some level
      /\ (level <= bound)%Z
      /\ parent = Some parent_xpath
      /\ match nested_groups with
         | None => True
         | Some gs =>
             gs <> []
             /\ (fix all (l : list GroupInfo) : Prop :=
                   match l with
                   | [] => True
                   | n :: l' =>
                       levelled bound (level + 1) (Some path) n /\ all l'
                   end) gs
         end
  end.

(** What [find_repeating_groups] says of a group it reports, [paths]
    being the paths of all the groups of the report. *)
Definition reported_group {LX : Lxml} (paths : list string) (g : GroupInfo)
  : Prop :=
  gi_path g = getpath (gi_element g)
  /\ gi_count g = List.length (children (gi_element g))
  /\ (2 <= gi_count g)%nat
  /\ validates (gi_element g) = true
  /\ _has_repeating_children (gi_element g) = true
  /\ List.length (gi_sample_values g) = Nat.min 3 (gi_count g)
  /\ gi_nesting_level g = None
  /\ gi_parent_xpath g = None
  /\ gi_nested_groups g = None
  /\ match gi_parent_path g with
     | Some p =>
         In p paths /\ seg_prefix p (gi_path g)
         /\ forall q, In q paths -> seg_prefix q (gi_path g) ->
                      (String.length q <= String.length p)%nat
     | None => forall q, In q paths -> seg_prefix q (gi_path g) -> q = ""
     end.

(** ** [XMLParser]: form data and files *)

Module XMLParserFile.

Record key_fields_t : Type := mkKeyFields {
  total_revenue : option string;
  total_assets : option string;
  total_liabilities : option string;
  mission : option string
}.

(** The rows of a group as the parser keeps them: per child the
    dictionary of the names and texts of its children, the empty
    dictionaries left out. *)
Definition group_data_of (grp_element : Node)
  : list (list (string * option string)) :=
  List.filter (fun item_data => negb (Nat.eqb (List.length item_data) 0))
              (List.map sample_of (children grp_element)).

(** The dictionary ['form_data']; ['repeating_groups'] is there only
    when a [ReturnData] element was found. *)
Record form_data_t : Type := mkFormData {
  organization : XMLParser.org_info_t;
  key_fields : key_fields_t;
  repeating_groups :
    option (list (string * list (list (string * option string))))
}.

Record parsed_t : Type := mkParsed {
  metadata : XMLParser.metadata_t;
  form_data : form_data_t;
  file_path : string
}.

Section ParserFile.
Context {LX : Lxml}.

(** [etree.parse(path).getroot()] with the default parser. *)
Variable etree_parse : string -> result Tree.

(** [XMLParser._extract_key_fields] *)
Definition _extract_key_fields (self_namespaces : Namespaces) (root : Node)
  : key_fields_t :=
  let get_text := get_text root self_namespaces in
  mkKeyFields
    (get_text ["//*[local-name()='TotalRevenueAmt']";
               "//*[local-name()='CYTotalRevenueAmt']"])
    (get_text ["//*[local-name()='TotalAssetsEOYAmt']";
               "//*[local-name()='TotalAssetsAmt']"])
    (get_text ["//*[local-name()='TotalLiabilitiesEOYAmt']";
               "//*[local-name()='TotalLiabilitiesAmt']"])
    (get_text ["//*[local-name()='ActivityOrMissionDesc']";
               "//*[local-name()='MissionDesc']"]).

(** One turn of the loop of [_extract_repeating_groups]. *)
Definition group_step
  (repeating_groups : list (string * list (list (string * option string))))
  (grp_element : Node)
  : list (string * list (list (string * option string))) :=
  let rows := children grp_element in
  if (List.length rows <? 2)%nat then repeating_groups
  else
    let group_name := localname grp_element in
    match group_data_of grp_element with
    | [] => repeating_groups
    | group_data => sset group_name group_data repeating_groups
    end.

(** The loop over what the expression selected.  The expression selects
    elements; an item of another kind has no children to list and stops
    the function with an exception. *)
Fixpoint extract_groups (grp_elements : list XItem)
  (repeating_groups : list (string * list (list (string * option string))))
  : result (list (string * list (list (string * option string)))) :=
  match grp_elements with
  | [] => Ok repeating_groups
  | XNode grp_element :: rest =>
      extract_groups rest (group_step repeating_groups grp_element)
  | XAtom :: _ => Raise ValueError
  end.

(** [XMLParser._extract_repeating_groups]: the expression is evaluated
    without a prefix dictionary and outside any [try]. *)
Definition _extract_repeating_groups (element : Node)
  : result (list (string * list (list (string * option string)))) :=
  do grp_elements <- xpath element ".//*[contains(local-name(), 'Grp')]" [];
  extract_groups grp_elements [].

(** [XMLParser._extract_form_data].  A [ReturnData] item that is not an
    element has no [xpath] method. *)
Definition _extract_form_data (self_namespaces : Namespaces) (root : Node)
  : result form_data_t :=
  let org_info := XMLParser._extract_organization_info self_namespaces root in
  let key_fields := _extract_key_fields self_namespaces root in
  match find_return_data root self_namespaces return_data_patterns with
  | Some (XNode return_data_elem) =>
      do groups <- _extract_repeating_groups return_data_elem;
      Ok (mkFormData org_info key_fields (Some groups))
  | Some XAtom => Raise ValueError
  | None => Ok (mkFormData org_info key_fields None)
  end.

(** [XMLParser.parse_file]: the result, and [self.namespaces] as the
    call leaves it. *)
Definition parse_file (self_namespaces : Namespaces) (file_path : string)
  : result parsed_t * Namespaces :=
  match etree_parse file_path with
  | Raise e =>
      (Raise (XMLProcessingError ("Failed to parse XML file " +:+ file_path
                                  +:+ ": " +:+ exn_str e)),
       self_namespaces)
  | Ok tree =>
      let root := root_node tree in
      let '(metadata, self_namespaces) :=
        XMLParser._extract_metadata self_namespaces root in
      match _extract_form_data self_namespaces root with
      | Ok form_data =>
          (Ok (mkParsed metadata form_data file_path), self_namespaces)
      | Raise e =>
          (Raise (XMLProcessingError ("Failed to parse XML file " +:+ file_path
                                      +:+ ": " +:+ exn_str e)),
           self_namespaces)
      end
  end.
End ParserFile.
End XMLParserFile.

(** ** Vocabulary for the groups of the parser *)

(** An element the parser keeps as a group: it has two children or
    more, and one of them has a child. *)
Definition kept_as_group (grp_element : Node) : bool :=
  (2 <=? List.length (children grp_element))%nat
  && negb (Nat.eqb (List.length (XMLParserFile.group_data_of grp_element)) 0).

(** ** Names: [clean_element_name] and [guess_table_name] of
    [src/repeating_groups/utils.py] *)

Module Utils.

(** [s] without the prefix [x], when it starts with it. *)
Fixpoint drop_prefix (x s : string) : option string :=
  match x, s with
  | EmptyString, _ => Some s
  | String a x', String b s' =>
      if Ascii.eqb a b then drop_prefix x' s' else None
  | String _ _, EmptyString => None
  end.

(** [s] without the suffix [x], when it ends with it. *)
Definition drop_suffix (x s : string) : option string :=
  let n := (String.length s - String.length x)%nat in
  if (String.length x <=? String.length s)%nat
     && String.eqb (String.substring n (String.length x) s) x
  then Some (String.substring 0 n s)
  else None.

Definition name_prefixes : list string :=
  ["Frm"; "Form"; "Irs"; "IRS"; "ReturnHeader"; "Return"; "ReturnData"].

Definition name_suffixes : list string :=
  ["Ind"; "Amt"; "Txt"; "Num"; "Desc"; "Grp"; "Group"; "Ind"].

(** [re.sub(r'^(Frm|...|ReturnData)', '', name)]: at the start of the
    name, the first alternative that matches is removed. *)
Fixpoint sub_prefix (alternatives : list string) (name : string) : string :=
  match alternatives with
  | [] => name
  | x :: rest =>
      match drop_prefix x name with
      | Some r => r
      | None => sub_prefix rest name
      end
  end.

(** The leftmost match of [(x1|...|xn)] that ends [body]: the longest
    alternative that is a suffix, the first of them among equals; the
    result is what is left of [body]. *)
Definition leftmost_suffix (alternatives : list string) (body : string)
  : option string :=
  fold_left
    (fun best x =>
       match drop_suffix x body with
       | Some r =>
           match best with
           | Some b => if (String.length r <? String.length b)%nat
                       then Some r else best
           | None => Some r
           end
       | None => best
       end)
    alternatives None.

Definition newline : string := String (ascii_of_nat 10) EmptyString.

(** [re.sub(r'(Ind|...|Ind)$', '', name)]: ['$'] matches at the end of
    the name and before a newline that ends it, and no alternative
    holds a newline. *)
Definition sub_suffix (alternatives : list string) (name : string) : string :=
  match drop_suffix newline name with
  | Some body => default body (leftmost_suffix alternatives body) +:+ newline
  | None => default name (leftmost_suffix alternatives name)
  end.

(** [re.sub(r'(?<!^)(?=[A-Z])', '_', name)]: a ['_'] before every
    letter [A-Z] but one that starts the name. *)
Fixpoint underscore_capitals (s : string) : string :=
  match s with
  | EmptyString => EmptyString
  | String c s' =>
      if PyStr.is_upper_ascii c
      then String "_" (String c (underscore_capitals s'))
      else String c (underscore_capitals s')
  end.

Definition snake (name : string) : string :=
  match name with
  | EmptyString => EmptyString
  | String c s' => String c (underscore_capitals s')
  end.

(** [re.sub(r'[^a-zA-Z0-9_]', '', name)] *)
Definition name_char (c : ascii) : bool :=
  PyStr.is_alnum_ascii c || Ascii.eqb c "_".

(** [clean_element_name] *)
Definition clean_element_name (name : string) : string :=
  let name := sub_prefix name_prefixes name in
  let name := sub_suffix name_suffixes name in
  let name := PyStr.lower (snake name) in
  PyStr.filter name_char name.

Definition mappings : list (string * string) :=
  [("Form990PartVIISectionAGrp", "compensation_officers");
   ("OfficerDirectorTrusteeKeyEmpl", "compensation_officers");
   ("OtherExpensesGrp", "expenses_other");
   ("GrantsToOrgOutsideUSGrp", "foreign_org_grants");
   ("SupplementalInformationDetail", "supplemental_info");
   ("ProgramServiceRevenueGrp", "program_service_revenue");
   ("RelatedOrgInformationGrp", "related_organizations");
   ("UnrelatedOrgTxblPartnershipGrp", "unrelated_partnerships");
   ("ReceivablesFromOfficersGrp", "receivables_from_officers");
   ("CompOfHighestPaidEmplGrp", "highest_compensated_employees");
   ("IndependentContractorCompGrp", "independent_contractors")].

(** The test of the loop over the mappings:
    [key in group_name or group_name in key]. *)
Definition partial_match (group_name : string) (kv : string * string) : bool :=
  PyStr.contains group_name (fst kv) || PyStr.contains (fst kv) group_name.

(** [guess_table_name] *)
Definition guess_table_name (group_name : string) : string :=
  match sget group_name mappings with
  | Some table => table
  | None =>
      match List.find (partial_match group_name) mappings with
      | Some kv => snd kv
      | None =>
          let clean_name := clean_element_name group_name in
          "repeating_" +:+ clean_name
      end
  end.
End Utils.

(** ** [RepeatingGroupProcessor._extract_values] of
    [src/repeating_groups/processor.py] *)

Module Processor.

(** [e.text.strip() if hasattr(e, "text") and e.text else None] *)
Definition stripped_text (e : Node) : option string :=
  match text e with
  | Some t => if String.eqb t "" then None else Some (PyStr.strip t)
  | None => None
  end.

(** The loop over the children of a field that has a value. *)
Definition nested_step (field_name : string)
  (row_values : list (string * string)) (great_grandchild : Node)
  : list (string * string) :=
  let nested_field_name := localname great_grandchild in
  match stripped_text great_grandchild with
  | Some nested_field_value =>
      sset (field_name +:+ "_" +:+ nested_field_name) nested_field_value
           row_values
  | None => row_values
  end.

(** One turn of the loop over the fields of a row. *)
Definition field_step (row_values : list (string * string))
  (grandchild : Node) : list (string * string) :=
  let field_name := localname grandchild in
  match stripped_text grandchild with
  | Some field_value =>
      let row_values := sset field_name field_value row_values in
      fold_left (nested_step field_name) (children grandchild) row_values
  | None => row_values
  end.

Definition row_values_of (child_element : Node) : list (string * string) :=
  fold_left field_step (children child_element) [].

(** [_extract_values]; [element] is [group.get("element")]. *)
Definition _extract_values (element : option Node)
  : list (list (string * string)) :=
  match element with
  | None => []
  | Some element =>
      List.filter (fun row_values => negb (Nat.eqb (List.length row_values) 0))
                  (List.map row_values_of (children element))
  end.
End Processor.

(** An entry of a row comes from a field of the row that has text of
    its own: it is the field's name with such a text, or the name of the
    field and of one of its children with the text of that child. *)
Definition entry_from (child_element : Node) (entry : string * string) : Prop :=
  exists grandchild field_value,
    In grandchild (children child_element)
    /\ Processor.stripped_text grandchild = Some field_value
    /\ ((fst entry = localname grandchild /\ snd entry = field_value)
        \/ exists great_grandchild,
             In great_grandchild (children grandchild)
             /\ fst entry
                = localname grandchild +:+ "_" +:+ localname great_grandchild
             /\ Processor.stripped_text great_grandchild = Some (snd entry)).

(** ** Vocabulary for the lookup of a field in a row *)

(** The expressions [_extract_value_from_element] builds from a field
    name, each with the prefix dictionary it is evaluated under. *)
Definition element_lookups (field_name : string) (namespaces : Namespaces)
  : list (string * Namespaces) :=
  List.map (fun prefix => (".//" +:+ prefix +:+ ":" +:+ field_name, namespaces))
           (List.map fst namespaces)
  ++ [(".//*[local-name()='" +:+ field_name +:+ "']", []);
      (".//*[contains(local-name(), '" +:+ field_name +:+ "')]", []);
      (".//*[ends-with(local-name(), '" +:+ field_name +:+ "')]", [])].

(** The expressions select by name among the elements [below] the row:
    an element they select lies there and has the field name within its
    local name. *)
Definition names_honoured {LX : Lxml} (below : Node -> Prop) (element : Node)
  (field_name : string) (namespaces : Namespaces) : Prop :=
  forall expr ns items n,
    In (expr, ns) (element_lookups field_name namespaces) ->
    xpath element expr ns = Ok items ->
    In (XNode n) items ->
    below n /\ PyStr.contains (localname n) field_name = true.

(** * Properties *)

(** ** The value converter *)

Lemma float_ok_or_value_error (s : string) :
  (exists q, PyFloat.float s = Ok q) \/ PyFloat.float s = Raise ValueError.
Proof.
  unfold PyFloat.float.
  destruct (match s with
            | EmptyString => (false, s)
            | String c s' => if Ascii.eqb c "-" then (true, s') else (false, s)
            end) as [neg body].
  destruct (PyFloat.unsigned body); eauto.
Qed.

Lemma clean_numeric_alphabet (value : string) :
  PyStr.forallb numeric_char (clean_numeric value) = true.
Proof.
  unfold clean_numeric.
  induction value as [|c value IH]; simpl; [reflexivity|].
  destruct (numeric_char c) eqn:Hc; simpl; [rewrite Hc|]; exact IH.
Qed.

Lemma mem_In (x : string) (l : list string) :
  PyStr.mem x l = true <-> In x l.
Proof.
  unfold PyStr.mem. rewrite existsb_exists. split.
  - intros (y & Hy & Heq). apply String.eqb_eq in Heq. now subst.
  - intros Hx. exists x. split; [exact Hx | apply String.eqb_refl].
Qed.

(** Whatever the text and the declared type, the converter returns, and
    exactly one slot of what it returns is populated. *)
Lemma convert_value_one_slot (value data_type : string) :
  exists s, _convert_value value data_type = Ok s /\ populated s = 1%nat.
Proof.
  unfold _convert_value.
  destruct (String.eqb data_type "" || String.eqb data_type "text");
    [eexists; split; reflexivity|].
  destruct (String.eqb data_type "numeric").
  { destruct (float_ok_or_value_error (clean_numeric value)) as [[q Hq]|Hq];
      rewrite Hq; eexists; split; reflexivity. }
  destruct (String.eqb data_type "checkbox" || String.eqb data_type "boolean");
    [eexists; split; reflexivity|].
  destruct (String.eqb data_type "date"); eexists; split; reflexivity.
Qed.

(** C5.  The converter never raises and follows the rule of each type:
    for [numeric] the text is reduced to its digits, ['-'] and ['.'] and
    read as a decimal number, which fills the numeric slot, and when it
    cannot be read the text as it came fills the text slot; for [boolean]
    the slot is true exactly when the lower-cased text is one of [true],
    [yes], [1], [t], [y], [x]; for [date] the text is kept as it came.
    ["1,234.50"] gives 1234.5, ["YES"] gives true, ["not-a-number"] stays
    text. *)
Theorem convert_value_rules (value : string) :
  (forall data_type, exists s, _convert_value value data_type = Ok s)
  /\ PyStr.forallb numeric_char (clean_numeric value) = true
  /\ _convert_value value "numeric"
     = Ok (match PyFloat.float (clean_numeric value) with
           | Ok q => mkSlots None (Some q) None None
           | Raise _ => mkSlots (Some value) None None None
           end)
  /\ (exists b, _convert_value value "boolean" = Ok (mkSlots None None (Some b) None)
                /\ (b = true <-> In (PyStr.lower value) truthy_tokens))
  /\ _convert_value value "date" = Ok (mkSlots None None None (Some value))
  /\ (exists q, _convert_value "1,234.50" "numeric" = Ok (mkSlots None (Some q) None None)
                /\ q == 1234.5)
  /\ _convert_value "YES" "boolean" = Ok (mkSlots None None (Some true) None)
  /\ _convert_value "not-a-number" "numeric"
     = Ok (mkSlots (Some "not-a-number") None None None).
Proof.
  split; [|split; [|split; [|split; [|split; [|split; [|split]]]]]].
  - intros data_type.
    destruct (convert_value_one_slot value data_type) as (s & Hs & _); eauto.
  - apply clean_numeric_alphabet.
  - unfold _convert_value; simpl.
    destruct (float_ok_or_value_error (clean_numeric value)) as [[q Hq]|Hq];
      rewrite Hq; reflexivity.
  - eexists; split; [reflexivity|]. apply mem_In.
  - reflexivity.
  - eexists; split; [vm_compute; reflexivity|]. vm_compute. reflexivity.
  - reflexivity.
  - reflexivity.
Qed.

(** ** Rows of the transformer *)

Lemma collect_total {A B} (f : A -> result (list B)) (P : B -> Prop)
  (g : A -> nat) (l : list A) :
  (forall a, In a l ->
     exists bs, f a = Ok bs /\ Forall P bs /\ List.length bs = g a) ->
  exists bs, collect f l = Ok bs /\ Forall P bs
             /\ List.length bs = list_sum (List.map g l).
Proof.
  induction l as [|a l IH]; intros Hf; simpl.
  - exists []. repeat split; constructor.
  - destruct (Hf a (or_introl eq_refl)) as (bs & Ha & HP & Hlen).
    destruct IH as (bs' & Hl & HP' & Hlen').
    { intros a' Ha'. apply Hf. now right. }
    rewrite Ha, Hl. simpl. exists (bs ++ bs'). split; [reflexivity|]. split.
    + apply Forall_app. now split.
    + rewrite length_app. lia.
Qed.

Section RowProperties.
Context {LX : Lxml} {HS : Host}.

Lemma filing_value_of_total st root filing_id ns entry :
  exists rows,
    filing_value_of st root filing_id ns entry = Ok rows
    /\ Forall (fun r => one_slot (FilingValue.slots r)) rows
    /\ List.length rows = rows_of_entry st root ns entry.
Proof.
  unfold filing_value_of, rows_of_entry. destruct entry as [var_name field_id].
  simpl. destruct (is_many_field st var_name).
  { exists []. repeat split; constructor. }
  destruct (_extract_value_from_xml st root var_name ns) as [value|].
  - destruct (convert_value_one_slot value
                (default "text" (sget var_name (data_types st))))
      as (s & Hs & Hone).
    rewrite Hs. simpl. eexists. split; [reflexivity|]. split; [|reflexivity].
    constructor; [exact Hone | constructor].
  - exists []. repeat split; constructor.
Qed.

Lemma extract_filing_values_total st root filing_id ns :
  exists rows st',
    _extract_filing_values st root filing_id ns = (Ok rows, st')
    /\ Forall (fun r => one_slot (FilingValue.slots r)) rows
    /\ (field_loaded st = true ->
        List.length rows
        = list_sum (List.map (rows_of_entry st root ns) (field_ids st))).
Proof.
  unfold _extract_filing_values. destruct (field_loaded st); simpl.
  - destruct (collect_total (filing_value_of st root filing_id ns)
                (fun r => one_slot (FilingValue.slots r))
                (rows_of_entry st root ns) (field_ids st))
      as (rows & Hrows & HP & Hlen).
    { intros entry _. apply filing_value_of_total. }
    exists rows, st. rewrite Hrows. auto.
  - eexists [], _. split; [reflexivity|]. split; [constructor | discriminate].
Qed.

Lemma group_value_of_total group_id ns group_element field_info :
  exists rows,
    group_value_of group_id ns group_element field_info = Ok rows
    /\ Forall (fun v => one_slot (GroupValue.slots v)) rows
    /\ List.length rows = rows_of_field ns group_element field_info.
Proof.
  unfold group_value_of, rows_of_field.
  destruct (_extract_value_from_element group_element
              (FieldInfo.var_name field_info) ns) as [value|].
  - destruct (convert_value_one_slot value (FieldInfo.data_type field_info))
      as (s & Hs & Hone).
    rewrite Hs. simpl. eexists. split; [reflexivity|]. split; [|reflexivity].
    constructor; [exact Hone | constructor].
  - exists []. repeat split; constructor.
Qed.

Lemma process_groups_total detected :
  forall st filing_id ns group_id,
  exists groups values st',
    process_groups st filing_id ns group_id detected = (Ok (groups, values), st')
    /\ Forall (fun v => one_slot (GroupValue.slots v)) values.
Proof.
  induction detected as [|[group_xpath group_elements] rest IH];
    intros st filing_id ns group_id; simpl.
  - eexists [], [], st. split; [reflexivity | constructor].
  - destruct (String.eqb (_guess_table_name group_xpath) ""); [apply IH|].
    destruct (_get_fields_for_table st (_guess_table_name group_xpath))
      as [table_fields st1].
    destruct (collect_total
                (fun group_element =>
                   collect (group_value_of group_id ns group_element) table_fields)
                (fun v => one_slot (GroupValue.slots v))
                (fun group_element =>
                   list_sum (List.map (rows_of_field ns group_element) table_fields))
                group_elements) as (values & Hvalues & HP & _).
    { intros group_element _.
      apply collect_total. intros fi _. apply group_value_of_total. }
    rewrite Hvalues.
    destruct (IH st1 filing_id ns (group_id + 1)%Z)
      as (groups & more & st2 & Hrest & HP').
    rewrite Hrest. eexists _, _, st2. split; [reflexivity|].
    apply Forall_app. now split.
Qed.

Lemma process_xml_body_rows st xml_file data st' :
  process_xml_body st xml_file = (Ok data, st') ->
  Forall (fun r => one_slot (FilingValue.slots r)) (filing_values data)
  /\ Forall (fun v => one_slot (GroupValue.slots v)) (group_values data).
Proof.
  unfold process_xml_body.
  destruct (parse xml_file) as [tree|]; [|discriminate].
  destruct (_extract_metadata _ _ _) as [md|]; [|discriminate].
  destruct (extract_filing_values_total st (root_node tree)
              (default "" (Metadata.filing_id md)) (namespaces_of tree))
    as (rows & st1 & Hrows & HP & _).
  rewrite Hrows.
  unfold _process_repeating_groups.
  match goal with
  | |- context [process_groups ?a ?b ?c ?d ?e] =>
      destruct (process_groups_total e a b c d)
        as (groups & values & st2 & Hg & HP')
  end.
  rewrite Hg. intros [= <- <-]. simpl. now split.
Qed.

Lemma transform_rows xml_files :
  forall st,
  Forall (fun data =>
            Forall (fun r => one_slot (FilingValue.slots r)) (filing_values data)
            /\ Forall (fun v => one_slot (GroupValue.slots v)) (group_values data))
         (fst (transform st xml_files)).
Proof.
  induction xml_files as [|xml_file rest IH]; intros st; simpl.
  - constructor.
  - unfold _process_xml_file.
    destruct (process_xml_body st xml_file) as [[data|e] st1] eqn:Hbody.
    + specialize (IH st1). destruct (transform st1 rest) as [results st2].
      simpl in *. constructor; [|exact IH].
      eapply process_xml_body_rows; eauto.
    + apply IH.
Qed.

(** C3.  Conversion returns, for every text and every declared type,
    slots of which exactly one is populated.  Hence every filing value
    and every group value of every document the transformer returns has
    exactly one populated slot.  A row exists only for a value that was
    located: the scalar rows are as many as the concordance entries with
    a located value, and a field without a value in a row of a group
    gives no row. *)
Theorem every_row_has_one_slot (st : TState) (root : Node)
  (filing_id : string) (ns : Namespaces) :
  (forall value data_type,
      exists s, _convert_value value data_type = Ok s /\ populated s = 1%nat)
  /\ (forall xml_files,
        Forall (fun data =>
                  Forall (fun r => populated (FilingValue.slots r) = 1%nat)
                         (filing_values data)
                  /\ Forall (fun v => populated (GroupValue.slots v) = 1%nat)
                            (group_values data))
               (fst (transform st xml_files)))
  /\ (exists rows st',
        _extract_filing_values st root filing_id ns = (Ok rows, st')
        /\ Forall (fun r => populated (FilingValue.slots r) = 1%nat) rows
        /\ (field_loaded st = true ->
            List.length rows
            = list_sum (List.map (rows_of_entry st root ns) (field_ids st))))
  /\ (forall group_id group_element field_info,
        exists rows,
          group_value_of group_id ns group_element field_info = Ok rows
          /\ Forall (fun v => populated (GroupValue.slots v) = 1%nat) rows
          /\ List.length rows
             = if _extract_value_from_element group_element
                    (FieldInfo.var_name field_info) ns is Some _
               then 1%nat else 0%nat).
Proof.
  split; [|split; [|split]].
  - apply convert_value_one_slot.
  - intros xml_files. apply transform_rows.
  - apply extract_filing_values_total.
  - intros. apply group_value_of_total.
Qed.
End RowProperties.

(** ** Metadata and organization *)

Section MetadataProperties.
Context {LX : Lxml} {HS : Host}.

Lemma truthy_Some (o : option string) :
  PyStr.truthy o = true -> exists s, o = Some s /\ s <> "".
Proof.
  destruct o as [s|]; simpl; [|discriminate].
  destruct (String.eqb_spec s ""); simpl; [discriminate|]. eauto.
Qed.

(** What [_extract_metadata] returns when it returns. *)
Lemma extract_metadata_ok root ns file_name m :
  _extract_metadata root ns file_name = Ok m ->
  exists e t f,
    get_text root ns ein_patterns = Some e
    /\ get_text root ns tax_period_patterns = Some t
    /\ get_text root ns form_type_patterns = Some f
    /\ Metadata.ein m = Some e
    /\ Metadata.tax_period m = Some t
    /\ Metadata.form_type m = Some f
    /\ Metadata.filing_id m = Some (e +:+ "_" +:+ t +:+ "_" +:+ f).
Proof.
  unfold _extract_metadata.
  destruct (PyStr.truthy (get_text root ns ein_patterns)) eqn:He;
    cbv beta iota zeta delta [negb]; [|discriminate].
  destruct (PyStr.truthy (get_text root ns tax_period_patterns)) eqn:Ht;
    cbv beta iota zeta delta [negb]; [|discriminate].
  destruct (PyStr.truthy (get_text root ns form_type_patterns)) eqn:Hf;
    cbv beta iota zeta delta [negb]; [|discriminate].
  apply truthy_Some in He as (e & -> & _).
  apply truthy_Some in Ht as (t & -> & _).
  apply truthy_Some in Hf as (f & -> & _).
  simpl. destruct (tax_year_of t); simpl; [|discriminate].
  intros [= <-]. exists e, t, f. repeat split; reflexivity.
Qed.

(** The metadata of a processed document are those of its parsed tree;
    the state of the transformer plays no part in them. *)
Lemma process_xml_body_metadata st xml_file data st' :
  process_xml_body st xml_file = (Ok data, st') ->
  exists tree,
    parse xml_file = Ok tree
    /\ _extract_metadata (root_node tree) (namespaces_of tree)
                         (basename xml_file) = Ok (metadata data)
    /\ organization data
       = _extract_organization_info (root_node tree) (namespaces_of tree)
           (Metadata.ein (metadata data)).
Proof.
  unfold process_xml_body.
  destruct (parse xml_file) as [tree|]; [|discriminate].
  destruct (_extract_metadata _ _ _) as [md|] eqn:Hmd; [|discriminate].
  destruct (_extract_filing_values _ _ _ _) as [[rows|] st1]; [|discriminate].
  destruct (_process_repeating_groups _ _ _ _) as [[[groups values]|] st2];
    [|discriminate].
  intros [= <- <-]. exists tree. split; [reflexivity|]. split; [exact Hmd | reflexivity].
Qed.

Lemma process_xml_file_body st xml_file data st' :
  _process_xml_file st xml_file = (Some data, st') ->
  process_xml_body st xml_file = (Ok data, st').
Proof.
  unfold _process_xml_file.
  destruct (process_xml_body st xml_file) as [[d|e] st1]; [|discriminate].
  now intros [= <- <-].
Qed.

(** C2.  For every document the transformer processes, [filing_id] is
    the employer id, the tax period and the form type it located, joined
    in that order with ['_'] between them.  Processing the same file
    again, in whatever state the transformer is, gives the same
    [filing_id], and two documents with the same three fields have the
    same [filing_id], whatever else they hold.  In the parser the key is
    the same join, present when the three fields are. *)
Theorem filing_id_from_three_fields (st : TState) (xml_file : string)
  (data : ProcessedData) (st1 : TState) :
  _process_xml_file st xml_file = (Some data, st1) ->
  (exists tree e t f,
      parse xml_file = Ok tree
      /\ get_text (root_node tree) (namespaces_of tree) ein_patterns = Some e
      /\ get_text (root_node tree) (namespaces_of tree) tax_period_patterns = Some t
      /\ get_text (root_node tree) (namespaces_of tree) form_type_patterns = Some f
      /\ Metadata.filing_id (metadata data)
         = Some (e +:+ "_" +:+ t +:+ "_" +:+ f))
  /\ (forall st' data' st1',
        _process_xml_file st' xml_file = (Some data', st1') ->
        Metadata.filing_id (metadata data') = Metadata.filing_id (metadata data))
  /\ (forall root' ns' file_name' m',
        _extract_metadata root' ns' file_name' = Ok m' ->
        Metadata.ein m' = Metadata.ein (metadata data) ->
        Metadata.tax_period m' = Metadata.tax_period (metadata data) ->
        Metadata.form_type m' = Metadata.form_type (metadata data) ->
        Metadata.filing_id m' = Metadata.filing_id (metadata data))
  /\ (forall self_namespaces root,
        let md := fst (XMLParser._extract_metadata self_namespaces root) in
        XMLParser.filing_id md
        = if PyStr.truthy (XMLParser.ein md)
             && PyStr.truthy (XMLParser.tax_period md)
             && PyStr.truthy (XMLParser.form_type md)
          then Some (default "" (XMLParser.ein md) +:+ "_"
                     +:+ default "" (XMLParser.tax_period md) +:+ "_"
                     +:+ default "" (XMLParser.form_type md))
          else None).
Proof.
  intros Hfile. apply process_xml_file_body in Hfile.
  destruct (process_xml_body_metadata _ _ _ _ Hfile) as (tree & Hparse & Hmd & _).
  destruct (extract_metadata_ok _ _ _ _ Hmd)
    as (e & t & f & He & Ht & Hf & Hme & Hmt & Hmf & Hid).
  split; [|split; [|split]].
  - exists tree, e, t, f. auto.
  - intros st' data' st1' Hfile'. apply process_xml_file_body in Hfile'.
    destruct (process_xml_body_metadata _ _ _ _ Hfile')
      as (tree' & Hparse' & Hmd' & _).
    rewrite Hparse in Hparse'. injection Hparse' as <-. congruence.
  - intros root' ns' file_name' m' Hm' Ee Et Ef.
    destruct (extract_metadata_ok _ _ _ _ Hm')
      as (e' & t' & f' & _ & _ & _ & Hme' & Hmt' & Hmf' & Hid').
    rewrite Hid, Hid'. congruence.
  - intros self_namespaces root. reflexivity.
Qed.

(** C10.  The organization record always has a country, and it is never
    empty: the foreign-address country code when one was located, the
    literal ['US'] otherwise.  This holds for the record of every
    processed document, and for the record the parser builds. *)
Theorem country_is_never_absent (root : Node) (ns : Namespaces)
  (ein : option string) :
  let located :=
    get_text root ns
      ["//*[local-name()='ForeignAddress']/*[local-name()='CountryCd']"] in
  let expected :=
    match located with
    | Some code => if String.eqb code "" then "US" else code
    | None => "US"
    end in
  expected <> ""
  /\ Organization.country (_extract_organization_info root ns ein)
     = Some (Some expected)
  /\ XMLParser.country (XMLParser._extract_organization_info ns root)
     = Some expected
  /\ (forall st xml_file data st',
        _process_xml_file st xml_file = (Some data, st') ->
        exists c, Organization.country (organization data) = Some (Some c)
                  /\ c <> "").
Proof.
  intros located expected.
  assert (Hne : forall o : option string,
             match o with
             | Some code => if String.eqb code "" then "US" else code
             | None => "US"
             end <> "").
  { intros [code|]; [|discriminate].
    destruct (String.eqb_spec code ""); [discriminate | assumption]. }
  assert (Horg : forall root ns ein,
             Organization.country (_extract_organization_info root ns ein)
             = Some (Some match get_text root ns
               ["//*[local-name()='ForeignAddress']/*[local-name()='CountryCd']"]
                                with
                                | Some code => if String.eqb code "" then "US" else code
                                | None => "US"
                                end)).
  { intros root0 ns0 ein0. unfold _extract_organization_info.
    cbv zeta. cbn [Organization.country].
    destruct (get_text root0 ns0 _) as [code|]; cbn; [|reflexivity].
    destruct (String.eqb code ""); reflexivity. }
  split; [apply Hne|]. split; [apply Horg|]. split.
  - unfold XMLParser._extract_organization_info.
    cbv zeta. cbn [XMLParser.country].
    subst expected located.
    destruct (get_text root ns _) as [code|]; cbn; [|reflexivity].
    destruct (String.eqb code ""); reflexivity.
  - intros st xml_file data st' Hfile. apply process_xml_file_body in Hfile.
    destruct (process_xml_body_metadata _ _ _ _ Hfile) as (tree & _ & _ & ->).
    eexists. split; [apply Horg | apply Hne].
Qed.
End MetadataProperties.

(** ** Errors: documents and the concordance *)

Section ErrorProperties.
Context {LX : Lxml} {HS : Host}.

Lemma transform_app (files1 files2 : list string) :
  forall st,
    transform st (files1 ++ files2)
    = let '(results1, st1) := transform st files1 in
      let '(results2, st2) := transform st1 files2 in
      (results1 ++ results2, st2).
Proof.
  induction files1 as [|f files1 IH]; intros st; simpl.
  - destruct (transform st files2); reflexivity.
  - destruct (_process_xml_file st f) as [[data|] st'].
    + rewrite IH. destruct (transform st' files1) as [r1 s1].
      destruct (transform s1 files2); reflexivity.
    + apply IH.
Qed.

Lemma missing_required_raises root ns file_name :
  missing_required root ns ->
  exists msg,
    _extract_metadata root ns file_name = Raise (XMLProcessingError msg).
Proof.
  unfold missing_required, _extract_metadata. intros H.
  destruct (PyStr.truthy (get_text root ns ein_patterns));
    cbv beta iota zeta delta [negb]; [|eauto].
  destruct (PyStr.truthy (get_text root ns tax_period_patterns));
    cbv beta iota zeta delta [negb]; [|eauto].
  destruct (PyStr.truthy (get_text root ns form_type_patterns));
    cbv beta iota zeta delta [negb]; [|eauto].
  destruct H as [H|[H|H]]; discriminate.
Qed.

Lemma failed_document st xml_file tree msg :
  parse xml_file = Ok tree ->
  _extract_metadata (root_node tree) (namespaces_of tree) (basename xml_file)
  = Raise (XMLProcessingError msg) ->
  forall rest,
    _process_xml_file st xml_file
    = (None, logger ERROR ("Error processing XML file " +:+ xml_file
                           +:+ ": " +:+ msg) st)
    /\ transform st (xml_file :: rest)
       = transform (add_records st (failure_records xml_file msg)) rest.
Proof.
  intros Hparse Hmd rest.
  assert (H : _process_xml_file st xml_file
              = (None, logger ERROR ("Error processing XML file " +:+ xml_file
                                     +:+ ": " +:+ msg) st)).
  { unfold _process_xml_file, process_xml_body. rewrite Hparse, Hmd. reflexivity. }
  split; [exact H|]. simpl. rewrite H.
  unfold add_records, failure_records, logger, set_log. simpl.
  rewrite <- app_assoc. reflexivity.
Qed.

Lemma column_index_None (col : string) (cols : list string) :
  ~ In col cols -> column_index col cols = None.
Proof.
  induction cols as [|c cols IH]; simpl; intros Hn; [reflexivity|].
  destruct (String.eqb_spec col c) as [->|_]; [tauto|].
  rewrite IH; [reflexivity | tauto].
Qed.

Lemma cell_without_column df row canonical legacy :
  ~ In canonical (columns df) -> ~ In legacy (columns df) ->
  cell df row (pick_column df canonical legacy) = None.
Proof.
  intros Hc Hl. unfold cell, pick_column.
  destruct (PyStr.mem canonical (columns df)) eqn:Hm.
  - apply mem_In in Hm. tauto.
  - now rewrite column_index_None.
Qed.

Lemma concordance_row_skips df acc row :
  lacks_required_column df -> concordance_row df acc row = acc.
Proof.
  intros Hlack. unfold concordance_row. destruct acc as [st field_id].
  destruct Hlack as [[H1 H2]|[H1 H2]].
  - rewrite (cell_without_column df row _ _ H1 H2). reflexivity.
  - rewrite (cell_without_column df row "xpath" "XPATH" H1 H2).
    destruct (cell df row (pick_column df "variable_name" "VAR_NAME"));
      reflexivity.
Qed.

Lemma concordance_rows_skip df rws acc :
  lacks_required_column df -> fold_left (concordance_row df) rws acc = acc.
Proof.
  intros Hlack. induction rws as [|row rws IH]; simpl; [reflexivity|].
  now rewrite concordance_row_skips.
Qed.

(** C8, as the code has it.  A document that lacks a required metadata
    field makes [_extract_metadata] raise; the document gives no result,
    not a partial one, and the batch goes on: wherever the document
    stands in the batch, the results are those of the documents before it
    followed by those of the documents after it, and the log holds an
    error record and a warning record for it.  Loading the concordance
    raises [ConcordanceError] when the file is missing and when
    [read_csv] fails on it.  A concordance that can be read but lacks a
    required column does not raise: every row is skipped and the
    registry comes up empty. *)
Theorem errors_are_scoped (xml_file : string) (tree : Tree) :
  parse xml_file = Ok tree ->
  missing_required (root_node tree) (namespaces_of tree) ->
  (exists msg,
      _extract_metadata (root_node tree) (namespaces_of tree) (basename xml_file)
      = Raise (XMLProcessingError msg)
      /\ (forall st, fst (_process_xml_file st xml_file) = None)
      /\ (forall st before after_,
            transform st (before ++ xml_file :: after_)
            = let '(results1, st1) := transform st before in
              let '(results2, st2) :=
                transform (add_records st1 (failure_records xml_file msg)) after_ in
              (results1 ++ results2, st2)))
  /\ (forall path,
        path_exists path = false ->
        exists msg, IRS990Transformer path = Raise (ConcordanceError msg))
  /\ (forall path e,
        read_csv path = Raise e ->
        exists msg, IRS990Transformer path = Raise (ConcordanceError msg))
  /\ (forall path df,
        path_exists path = true ->
        read_csv path = Ok df ->
        lacks_required_column df ->
        IRS990Transformer path = Ok (mkTState path [] [] [] true [])).
Proof.
  intros Hparse Hmissing.
  destruct (missing_required_raises _ _ (basename xml_file) Hmissing)
    as (msg & Hmd).
  split; [|split; [|split]].
  - exists msg. split; [exact Hmd|]. split.
    + intros st.
      destruct (failed_document st xml_file tree msg Hparse Hmd []) as [-> _].
      reflexivity.
    + intros st before after_. rewrite transform_app.
      destruct (transform st before) as [results1 st1].
      destruct (failed_document st1 xml_file tree msg Hparse Hmd after_)
        as [_ ->].
      reflexivity.
  - intros path Hno. unfold IRS990Transformer, _load_concordance. simpl.
    rewrite Hno. simpl. eauto.
  - intros path e Hcsv. unfold IRS990Transformer, _load_concordance. simpl.
    destruct (path_exists path); simpl; [|eauto].
    rewrite Hcsv. simpl. eauto.
  - intros path df Hex Hcsv Hlack.
    unfold IRS990Transformer, _load_concordance. simpl.
    rewrite Hex, Hcsv. simpl.
    rewrite (concordance_rows_skip df (rows df) _ Hlack). reflexivity.
Qed.
End ErrorProperties.

(** ** Group validation *)

Section CountingProperties.
Context `{Countable K}.

Lemma cnt_count_step (m : gmap K nat) (a k : K) :
  cnt (count_step m a) k
  = (cnt m k + if bool_decide (a = k) then 1 else 0)%nat.
Proof.
  unfold cnt, count_step. case_bool_decide as Hak.
  - subst a. destruct (m !! k) as [c|] eqn:Hk;
      rewrite lookup_insert_eq; simpl; lia.
  - destruct (m !! a) as [c|]; rewrite lookup_insert_ne by exact Hak; lia.
Qed.

Lemma cnt_fold (ks : list K) :
  forall (m : gmap K nat) (k : K),
    cnt (fold_left count_step ks m) k = (cnt m k + occurrences k ks)%nat.
Proof.
  unfold occurrences.
  induction ks as [|a ks IH]; intros m k; simpl; [lia|].
  rewrite IH, cnt_count_step. case_bool_decide; simpl; lia.
Qed.

Lemma cnt_count_keys (ks : list K) (k : K) :
  cnt (count_keys ks) k = occurrences k ks.
Proof.
  unfold count_keys. rewrite cnt_fold. unfold cnt.
  now rewrite lookup_empty.
Qed.

Lemma any_repeated_cnt (m : gmap K nat) :
  any_repeated m = true <-> exists k, (1 < cnt m k)%nat.
Proof.
  unfold any_repeated, cnt. rewrite existsb_exists. split.
  - intros ([k c] & Hin & Hc). simpl in Hc.
    apply list_elem_of_In, elem_of_map_to_list in Hin.
    exists k. rewrite Hin. simpl. now apply Nat.ltb_lt.
  - intros (k & Hk). destruct (m !! k) as [c|] eqn:Hmk; simpl in Hk; [|lia].
    exists (k, c). split.
    + now apply list_elem_of_In, elem_of_map_to_list.
    + now apply Nat.ltb_lt.
Qed.

Lemma occurrences_pos (ks : list K) (k : K) :
  (0 < occurrences k ks)%nat <-> exists i, ks !! i = Some k.
Proof.
  unfold occurrences. induction ks as [|a ks IH]; simpl.
  - split; [lia | intros [i Hi]; discriminate].
  - case_bool_decide as Hak; simpl.
    + subst a. split; [intros _; now exists 0%nat | lia].
    + rewrite IH. split.
      * intros [i Hi]. now exists (S i).
      * intros [[|i] Hi]; simpl in Hi; [congruence | eauto].
Qed.

Lemma occurrences_twice (ks : list K) (k : K) :
  (1 < occurrences k ks)%nat
  <-> exists i j, (i < j)%nat /\ ks !! i = Some k /\ ks !! j = Some k.
Proof.
  induction ks as [|a ks IH].
  - unfold occurrences. simpl. split; [lia | intros (i & j & _ & Hi & _); discriminate].
  - pose proof (occurrences_pos ks k) as Hpos.
    unfold occurrences in *. simpl. case_bool_decide as Hak; simpl.
    + subst a. split.
      * intros Hlt. destruct (proj1 Hpos ltac:(lia)) as [j Hj].
        exists 0%nat, (S j). repeat split; [lia | exact Hj].
      * intros (i & j & Hij & Hi & Hj). destruct j as [|j]; [lia|].
        simpl in Hj. assert (0 < List.length
                                    (List.filter (fun k' => bool_decide (k' = k)) ks))%nat
          by (apply Hpos; eauto). lia.
    + rewrite IH. split.
      * intros (i & j & Hij & Hi & Hj). exists (S i), (S j).
        repeat split; [lia | exact Hi | exact Hj].
      * intros (i & j & Hij & Hi & Hj).
        destruct i as [|i]; simpl in Hi; [congruence|].
        destruct j as [|j]; [lia|]. simpl in Hj.
        exists i, j. repeat split; [lia | exact Hi | exact Hj].
Qed.

(** The counting loop finds a repetition exactly when two positions of
    the list hold the same key. *)
Lemma any_repeated_count_keys (ks : list K) :
  any_repeated (count_keys ks) = true
  <-> exists i j k, (i < j)%nat /\ ks !! i = Some k /\ ks !! j = Some k.
Proof.
  rewrite any_repeated_cnt. split.
  - intros (k & Hk). rewrite cnt_count_keys in Hk.
    apply occurrences_twice in Hk as (i & j & Hij). now exists i, j, k.
  - intros (i & j & k & Hij). exists k. rewrite cnt_count_keys.
    apply occurrences_twice. now exists i, j.
Qed.
End CountingProperties.

Lemma map_lookup {A B} (f : A -> B) (l : list A) (i : nat) :
  List.map f l !! i = option_map f (l !! i).
Proof.
  revert i. induction l as [|a l IH]; intros [|i]; simpl; auto.
Qed.

Lemma sorted_insert_perm (x : string) (l : list string) :
  Permutation (sorted_insert x l) (x :: l).
Proof.
  induction l as [|y l IH]; simpl; [reflexivity|].
  destruct (String.leb x y); [reflexivity|].
  rewrite IH. apply perm_swap.
Qed.

Lemma sorted_perm (l : list string) : Permutation (sorted l) l.
Proof.
  induction l as [|x l IH]; simpl; [reflexivity|].
  rewrite sorted_insert_perm. now constructor.
Qed.

Lemma structure_key_same_shape (a b : Node) :
  structure_key a = structure_key b -> same_shape a b.
Proof.
  unfold structure_key, same_shape. intros Hkey x.
  assert (Hp : Permutation (child_names a) (child_names b)).
  { rewrite <- (sorted_perm (child_names a)), Hkey. apply sorted_perm. }
  split; intros Hx.
  - eapply Permutation_in; eauto.
  - eapply Permutation_in; [symmetry|]; eauto.
Qed.

(** What [validates] computes: two children of the candidate have the
    same sorted tuple of grandchild names. *)
Lemma validates_iff (element : Node) :
  validates element = true
  <-> exists i j ci cj,
        (i < j)%nat
        /\ children element !! i = Some ci
        /\ children element !! j = Some cj
        /\ structure_key ci = structure_key cj.
Proof.
  unfold validates.
  assert (Hcount : any_repeated (count_keys (List.map structure_key (children element))) = true
                   <-> exists i j ci cj,
                         (i < j)%nat
                         /\ children element !! i = Some ci
                         /\ children element !! j = Some cj
                         /\ structure_key ci = structure_key cj).
  { rewrite any_repeated_count_keys. split.
    - intros (i & j & k & Hij & Hi & Hj). rewrite map_lookup in Hi, Hj.
      destruct (children element !! i) as [ci|] eqn:Hci; [|discriminate].
      destruct (children element !! j) as [cj|] eqn:Hcj; [|discriminate].
      simpl in Hi, Hj. exists i, j, ci, cj.
      split; [exact Hij|]. split; [exact Hci|]. split; [exact Hcj|].
      congruence.
    - intros (i & j & ci & cj & Hij & Hi & Hj & Hkey).
      exists i, j, (structure_key ci). rewrite !map_lookup, Hi, Hj. simpl.
      split; [exact Hij|]. split; [reflexivity|]. congruence. }
  destruct (children element) as [|c cs] eqn:Hcs; [|exact Hcount].
  split; [discriminate|]. intros (i & j & ci & cj & _ & Hi & _). discriminate.
Qed.

Lemma validates_shape_recurs (element : Node) :
  validates element = true -> shape_recurs element.
Proof.
  intros Hv. apply validates_iff in Hv as (i & j & ci & cj & Hij & Hi & Hj & Hkey).
  exists i, j, ci, cj. repeat split; try assumption;
    now apply structure_key_same_shape.
Qed.

Lemma shapes_distinct_rejected (element : Node) :
  shapes_distinct element -> validates element = false.
Proof.
  intros Hd. destruct (validates element) eqn:Hv; [|reflexivity].
  apply validates_shape_recurs in Hv as (i & j & ci & cj & Hij & Hi & Hj & Hs).
  exfalso. apply (Hd i j ci cj); [lia | assumption..].
Qed.

Lemma one_child_shapes_distinct (element : Node) :
  List.length (children element) = 1%nat -> shapes_distinct element.
Proof.
  intros Hlen i j ci cj Hij Hi Hj.
  apply lookup_lt_Some in Hi, Hj. lia.
Qed.

(** C6.  Validation confirms a candidate only if the set of grandchild
    local names of one of its immediate children recurs in another of
    them.  A container with exactly one child is never confirmed, nor is a
    container whose children have pairwise distinct shapes; when every
    candidate is of one of these two kinds, validation confirms no group
    at all. *)
Theorem validation_needs_recurring_shape
  (potential_groups : list (Node * string)) (element : Node) (name : string) :
  (In (element, name) (_validate_groups potential_groups) ->
   In (element, name) potential_groups /\ shape_recurs element)
  /\ (List.length (children element) = 1%nat ->
      ~ In (element, name) (_validate_groups potential_groups))
  /\ (shapes_distinct element ->
      ~ In (element, name) (_validate_groups potential_groups))
  /\ ((forall en, In en potential_groups ->
         List.length (children (fst en)) = 1%nat \/ shapes_distinct (fst en)) ->
      _validate_groups potential_groups = []).
Proof.
  unfold _validate_groups.
  assert (Hrej : shapes_distinct element ->
                 ~ In (element, name)
                      (List.filter (fun en => validates (fst en)) potential_groups)).
  { intros Hd Hin. apply filter_In in Hin as [_ Hv]. simpl in Hv.
    now rewrite shapes_distinct_rejected in Hv. }
  split; [|split; [|split]].
  - intros Hin. apply filter_In in Hin as [Hin Hv]. split; [exact Hin|].
    now apply validates_shape_recurs.
  - intros Hone. apply Hrej. now apply one_child_shapes_distinct.
  - exact Hrej.
  - intros Hall. induction potential_groups as [|en pg IH]; simpl; [reflexivity|].
    assert (Hv : validates (fst en) = false).
    { apply shapes_distinct_rejected.
      destruct (Hall en (or_introl eq_refl)) as [Hone|Hd];
        [now apply one_child_shapes_distinct | exact Hd]. }
    rewrite Hv. apply IH.
    + intros Hd Hin. apply Hrej; [exact Hd|]. simpl. now rewrite Hv.
    + intros en' Hen'. apply Hall. now right.
Qed.

(** ** Repeating groups through the transformer and the loader *)

Section GroupRowsExample.
Import Examples.
Variable serialize : Tree -> string.
Variable digest : string -> string.

(** C1, on the code.  For a return whose [OfficerGrp] has two rows the
    transformer returns four group values.  The two values of a field
    carry the same [group_id] and [field_id] and nothing that tells the
    rows apart: a group value has no [instance_index].  The loader
    conflicts on [(group_id, field_id)].  With the default batch size
    the four values are one statement, which the store rejects, and the
    document leaves no row; with a batch size of two the second row
    overwrites the first, and one row per field is stored. *)
Theorem group_rows_collide :
  let data := officers_data (digest (serialize officers_doc)) in
  @IRS990Transformer (HS digest) "concordance.csv" = Ok officers_state
  /\ @transform (LX serialize) (HS digest) officers_state ["a.xml"]
     = ([data], officers_state)
  /\ List.map (fun v => (GroupValue.group_id v, GroupValue.field_id v))
              (group_values data)
     = [(1, 1); (1, 2); (1, 1); (1, 2)]%Z
  /\ (exists msg,
        load 100 empty_db [data]
        = ([Error msg "123456789_2020-12-31_990"],
           mkDb (db_tables empty_db) 1))
  /\ repeating_group_values (db_tables (snd (load 2 empty_db [data])))
     = [GroupValueRow.mk 1 1 (text_slot "Jane Doe");
        GroupValueRow.mk 1 2 (text_slot "Treasurer")].
Proof.
  split; [vm_compute; reflexivity|].
  split; [vm_compute; reflexivity|].
  split; [reflexivity|].
  split; [eexists; vm_compute; reflexivity|].
  vm_compute; reflexivity.
Qed.

(** C7, on the code.  Two documents are loaded into an empty store.  The
    second has a group nested in another and names the enclosing group
    by its client-side id [1].  The store gives the enclosing group the
    id [2], yet the nested group is stored with parent [1], which is the
    group of the first document. *)
Theorem nested_parent_is_not_remapped :
  let '(results, db) := load 100 empty_db [first_data; nested_data] in
  results = [Success "111111111_2020-12-31_990" 0 1 0;
             Success "222222222_2020-12-31_990" 0 2 0]
  /\ repeating_groups_tbl (db_tables db)
     = [GroupRow.mk 1 "111111111_2020-12-31_990" None
          (Some "grants") (Some "/Return/ReturnData/GrantGrp");
        GroupRow.mk 2 "222222222_2020-12-31_990" None
          (Some "grants") (Some "/Return/ReturnData/GrantGrp");
        GroupRow.mk 3 "222222222_2020-12-31_990" (Some 1%Z)
          (Some "payments")
          (Some "/Return/ReturnData/GrantGrp/Grant/PaymentGrp")].
Proof. vm_compute. split; reflexivity. Qed.

(** The claim of C4 fails for the return of the examples.  The
    transformer gives one document for it; a loader with the default
    batch size is given the document twice.  Both loads are rolled
    back, on the statement that upserts the group values (it proposes
    each key twice), and the store holds no organization row for the
    employer id and no filing row for the filing id, where the claim
    has one of each. *)
Theorem loading_twice_stores_no_entity_row :
  let data := officers_data (digest (serialize officers_doc)) in
  let rejected :=
    Error ("Error loading filing 123456789_2020-12-31_990: "
           +:+ "ON CONFLICT DO UPDATE command cannot affect row a second time")
          "123456789_2020-12-31_990" in
  let first := load 100 empty_db [data] in
  let second := load 100 (snd first) [data] in
  @transform (LX serialize) (HS digest) officers_state ["a.xml"]
  = ([data], officers_state)
  /\ Organization.ein (organization data) = Some "123456789"
  /\ Metadata.filing_id (metadata data) = Some "123456789_2020-12-31_990"
  /\ fst first = [rejected]
  /\ fst second = [rejected]
  /\ org_count (snd second) "123456789" = 0%nat
  /\ filing_count (snd second) "123456789_2020-12-31_990" = 0%nat
  /\ db_tables (snd second) = db_tables empty_db.
Proof.
  split; [vm_compute; reflexivity|].
  split; [reflexivity|]. split; [reflexivity|].
  split; [vm_compute; reflexivity|].
  split; [vm_compute; reflexivity|].
  split; [vm_compute; reflexivity|].
  split; [vm_compute; reflexivity|].
  vm_compute; reflexivity.
Qed.
End GroupRowsExample.

(** ** The merge of organizations and filings *)

Lemma COALESCE_None {A} (b : option A) : COALESCE None b = b.
Proof. reflexivity. Qed.

Lemma existsb_false_lookup {A} (p : A -> bool) (l : list A) (i : nat) (a : A) :
  existsb p l = false -> l !! i = Some a -> p a = false.
Proof.
  intros Hex Hi. destruct (p a) eqn:Hp; [|reflexivity].
  assert (existsb p l = true); [|congruence].
  apply existsb_exists. exists a. split; [|exact Hp].
  apply list_elem_of_In. eapply list_elem_of_lookup_2; eauto.
Qed.

(** What the two updates keep.  In the Organization upsert an attribute
    that is absent from the incoming data leaves the stored column as it
    was, for each of the eight attributes and for every stored row.  In
    the Filing upsert the stored employer id, tax period, form type and
    submission date are left as they were, whatever the incoming data;
    the object id, the form version and the tax year of the filing that
    is reloaded take the incoming values, present or absent. *)
Lemma merge_keeps_absent_attributes (db : Db) (o : Organization.t)
  (m : Metadata.t) :
  (forall db' i r,
      _load_organization db o = Done db' ->
      organizations (db_tables db) !! i = Some r ->
      exists r',
        organizations (db_tables db') !! i = Some r'
        /\ OrgRow.ein r' = OrgRow.ein r
        /\ (Organization.name o = None -> OrgRow.name r' = OrgRow.name r)
        /\ (Organization.address_line1 o = None ->
            OrgRow.address_line1 r' = OrgRow.address_line1 r)
        /\ (Organization.address_line2 o = None ->
            OrgRow.address_line2 r' = OrgRow.address_line2 r)
        /\ (Organization.city o = None -> OrgRow.city r' = OrgRow.city r)
        /\ (Organization.state o = None -> OrgRow.state r' = OrgRow.state r)
        /\ (Organization.zip o = None -> OrgRow.zip r' = OrgRow.zip r)
        /\ (mjoin (Organization.country o) = None ->
            OrgRow.country r' = OrgRow.country r)
        /\ (Organization.website o = None -> OrgRow.website r' = OrgRow.website r))
  /\ (forall db' i r,
        _load_filing_record db m = Done db' ->
        filings (db_tables db) !! i = Some r ->
        exists r',
          filings (db_tables db') !! i = Some r'
          /\ FilingRow.filing_id r' = FilingRow.filing_id r
          /\ FilingRow.ein r' = FilingRow.ein r
          /\ FilingRow.tax_period r' = FilingRow.tax_period r
          /\ FilingRow.form_type r' = FilingRow.form_type r
          /\ FilingRow.submission_date r' = FilingRow.submission_date r
          /\ if String.eqb (FilingRow.filing_id r) (default "" (Metadata.filing_id m))
             then FilingRow.object_id r' = Metadata.object_id m
                  /\ FilingRow.form_version r' = Metadata.form_version m
                  /\ FilingRow.tax_year r' = Metadata.tax_year m
             else r' = r).
Proof.
  split.
  - intros db' i r Hload Hi. unfold _load_organization in Hload.
    destruct (negb (PyStr.truthy (Organization.ein o))); [discriminate|].
    destruct (Sql.organization_exists db (default "" (Organization.ein o)));
      injection Hload as <-; simpl.
    + rewrite map_lookup, Hi. simpl.
      destruct (String.eqb (OrgRow.ein r) (default "" (Organization.ein o))).
      * eexists. split; [reflexivity|]. simpl.
        repeat split; intros ->; reflexivity.
      * exists r. repeat split; reflexivity.
    + exists r. split; [|repeat split; reflexivity].
      apply lookup_app_l_Some. exact Hi.
  - intros db' i r Hload Hi. unfold _load_filing_record in Hload.
    destruct (negb (PyStr.truthy (Metadata.filing_id m))
              || negb (PyStr.truthy (Metadata.ein m))); [discriminate|].
    destruct (Sql.filing_exists db (default "" (Metadata.filing_id m))) eqn:Hex;
      injection Hload as <-; simpl.
    + rewrite map_lookup, Hi. simpl.
      destruct (String.eqb (FilingRow.filing_id r)
                           (default "" (Metadata.filing_id m))).
      * eexists. split; [reflexivity|]. simpl. repeat split; reflexivity.
      * exists r. repeat split; reflexivity.
    + unfold Sql.filing_exists in Hex.
      rewrite (existsb_false_lookup _ _ i r Hex Hi).
      exists r. split; [|repeat split; reflexivity].
      apply lookup_app_l_Some. exact Hi.
Qed.

(** The claim of C9 fails for filings.  The stored filing has an object
    id, a version and a year; the incoming metadata have none of the
    three; after the upsert the three stored columns are null.  The
    organization upsert, given data that carry the employer id only,
    leaves the stored row as it was. *)
Lemma filing_update_overwrites_with_null :
  FilingRow.object_id Examples.stored_filing = Some "a.xml"
  /\ FilingRow.form_version Examples.stored_filing = Some "2020v4.0"
  /\ FilingRow.tax_year Examples.stored_filing = Some 2020%Z
  /\ Metadata.object_id Examples.bare_metadata = None
  /\ Metadata.form_version Examples.bare_metadata = None
  /\ Metadata.tax_year Examples.bare_metadata = None
  /\ (exists db' r',
        _load_filing_record Examples.one_filing_db Examples.bare_metadata = Done db'
        /\ filings (db_tables db') = [r']
        /\ FilingRow.object_id r' = None
        /\ FilingRow.form_version r' = None
        /\ FilingRow.tax_year r' = None
        /\ FilingRow.form_version r'
           <> FilingRow.form_version Examples.stored_filing)
  /\ _load_organization Examples.one_org_db Examples.bare_organization
     = Done Examples.one_org_db.
Proof.
  repeat (split; [reflexivity|]). split; [|reflexivity].
  eexists _, _. repeat (split; [reflexivity|]). discriminate.
Qed.

(** ** Hierarchy of the confirmed groups *)

Lemma string_app_length (a b : string) :
  String.length (a +:+ b) = (String.length a + String.length b)%nat.
Proof. induction a as [|c a IH]; simpl; [reflexivity | now rewrite IH]. Qed.

Lemma string_app_assoc (a b c : string) : (a +:+ b) +:+ c = a +:+ (b +:+ c).
Proof.
  induction a as [|x a IH]; [reflexivity|].
  change (String x ((a +:+ b) +:+ c) = String x (a +:+ (b +:+ c))).
  now rewrite IH.
Qed.

Lemma string_prefix_iff (p s : string) :
  String.prefix p s = true <-> exists rest, s = p +:+ rest.
Proof.
  revert p. induction s as [|b s IH]; intros [|a p]; simpl.
  - split; [intros _; now exists "" | reflexivity].
  - split; [discriminate | intros [r Hr]; discriminate].
  - split; [intros _; now exists (String b s) | reflexivity].
  - destruct (ascii_dec a b) as [->|Hab].
    + rewrite IH. split; intros [r Hr]; exists r.
      * now rewrite Hr.
      * now injection Hr.
    + split; [discriminate | intros [r Hr]; injection Hr; congruence].
Qed.

Lemma string_app_same_length (a b c d : string) :
  a +:+ b = c +:+ d -> String.length a = String.length c -> a = c.
Proof.
  revert c. induction a as [|x a IH]; intros [|y c]; simpl; try discriminate.
  - reflexivity.
  - intros [= -> Heq] [= Hlen]. f_equal. now apply IH.
Qed.

Lemma startswith_seg_prefix (child path : string) :
  PyStr.startswith child (path +:+ "/") = true <-> seg_prefix path child.
Proof.
  unfold PyStr.startswith, seg_prefix. rewrite string_prefix_iff.
  split; intros [r Hr]; exists r.
  - now rewrite Hr, string_app_assoc.
  - now rewrite string_app_assoc.
Qed.

Lemma seg_prefix_shorter (p c : string) :
  seg_prefix p c -> (String.length p < String.length c)%nat.
Proof. intros [r ->]. rewrite string_app_length. simpl. lia. Qed.

Lemma seg_prefix_unique (p q c : string) :
  seg_prefix p c -> seg_prefix q c -> String.length p = String.length q -> p = q.
Proof. intros [r ->] [r' Hr'] Hlen. eapply string_app_same_length; eauto. Qed.

Lemma sget_sset {V} (k k' : string) (v : V) (d : list (string * V)) :
  sget k (sset k' v d) = if String.eqb k k' then Some v else sget k d.
Proof.
  induction d as [|[k0 v0] d IH]; simpl.
  - reflexivity.
  - destruct (String.eqb_spec k' k0) as [->|Hne]; simpl.
    + destruct (String.eqb k k0); reflexivity.
    + rewrite IH. destruct (String.eqb_spec k k0) as [->|_]; [|reflexivity].
      destruct (String.eqb_spec k0 k'); [congruence | reflexivity].
Qed.

Lemma sset_keys {V} (k : string) (v : V) (d : list (string * V)) :
  forall x, In x (List.map fst (sset k v d)) <-> x = k \/ In x (List.map fst d).
Proof.
  induction d as [|[k0 v0] d IH]; intros x; simpl.
  - intuition.
  - destruct (String.eqb_spec k k0) as [->|Hne]; simpl.
    + intuition.
    + rewrite IH. intuition.
Qed.

Section HierarchyProperties.
Context {LX : Lxml}.

Lemma parent_step_closest child seen acc entry :
  closest child seen acc ->
  closest child (seen ++ [fst entry]) (parent_step child acc entry).
Proof.
  destruct acc as [pp len]. intros [Hbest Hall].
  unfold parent_step. simpl in *.
  assert (Hkeep : (forall q, In q [fst entry] -> seg_prefix q child ->
                             (String.length q <= len)%nat) ->
                  closest child (seen ++ [fst entry]) (pp, len)).
  { intros Hnew. split; simpl.
    - destruct pp as [p|]; [|exact Hbest].
      destruct Hbest as (Hin & Hrest). split; [|exact Hrest].
      apply in_or_app. now left.
    - intros q Hq. apply in_app_or in Hq as [Hq|Hq]; [now apply Hall | now apply Hnew]. }
  destruct (String.eqb_spec (fst entry) child) as [Heq|Hne]; simpl.
  { apply Hkeep. intros q [<-|[]] Hseg. apply seg_prefix_shorter in Hseg.
    rewrite Heq in Hseg. lia. }
  destruct (Nat.leb_spec (String.length (fst entry)) len) as [Hle|Hgt].
  { apply Hkeep. now intros q [<-|[]] _. }
  destruct (PyStr.startswith child (fst entry +:+ "/")) eqn:Hsw.
  - apply startswith_seg_prefix in Hsw. split; simpl.
    + split; [apply in_or_app; right; now left|].
      split; [exact Hsw|]. split; [reflexivity | lia].
    + intros q Hq Hseg. apply in_app_or in Hq as [Hq|[<-|[]]]; [|lia].
      specialize (Hall q Hq Hseg). lia.
  - apply Hkeep. intros q [<-|[]] Hseg.
    apply startswith_seg_prefix in Hseg. congruence.
Qed.

Lemma parent_fold_closest child (l : list (string * Node)) :
  forall seen acc,
    closest child seen acc ->
    closest child (seen ++ List.map fst l) (fold_left (parent_step child) l acc).
Proof.
  induction l as [|entry l IH]; intros seen acc Hacc; simpl.
  - now rewrite app_nil_r.
  - replace (seen ++ fst entry :: List.map fst l)
      with ((seen ++ [fst entry]) ++ List.map fst l)
      by (now rewrite <- app_assoc).
    apply IH. now apply parent_step_closest.
Qed.

(** The inner loop returns the longest non-empty path of a group that
    is a strict, segment-aligned prefix of the child's path, and [None]
    when there is none. *)
Lemma find_parent_spec (group_paths : list (string * Node)) (child : string) :
  match find_parent group_paths child with
  | Some p =>
      In p (List.map fst group_paths) /\ seg_prefix p child /\ p <> ""
      /\ forall q, In q (List.map fst group_paths) -> seg_prefix q child ->
                   (String.length q <= String.length p)%nat
  | None =>
      forall q, In q (List.map fst group_paths) -> seg_prefix q child -> q = ""
  end.
Proof.
  unfold find_parent.
  pose proof (parent_fold_closest child group_paths [] (None, 0%nat)) as H.
  simpl in H. destruct (fold_left _ _ _) as [pp len].
  destruct H as [Hbest Hall]; [split; simpl; [reflexivity | intros q []]|].
  simpl in *. destruct pp as [p|].
  - destruct Hbest as (Hin & Hseg & Hlen & Hpos). repeat split; try assumption.
    + intros ->. simpl in Hlen. lia.
    + intros q Hq Hs. rewrite <- Hlen. now apply Hall.
  - intros q Hq Hs. specialize (Hall q Hq Hs). subst len.
    destruct q; [reflexivity | simpl in Hall; lia].
Qed.

Lemma group_paths_keys (groups : list (Node * string)) :
  forall d x,
    In x (List.map fst
            (fold_left (fun d en => sset (getpath (fst en)) (fst en) d) groups d))
    <-> In x (List.map fst d) \/ In x (group_path_list groups).
Proof.
  unfold group_path_list.
  induction groups as [|en groups IH]; intros d x; simpl; [intuition|].
  rewrite IH, sset_keys. intuition.
Qed.

(** The outer loop: a child that was visited has the parent the inner
    loop found for it. *)
Lemma hierarchy_fold (F : string -> option string) (l : list (string * Node)) :
  forall (h : list (string * string)) (c : string),
    sget c (fold_left
              (fun group_hierarchy entry =>
                 match F (fst entry) with
                 | Some p => if String.eqb p "" then group_hierarchy
                             else sset (fst entry) p group_hierarchy
                 | None => group_hierarchy
                 end) l h)
    = if PyStr.mem c (List.map fst l) then
        match F c with
        | Some p => if String.eqb p "" then sget c h else Some p
        | None => sget c h
        end
      else sget c h.
Proof.
  induction l as [|entry l IH]; intros h c; [reflexivity|].
  cbn [fold_left List.map]. rewrite IH. clear IH.
  set (h' := match F (fst entry) with
             | Some p => if String.eqb p "" then h else sset (fst entry) p h
             | None => h
             end).
  assert (Hh' : sget c h'
                = if String.eqb c (fst entry) then
                    match F c with
                    | Some p => if String.eqb p "" then sget c h else Some p
                    | None => sget c h
                    end
                  else sget c h).
  { subst h'. destruct (String.eqb_spec c (fst entry)) as [->|Hne].
    - destruct (F (fst entry)) as [p|]; [|reflexivity].
      destruct (String.eqb p ""); [reflexivity|].
      rewrite sget_sset. now rewrite String.eqb_refl.
    - destruct (F (fst entry)) as [p|]; [|reflexivity].
      destruct (String.eqb p ""); [reflexivity|].
      rewrite sget_sset.
      destruct (String.eqb_spec c (fst entry)); [congruence|reflexivity]. }
  rewrite Hh'. unfold PyStr.mem. cbn [existsb].
  destruct (String.eqb c (fst entry)); cbn [orb]; [|reflexivity].
  destruct (existsb (String.eqb c) (List.map fst l)); [|reflexivity].
  destruct (F c) as [p|]; [|reflexivity].
  destruct (String.eqb p ""); reflexivity.
Qed.

(** What [build_group_hierarchy] records for a confirmed group. *)
Lemma build_group_hierarchy_closest (groups : list (Node * string))
  (child : Node) (name : string) :
  In (child, name) groups ->
  match sget (getpath child) (build_group_hierarchy groups) with
  | Some p =>
      In p (group_path_list groups) /\ seg_prefix p (getpath child) /\ p <> ""
      /\ forall q, In q (group_path_list groups) ->
                   seg_prefix q (getpath child) ->
                   (String.length q <= String.length p)%nat
  | None =>
      forall q, In q (group_path_list groups) ->
                seg_prefix q (getpath child) -> q = ""
  end.
Proof.
  intros Hin. unfold build_group_hierarchy.
  set (group_paths := fold_left _ groups []).
  assert (Hkeys : forall x, In x (List.map fst group_paths)
                            <-> In x (group_path_list groups)).
  { intros x. subst group_paths. rewrite group_paths_keys. simpl. intuition. }
  rewrite (hierarchy_fold (find_parent group_paths) group_paths [] (getpath child)).
  assert (Hmem : PyStr.mem (getpath child) (List.map fst group_paths) = true).
  { apply mem_In, Hkeys. unfold group_path_list.
    now apply (in_map (fun en => getpath (fst en)) _ (child, name)). }
  rewrite Hmem.
  pose proof (find_parent_spec group_paths (getpath child)) as Hspec.
  destruct (find_parent group_paths (getpath child)) as [p|]; simpl.
  - destruct Hspec as (Hp & Hseg & Hne & Hmax).
    destruct (String.eqb_spec p ""); [congruence|].
    repeat split; try assumption.
    + now apply Hkeys.
    + intros q Hq. apply Hmax. now apply Hkeys.
  - intros q Hq. apply Hspec. now apply Hkeys.
Qed.
End HierarchyProperties.

(** ** Upserts *)

Section UpsertProperties.
Context {R K : Type} (key : R -> K) (eqb : K -> K -> bool).
Hypothesis eqb_eq : forall a b, eqb a b = true <-> a = b.

Local Abbreviation upsert := (Sql.upsert_row key eqb).
Local Abbreviation lookup_key := (find_key key eqb).

Lemma eqb_neq a b : eqb a b = false <-> a <> b.
Proof using eqb_eq.
  destruct (eqb a b) eqn:E.
  - apply eqb_eq in E. split; [discriminate | tauto].
  - split; [|reflexivity]. intros _ Hab. apply eqb_eq in Hab. congruence.
Qed.

Lemma existsb_key (tbl : list R) (k : K) :
  existsb (fun r' => eqb (key r') k) tbl = true <-> In k (List.map key tbl).
Proof using eqb_eq.
  rewrite existsb_exists, in_map_iff. split.
  - intros (r & Hr & E). apply eqb_eq in E. eauto.
  - intros (r & E & Hr). exists r. split; [exact Hr | now apply eqb_eq].
Qed.

Lemma replace_keys (tbl : list R) (r : R) :
  List.map key (List.map (fun r' => if eqb (key r') (key r) then r else r') tbl)
  = List.map key tbl.
Proof using eqb_eq.
  induction tbl as [|r' tbl IH]; simpl; [reflexivity|]. rewrite IH. f_equal.
  destruct (eqb (key r') (key r)) eqn:E; [|reflexivity].
  apply eqb_eq in E. congruence.
Qed.

Lemma upsert_keys (tbl : list R) (r : R) :
  List.map key (upsert tbl r)
  = if existsb (fun r' => eqb (key r') (key r)) tbl
    then List.map key tbl else List.map key tbl ++ [key r].
Proof using eqb_eq.
  unfold Sql.upsert_row. destruct (existsb _ tbl).
  - apply replace_keys.
  - now rewrite List.map_app.
Qed.

Lemma upsert_NoDup (tbl : list R) (r : R) :
  NoDup (List.map key tbl) -> NoDup (List.map key (upsert tbl r)).
Proof using eqb_eq.
  intros Hnd. rewrite upsert_keys.
  destruct (existsb _ tbl) eqn:Hex; [exact Hnd|].
  apply NoDup_app. split; [exact Hnd|]. split.
  - intros k Hk [<-|[]]%list_elem_of_In.
    apply list_elem_of_In, existsb_key in Hk. congruence.
  - apply NoDup_singleton.
Qed.

Lemma lookup_replace (tbl : list R) (r : R) (k : K) :
  lookup_key k (List.map (fun r' => if eqb (key r') (key r) then r else r') tbl)
  = if eqb (key r) k
    then (if existsb (fun r' => eqb (key r') (key r)) tbl then Some r else None)
    else lookup_key k tbl.
Proof using eqb_eq.
  unfold find_key. induction tbl as [|r' tbl IH]; simpl.
  - destruct (eqb (key r) k); reflexivity.
  - destruct (eqb (key r') (key r)) eqn:E; simpl.
    + destruct (eqb (key r) k) eqn:E'; [reflexivity|].
      apply eqb_eq in E. rewrite E, E'. exact IH.
    + rewrite IH. destruct (eqb (key r) k) eqn:E'; [|reflexivity].
      apply eqb_eq in E'. rewrite <- E', E. reflexivity.
Qed.

Lemma lookup_app (l1 l2 : list R) (k : K) :
  lookup_key k (l1 ++ l2)
  = match lookup_key k l1 with
    | Some r => Some r
    | None => lookup_key k l2
    end.
Proof.
  unfold find_key. induction l1 as [|r l1 IH]; simpl; [reflexivity|].
  destruct (eqb (key r) k); [reflexivity | exact IH].
Qed.

Lemma lookup_absent (tbl : list R) (k : K) :
  existsb (fun r' => eqb (key r') k) tbl = false -> lookup_key k tbl = None.
Proof.
  unfold find_key. induction tbl as [|r tbl IH]; simpl; [reflexivity|].
  destruct (eqb (key r) k); simpl; [discriminate | exact IH].
Qed.

(** The row stored under a key after one proposed row. *)
Lemma upsert_lookup (tbl : list R) (r : R) (k : K) :
  lookup_key k (upsert tbl r)
  = if eqb (key r) k then Some r else lookup_key k tbl.
Proof using eqb_eq.
  unfold Sql.upsert_row.
  destruct (existsb (fun r' => eqb (key r') (key r)) tbl) eqn:Hex.
  - rewrite lookup_replace, Hex. reflexivity.
  - rewrite lookup_app.
    change (lookup_key k [r]) with (if eqb (key r) k then Some r else None).
    destruct (eqb (key r) k) eqn:E.
    + apply eqb_eq in E. subst k. now rewrite (lookup_absent _ _ Hex).
    + destruct (lookup_key k tbl); reflexivity.
Qed.

(** Last write wins: after a list of proposed rows, a key holds the last
    proposed row that bears it, and what it held before when none
    does. *)
Lemma upsert_fold_lookup (rs : list R) :
  forall (tbl : list R) (k : K),
    lookup_key k (fold_left upsert rs tbl)
    = match lookup_key k (rev rs) with
      | Some r => Some r
      | None => lookup_key k tbl
      end.
Proof using eqb_eq.
  induction rs as [|r rs IH]; intros tbl k; simpl; [reflexivity|].
  rewrite IH, lookup_app, upsert_lookup.
  destruct (lookup_key k (rev rs)); [reflexivity|].
  change (lookup_key k [r]) with (if eqb (key r) k then Some r else None).
  destruct (eqb (key r) k); reflexivity.
Qed.

Lemma upsert_fold_NoDup (rs : list R) :
  forall tbl, NoDup (List.map key tbl) ->
              NoDup (List.map key (fold_left upsert rs tbl)).
Proof using eqb_eq.
  induction rs as [|r rs IH]; intros tbl Hnd; simpl; [exact Hnd|].
  apply IH. now apply upsert_NoDup.
Qed.

Lemma upsert_statement_ok (tbl page tbl' : list R) :
  Sql.upsert_statement key eqb tbl page = Ok tbl' ->
  tbl' = fold_left upsert page tbl.
Proof.
  unfold Sql.upsert_statement. destruct (Sql.key_twice key eqb page);
    [discriminate | now intros [= <-]].
Qed.

Lemma execute_pages_ok (pages : list (list R)) :
  forall tbl tbl',
    Sql.execute_pages key eqb tbl pages = (tbl', None) ->
    tbl' = fold_left upsert (List.concat pages) tbl.
Proof.
  induction pages as [|page pages IH]; intros tbl tbl'; simpl.
  - now intros [= <-].
  - destruct (Sql.upsert_statement key eqb tbl page) as [tbl1|e] eqn:Hst;
      [|discriminate].
    apply upsert_statement_ok in Hst. subst tbl1.
    intros Hrest. rewrite fold_left_app. now apply IH.
Qed.

Lemma execute_pages_NoDup (pages : list (list R)) :
  forall tbl tbl' o,
    Sql.execute_pages key eqb tbl pages = (tbl', o) ->
    NoDup (List.map key tbl) -> NoDup (List.map key tbl').
Proof using eqb_eq.
  induction pages as [|page pages IH]; intros tbl tbl' o; simpl.
  - now intros [= <- _].
  - destruct (Sql.upsert_statement key eqb tbl page) as [tbl1|e] eqn:Hst.
    + apply upsert_statement_ok in Hst. subst tbl1. intros Hrest Hnd.
      eapply IH; [exact Hrest|]. now apply upsert_fold_NoDup.
    + now intros [= <- _].
Qed.
End UpsertProperties.

Lemma chunks_from_concat {A} (n : nat) (l : list A) :
  forall cur, List.concat (Sql.chunks_from n cur l) = cur ++ l.
Proof.
  induction l as [|x l IH]; intros cur; simpl.
  - destruct cur; simpl; [reflexivity | now rewrite !app_nil_r].
  - destruct (List.length (cur ++ [x]) =? n)%nat; simpl; rewrite IH.
    + now rewrite <- app_assoc.
    + now rewrite <- app_assoc.
Qed.

Lemma chunks_concat {A} (n : nat) (l : list A) : List.concat (Sql.chunks n l) = l.
Proof. apply chunks_from_concat. Qed.

Lemma fv_key_eqb_eq (a b : string * Z) : Sql.fv_key_eqb a b = true <-> a = b.
Proof.
  destruct a as [a1 a2], b as [b1 b2]. unfold Sql.fv_key_eqb. simpl.
  rewrite andb_true_iff, String.eqb_eq, Z.eqb_eq. split.
  - now intros [-> ->].
  - now intros [= -> ->].
Qed.

Lemma gv_key_eqb_eq (a b : Z * Z) : Sql.gv_key_eqb a b = true <-> a = b.
Proof.
  destruct a as [a1 a2], b as [b1 b2]. unfold Sql.gv_key_eqb. simpl.
  rewrite andb_true_iff, !Z.eqb_eq. split.
  - now intros [-> ->].
  - now intros [= -> ->].
Qed.

(** ** Loading a document *)

(** The check-then-write of [_load_organization] and of
    [_load_filing_record] on a table whose rows are identified by [f]:
    when a row bears [e] the rows that bear it are rewritten by [g], which
    keeps the identifier; otherwise [new], which bears [e], is added. *)
Lemma entity_write_unique {R} (f : R -> string) (g : R -> R) (new : R)
  (e : string) (l : list R) :
  (forall r, f (g r) = f r) -> f new = e -> NoDup (List.map f l) ->
  let l' := if existsb (fun r => String.eqb (f r) e) l
            then List.map (fun r => if String.eqb (f r) e then g r else r) l
            else l ++ [new] in
  NoDup (List.map f l')
  /\ List.length (List.filter (fun r => String.eqb (f r) e) l') = 1%nat.
Proof.
  intros Hg Hnew Hnd.
  assert (Hzero : forall l0, ~ In e (List.map f l0) ->
            List.length (List.filter (fun r => String.eqb (f r) e) l0) = 0%nat).
  { induction l0 as [|r l0 IH]; simpl; [reflexivity|]. intros Hn.
    destruct (String.eqb_spec (f r) e); [tauto|]. apply IH. tauto. }
  destruct (existsb (fun r => String.eqb (f r) e) l) eqn:Hex; simpl.
  - assert (Hkeys : List.map f (List.map (fun r => if String.eqb (f r) e then g r else r) l)
                    = List.map f l).
    { rewrite List.map_map. apply List.map_ext. intros r.
      destruct (String.eqb (f r) e); [apply Hg | reflexivity]. }
    split; [now rewrite Hkeys|].
    assert (Hcount : List.length
                       (List.filter (fun r => String.eqb (f r) e)
                          (List.map (fun r => if String.eqb (f r) e then g r else r) l))
                     = List.length (List.filter (fun r => String.eqb (f r) e) l)).
    { clear -Hg. induction l as [|r l IH]; simpl; [reflexivity|].
      destruct (String.eqb (f r) e) eqn:E.
      - rewrite Hg, E. simpl. now rewrite IH.
      - rewrite E. exact IH. }
    rewrite Hcount. clear Hkeys Hcount.
    induction l as [|r l IH]; simpl in *; [discriminate|].
    apply NoDup_cons in Hnd as [Hr Hnd].
    destruct (String.eqb_spec (f r) e) as [Heq|Hne]; simpl in *.
    + rewrite Hzero; [reflexivity|]. rewrite <- Heq.
      intros Hin. apply Hr. now apply list_elem_of_In.
    + now apply IH.
  - assert (Hn : ~ In e (List.map f l)).
    { intros Hin. apply in_map_iff in Hin as (r & Hr & Hin).
      assert (existsb (fun r => String.eqb (f r) e) l = true); [|congruence].
      apply existsb_exists. exists r. split; [exact Hin | now apply String.eqb_eq]. }
    split.
    + rewrite List.map_app. apply NoDup_app. split; [exact Hnd|]. split.
      * intros x Hx Hin. apply list_elem_of_In in Hin. destruct Hin as [<-|[]].
        apply Hn. rewrite <- Hnew. now apply list_elem_of_In.
      * apply NoDup_singleton.
    + rewrite List.filter_app, length_app, Hzero by exact Hn. simpl.
      rewrite Hnew, String.eqb_refl. reflexivity.
Qed.

Lemma load_organization_done (db db' : Db) (o : Organization.t) :
  _load_organization db o = Done db' ->
  exists e,
    Organization.ein o = Some e
    /\ filings (db_tables db') = filings (db_tables db)
    /\ filing_values_tbl (db_tables db') = filing_values_tbl (db_tables db)
    /\ repeating_group_values (db_tables db') = repeating_group_values (db_tables db)
    /\ (NoDup (List.map OrgRow.ein (organizations (db_tables db))) ->
        NoDup (List.map OrgRow.ein (organizations (db_tables db')))
        /\ org_count db' e = 1%nat).
Proof.
  unfold _load_organization.
  destruct (PyStr.truthy (Organization.ein o)) eqn:Ht; simpl; [|discriminate].
  destruct (Organization.ein o) as [e|]; [|discriminate]. simpl.
  intros Hdone. exists e. split; [reflexivity|].
  pose proof (entity_write_unique OrgRow.ein (Sql.merge_organization o)
                (OrgRow.mk e (Organization.name o) (Organization.address_line1 o)
                   (Organization.address_line2 o) (Organization.city o)
                   (Organization.state o) (Organization.zip o)
                   match Organization.country o with
                   | Some c => c
                   | None => Some "US"
                   end (Organization.website o))
                e (organizations (db_tables db))
                (fun r => eq_refl) eq_refl) as Hwrite.
  unfold Sql.organization_exists, org_count in *.
  destruct (existsb _ (organizations (db_tables db)));
    injection Hdone as <-; simpl; repeat split; try reflexivity;
    apply Hwrite; assumption.
Qed.

Lemma load_filing_record_done (db db' : Db) (m : Metadata.t) :
  _load_filing_record db m = Done db' ->
  exists f,
    Metadata.filing_id m = Some f
    /\ organizations (db_tables db') = organizations (db_tables db)
    /\ filing_values_tbl (db_tables db') = filing_values_tbl (db_tables db)
    /\ repeating_group_values (db_tables db') = repeating_group_values (db_tables db)
    /\ (NoDup (List.map FilingRow.filing_id (filings (db_tables db))) ->
        NoDup (List.map FilingRow.filing_id (filings (db_tables db')))
        /\ filing_count db' f = 1%nat).
Proof.
  unfold _load_filing_record.
  destruct (PyStr.truthy (Metadata.filing_id m)) eqn:Ht; simpl; [|discriminate].
  destruct (PyStr.truthy (Metadata.ein m)); simpl; [|discriminate].
  destruct (Metadata.filing_id m) as [f|]; [|discriminate]. simpl.
  intros Hdone. exists f. split; [reflexivity|].
  pose proof (entity_write_unique FilingRow.filing_id (Sql.overwrite_filing m)
                (FilingRow.mk f (Metadata.object_id m) (default "" (Metadata.ein m))
                   (Metadata.tax_period m) (Metadata.form_type m)
                   (Metadata.form_version m) (Metadata.tax_year m)
                   (Metadata.submission_date m))
                f (filings (db_tables db))
                (fun r => eq_refl) eq_refl) as Hwrite.
  unfold Sql.filing_exists, filing_count in *.
  destruct (existsb _ (filings (db_tables db)));
    injection Hdone as <-; simpl; repeat split; try reflexivity;
    apply Hwrite; assumption.
Qed.

Lemma execute_values_ok {R K} (key : R -> K) (eqb : K -> K -> bool)
  (tbl tbl' argslist : list R) :
  Sql.execute_values key eqb tbl argslist = (tbl', None) ->
  tbl' = fold_left (Sql.upsert_row key eqb) argslist tbl.
Proof.
  unfold Sql.execute_values. intros Hex.
  apply execute_pages_ok in Hex. now rewrite chunks_concat in Hex.
Qed.

Lemma load_value_batches_done (bs : list (list FilingValue.t)) :
  forall db db',
    load_value_batches db bs = Done db' ->
    organizations (db_tables db') = organizations (db_tables db)
    /\ filings (db_tables db') = filings (db_tables db)
    /\ repeating_group_values (db_tables db') = repeating_group_values (db_tables db)
    /\ filing_values_tbl (db_tables db')
       = fold_left (Sql.upsert_row FilingValueRow.key Sql.fv_key_eqb)
                   (List.map filing_value_row (List.concat bs))
                   (filing_values_tbl (db_tables db)).
Proof.
  induction bs as [|batch bs IH]; intros db db'; simpl.
  - intros [= <-]. auto.
  - destruct (Sql.execute_values _ _ _ _) as [tbl [e|]] eqn:Hex; [discriminate|].
    apply execute_values_ok in Hex. intros Hrest.
    apply IH in Hrest as (Ho & Hf & Hg & Hv). simpl in *.
    rewrite List.map_app, fold_left_app, <- Hex. auto.
Qed.

Lemma load_filing_values_done (batch_size : Z) (db db' : Db)
  (values : list FilingValue.t) :
  _load_filing_values batch_size db values = Done db' ->
  organizations (db_tables db') = organizations (db_tables db)
  /\ filings (db_tables db') = filings (db_tables db)
  /\ repeating_group_values (db_tables db') = repeating_group_values (db_tables db)
  /\ exists loaded,
       filing_values_tbl (db_tables db')
       = fold_left (Sql.upsert_row FilingValueRow.key Sql.fv_key_eqb)
                   (List.map filing_value_row loaded)
                   (filing_values_tbl (db_tables db))
       /\ ((0 < batch_size)%Z -> loaded = values).
Proof.
  unfold _load_filing_values. destruct values as [|v values].
  { intros [= <-]. repeat split. exists []. auto. }
  unfold Sql.batches.
  destruct (batch_size =? 0)%Z; [discriminate|].
  destruct (batch_size <? 0)%Z eqn:Hneg.
  - simpl. intros [= <-]. repeat split. exists []. split; [reflexivity|].
    apply Z.ltb_lt in Hneg. lia.
  - intros Hdone. apply load_value_batches_done in Hdone as (Ho & Hf & Hg & Hv).
    repeat split; try assumption.
    exists (List.concat (Sql.chunks (Z.to_nat batch_size) (v :: values))).
    split; [exact Hv|]. intros _. apply chunks_concat.
Qed.

Lemma insert_groups_frame (groups : list RepeatingGroup.t) :
  forall acc,
    let db' := fst (fold_left insert_group groups acc) in
    organizations (db_tables db') = organizations (db_tables (fst acc))
    /\ filings (db_tables db') = filings (db_tables (fst acc))
    /\ filing_values_tbl (db_tables db') = filing_values_tbl (db_tables (fst acc))
    /\ repeating_group_values (db_tables db')
       = repeating_group_values (db_tables (fst acc)).
Proof.
  induction groups as [|g groups IH]; intros acc; simpl; [auto|].
  destruct (IH (insert_group acc g)) as (Ho & Hf & Hv & Hg).
  destruct acc as [db m]. simpl in *. auto.
Qed.

Lemma load_group_batches_done (group_id_map : gmap Z Z)
  (bs : list (list GroupValue.t)) :
  forall db db',
    load_group_batches db group_id_map bs = Done db' ->
    organizations (db_tables db') = organizations (db_tables db)
    /\ filings (db_tables db') = filings (db_tables db)
    /\ filing_values_tbl (db_tables db') = filing_values_tbl (db_tables db)
    /\ (NoDup (List.map GroupValueRow.key (repeating_group_values (db_tables db))) ->
        NoDup (List.map GroupValueRow.key (repeating_group_values (db_tables db')))).
Proof.
  induction bs as [|batch bs IH]; intros db db'; simpl.
  - intros [= <-]. auto.
  - destruct (group_value_rows group_id_map batch) as [|row rws]; [apply IH|].
    destruct (Sql.execute_values _ _ _ _) as [tbl [e|]] eqn:Hex; [discriminate|].
    intros Hrest. apply IH in Hrest as (Ho & Hf & Hv & Hg). simpl in *.
    repeat split; try assumption. intros Hnd. apply Hg.
    unfold Sql.execute_values in Hex.
    eapply execute_pages_NoDup; [apply gv_key_eqb_eq | exact Hex | exact Hnd].
Qed.

Lemma load_repeating_groups_done (batch_size : Z) (db db' : Db)
  (groups : list RepeatingGroup.t) (values : list GroupValue.t) :
  _load_repeating_groups batch_size db groups values = Done db' ->
  organizations (db_tables db') = organizations (db_tables db)
  /\ filings (db_tables db') = filings (db_tables db)
  /\ filing_values_tbl (db_tables db') = filing_values_tbl (db_tables db)
  /\ (NoDup (List.map GroupValueRow.key (repeating_group_values (db_tables db))) ->
      NoDup (List.map GroupValueRow.key (repeating_group_values (db_tables db')))).
Proof.
  unfold _load_repeating_groups. destruct groups as [|g groups].
  { intros [= <-]. auto. }
  pose proof (insert_groups_frame (g :: groups) (db, ∅)) as Hframe.
  destruct (fold_left insert_group (g :: groups) (db, ∅)) as [db1 m].
  simpl in Hframe. destruct Hframe as (Ho & Hf & Hv & Hg).
  destruct values as [|v values].
  { intros [= <-]. rewrite Ho, Hf, Hv, Hg. auto. }
  destruct (Sql.batches batch_size (v :: values)) as [bs|e]; [|discriminate].
  intros Hdone. apply load_group_batches_done in Hdone as (Ho' & Hf' & Hv' & Hg').
  rewrite Ho', Hf', Hv', Ho, Hf, Hv. repeat split. now rewrite <- Hg.
Qed.

(** What the statements of one document leave when none of them fails. *)
Lemma load_statements_done (batch_size : Z) (db db' : Db) (filing_id : string)
  (data : ProcessedData) :
  keys_unique db ->
  load_statements batch_size db filing_id data = Done db' ->
  exists e f loaded,
    Organization.ein (organization data) = Some e
    /\ Metadata.filing_id (metadata data) = Some f
    /\ keys_unique db'
    /\ org_count db' e = 1%nat
    /\ filing_count db' f = 1%nat
    /\ filing_values_tbl (db_tables db')
       = fold_left (Sql.upsert_row FilingValueRow.key Sql.fv_key_eqb)
                   (List.map filing_value_row loaded)
                   (filing_values_tbl (db_tables db))
    /\ ((0 < batch_size)%Z -> loaded = filing_values data).
Proof.
  intros (Ko & Kf & Kv & Kg). unfold load_statements.
  destruct (_load_organization db (organization data)) as [db1|] eqn:H1;
    [|discriminate]. simpl.
  destruct (_load_filing_record db1 (metadata data)) as [db2|] eqn:H2;
    [|discriminate]. simpl.
  destruct (_load_filing_values batch_size db2 (filing_values data))
    as [db3|] eqn:H3; [|discriminate]. simpl.
  destruct (_load_repeating_groups batch_size db3 (repeating_groups data)
              (group_values data)) as [db4|] eqn:H4; [|discriminate]. simpl.
  intros Hlast.
  apply load_organization_done in H1 as (e & He & F1 & V1 & G1 & U1).
  apply load_filing_record_done in H2 as (f & Hf & O2 & V2 & G2 & U2).
  apply load_filing_values_done in H3 as (O3 & F3 & G3 & loaded & V3 & Hloaded).
  apply load_repeating_groups_done in H4 as (O4 & F4 & V4 & U4).
  destruct (U1 Ko) as [Ko1 Co1].
  rewrite F1 in U2. destruct (U2 Kf) as [Kf2 Cf2].
  assert (E : organizations (db_tables db') = organizations (db_tables db1)
              /\ filings (db_tables db') = filings (db_tables db2)
              /\ filing_values_tbl (db_tables db') = filing_values_tbl (db_tables db3)
              /\ repeating_group_values (db_tables db')
                 = repeating_group_values (db_tables db4)).
  { destruct (xml_hash data); injection Hlast as <-; simpl;
      rewrite ?O4, ?O3, ?O2, ?F4, ?F3, ?V4; auto. }
  destruct E as (Eo & Ef & Ev & Eg).
  exists e, f, loaded. split; [exact He|]. split; [exact Hf|].
  split; [|split; [|split; [|split]]].
  - unfold keys_unique. rewrite Eo, Ef, Ev, Eg.
    split; [exact Ko1|]. split; [exact Kf2|]. split.
    + rewrite V3. apply upsert_fold_NoDup; [apply fv_key_eqb_eq|].
      now rewrite V2, V1.
    + apply U4. now rewrite G3, G2, G1.
  - unfold org_count in *. now rewrite Eo.
  - unfold filing_count in *. now rewrite Ef.
  - now rewrite Ev, V3, V2, V1.
  - exact Hloaded.
Qed.

Lemma load_filing_ok (batch_size : Z) (db db' : Db) (data : ProcessedData)
  (r : LoadResult) :
  _load_filing batch_size db data = (Ok r, db') ->
  exists filing_id, load_statements batch_size db filing_id data = Done db'.
Proof.
  unfold _load_filing.
  destruct (negb (PyStr.truthy (Metadata.filing_id (metadata data))));
    [discriminate|].
  destruct (load_statements _ _ _ _) as [db1|e db1] eqn:Hst; [|discriminate].
  intros [= _ <-]. eauto.
Qed.

Lemma load_filing_keys_unique (batch_size : Z) (db : Db) (data : ProcessedData) :
  keys_unique db -> keys_unique (snd (_load_filing batch_size db data)).
Proof.
  intros Hk. unfold _load_filing.
  destruct (negb (PyStr.truthy (Metadata.filing_id (metadata data))));
    [exact Hk|].
  destruct (load_statements _ _ _ _) as [db1|e db1] eqn:Hst; simpl.
  - apply (load_statements_done _ _ _ _ _ Hk) in Hst
      as (e & f & loaded & _ & _ & Hk1 & _). exact Hk1.
  - exact Hk.
Qed.

Lemma load_keys_unique (batch_size : Z) (datas : list ProcessedData) :
  forall db, keys_unique db -> keys_unique (snd (load batch_size db datas)).
Proof.
  induction datas as [|data datas IH]; intros db Hk; simpl; [exact Hk|].
  pose proof (load_filing_keys_unique batch_size db data Hk) as Hk1.
  destruct (_load_filing batch_size db data) as [r db1]. simpl in Hk1.
  specialize (IH db1 Hk1). destruct (load batch_size db1 datas) as [rs db2].
  exact IH.
Qed.

(** Two loads that succeed.  A store whose keys are unique is loaded
    twice with the same transformed document, both loads succeeding, by
    a loader with a positive batch size.  Then the store holds exactly
    one organization row for the employer id and exactly one filing row
    for the filing id, after the first load and after the second.  Every
    key of a filing value holds the last incoming value that bears it,
    and what it held before when no incoming value bears it (last write
    wins).  Keys stay unique; indeed no load, of any list of documents
    and whatever its outcome, leaves a duplicate key. *)
Lemma loading_twice_is_idempotent (batch_size : Z) (db db1 db2 : Db)
  (data : ProcessedData) (r1 r2 : LoadResult) :
  (0 < batch_size)%Z ->
  keys_unique db ->
  _load_filing batch_size db data = (Ok r1, db1) ->
  _load_filing batch_size db1 data = (Ok r2, db2) ->
  (exists e f,
      Organization.ein (organization data) = Some e
      /\ Metadata.filing_id (metadata data) = Some f
      /\ org_count db1 e = 1%nat /\ org_count db2 e = 1%nat
      /\ filing_count db1 f = 1%nat /\ filing_count db2 f = 1%nat)
  /\ (forall k,
        stored_value db2 k
        = match last_value k (filing_values data) with
          | Some row => Some row
          | None => stored_value db k
          end)
  /\ keys_unique db2
  /\ (forall size db0 datas,
        keys_unique db0 -> keys_unique (snd (load size db0 datas))).
Proof.
  intros Hsize Hk Hload1 Hload2.
  apply load_filing_ok in Hload1 as [fid1 Hst1].
  apply load_filing_ok in Hload2 as [fid2 Hst2].
  apply (load_statements_done _ _ _ _ _ Hk) in Hst1
    as (e & f & loaded1 & He & Hf & Hk1 & Co1 & Cf1 & V1 & L1).
  apply (load_statements_done _ _ _ _ _ Hk1) in Hst2
    as (e' & f' & loaded2 & He' & Hf' & Hk2 & Co2 & Cf2 & V2 & L2).
  rewrite He in He'. injection He' as <-.
  rewrite Hf in Hf'. injection Hf' as <-.
  rewrite (L1 Hsize) in V1. rewrite (L2 Hsize) in V2.
  split; [exists e, f; auto 10|]. split; [|split; [exact Hk2|]].
  - intros k. unfold stored_value, last_value.
    rewrite V2, (upsert_fold_lookup _ _ fv_key_eqb_eq).
    destruct (find_key _ _ k (rev _)) as [row|] eqn:Hlast; [reflexivity|].
    rewrite V1, (upsert_fold_lookup _ _ fv_key_eqb_eq), Hlast. reflexivity.
  - intros size db0 datas. apply load_keys_unique.
Qed.

(** ** The statements at concrete inputs *)

Section Instances.
Import Examples.

Local Abbreviation serialize := plain_serialize.
Local Abbreviation digest := plain_digest.

(** The return of the examples is processed, and its [filing_id] is
    ["123456789_2020-12-31_990"] however often it is processed. *)
Lemma filing_id_from_three_fields_witness :
  @_process_xml_file (LX serialize) (HS digest) officers_state "a.xml"
  = (Some (officers_data (digest (serialize officers_doc))), officers_state)
  /\ forall st' data' st1',
       @_process_xml_file (LX serialize) (HS digest) st' "a.xml"
       = (Some data', st1') ->
       Metadata.filing_id (metadata data') = Some "123456789_2020-12-31_990".
Proof.
  assert (H : @_process_xml_file (LX serialize) (HS digest) officers_state "a.xml"
              = (Some (officers_data (digest (serialize officers_doc))),
                 officers_state)) by (vm_compute; reflexivity).
  split; [exact H|].
  intros st' data' st1' H'.
  destruct (@filing_id_from_three_fields (LX serialize) (HS digest)
              officers_state "a.xml" _ _ H) as (_ & Hagain & _).
  rewrite (Hagain st' data' st1' H'). reflexivity.
Defined.

(** The return without [EIN] gives no result. *)
Lemma errors_are_scoped_witness :
  @parse (LX serialize) "bad.xml" = Ok no_ein_doc
  /\ @missing_required (LX serialize) (root_node no_ein_doc)
                       (namespaces_of no_ein_doc)
  /\ forall st,
       fst (@_process_xml_file (LX serialize) (HS digest) st "bad.xml") = None.
Proof.
  assert (Hp : @parse (LX serialize) "bad.xml" = Ok no_ein_doc) by reflexivity.
  assert (Hm : @missing_required (LX serialize) (root_node no_ein_doc)
                                 (namespaces_of no_ein_doc))
    by (left; vm_compute; reflexivity).
  split; [exact Hp|]. split; [exact Hm|].
  destruct (@errors_are_scoped (LX serialize) (HS digest) "bad.xml" no_ein_doc
              Hp Hm) as [(msg & _ & Hnone & _) _].
  exact Hnone.
Defined.

(** The claim of C8 fails for a concordance without the required
    columns: the file exists and can be read, it has no variable-name
    column and no location column, and the registry loads, empty,
    without [ConcordanceError]. *)
Lemma headless_concordance_loads :
  @path_exists (HS digest) "headless.csv" = true
  /\ @read_csv (HS digest) "headless.csv" = Ok headless_frame
  /\ lacks_required_column headless_frame
  /\ @IRS990Transformer (HS digest) "headless.csv"
     = Ok (mkTState "headless.csv" [] [] [] true [])
  /\ ~ exists msg,
         @IRS990Transformer (HS digest) "headless.csv"
         = Raise (ConcordanceError msg).
Proof.
  split; [reflexivity|]. split; [reflexivity|]. split.
  - left. split; simpl; intros [H|[H|[]]]; discriminate.
  - split; [reflexivity|]. intros [msg H]. discriminate.
Qed.

(** A document with two filing values, loaded twice into the empty
    store. *)
Lemma loading_twice_is_idempotent_witness :
  let db1 := snd (_load_filing 100 empty_db valued_data) in
  let db2 := snd (_load_filing 100 db1 valued_data) in
  (0 < 100)%Z
  /\ keys_unique empty_db
  /\ _load_filing 100 empty_db valued_data
     = (Ok (Success "333333333_2020-12-31_990" 2 0 0), db1)
  /\ _load_filing 100 db1 valued_data
     = (Ok (Success "333333333_2020-12-31_990" 2 0 0), db2)
  /\ keys_unique db2.
Proof.
  intros db1 db2.
  assert (H0 : (0 < 100)%Z) by lia.
  assert (Hk : keys_unique empty_db) by (repeat split; constructor).
  assert (H1 : _load_filing 100 empty_db valued_data
               = (Ok (Success "333333333_2020-12-31_990" 2 0 0), db1))
    by (vm_compute; reflexivity).
  assert (H2 : _load_filing 100 db1 valued_data
               = (Ok (Success "333333333_2020-12-31_990" 2 0 0), db2))
    by (vm_compute; reflexivity).
  split; [exact H0|]. split; [exact Hk|]. split; [exact H1|]. split; [exact H2|].
  destruct (loading_twice_is_idempotent 100 empty_db db1 db2 valued_data _ _
              H0 Hk H1 H2) as (_ & _ & Hk2 & _).
  exact Hk2.
Defined.
End Instances.

Section MoreInstances.
Import Examples.
Local Abbreviation serialize := plain_serialize.
Local Abbreviation digest := plain_digest.

(** The registry of the examples is loaded; its two variables are
    ['MANY'] fields, so the return gives no scalar row. *)
Lemma every_row_has_one_slot_witness :
  field_loaded officers_state = true
  /\ exists rows st',
       @_extract_filing_values (LX serialize) (HS digest) officers_state
         (root_node officers_doc) "123456789_2020-12-31_990" []
       = (Ok rows, st')
       /\ List.length rows = 0%nat.
Proof.
  assert (Hloaded : field_loaded officers_state = true) by reflexivity.
  split; [exact Hloaded|].
  destruct (@every_row_has_one_slot (LX serialize) (HS digest) officers_state
              (root_node officers_doc) "123456789_2020-12-31_990" [])
    as (_ & _ & (rows & st' & Hrows & _ & Hlen) & _).
  exists rows, st'. split; [exact Hrows|].
  rewrite (Hlen Hloaded). vm_compute. reflexivity.
Defined.

(** The organization record of the processed return has a country. *)
Lemma country_is_never_absent_witness :
  @_process_xml_file (LX serialize) (HS digest) officers_state "a.xml"
  = (Some (officers_data (digest (serialize officers_doc))), officers_state)
  /\ exists c,
       Organization.country
         (organization (officers_data (digest (serialize officers_doc))))
       = Some (Some c)
       /\ c <> "".
Proof.
  assert (H : @_process_xml_file (LX serialize) (HS digest) officers_state "a.xml"
              = (Some (officers_data (digest (serialize officers_doc))),
                 officers_state)) by (vm_compute; reflexivity).
  split; [exact H|].
  destruct (@country_is_never_absent (LX serialize) (HS digest)
              (root_node officers_doc) [] None) as (_ & _ & _ & Hall).
  exact (Hall _ _ _ _ H).
Defined.

(** The [OfficerGrp] of the return is confirmed, and the shape of its
    rows recurs. *)
Lemma validation_needs_recurring_shape_witness :
  In (officer_group, "OfficerGrp")
     (_validate_groups [(officer_group, "OfficerGrp")])
  /\ shape_recurs officer_group.
Proof.
  assert (Hin : In (officer_group, "OfficerGrp")
                   (_validate_groups [(officer_group, "OfficerGrp")]))
    by (vm_compute; left; reflexivity).
  split; [exact Hin|].
  destruct (validation_needs_recurring_shape
              [(officer_group, "OfficerGrp")] officer_group "OfficerGrp")
    as (Hconfirmed & _).
  exact (proj2 (Hconfirmed Hin)).
Defined.

(** Incoming organization data without a name leave the stored name. *)
Lemma merge_keeps_absent_attributes_witness :
  _load_organization one_org_db bare_organization
  = Done (Sql.update_organization one_org_db "123456789" bare_organization)
  /\ organizations (db_tables one_org_db) !! 0%nat = Some stored_org
  /\ Organization.name bare_organization = None
  /\ exists r',
       organizations
         (db_tables (Sql.update_organization one_org_db "123456789"
                                             bare_organization)) !! 0%nat
       = Some r'
       /\ OrgRow.name r' = Some "Test Charity".
Proof.
  assert (Hload : _load_organization one_org_db bare_organization
                  = Done (Sql.update_organization one_org_db "123456789"
                                                  bare_organization))
    by reflexivity.
  assert (Hrow : organizations (db_tables one_org_db) !! 0%nat = Some stored_org)
    by reflexivity.
  assert (Hname : Organization.name bare_organization = None) by reflexivity.
  split; [exact Hload|]. split; [exact Hrow|]. split; [exact Hname|].
  destruct (merge_keeps_absent_attributes one_org_db bare_organization
              bare_metadata) as (Horg & _).
  destruct (Horg _ 0%nat stored_org Hload Hrow) as (r' & Hr' & _ & Hkeep & _).
  exists r'. split; [exact Hr'|]. rewrite (Hkeep Hname). reflexivity.
Defined.

(** The converter of [utils.py] fills the text slot next to the typed
    one: it is not the converter of the rows above. *)
Lemma utils_convert_value_fills_two_slots (str_float : Q -> string) :
  populated (utils_convert_value str_float (Some "2020-12-31") "date") = 2%nat
  /\ populated (utils_convert_value str_float (Some "YES") "boolean") = 2%nat
  /\ populated (utils_convert_value str_float (Some "1,234.50") "number") = 2%nat.
Proof. repeat split; vm_compute; reflexivity. Qed.
End MoreInstances.

(** ** Text located by a list of patterns *)

Lemma lstrip_by_head (p : ascii -> bool) (s : string) :
  PyStr.lstrip_by p s = ""
  \/ exists c s', PyStr.lstrip_by p s = String c s' /\ p c = false.
Proof.
  induction s as [|c s IH]; simpl; [now left|].
  destruct (p c) eqn:E; [exact IH|]. right. now exists c, s.
Qed.

Lemma rstrip_by_idem (p : ascii -> bool) (s : string) :
  PyStr.rstrip_by p (PyStr.rstrip_by p s) = PyStr.rstrip_by p s.
Proof.
  induction s as [|c s IH]; simpl; [reflexivity|].
  destruct (PyStr.rstrip_by p s) as [|d r] eqn:E.
  - destruct (p c) eqn:Ec; simpl; [reflexivity|]. now rewrite Ec.
  - simpl in *. now rewrite IH.
Qed.

Lemma rstrip_by_keeps_head (p : ascii -> bool) (c : ascii) (s : string) :
  p c = false -> exists r, PyStr.rstrip_by p (String c s) = String c r.
Proof.
  intros Hc. simpl. destruct (PyStr.rstrip_by p s) as [|d r].
  - rewrite Hc. now exists "".
  - now exists (String d r).
Qed.

Lemma strip_by_idem (p : ascii -> bool) (s : string) :
  PyStr.strip_by p (PyStr.strip_by p s) = PyStr.strip_by p s.
Proof.
  unfold PyStr.strip_by.
  destruct (lstrip_by_head p s) as [E|(c & s' & E & Hc)]; rewrite E.
  - reflexivity.
  - destruct (rstrip_by_keeps_head p c s' Hc) as [r Hr]. rewrite Hr.
    assert (Hl : PyStr.lstrip_by p (String c r) = String c r)
      by (simpl; now rewrite Hc).
    rewrite Hl, <- Hr. apply rstrip_by_idem.
Qed.

Section GetTextProperties.
Context {LX : Lxml}.

Lemma first_text_spec (elements : list XItem) (t : string) :
  first_text elements = Some t
  <-> exists n rest raw,
        elements = XNode n :: rest /\ text n = Some raw /\ raw <> ""
        /\ t = PyStr.strip raw.
Proof.
  unfold first_text. split.
  - destruct elements as [|[n|] rest]; try discriminate.
    destruct (text n) as [raw|] eqn:E; [|discriminate].
    destruct (String.eqb_spec raw ""); [discriminate|].
    intros [= <-]. now exists n, rest, raw.
  - intros (n & rest & raw & -> & -> & Hne & ->).
    destruct (String.eqb_spec raw ""); [contradiction|reflexivity].
Qed.

Lemma get_text_cons root ns pattern rest :
  get_text root ns (pattern :: rest)
  = match pattern_text root ns pattern with
    | Some t => Some t
    | None => get_text root ns rest
    end.
Proof.
  unfold pattern_text. simpl.
  destruct (xpath root pattern ns); [|reflexivity].
  destruct (first_text a); reflexivity.
Qed.

Lemma get_text_app root ns (p1 p2 : list string) :
  get_text root ns (p1 ++ p2)
  = match get_text root ns p1 with
    | Some t => Some t
    | None => get_text root ns p2
    end.
Proof.
  induction p1 as [|p p1 IH]; [reflexivity|].
  change ((p :: p1) ++ p2) with (p :: (p1 ++ p2)).
  rewrite !get_text_cons, IH.
  destruct (pattern_text root ns p); reflexivity.
Qed.

Lemma get_text_None root ns (ps : list string) :
  get_text root ns ps = None
  <-> forall p, In p ps -> pattern_text root ns p = None.
Proof.
  induction ps as [|p ps IH].
  - simpl. split; [intros _ p []|reflexivity].
  - rewrite get_text_cons. split.
    + destruct (pattern_text root ns p) eqn:E; [discriminate|].
      intros H q [<-|Hq]; [exact E|]. now apply IH.
    + intros H. rewrite (H p (or_introl eq_refl)). apply IH.
      intros q Hq. apply H. now right.
Qed.

Lemma get_text_Some root ns (ps : list string) (t : string) :
  get_text root ns ps = Some t ->
  exists before pattern after_,
    ps = before ++ pattern :: after_
    /\ get_text root ns before = None
    /\ pattern_text root ns pattern = Some t.
Proof.
  induction ps as [|p ps IH]; [discriminate|].
  rewrite get_text_cons.
  destruct (pattern_text root ns p) eqn:E.
  - intros [= <-]. now exists [], p, ps.
  - intros H. destruct (IH H) as (b & q & a & -> & Hb & Hq).
    exists (p :: b), q, a. repeat split; try assumption.
    rewrite get_text_cons, E. exact Hb.
Qed.

(** X1.  [get_text] goes through its patterns in order and the first one
    whose first selected element has a non-empty [.text] decides: the
    result is that text stripped, and later patterns are not consulted
    even when stripping leaves the empty string.  Patterns that raise or
    select nothing are passed over, so that the search over a
    concatenation of two pattern lists is the search over the first,
    then over the second.  The text returned is always stripped. *)
Theorem get_text_first_pattern_with_text (root : Node) (ns : Namespaces)
  (ps : list string) :
  (forall t,
      get_text root ns ps = Some t <->
      exists before pattern after_ elements n rest raw,
        ps = before ++ pattern :: after_
        /\ (forall q, In q before -> pattern_text root ns q = None)
        /\ xpath root pattern ns = Ok elements
        /\ elements = XNode n :: rest
        /\ text n = Some raw /\ raw <> "" /\ t = PyStr.strip raw)
  /\ (forall t, get_text root ns ps = Some t -> PyStr.strip t = t)
  /\ (forall ps', get_text root ns (ps ++ ps')
                  = match get_text root ns ps with
                    | Some t => Some t
                    | None => get_text root ns ps'
                    end).
Proof.
  assert (Hchar : forall t,
      get_text root ns ps = Some t <->
      exists before pattern after_ elements n rest raw,
        ps = before ++ pattern :: after_
        /\ (forall q, In q before -> pattern_text root ns q = None)
        /\ xpath root pattern ns = Ok elements
        /\ elements = XNode n :: rest
        /\ text n = Some raw /\ raw <> "" /\ t = PyStr.strip raw).
  { intros t. split.
    - intros H. destruct (get_text_Some _ _ _ _ H) as (b & p & a & -> & Hb & Hp).
      unfold pattern_text in Hp.
      destruct (xpath root p ns) as [elements|] eqn:Ex; [|discriminate].
      apply first_text_spec in Hp. destruct Hp as (n & rest & raw & He & Ht & Hne & ->).
      exists b, p, a, elements, n, rest, raw. repeat split; try assumption.
      now apply get_text_None.
    - intros (b & p & a & elements & n & rest & raw & -> & Hb & Hx & He & Ht & Hne & ->).
      rewrite get_text_app. apply get_text_None in Hb. rewrite Hb.
      rewrite get_text_cons. unfold pattern_text. rewrite Hx.
      assert (Hf : first_text elements = Some (PyStr.strip raw)).
      { apply first_text_spec. now exists n, rest, raw. }
      now rewrite Hf. }
  split; [exact Hchar|]. split.
  - intros t H. apply Hchar in H.
    destruct H as (_ & _ & _ & _ & _ & _ & raw & _ & _ & _ & _ & _ & _ & ->).
    apply strip_by_idem.
  - intros ps'. apply get_text_app.
Qed.
End GetTextProperties.

(** ** Table names *)

Lemma forallb_app (p : ascii -> bool) (a b : string) :
  PyStr.forallb p (a +:+ b) = PyStr.forallb p a && PyStr.forallb p b.
Proof.
  induction a as [|c a IH]; [reflexivity|].
  change (String c a +:+ b) with (String c (a +:+ b)). simpl.
  rewrite IH. now rewrite andb_assoc.
Qed.

Lemma forallb_lstrip_by (p q : ascii -> bool) (s : string) :
  PyStr.forallb p s = true -> PyStr.forallb p (PyStr.lstrip_by q s) = true.
Proof.
  induction s as [|c s IH]; simpl; [reflexivity|].
  intros H. destruct (q c); [|exact H].
  apply andb_prop in H. now apply IH.
Qed.

Lemma forallb_rstrip_by (p q : ascii -> bool) (s : string) :
  PyStr.forallb p s = true -> PyStr.forallb p (PyStr.rstrip_by q s) = true.
Proof.
  induction s as [|c s IH]; simpl; [reflexivity|].
  intros H. apply andb_prop in H. destruct H as [Hc Hs].
  specialize (IH Hs).
  destruct (PyStr.rstrip_by q s) as [|d r].
  - destruct (q c); simpl; [reflexivity|]. now rewrite Hc.
  - simpl in *. now rewrite Hc, IH.
Qed.

Lemma forallb_strip_by (p q : ascii -> bool) (s : string) :
  PyStr.forallb p s = true -> PyStr.forallb p (PyStr.strip_by q s) = true.
Proof.
  intros H. unfold PyStr.strip_by.
  now apply forallb_rstrip_by, forallb_lstrip_by.
Qed.

Lemma forallb_collapse_underscores (p : ascii -> bool) (s : string) :
  PyStr.forallb p s = true ->
  PyStr.forallb p (collapse_underscores s) = true.
Proof.
  induction s as [|c s IH]; simpl; [reflexivity|].
  intros H. apply andb_prop in H. destruct H as [Hc Hs].
  destruct (Ascii.eqb c "_"); simpl; rewrite Hc; simpl.
  - now apply forallb_lstrip_by, IH.
  - now apply IH.
Qed.

Lemma forallb_substring (p : ascii -> bool) (s : string) :
  PyStr.forallb p s = true ->
  forall n m, PyStr.forallb p (String.substring n m s) = true.
Proof.
  induction s as [|c s IH]; intros H n m.
  - destruct n, m; reflexivity.
  - simpl in H. apply andb_prop in H. destruct H as [Hc Hs].
    destruct n; [destruct m|]; simpl; [reflexivity| |now apply IH].
    rewrite Hc. now apply IH.
Qed.

Lemma length_substring_le (s : string) :
  forall n m, (String.length (String.substring n m s) <= m)%nat.
Proof.
  induction s as [|c s IH]; intros n m.
  - destruct n, m; simpl; lia.
  - destruct n; [destruct m|]; simpl; [lia| |apply IH].
    specialize (IH 0%nat m). lia.
Qed.

Lemma lower_alnum_ident (c : ascii) :
  ident_char
    (PyStr.lower_char (if PyStr.is_alnum_ascii c then c else "_"%char)) = true.
Proof.
  destruct c as [[] [] [] [] [] [] [] []]; reflexivity.
Qed.

Lemma clean_name_of_ident (group_path : string) :
  PyStr.forallb ident_char (clean_name_of group_path) = true.
Proof.
  unfold clean_name_of.
  apply forallb_strip_by, forallb_collapse_underscores.
  unfold PyStr.lower.
  induction group_path as [|c s IH]; simpl; [reflexivity|].
  now rewrite lower_alnum_ident, IH.
Qed.

Lemma table_mappings_identifiers :
  Forall (fun kv => is_identifier (snd kv) /\ (String.length (snd kv) <= 60)%nat)
         table_mappings.
Proof.
  unfold table_mappings, is_identifier.
  repeat constructor; simpl; (discriminate || lia).
Qed.

Lemma guess_table_name_identifier (group_path : string) :
  is_identifier (_guess_table_name group_path)
  /\ (String.length (_guess_table_name group_path) <= 60)%nat.
Proof.
  unfold _guess_table_name.
  destruct (List.find _ table_mappings) as [kv|] eqn:E.
  - apply find_some in E. destruct E as [Hin _].
    pose proof table_mappings_identifiers as HF.
    rewrite List.Forall_forall in HF. exact (HF kv Hin).
  - repeat match goal with
           | |- context [if ?b then _ else _] => destruct b
           end;
      try (split; [split; [discriminate|reflexivity]|simpl; lia]).
    split; [split|].
    + discriminate.
    + rewrite forallb_app. apply andb_true_intro. split; [reflexivity|].
      apply forallb_substring, clean_name_of_ident.
    + rewrite string_app_length.
      pose proof (length_substring_le (clean_name_of group_path)
                    (String.length (clean_name_of group_path) - 50) 50).
      unfold PyStr.last_n. simpl String.length at 1. lia.
Qed.

(** X2.  Whatever the path of a group, [_guess_table_name] returns a
    usable table name: it is never empty, it consists of lower-case
    letters, digits and ['_'] only, and it has at most 60 characters
    (the prefix [repeating_] and the last 50 characters of the cleaned
    path).  The test [if not table_name: continue] of
    [_process_repeating_groups] therefore never skips a group. *)
Theorem guess_table_name_is_identifier (group_path : string) :
  _guess_table_name group_path <> ""
  /\ PyStr.forallb ident_char (_guess_table_name group_path) = true
  /\ (String.length (_guess_table_name group_path) <= 60)%nat
  /\ String.eqb (_guess_table_name group_path) "" = false.
Proof.
  destruct (guess_table_name_identifier group_path) as [[Hne Hid] Hlen].
  repeat split; try assumption.
  now apply String.eqb_neq.
Qed.

(** ** The registry of field ids *)

Lemma smem_sget {V} (k : string) (d : list (string * V)) :
  smem k d = true <-> exists v, sget k d = Some v.
Proof.
  unfold smem. destruct (sget k d) as [v|].
  - split; [now exists v|reflexivity].
  - split; [discriminate|now intros [v Hv]].
Qed.

Lemma smem_In {V} (k : string) (d : list (string * V)) :
  smem k d = true <-> In k (List.map fst d).
Proof.
  unfold smem. induction d as [|[k' v] d IH]; simpl.
  - split; [discriminate|intros []].
  - destruct (String.eqb_spec k k') as [->|Hne].
    + split; [now left|reflexivity].
    + rewrite IH. split; [now right|]. intros [H|H]; [congruence|exact H].
Qed.

Lemma smem_sset {V} (k k' : string) (v : V) (d : list (string * V)) :
  smem k (sset k' v d) = String.eqb k k' || smem k d.
Proof.
  unfold smem. rewrite sget_sset. now destruct (String.eqb k k').
Qed.

Lemma sset_fresh {V} (k : string) (v : V) (d : list (string * V)) :
  smem k d = false -> sset k v d = d ++ [(k, v)].
Proof.
  unfold smem. induction d as [|[k' v'] d IH]; simpl; [reflexivity|].
  destruct (String.eqb k k'); [discriminate|].
  intros H. now rewrite IH.
Qed.

Lemma sset_same_keys {V W} (k : string) (v : V) (w : W)
  (d : list (string * V)) (d' : list (string * W)) :
  List.map fst d = List.map fst d' ->
  List.map fst (sset k v d) = List.map fst (sset k w d').
Proof.
  revert d'. induction d as [|[k1 v1] d IH]; intros [|[k2 w2] d']; simpl;
    try discriminate; [reflexivity|].
  intros [= -> H]. destruct (String.eqb k k2); simpl; [now rewrite H|].
  now rewrite (IH d' H).
Qed.

Lemma sset_values (k : string) (v : Z) (d : list (string * Z)) :
  List.map snd (sset k v d) = List.map snd d ++ [v]
  \/ exists l1 x l2, List.map snd d = l1 ++ x :: l2
                     /\ List.map snd (sset k v d) = l1 ++ v :: l2.
Proof.
  induction d as [|[k' v'] d IH]; simpl; [now left|].
  destruct (String.eqb k k'); simpl.
  - right. now exists [], v', (List.map snd d).
  - destruct IH as [->|(l1 & x & l2 & -> & ->)]; [now left|].
    right. now exists (v' :: l1), x, l2.
Qed.

Lemma sset_NoDup_keys {V} (k : string) (v : V) (d : list (string * V)) :
  NoDup (List.map fst d) -> NoDup (List.map fst (sset k v d)).
Proof.
  induction d as [|[k' v'] d IH]; simpl; intros Hnd.
  - constructor; [intros Hin; inversion Hin|constructor].
  - inversion Hnd as [|? ? Hnotin Hnd']; subst.
    destruct (String.eqb_spec k k') as [->|Hne]; simpl.
    + now constructor.
    + constructor; [|now apply IH].
      intros Hin. apply Hnotin.
      apply list_elem_of_In in Hin. apply list_elem_of_In.
      apply sset_keys in Hin. destruct Hin as [->|Hin]; [congruence|exact Hin].
Qed.

(** A fresh id above every id of the registry keeps the ids distinct. *)
Lemma sset_NoDup_values (k : string) (v : Z) (d : list (string * Z)) :
  (forall x, In x (List.map snd d) -> (x < v)%Z) ->
  NoDup (List.map snd d) ->
  NoDup (List.map snd (sset k v d))
  /\ forall x, In x (List.map snd (sset k v d)) -> (x < v + 1)%Z.
Proof.
  intros Hlt Hnd.
  destruct (sset_values k v d) as [E|(l1 & x & l2 & E1 & E2)].
  - rewrite E. split.
    + apply NoDup_app. split; [exact Hnd|]. split.
      * intros y Hy Hv. apply list_elem_of_In in Hy.
        apply list_elem_of_In in Hv. destruct Hv as [<-|[]].
        specialize (Hlt _ Hy). lia.
      * constructor; [intros Hin; inversion Hin|constructor].
    + intros y Hy. apply in_app_or in Hy. destruct Hy as [Hy|[<-|[]]]; [|lia].
      specialize (Hlt _ Hy). lia.
  - rewrite E2. rewrite E1 in Hnd, Hlt. split.
    + apply NoDup_app in Hnd. destruct Hnd as (H1 & H12 & H2).
      inversion H2 as [|? ? Hx H2']; subst.
      apply NoDup_app. split; [exact H1|]. split.
      * intros y Hy Hv. apply list_elem_of_In in Hv. destruct Hv as [<-|Hv].
        -- apply list_elem_of_In in Hy.
           assert (Hin : In v (l1 ++ x :: l2)) by (apply in_or_app; now left).
           specialize (Hlt _ Hin). lia.
        -- apply (H12 y Hy). apply list_elem_of_In. right. exact Hv.
      * constructor; [|exact H2'].
        intros Hin. apply list_elem_of_In in Hin.
        assert (Hin' : In v (l1 ++ x :: l2)) by (apply in_or_app; right; now right).
        specialize (Hlt _ Hin'). lia.
    + intros y Hy. apply in_app_or in Hy. destruct Hy as [Hy|[<-|Hy]]; [|lia|].
      * assert (Hin : In y (l1 ++ x :: l2)) by (apply in_or_app; now left).
        specialize (Hlt _ Hin). lia.
      * assert (Hin : In y (l1 ++ x :: l2)) by (apply in_or_app; right; now right).
        specialize (Hlt _ Hin). lia.
Qed.

Lemma ids_sequential_lookup (d : list (string * Z)) :
  ids_sequential d <-> forall i e, d !! i = Some e -> snd e = Z.of_nat (S i).
Proof.
  unfold ids_sequential. split.
  - intros E i e Hi.
    assert (H : List.map snd d !! i = Some (snd e))
      by (rewrite map_lookup, Hi; reflexivity).
    rewrite E, map_lookup in H.
    pose proof (lookup_lt_Some _ _ _ Hi) as Hlt.
    assert (Hseq : List.seq 1 (List.length d) !! i = Some (S i)).
    { rewrite lookup_seq_lt by exact Hlt. reflexivity. }
    rewrite Hseq in H. cbn in H. now injection H as ->.
  - intros H. apply list_eq. intros i. rewrite !map_lookup.
    destruct (d !! i) as [e|] eqn:Ei.
    + pose proof (lookup_lt_Some _ _ _ Ei) as Hlt.
      rewrite lookup_seq_lt by exact Hlt. cbn. f_equal. now apply H.
    + apply lookup_ge_None in Ei. rewrite lookup_seq_ge by exact Ei. reflexivity.
Qed.

Lemma ids_sequential_snoc (d : list (string * Z)) (k : string) :
  ids_sequential d ->
  ids_sequential (d ++ [(k, (Z.of_nat (List.length d) + 1)%Z)]).
Proof.
  rewrite !ids_sequential_lookup. intros Hs i e Hi.
  destruct (lookup_app_Some d [(k, (Z.of_nat (List.length d) + 1)%Z)] i e)
    as [Hcases _].
  destruct (Hcases Hi) as [Hl|[Hge Hr]].
  - now apply Hs.
  - destruct (i - List.length d)%nat as [|n] eqn:En; simpl in Hr; [|discriminate].
    inversion Hr; subst e. simpl. lia.
Qed.


(** *** Field templates *)

Lemma add_field_specs_registered (table_name : string) (specs : list FieldSpec) :
  forall st next fields,
    (forall name, In name (template_names table_name specs) ->
                  smem name (field_ids st) = true) ->
    fold_left (add_field_spec table_name) specs (st, next, fields)
    = (st, next, fields).
Proof.
  induction specs as [|spec specs IH]; intros st next fields Hall; [reflexivity|].
  cbn [fold_left].
  assert (E : add_field_spec table_name (st, next, fields) spec
              = (st, next, fields)).
  { unfold add_field_spec. now rewrite (Hall _ (or_introl eq_refl)). }
  rewrite E. apply IH. intros name Hin. apply Hall. now right.
Qed.

Lemma add_field_spec_keeps (table_name : string) st next fields spec :
  let '(st', next', fields') :=
    add_field_spec table_name (st, next, fields) spec in
  tables st' = tables st
  /\ field_loaded st' = field_loaded st
  /\ log st' = log st
  /\ concordance_path st' = concordance_path st
  /\ (forall k, smem k (field_ids st) = true -> smem k (field_ids st') = true)
  /\ smem (table_name +:+ "_" +:+ spec_name spec) (field_ids st') = true.
Proof.
  unfold add_field_spec.
  destruct (smem _ (field_ids st)) eqn:E; simpl.
  - repeat split; try reflexivity; [now intros k Hk|exact E].
  - repeat split; try reflexivity.
    + intros k Hk. rewrite smem_sset, Hk. apply orb_true_r.
    + rewrite smem_sset, String.eqb_refl. reflexivity.
Qed.

Lemma add_field_specs_keep (table_name : string) (specs : list FieldSpec) :
  forall st next fields,
    let '(st', next', fields') :=
      fold_left (add_field_spec table_name) specs (st, next, fields) in
    tables st' = tables st
    /\ field_loaded st' = field_loaded st
    /\ log st' = log st
    /\ concordance_path st' = concordance_path st
    /\ (forall k, smem k (field_ids st) = true -> smem k (field_ids st') = true)
    /\ (forall name, In name (template_names table_name specs) ->
                     smem name (field_ids st') = true).
Proof.
  induction specs as [|spec specs IH]; intros st next fields.
  - simpl. repeat split; try reflexivity; [now intros k Hk|intros name []].
  - cbn [fold_left].
    pose proof (add_field_spec_keeps table_name st next fields spec) as H1.
    destruct (add_field_spec table_name (st, next, fields) spec)
      as [[st1 next1] fields1].
    destruct H1 as (Ht & Hl & Hg & Hc & Hmono & Hnew).
    specialize (IH st1 next1 fields1).
    destruct (fold_left (add_field_spec table_name) specs (st1, next1, fields1))
      as [[st2 next2] fields2].
    destruct IH as (Ht' & Hl' & Hg' & Hc' & Hmono' & Hall').
    repeat split; try congruence.
    + intros k Hk. now apply Hmono', Hmono.
    + intros name [<-|Hin]; [now apply Hmono'|now apply Hall'].
Qed.

(** X3.  The generic field templates of a table are handed out once.
    When the concordance gives a table no ['MANY'] field,
    [_get_fields_for_table] registers the templates under the names
    [table_name_FieldName] and returns them; the registry of tables is
    left as it was, so the next call for the same table takes the same
    branch, finds every template name registered already, and returns
    no field at all. *)
Theorem generic_fields_are_handed_out_once (st : TState) (table_name : string) :
  match sget table_name (tables st) with
  | Some tf => MANY tf = []
  | None => True
  end ->
  let '(fields1, st1) := _get_fields_for_table st table_name in
  let '(fields2, st2) := _get_fields_for_table st1 table_name in
  tables st1 = tables st
  /\ (forall name,
        In name (template_names table_name
                   (default default_fields (sget table_name common_fields))) ->
        smem name (field_ids st1) = true)
  /\ fields2 = []
  /\ field_ids st2 = field_ids st1
  /\ data_types st2 = data_types st1.
Proof.
  intros Hno.
  assert (Hbranch : forall s,
    tables s = tables st ->
    _get_fields_for_table s table_name
    = let s0 := logger WARNING
                  ("No MANY fields found for table " +:+ table_name
                   +:+ ", using generic field definitions") s in
      let '(s1, _, fields) :=
        fold_left (add_field_spec table_name)
                  (default default_fields (sget table_name common_fields))
                  (s0, (Z.of_nat (List.length (field_ids s0)) + 1)%Z, []) in
      (fields, s1)).
  { intros s Hs. unfold _get_fields_for_table. rewrite Hs.
    destruct (sget table_name (tables st)) as [[one many]|]; [|reflexivity].
    simpl in Hno. now subst many. }
  rewrite (Hbranch st eq_refl). cbv zeta.
  set (specs := default default_fields (sget table_name common_fields)).
  set (s0 := logger WARNING _ st).
  pose proof (add_field_specs_keep table_name specs s0
                (Z.of_nat (List.length (field_ids s0)) + 1)%Z []) as Hk.
  destruct (fold_left (add_field_spec table_name) specs
              (s0, (Z.of_nat (List.length (field_ids s0)) + 1)%Z, []))
    as [[st1 next1] fields1] eqn:E1.
  destruct Hk as (Ht & _ & _ & _ & _ & Hall).
  assert (Ht1 : tables st1 = tables st) by (rewrite Ht; reflexivity).
  rewrite (Hbranch st1 Ht1). cbv zeta.
  fold specs.
  rewrite add_field_specs_registered.
  - repeat split; try reflexivity; assumption.
  - intros name Hin. simpl. now apply Hall.
Qed.

(** *** The ids [_load_concordance] assigns *)

Lemma concordance_row_step (df : DataFrame) (st : TState) (fid : Z)
  (row : list (option string)) :
  let '(st', fid') := concordance_row df (st, fid) row in
  concordance_path st' = concordance_path st
  /\ field_loaded st' = field_loaded st
  /\ log st' = log st
  /\ match accepted_name df row with
     | Some v =>
         field_ids st' = sset v fid (field_ids st)
         /\ (exists dt, data_types st' = sset v dt (data_types st))
         /\ fid' = (fid + 1)%Z
         /\ (String.eqb (row_table df row) "" = true
             \/ String.eqb (row_table df row) "filing_values" = true ->
             tables st' = tables st)
     | None => st' = st /\ fid' = fid
     end.
Proof.
  unfold concordance_row, accepted_name, row_table.
  destruct (cell df row (pick_column df "variable_name" "VAR_NAME")) as [v|];
    [|now repeat split].
  destruct (cell df row (pick_column df "xpath" "XPATH")) as [x|];
    [|now repeat split].
  destruct (String.eqb v "" || String.eqb x ""); [now repeat split|].
  cbn [concordance_path field_loaded log field_ids data_types tables].
  repeat split; try reflexivity.
  - eexists. reflexivity.
  - intros [H|H]; rewrite H; cbn [negb andb]; [reflexivity|].
    now rewrite andb_false_r.
Qed.

Lemma omap_cons_eq {A B} (f : A -> option B) (x : A) (l : list A) :
  omap f (x :: l)
  = match f x with
    | Some y => y :: omap f l
    | None => omap f l
    end.
Proof. reflexivity. Qed.

Lemma sset_values_In (k : string) (v x : Z) (d : list (string * Z)) :
  In x (List.map snd (sset k v d)) -> x = v \/ In x (List.map snd d).
Proof.
  induction d as [|[k' v'] d IH]; simpl.
  - intros [<-|[]]. now left.
  - destruct (String.eqb k k'); simpl.
    + intros [<-|H]; [now left|right; now right].
    + intros [<-|H]; [right; now left|].
      destruct (IH H) as [->|H']; [now left|right; now right].
Qed.

Lemma concordance_rows_registry (df : DataFrame) (rws : list (list (option string))) :
  forall st fid,
    registry_ok st fid ->
    let '(st', fid') := fold_left (concordance_row df) rws (st, fid) in
    registry_ok st' fid'
    /\ fid' = (fid + Z.of_nat (List.length (omap (accepted_name df) rws)))%Z
    /\ concordance_path st' = concordance_path st
    /\ field_loaded st' = field_loaded st
    /\ log st' = log st
    /\ (forall v, In v (List.map fst (field_ids st'))
                  <-> In v (List.map fst (field_ids st))
                      \/ In v (omap (accepted_name df) rws))
    /\ ((forall row, In row rws ->
           String.eqb (row_table df row) "" = true
           \/ String.eqb (row_table df row) "filing_values" = true) ->
        tables st' = tables st).
Proof.
  induction rws as [|row rws IH]; intros st fid Hok.
  - cbn [fold_left omap List.length].
    split; [exact Hok|]. split; [simpl; lia|].
    split; [reflexivity|]. split; [reflexivity|]. split; [reflexivity|].
    split; [|reflexivity].
    intros v. split; [now left|]. now intros [H|[]].
  - cbn [fold_left].
    pose proof (concordance_row_step df st fid row) as Hstep.
    destruct (concordance_row df (st, fid) row) as [st1 fid1].
    destruct Hstep as (Hp & Hl & Hg & Hcase).
    assert (Hok1 : registry_ok st1 fid1
                   /\ fid1 = (fid + if accepted_name df row is Some _ then 1 else 0)%Z
                   /\ (forall v, In v (List.map fst (field_ids st1))
                                 <-> In v (List.map fst (field_ids st))
                                     \/ accepted_name df row = Some v)).
    { destruct (accepted_name df row) as [v|].
      - destruct Hcase as (Hf & [dt Hd] & -> & _).
        destruct Hok as (Hk & Hv & Hsame & Hb & Hpos).
        destruct (sset_NoDup_values v fid (field_ids st)) as [Hv' Hb'];
          [intros x Hx; specialize (Hb x Hx); lia|exact Hv|].
        split; [|split; [lia|]].
        + unfold registry_ok. rewrite Hf, Hd.
          split; [now apply sset_NoDup_keys|]. split; [exact Hv'|].
          split; [now apply sset_same_keys|].
          split; [|lia].
          intros x Hx. apply sset_values_In in Hx.
          destruct Hx as [->|Hx]; [lia|]. specialize (Hb x Hx). lia.
        + intros w. rewrite Hf, sset_keys. split.
          * intros [->|H]; [now right|now left].
          * intros [H|[= ->]]; [now right|now left].
      - destruct Hcase as [-> ->]. split; [exact Hok|]. split; [lia|].
        intros w. split; [now left|]. now intros [H|H]. }
    destruct Hok1 as (Hok1 & Hfid1 & Hkeys1).
    specialize (IH st1 fid1 Hok1).
    destruct (fold_left (concordance_row df) rws (st1, fid1)) as [st2 fid2].
    destruct IH as (Hok2 & Hfid2 & Hp2 & Hl2 & Hg2 & Hkeys2 & Ht2).
    split; [exact Hok2|].
    split.
    { rewrite omap_cons_eq.
      destruct (accepted_name df row); cbn [List.length] in *; lia. }
    split; [congruence|]. split; [congruence|]. split; [congruence|].
    split.
    { intros v. rewrite Hkeys2, Hkeys1, omap_cons_eq.
      destruct (accepted_name df row) as [w|]; simpl; split.
      - intros [[H|[= ->]]|H]; auto.
      - intros [H|[->|H]]; auto.
      - intros [[H|H]|H]; [auto|discriminate|auto].
      - intros [H|H]; auto. }
    intros Hdef. rewrite Ht2 by (intros r Hr; apply Hdef; now right).
    destruct (accepted_name df row) as [v|].
    + destruct Hcase as (_ & _ & _ & Ht). apply Ht, Hdef. now left.
    + now destruct Hcase as [-> _].
Qed.

Lemma concordance_rows_sequential (df : DataFrame)
  (rws : list (list (option string))) :
  forall st fid,
    ids_sequential (field_ids st) ->
    fid = (Z.of_nat (List.length (field_ids st)) + 1)%Z ->
    NoDup (List.map fst (field_ids st) ++ omap (accepted_name df) rws) ->
    let '(st', fid') := fold_left (concordance_row df) rws (st, fid) in
    ids_sequential (field_ids st')
    /\ List.map fst (field_ids st')
       = List.map fst (field_ids st) ++ omap (accepted_name df) rws.
Proof.
  induction rws as [|row rws IH]; intros st fid Hseq Hfid Hnd.
  - cbn [fold_left]. split; [exact Hseq|]. simpl. now rewrite app_nil_r.
  - cbn [fold_left].
    pose proof (concordance_row_step df st fid row) as Hstep.
    destruct (concordance_row df (st, fid) row) as [st1 fid1].
    destruct Hstep as (_ & _ & _ & Hcase).
    rewrite omap_cons_eq in Hnd |- *.
    destruct (accepted_name df row) as [v|].
    + destruct Hcase as (Hf & _ & -> & _).
      assert (Hfresh : smem v (field_ids st) = false).
      { destruct (smem v (field_ids st)) eqn:E; [|reflexivity].
        apply smem_In in E. apply NoDup_app in Hnd.
        destruct Hnd as (_ & Hdis & _). exfalso.
        apply (Hdis v); [now apply list_elem_of_In|]. now left. }
      rewrite (sset_fresh _ _ _ Hfresh) in Hf.
      specialize (IH st1 (fid + 1)%Z).
      rewrite Hf in IH.
      rewrite List.map_app, List.length_app in IH. cbn [List.map fst List.length] in IH.
      rewrite <- app_assoc in IH. cbn [app] in IH.
      destruct (fold_left (concordance_row df) rws (st1, (fid + 1)%Z)) as [st2 fid2].
      apply IH; [|lia|exact Hnd].
      subst fid. apply ids_sequential_snoc, Hseq.
    + destruct Hcase as [-> ->]. now apply IH.
Qed.

Lemma concordance_rows_last (df : DataFrame)
  (rws : list (list (option string))) :
  forall st fid names,
    fid = (Z.of_nat (List.length names) + 1)%Z ->
    last_row_wins (field_ids st) names ->
    last_row_wins
      (field_ids (fst (fold_left (concordance_row df) rws (st, fid))))
      (names ++ omap (accepted_name df) rws).
Proof.
  induction rws as [|row rws IH]; intros st fid names Hfid Hlast.
  - cbn [fold_left fst]. simpl. now rewrite app_nil_r.
  - cbn [fold_left].
    pose proof (concordance_row_step df st fid row) as Hstep.
    destruct (concordance_row df (st, fid) row) as [st1 fid1].
    destruct Hstep as (_ & _ & _ & Hcase).
    rewrite omap_cons_eq.
    destruct (accepted_name df row) as [v0|].
    + destruct Hcase as (Hf & _ & -> & _).
      replace (names ++ v0 :: omap (accepted_name df) rws)
        with ((names ++ [v0]) ++ omap (accepted_name df) rws)
        by (now rewrite <- app_assoc).
      apply IH.
      * rewrite List.length_app. cbn [List.length]. lia.
      * intros v id Hv. rewrite Hf, sget_sset in Hv.
        destruct (String.eqb_spec v v0) as [->|Hne].
        -- inversion Hv; subst id. exists (List.length names).
           split; [|split; [lia|]].
           ++ rewrite lookup_app_r by reflexivity.
              now rewrite Nat.sub_diag.
           ++ intros j Hj Hc. apply lookup_lt_Some in Hc.
              rewrite length_app in Hc. cbn in Hc. lia.
        -- destruct (Hlast v id Hv) as (i & Hi & Hid & Hmax).
           exists i. split; [|split; [exact Hid|]].
           ++ now apply lookup_app_l_Some.
           ++ intros j Hj Hc.
              destruct (decide (j < List.length names)%nat) as [Hlt|Hge].
              ** rewrite lookup_app_l in Hc by exact Hlt. now apply (Hmax j).
              ** rewrite lookup_app_r in Hc by lia.
                 destruct (j - List.length names)%nat; cbn in Hc; [|discriminate].
                 congruence.
    + destruct Hcase as [-> ->]. now apply IH.
Qed.

Section ConcordanceIds.
Context {LX : Lxml} {HS : Host}.

Lemma load_concordance_fold (path : string) (df : DataFrame) :
  path_exists path = true ->
  read_csv path = Ok df ->
  IRS990Transformer path
  = Ok (let st' := fst (fold_left (concordance_row df) (rows df)
                          (mkTState path [] [] [] false [], 1%Z)) in
        mkTState (concordance_path st') (field_ids st') (data_types st')
                 (tables st') true (log st')).
Proof.
  intros He Hr. unfold IRS990Transformer, _load_concordance.
  cbn [concordance_path]. rewrite He. cbn [negb]. rewrite Hr. cbn [bind].
  destruct (fold_left (concordance_row df) (rows df) _) as [st' fid']. reflexivity.
Qed.

(** X4.  The registry a readable concordance gives.  Every row that
    holds a variable name and a location takes the next id, counting
    from 1, so a variable named by several rows keeps the id of the last
    of them: distinct variables never share an id, ids lie between 1
    and the number of such rows, and [field_ids] and [data_types] hold
    the same variables in the same order.  When no variable is named
    twice, the registry lists the variables in the order of the rows
    with the ids 1, 2, 3, ... *)
Theorem concordance_ids_are_distinct (path : string) (df : DataFrame) :
  path_exists path = true ->
  read_csv path = Ok df ->
  exists st,
    IRS990Transformer path = Ok st
    /\ field_loaded st = true
    /\ log st = []
    /\ NoDup (List.map fst (field_ids st))
    /\ NoDup (List.map snd (field_ids st))
    /\ List.map fst (field_ids st) = List.map fst (data_types st)
    /\ (forall v, In v (List.map fst (field_ids st)) <-> In v (accepted_names df))
    /\ (forall x, In x (List.map snd (field_ids st)) ->
                  (1 <= x <= Z.of_nat (List.length (accepted_names df)))%Z)
    /\ last_row_wins (field_ids st) (accepted_names df)
    /\ (NoDup (accepted_names df) ->
        List.map fst (field_ids st) = accepted_names df
        /\ ids_sequential (field_ids st)).
Proof.
  intros He Hr. eexists. split; [apply (load_concordance_fold path df He Hr)|].
  set (st0 := mkTState path [] [] [] false []).
  assert (Hok0 : registry_ok st0 1).
  { unfold registry_ok, st0. cbn.
    repeat split; try constructor; try (intros x []); lia. }
  pose proof (concordance_rows_registry df (rows df) st0 1%Z Hok0) as Hreg.
  pose proof (concordance_rows_sequential df (rows df) st0 1%Z) as Hseq.
  pose proof (concordance_rows_last df (rows df) st0 1%Z [] eq_refl) as Hlast.
  destruct (fold_left (concordance_row df) (rows df) (st0, 1%Z)) as [st' fid'].
  cbn [fst field_loaded log field_ids data_types].
  destruct Hreg as ((Hk & Hv & Hsame & Hb & _) & Hfid & _ & _ & Hlog & Hkeys & _).
  split; [reflexivity|]. split; [exact Hlog|].
  split; [exact Hk|]. split; [exact Hv|]. split; [exact Hsame|].
  split.
  { intros v. rewrite Hkeys. unfold accepted_names. simpl. tauto. }
  split.
  { intros x Hx. specialize (Hb x Hx). unfold accepted_names. lia. }
  split.
  { apply Hlast. intros v id Hsome. discriminate. }
  intros Hnd. destruct Hseq as [Hs Hnames].
  - reflexivity.
  - reflexivity.
  - exact Hnd.
  - split; [exact Hnames|exact Hs].
Qed.
End ConcordanceIds.

(** ** What processing documents does to the transformer *)

Lemma grows_refl (st : TState) : grows st st.
Proof. unfold grows. tauto. Qed.

Lemma grows_trans (a b c : TState) : grows a b -> grows b c -> grows a c.
Proof.
  unfold grows.
  intros (Ht & Hl & Hp & Hk & Hs) (Ht' & Hl' & Hp' & Hk' & Hs').
  repeat split; try congruence; auto.
Qed.

Lemma logger_grows (lv : Level) (msg : string) (st : TState) :
  grows st (logger lv msg st).
Proof. unfold grows, logger, set_log. cbn. tauto. Qed.

Lemma extends_refl (st : TState) : extends st st.
Proof. split; [apply grows_refl|reflexivity]. Qed.

Lemma extends_trans (a b c : TState) : extends a b -> extends b c -> extends a c.
Proof.
  intros [Hg Hf] [Hg' Hf'].
  split; [now apply (grows_trans a b c)|congruence].
Qed.

Lemma failures_logger (lv : Level) (msg : string) (st : TState) :
  failures (logger lv msg st)
  = (failures st + if is_failure (lv, msg) then 1 else 0)%nat.
Proof.
  unfold failures, logger, set_log. cbn [log].
  rewrite List.filter_app, List.length_app. cbn [List.filter].
  now destruct (is_failure (lv, msg)).
Qed.

Lemma logger_extends (lv : Level) (msg : string) (st : TState) :
  is_failure (lv, msg) = false -> extends st (logger lv msg st).
Proof.
  intros Hno. split; [apply logger_grows|].
  rewrite failures_logger, Hno. lia.
Qed.

Lemma add_field_specs_sequential (table_name : string) (specs : list FieldSpec) :
  forall st next fields,
    ids_sequential (field_ids st) ->
    next = (Z.of_nat (List.length (field_ids st)) + 1)%Z ->
    ids_sequential
      (field_ids (fst (fst (fold_left (add_field_spec table_name) specs
                                      (st, next, fields))))).
Proof.
  induction specs as [|spec specs IH]; intros st next fields Hs Hn; [exact Hs|].
  cbn [fold_left]. unfold add_field_spec at 2.
  destruct (smem _ (field_ids st)) eqn:E; [now apply IH|].
  apply IH; cbn [field_ids]; rewrite (sset_fresh _ _ _ E).
  - subst next. now apply ids_sequential_snoc.
  - rewrite List.length_app. cbn [List.length]. lia.
Qed.

Lemma get_fields_extends (st : TState) (table_name : string) :
  extends st (snd (_get_fields_for_table st table_name)).
Proof.
  unfold _get_fields_for_table.
  set (s0 := logger WARNING _ st).
  assert (H0 : extends st s0).
  { apply logger_extends. reflexivity. }
  assert (Hgen :
    extends st
      (snd (let '(s1, _, fields) :=
              fold_left (add_field_spec table_name)
                (default default_fields (sget table_name common_fields))
                (s0, (Z.of_nat (List.length (field_ids s0)) + 1)%Z, []) in
            (fields, s1)))).
  { pose proof (add_field_specs_keep table_name
                  (default default_fields (sget table_name common_fields)) s0
                  (Z.of_nat (List.length (field_ids s0)) + 1)%Z []) as Hk.
    pose proof (add_field_specs_sequential table_name
                  (default default_fields (sget table_name common_fields)) s0
                  (Z.of_nat (List.length (field_ids s0)) + 1)%Z []) as Hq.
    destruct (fold_left _ _ _) as [[s1 next1] fields1].
    cbn [fst snd] in *.
    destruct Hk as (Ht & Hl & Hg & Hp & Hmono & _).
    apply (extends_trans _ _ _ H0).
    split; [|unfold failures; now rewrite Hg].
    unfold grows. repeat split; try assumption.
    intros Hs. now apply Hq. }
  destruct (sget table_name (tables st)) as [[one [|fi many]]|];
    [exact Hgen|apply extends_refl|exact Hgen].
Qed.

Section TransformState.
Context {LX : Lxml} {HS : Host}.

Lemma process_groups_extends (detected : list (string * list Node)) :
  forall st filing_id ns group_id,
    extends st (snd (process_groups st filing_id ns group_id detected)).
Proof.
  induction detected as [|[group_xpath group_elements] rest IH];
    intros st filing_id ns group_id; [apply extends_refl|].
  cbn [process_groups].
  destruct (String.eqb (_guess_table_name group_xpath) ""); [apply IH|].
  pose proof (get_fields_extends st (_guess_table_name group_xpath)) as Hg.
  destruct (_get_fields_for_table st (_guess_table_name group_xpath))
    as [table_fields st1].
  cbn [snd] in Hg.
  destruct (collect _ group_elements) as [values|e]; [|exact Hg].
  specialize (IH st1 filing_id ns (group_id + 1)%Z).
  destruct (process_groups st1 filing_id ns (group_id + 1) rest)
    as [[[groups more]|e] st2]; cbn [snd] in *;
    now apply (extends_trans _ _ _ Hg).
Qed.

Lemma extract_filing_values_extends st root filing_id ns :
  extends st (snd (_extract_filing_values st root filing_id ns)).
Proof.
  unfold _extract_filing_values.
  destruct (negb (field_loaded st)); cbn [snd]; [|apply extends_refl].
  apply logger_extends. reflexivity.
Qed.

Lemma process_xml_body_extends st xml_file :
  extends st (snd (process_xml_body st xml_file)).
Proof.
  unfold process_xml_body.
  destruct (parse xml_file) as [tree|e]; [|apply extends_refl].
  destruct (_extract_metadata _ _ _) as [m|e]; [|apply extends_refl].
  pose proof (extract_filing_values_extends st (root_node tree)
                (default "" (Metadata.filing_id m)) (namespaces_of tree)) as H1.
  destruct (_extract_filing_values st _ _ _) as [[fv|e] st1]; cbn [snd] in *;
    [|exact H1].
  unfold _process_repeating_groups.
  pose proof (process_groups_extends
                (_detect_repeating_groups
                   (default (XNode (root_node tree))
                      (find_return_data (root_node tree) (namespaces_of tree)
                         return_data_patterns))
                   (namespaces_of tree))
                st1 (default "" (Metadata.filing_id m)) (namespaces_of tree) 1%Z)
    as H2.
  destruct (process_groups st1 _ _ _ _) as [[[groups values]|e] st2];
    cbn [snd] in *; now apply (extends_trans _ _ _ H1).
Qed.

Lemma process_xml_file_extends st xml_file :
  extends st (snd (_process_xml_file st xml_file)).
Proof.
  unfold _process_xml_file.
  pose proof (process_xml_body_extends st xml_file) as H.
  destruct (process_xml_body st xml_file) as [[data|e] st1]; cbn [snd] in *;
    [exact H|].
  apply (extends_trans _ _ _ H). apply logger_extends. reflexivity.
Qed.
End TransformState.

(** ** What a processed document holds *)

Lemma collect_Forall {A B} (f : A -> result (list B)) (P : B -> Prop)
  (l : list A) :
  (forall a bs, In a l -> f a = Ok bs -> Forall P bs) ->
  forall bs, collect f l = Ok bs -> Forall P bs.
Proof.
  induction l as [|a l IH]; intros Hf bs; simpl.
  - intros [= <-]. constructor.
  - destruct (f a) as [x|] eqn:Ea; simpl; [|discriminate].
    destruct (collect f l) as [xs|] eqn:El; simpl; [|discriminate].
    intros [= <-]. apply Forall_app. split.
    + apply (Hf a x); [now left|exact Ea].
    + apply IH; [|reflexivity]. intros a' bs' Hin. apply Hf. now right.
Qed.

Section DocumentProperties.
Context {LX : Lxml} {HS : Host}.

Lemma extract_metadata_complete root ns file_name m :
  _extract_metadata root ns file_name = Ok m ->
  exists e t f v,
    e <> "" /\ t <> "" /\ f <> "" /\ v <> ""
    /\ Metadata.ein m = Some e
    /\ Metadata.tax_period m = Some t
    /\ Metadata.form_type m = Some f
    /\ Metadata.filing_id m = Some (e +:+ "_" +:+ t +:+ "_" +:+ f)
    /\ Metadata.form_version m = Some v
    /\ Metadata.object_id m = Some file_name.
Proof.
  unfold _extract_metadata.
  destruct (PyStr.truthy (get_text root ns ein_patterns)) eqn:He;
    cbv beta iota zeta delta [negb]; [|discriminate].
  destruct (PyStr.truthy (get_text root ns tax_period_patterns)) eqn:Ht;
    cbv beta iota zeta delta [negb]; [|discriminate].
  destruct (PyStr.truthy (get_text root ns form_type_patterns)) eqn:Hf;
    cbv beta iota zeta delta [negb]; [|discriminate].
  apply truthy_Some in He as (e & -> & Hne).
  apply truthy_Some in Ht as (t & -> & Hnt).
  apply truthy_Some in Hf as (f & -> & Hnf).
  simpl. destruct (tax_year_of t); simpl; [|discriminate].
  intros [= <-]. exists e, t, f, (form_version_of root (List.map snd ns)).
  repeat split; try assumption.
  unfold form_version_of.
  match goal with
  | |- (match ?v with Some _ => _ | None => _ end) <> _ => destruct v as [s|]
  end; [|discriminate].
  destruct (String.eqb_spec s ""); [discriminate|assumption].
Qed.

Lemma process_xml_body_parts st xml_file data st' :
  process_xml_body st xml_file = (Ok data, st') ->
  exists tree st1,
    parse xml_file = Ok tree
    /\ _extract_metadata (root_node tree) (namespaces_of tree)
                         (basename xml_file) = Ok (metadata data)
    /\ Organization.ein (organization data) = Metadata.ein (metadata data)
    /\ _extract_filing_values st (root_node tree)
         (default "" (Metadata.filing_id (metadata data))) (namespaces_of tree)
       = (Ok (filing_values data), st1)
    /\ _process_repeating_groups st1 (root_node tree)
         (default "" (Metadata.filing_id (metadata data))) (namespaces_of tree)
       = (Ok (repeating_groups data, group_values data), st').
Proof.
  unfold process_xml_body.
  destruct (parse xml_file) as [tree|]; [|discriminate].
  destruct (_extract_metadata _ _ _) as [md|] eqn:Hmd; [|discriminate].
  destruct (_extract_filing_values _ _ _ _) as [[rows|] st1] eqn:Hfv;
    [|discriminate].
  destruct (_process_repeating_groups _ _ _ _) as [[[groups values]|] st2] eqn:Hg;
    [|discriminate].
  intros [= <- <-]. exists tree, st1. cbn [metadata organization filing_values
    repeating_groups group_values].
  repeat split; try assumption; reflexivity.
Qed.

Lemma filing_value_of_row st root filing_id ns entry rows :
  filing_value_of st root filing_id ns entry = Ok rows ->
  rows = []
  \/ exists slots, rows = [FilingValue.mk filing_id (snd entry) slots].
Proof.
  unfold filing_value_of. destruct entry as [var_name field_id].
  destruct (is_many_field st var_name); [intros [= <-]; now left|].
  destruct (_extract_value_from_xml st root var_name ns) as [value|];
    [|intros [= <-]; now left].
  destruct (_convert_value value _) as [slots|]; simpl; [|discriminate].
  intros [= <-]. right. now exists slots.
Qed.

Lemma collect_filing_values st root filing_id ns (entries : list (string * Z)) :
  forall rows,
    collect (filing_value_of st root filing_id ns) entries = Ok rows ->
    List.map FilingValue.field_id rows `sublist_of` List.map snd entries
    /\ Forall (fun r => FilingValue.filing_id r = filing_id) rows.
Proof.
  induction entries as [|entry entries IH]; intros rows; cbn [collect].
  - intros [= <-]. split; constructor.
  - destruct (filing_value_of st root filing_id ns entry) as [x|] eqn:Ex;
      cbn [bind]; [|discriminate].
    destruct (collect _ entries) as [xs|]; cbn [bind]; [|discriminate].
    intros [= <-]. destruct (IH xs eq_refl) as [Hsub Hall].
    apply filing_value_of_row in Ex. destruct Ex as [->|[slots ->]]; simpl.
    + split; [now apply sublist_cons|exact Hall].
    + split; [now apply sublist_skip|]. constructor; [reflexivity|exact Hall].
Qed.

Lemma extract_filing_values_rows st root filing_id ns rows st' :
  _extract_filing_values st root filing_id ns = (Ok rows, st') ->
  List.map FilingValue.field_id rows `sublist_of` List.map snd (field_ids st)
  /\ Forall (fun r => FilingValue.filing_id r = filing_id) rows.
Proof.
  unfold _extract_filing_values. destruct (negb (field_loaded st)).
  - intros [= <- <-]. split; [apply sublist_nil_l|constructor].
  - intros [= H <-]. exact (collect_filing_values st root filing_id ns _ _ H).
Qed.

Lemma group_value_of_group group_id ns group_element field_info rows :
  group_value_of group_id ns group_element field_info = Ok rows ->
  Forall (fun v => GroupValue.group_id v = group_id
                   /\ GroupValue.field_id v = FieldInfo.field_id field_info) rows.
Proof.
  unfold group_value_of.
  destruct (_extract_value_from_element _ _ _) as [value|];
    [|intros [= <-]; constructor].
  destruct (_convert_value value _) as [slots|]; simpl; [|discriminate].
  intros [= <-]. repeat constructor.
Qed.

(** What the loop of [_process_repeating_groups] returns: one group per
    detected path, numbered from the counter on, and values that name
    the group they were read from. *)
Lemma process_groups_ok (detected : list (string * list Node)) :
  forall st filing_id ns group_id groups values st',
    process_groups st filing_id ns group_id detected = (Ok (groups, values), st') ->
    List.length groups = List.length detected
    /\ (forall i grp,
          groups !! i = Some grp ->
          exists d,
            detected !! i = Some d
            /\ grp = RepeatingGroup.mk (group_id + Z.of_nat i) filing_id None
                       (Some (_guess_table_name (fst d))) (Some (fst d)))
    /\ Forall (fun v => (group_id <= GroupValue.group_id v
                         < group_id + Z.of_nat (List.length detected))%Z) values.
Proof.
  induction detected as [|[group_xpath group_elements] rest IH];
    intros st filing_id ns group_id groups values st'.
  - cbn [process_groups]. intros [= <- <- <-].
    split; [reflexivity|]. split; [intros i grp Hi; discriminate|constructor].
  - cbn [process_groups].
    destruct (guess_table_name_identifier group_xpath) as [[Hne _] _].
    apply String.eqb_neq in Hne. rewrite Hne.
    destruct (_get_fields_for_table st (_guess_table_name group_xpath))
      as [table_fields st1].
    destruct (collect _ group_elements) as [vals|e] eqn:Ec; [|discriminate].
    destruct (process_groups st1 filing_id ns (group_id + 1) rest)
      as [[[groups1 more]|e] st2] eqn:Er; [|discriminate].
    intros [= <- <- <-].
    destruct (IH _ _ _ _ _ _ _ Er) as (Hlen & Hgroups & Hvalues).
    split; [cbn [List.length]; now rewrite Hlen|]. split.
    + intros [|i] grp Hi; cbn in Hi.
      * inversion Hi; subst grp. eexists. split; [reflexivity|].
        cbn [fst]. now rewrite Z.add_0_r.
      * destruct (Hgroups i grp Hi) as (d & Hd & ->).
        exists d. split; [exact Hd|]. f_equal. lia.
    + apply Forall_app. split.
      * assert (Hsame : Forall (fun v => GroupValue.group_id v = group_id) vals).
        { apply (collect_Forall _ _ _ (fun ge bs _ Hb =>
                   collect_Forall _ _ _
                     (fun fi bs' _ Hb' =>
                        Forall_impl _ _ _ (group_value_of_group _ _ _ _ _ Hb')
                                    (fun v Hv => proj1 Hv))
                     bs Hb) vals Ec). }
        eapply Forall_impl; [exact Hsame|].
        intros v Hv. cbn beta in Hv. cbn [List.length]. lia.
      * eapply Forall_impl; [exact Hvalues|].
        intros v Hv. cbn beta in Hv. cbn [List.length]. lia.
Qed.
End DocumentProperties.

(** ** Statements that cannot fail *)

Section StatementProperties.
Context {R K : Type} (key : R -> K) (eqb : K -> K -> bool).
Hypothesis eqb_eq : forall a b, eqb a b = true <-> a = b.


End StatementProperties.

Lemma chunks_from_sublist {A} (n : nat) (l : list A) :
  forall cur c, In c (Sql.chunks_from n cur l) -> c `sublist_of` cur ++ l.
Proof.
  induction l as [|x l IH]; intros cur c; cbn [Sql.chunks_from].
  - destruct cur as [|y cur]; [intros []|].
    intros [<-|[]]. now rewrite app_nil_r.
  - destruct (List.length (cur ++ [x]) =? n)%nat.
    + intros [<-|Hin].
      * replace (cur ++ x :: l) with ((cur ++ [x]) ++ l)
          by (now rewrite <- app_assoc).
        now apply sublist_inserts_r.
      * apply (IH [] c) in Hin. cbn [app] in Hin.
        apply sublist_inserts_l. now apply sublist_cons.
    + intros Hin. apply (IH (cur ++ [x]) c) in Hin.
      now rewrite <- app_assoc in Hin.
Qed.

Lemma chunks_sublist {A} (n : nat) (l : list A) (c : list A) :
  In c (Sql.chunks n l) -> c `sublist_of` l.
Proof. intros Hin. now apply (chunks_from_sublist n l [] c). Qed.







(** ** What the outcome of a load depends on

    Whether a statement of the loader fails is decided by the document
    and the batch size: the checks for a missing id read the document,
    and an upsert statement fails on the rows it proposes, not on the
    rows of the table. *)




Section PagesExn.
Context {R K : Type} (key : R -> K) (eqb : K -> K -> bool).




End PagesExn.





Section GroupIdShift.
Variable d : Z.

Local Abbreviation shifted :=
  (fun r => GroupValueRow.mk (GroupValueRow.group_id r + d)
              (GroupValueRow.field_id r) (GroupValueRow.slots r)).




End GroupIdShift.






(** ** Batches of documents *)


Section BatchProperties.
Context {LX : Lxml} {HS : Host}.

Lemma transform_results (P : ProcessedData -> Prop) (files : list string) :
  forall st,
    (forall st1 f d st2,
        grows st st1 -> In f files ->
        _process_xml_file st1 f = (Some d, st2) -> P d) ->
    Forall P (fst (transform st files))
    /\ grows st (snd (transform st files)).
Proof.
  induction files as [|f files IH]; intros st Hall.
  - cbn. split; [constructor|apply grows_refl].
  - cbn [transform].
    pose proof (process_xml_file_extends st f) as [Hg _].
    destruct (_process_xml_file st f) as [[d|] st1] eqn:E; cbn [snd] in Hg.
    + destruct (IH st1) as [HF Hg1].
      { intros s1 f' d' s2 Hs Hin. apply Hall; [|now right].
        now apply (grows_trans _ _ _ Hg). }
      destruct (transform st1 files) as [results st2]. cbn [fst snd] in *.
      split; [|now apply (grows_trans _ _ _ Hg)].
      constructor; [|exact HF].
      apply (Hall st f d st1); [apply grows_refl|now left|exact E].
    + assert (Hg' : grows st (logger WARNING ("Failed to transform " +:+ f) st1)).
      { apply (grows_trans _ _ _ Hg), logger_grows. }
      destruct (IH (logger WARNING ("Failed to transform " +:+ f) st1)) as [HF Hg1].
      { intros s1 f' d' s2 Hs Hin. apply Hall; [|now right].
        now apply (grows_trans _ _ _ Hg'). }
      split; [exact HF|]. now apply (grows_trans _ _ _ Hg').
Qed.

Lemma is_failure_failed (f : string) :
  is_failure (WARNING, "Failed to transform " +:+ f) = true.
Proof.
  unfold is_failure, PyStr.startswith. cbn [fst snd].
  apply string_prefix_iff. now exists f.
Qed.

(** Every file gives a document or a failure record. *)
Lemma transform_accounting (files : list string) :
  forall st,
    let '(results, st') := transform st files in
    (List.length results + failures st' = List.length files + failures st)%nat
    /\ List.map (fun d => Metadata.object_id (metadata d)) results
       `sublist_of` List.map (fun f => Some (basename f)) files
    /\ grows st st'.
Proof.
  induction files as [|f files IH]; intros st.
  - cbn. split; [reflexivity|]. split; [constructor|apply grows_refl].
  - cbn [transform].
    pose proof (process_xml_file_extends st f) as [Hg Hf].
    destruct (_process_xml_file st f) as [[d|] st1] eqn:E; cbn [snd] in Hg, Hf.
    + specialize (IH st1).
      destruct (transform st1 files) as [results st2].
      destruct IH as (Hcount & Hsub & Hg1).
      split; [cbn [List.length]; lia|].
      split; [|now apply (grows_trans _ _ _ Hg)].
      cbn [List.map].
      apply process_xml_file_body, process_xml_body_parts in E.
      destruct E as (tree & s1 & _ & Hm & _).
      apply extract_metadata_complete in Hm.
      destruct Hm as (e & t & f' & v & _ & _ & _ & _ & _ & _ & _ & _ & _ & ->).
      now apply sublist_skip.
    + specialize (IH (logger WARNING ("Failed to transform " +:+ f) st1)).
      destruct (transform _ files) as [results st2].
      destruct IH as (Hcount & Hsub & Hg1).
      rewrite failures_logger, is_failure_failed in Hcount.
      split; [cbn [List.length]; lia|].
      split; [cbn [List.map]; now apply sublist_cons|].
      apply (grows_trans _ _ _ Hg).
      apply (grows_trans _ _ _ (logger_grows _ _ _) Hg1).
Qed.

(** X5.  [transform] accounts for every file it is given: a file either
    contributes one document to the result or one record
    [Failed to transform ...] to the log, never both and never neither.
    The documents come in the order of the files, each carrying the base
    name of its file as [object_id].  The registry of the transformer
    only grows meanwhile: the tables of the concordance are unchanged
    and no variable loses its id. *)
Theorem transform_accounts_for_every_file (files : list string) :
  forall st,
    let '(results, st') := transform st files in
    (List.length results + failures st' = List.length files + failures st)%nat
    /\ List.map (fun d => Metadata.object_id (metadata d)) results
       `sublist_of` List.map (fun f => Some (basename f)) files
    /\ grows st st'.
Proof. apply transform_accounting. Qed.

Lemma processed_document_parts (st : TState) (xml_file : string)
  (data : ProcessedData) (st' : TState) :
  _process_xml_file st xml_file = (Some data, st') ->
  exists filing_id ein,
    (filing_id <> "" /\ Metadata.filing_id (metadata data) = Some filing_id)
    /\ (ein <> "" /\ Metadata.ein (metadata data) = Some ein)
    /\ Organization.ein (organization data) = Some ein
    /\ Metadata.object_id (metadata data) = Some (basename xml_file)
    /\ Forall (fun r => FilingValue.filing_id r = filing_id) (filing_values data)
    /\ List.map FilingValue.field_id (filing_values data)
       `sublist_of` List.map snd (field_ids st)
    /\ (forall i grp,
          repeating_groups data !! i = Some grp ->
          exists path,
            grp = RepeatingGroup.mk (Z.of_nat (S i)) filing_id None
                    (Some (_guess_table_name path)) (Some path))
    /\ Forall (fun v => (1 <= GroupValue.group_id v
                         <= Z.of_nat (List.length (repeating_groups data)))%Z)
              (group_values data).
Proof.
  intros E. apply process_xml_file_body, process_xml_body_parts in E.
  destruct E as (tree & s1 & _ & Hm & Horg & Hfv & Hgr).
  apply extract_metadata_complete in Hm.
  destruct Hm as (e & t & f & v & Hne & _ & _ & _ & He & _ & _ & Hfid & _ & Hobj).
  rewrite Hfid in Hfv, Hgr. cbn [default] in Hfv, Hgr.
  exists (e +:+ "_" +:+ t +:+ "_" +:+ f), e.
  split.
  { split; [|exact Hfid]. destruct e as [|c e]; [congruence|discriminate]. }
  split; [now split|]. split; [congruence|]. split; [exact Hobj|].
  split; [apply (extract_filing_values_rows _ _ _ _ _ _ Hfv)|].
  split; [apply (extract_filing_values_rows _ _ _ _ _ _ Hfv)|].
  unfold _process_repeating_groups in Hgr.
  apply process_groups_ok in Hgr. destruct Hgr as (Hlen & Hgroups & Hvalues).
  split.
  - intros i grp Hi. destruct (Hgroups i grp Hi) as (d & _ & ->).
    exists (fst d). f_equal. lia.
  - eapply Forall_impl; [exact Hvalues|].
    intros gv Hgv. cbn beta in Hgv. rewrite Hlen. lia.
Qed.

(** X6.  A document that [_process_xml_file] returns is consistent: its
    metadata hold a non-empty employer id and a non-empty filing id, the
    organization bears the same employer id, [object_id] is the base
    name of the file, every filing value and every group carries the
    filing id of the metadata, the groups are numbered 1, 2, 3, ... in
    the order of detection with no parent, each named by
    [_guess_table_name] of its path, and every group value names one of
    these groups. *)
Theorem processed_document_is_consistent (st : TState) (xml_file : string)
  (data : ProcessedData) (st' : TState) :
  _process_xml_file st xml_file = (Some data, st') ->
  exists filing_id ein,
    filing_id <> "" /\ ein <> ""
    /\ Metadata.filing_id (metadata data) = Some filing_id
    /\ Metadata.ein (metadata data) = Some ein
    /\ Organization.ein (organization data) = Some ein
    /\ Metadata.object_id (metadata data) = Some (basename xml_file)
    /\ Forall (fun r => FilingValue.filing_id r = filing_id) (filing_values data)
    /\ (forall i grp,
          repeating_groups data !! i = Some grp ->
          exists path,
            grp = RepeatingGroup.mk (Z.of_nat (S i)) filing_id None
                    (Some (_guess_table_name path)) (Some path))
    /\ Forall (fun v => (1 <= GroupValue.group_id v
                         <= Z.of_nat (List.length (repeating_groups data)))%Z)
              (group_values data).
Proof.
  intros E. apply processed_document_parts in E.
  destruct E as (fid & e & [Hnf Hfid] & [Hne He] & Horg & Hobj & Hfv & _ & Hg & Hv).
  exists fid, e. repeat split; assumption.
Qed.

End BatchProperties.

(** ** Variables of the default table *)

Lemma sset_In {V} (k : string) (v : V) (d : list (string * V)) (kv : string * V) :
  In kv (sset k v d) -> (fst kv = k /\ snd kv = v) \/ In kv d.
Proof.
  induction d as [|[k' v'] d IH]; simpl.
  - intros [<-|[]]. now left.
  - destruct (String.eqb_spec k k') as [->|Hne]; simpl.
    + intros [<-|H]; [now left|right; now right].
    + intros [<-|H]; [right; now left|].
      destruct (IH H) as [H'|H']; [now left|right; now right].
Qed.

Lemma sget_In {V} (k : string) (v : V) (d : list (string * V)) :
  sget k d = Some v -> In (k, v) d.
Proof.
  induction d as [|[k' v'] d IH]; simpl; [discriminate|].
  destruct (String.eqb_spec k k') as [->|Hne].
  - intros [= ->]. now left.
  - intros H. right. now apply IH.
Qed.

Lemma find_xpath_absent (var_name : string) (lists : list (list FieldInfo.t)) :
  (forall l fi, In l lists -> In fi l -> FieldInfo.var_name fi <> var_name) ->
  forall x, find_xpath var_name lists x = x.
Proof.
  induction lists as [|l lists IH]; intros Habs x; [reflexivity|].
  cbn [find_xpath].
  destruct (List.find _ l) as [fi|] eqn:E.
  - apply find_some in E. destruct E as [Hin Heq].
    apply String.eqb_eq in Heq. exfalso.
    exact (Habs l fi (or_introl eq_refl) Hin Heq).
  - destruct (PyStr.truthy x); [reflexivity|].
    apply IH. intros l' fi Hl. apply Habs. now right.
Qed.

Lemma concordance_row_tables (df : DataFrame) (st : TState) (fid : Z)
  (row : list (option string)) (var : string) :
  registered_in_tables (fst (concordance_row df (st, fid) row)) var ->
  registered_in_tables st var
  \/ (accepted_name df row = Some var
      /\ row_table df row <> "" /\ row_table df row <> "filing_values").
Proof.
  unfold concordance_row, accepted_name, row_table.
  destruct (cell df row (pick_column df "variable_name" "VAR_NAME")) as [v|];
    [|now left].
  destruct (cell df row (pick_column df "xpath" "XPATH")) as [x|]; [|now left].
  destruct (String.eqb v "" || String.eqb x ""); [now left|].
  set (t := or_default (cell df row (pick_column df "rdb_table" "DATABASE_TABLE"))
                       "filing_values").
  cbn [fst]. unfold registered_in_tables at 1. cbn [tables].
  destruct (String.eqb_spec t "") as [Ht|Ht]; cbn [negb andb];
    [intros H; now left|].
  destruct (String.eqb_spec t "filing_values") as [Ht'|Ht']; cbn [negb];
    [intros H; now left|].
  intros (kv & fi & Hin & Hfi & Hvar).
  apply sset_In in Hin. destruct Hin as [[Hk Hv]|Hin];
    [|left; now exists kv, fi].
  set (tf := default (mkTable [] []) (sget t (tables st))) in *.
  assert (Hold : forall fi', In fi' (ONE tf) \/ In fi' (MANY tf) ->
                             registered_in_tables st (FieldInfo.var_name fi')).
  { intros fi' Hfi'. subst tf.
    destruct (sget t (tables st)) as [tf0|] eqn:Eg; cbn [default] in Hfi'.
    - exists (t, tf0), fi'. split; [now apply sget_In|]. now split.
    - destruct Hfi' as [[]|[]]. }
  rewrite Hv in Hfi.
  destruct (String.eqb _ "MANY"); cbn [ONE MANY] in Hfi.
  - destruct Hfi as [Hfi|Hfi].
    + left. rewrite <- Hvar. apply Hold. now left.
    + apply in_app_or in Hfi. destruct Hfi as [Hfi|[<-|[]]].
      * left. rewrite <- Hvar. apply Hold. now right.
      * right. cbn in Hvar. subst var. now repeat split.
  - destruct Hfi as [Hfi|Hfi].
    + apply in_app_or in Hfi. destruct Hfi as [Hfi|[<-|[]]].
      * left. rewrite <- Hvar. apply Hold. now left.
      * right. cbn in Hvar. subst var. now repeat split.
    + left. rewrite <- Hvar. apply Hold. now right.
Qed.

Lemma concordance_rows_tables (df : DataFrame)
  (rws : list (list (option string))) (var : string) :
  forall st fid,
    registered_in_tables (fst (fold_left (concordance_row df) rws (st, fid))) var ->
    registered_in_tables st var
    \/ exists row, In row rws /\ accepted_name df row = Some var
                   /\ row_table df row <> ""
                   /\ row_table df row <> "filing_values".
Proof.
  induction rws as [|row rws IH]; intros st fid; [now left|].
  cbn [fold_left].
  pose proof (concordance_row_tables df st fid row var) as Hrow.
  destruct (concordance_row df (st, fid) row) as [st1 fid1].
  intros H. destruct (IH st1 fid1 H) as [H1|(r & Hin & Hr)].
  - destruct (Hrow H1) as [H0|H0]; [now left|].
    right. exists row. split; [now left|exact H0].
  - right. exists r. split; [now right|exact Hr].
Qed.

Lemma collect_nil {A B} (f : A -> result (list B)) (l : list A) :
  (forall a, In a l -> f a = Ok []) -> collect f l = Ok [].
Proof.
  induction l as [|a l IH]; intros H; [reflexivity|].
  cbn [collect]. rewrite (H a (or_introl eq_refl)). cbn [bind].
  rewrite IH by (intros a' Ha'; apply H; now right). reflexivity.
Qed.

Section DefaultTable.
Context {LX : Lxml} {HS : Host}.

Lemma extract_value_unregistered st root var ns :
  ~ registered_in_tables st var ->
  _extract_value_from_xml st root var ns = None.
Proof.
  intros Hno. unfold _extract_value_from_xml.
  rewrite find_xpath_absent; [reflexivity|].
  intros l fi Hl Hfi Hvar. apply Hno.
  unfold field_lists in Hl. apply in_flat_map in Hl.
  destruct Hl as (kv & Hkv & [<-|[<-|[]]]); exists kv, fi; auto.
Qed.

Lemma filing_value_of_unregistered st root filing_id ns var id :
  ~ registered_in_tables st var ->
  filing_value_of st root filing_id ns (var, id) = Ok [].
Proof.
  intros Hno. unfold filing_value_of.
  destruct (is_many_field st var); [reflexivity|].
  now rewrite extract_value_unregistered.
Qed.

(** X8.  Only variables that the concordance places in a table of their
    own are ever read from a document.  [_load_concordance] lists a
    variable in [self.tables] only when its row names a table other than
    ['filing_values'], which is also what an empty cell stands for, and
    [_extract_value_from_xml] looks a location up in [self.tables] only.
    So a variable whose rows all name the default table yields no filing
    value, in any document and in any later state of the transformer;
    and with a concordance that has neither an [rdb_table] nor a
    [DATABASE_TABLE] column, no document of any batch has a filing
    value. *)
Theorem default_table_variables_are_never_extracted (path : string)
  (df : DataFrame) (st : TState) :
  path_exists path = true ->
  read_csv path = Ok df ->
  IRS990Transformer path = Ok st ->
  (forall var,
      (forall row, In row (rows df) -> accepted_name df row = Some var ->
                   row_table df row = "filing_values" \/ row_table df row = "") ->
      forall st' root ns filing_id id,
        grows st st' ->
        _extract_value_from_xml st' root var ns = None
        /\ filing_value_of st' root filing_id ns (var, id) = Ok [])
  /\ (~ In "rdb_table" (columns df) /\ ~ In "DATABASE_TABLE" (columns df) ->
      forall files,
        Forall (fun data => filing_values data = [])
               (fst (transform st files))).
Proof.
  intros He Hr Hst. rewrite (load_concordance_fold path df He Hr) in Hst.
  injection Hst as <-.
  set (st0 := mkTState path [] [] [] false []).
  assert (Hreg : forall var st',
    (forall row, In row (rows df) -> accepted_name df row = Some var ->
                 row_table df row = "filing_values" \/ row_table df row = "") ->
    tables st' = tables (fst (fold_left (concordance_row df) (rows df) (st0, 1%Z))) ->
    ~ registered_in_tables st' var).
  { intros var st' Hdef Ht (kv & fi & Hin & Hfi & Hvar).
    rewrite Ht in Hin.
    destruct (concordance_rows_tables df (rows df) var st0 1%Z) as [H0|H0].
    - now exists kv, fi.
    - destruct H0 as (kv0 & fi0 & [] & _).
    - destruct H0 as (row & Hrow & Hacc & Hn1 & Hn2).
      destruct (Hdef row Hrow Hacc); contradiction. }
  split.
  - intros var Hdef st' root ns filing_id id (Ht & _).
    cbn [tables] in Ht.
    specialize (Hreg var st' Hdef Ht).
    split; [now apply extract_value_unregistered
           |now apply filing_value_of_unregistered].
  - intros [Hc1 Hc2] files.
    assert (Hall : forall var row, In row (rows df) ->
                     accepted_name df row = Some var ->
                     row_table df row = "filing_values" \/ row_table df row = "").
    { intros var row _ _. left. unfold row_table.
      now rewrite (cell_without_column df row _ _ Hc1 Hc2). }
    apply transform_results.
    intros st1 f data st2 (Ht & _) _ E. cbn [tables] in Ht.
    apply process_xml_file_body, process_xml_body_parts in E.
    destruct E as (tree & s1 & _ & _ & _ & Hfv & _).
    unfold _extract_filing_values in Hfv.
    destruct (negb (field_loaded st1)); [now injection Hfv as <- _|].
    injection Hfv as Hfv _. rewrite collect_nil in Hfv; [now injection Hfv as <-|].
    intros [var id] _. apply filing_value_of_unregistered.
    apply Hreg; [now apply Hall|exact Ht].
Qed.
End DefaultTable.

(** ** Detection of repeating groups in the transformer *)

Lemma sset_Forall {V} (P : string * V -> Prop) (k : string) (v : V)
  (d : list (string * V)) :
  Forall P d -> P (k, v) -> Forall P (sset k v d).
Proof.
  intros Hd Hkv. induction Hd as [|[k' v'] d Hx Hd IH]; cbn [sset].
  - now repeat constructor.
  - destruct (String.eqb_spec k k') as [->|Hne]; constructor; assumption.
Qed.

Lemma repeated_children (element : Node) :
  any_repeated (count_keys (List.map localname (children element))) = true
  <-> repeats_a_name (children element).
Proof.
  rewrite any_repeated_count_keys. unfold repeats_a_name. split.
  - intros (i & j & k & Hij & Hi & Hj).
    rewrite map_lookup in Hi, Hj.
    destruct (children element !! i) as [ci|] eqn:Ei; [|discriminate].
    destruct (children element !! j) as [cj|] eqn:Ej; [|discriminate].
    cbn in Hi, Hj. exists i, j, ci, cj. repeat split; try assumption. congruence.
  - intros (i & j & ci & cj & Hij & Hi & Hj & Heq).
    exists i, j, (localname ci). rewrite !map_lookup, Hi, Hj. cbn.
    repeat split; try assumption. now rewrite Heq.
Qed.

Lemma repeats_a_name_two (rows : list Node) :
  repeats_a_name rows -> (2 <= List.length rows)%nat.
Proof.
  intros (i & j & ci & cj & Hij & _ & Hj & _).
  apply lookup_lt_Some in Hj. lia.
Qed.

Section DetectionProperties.
Context {LX : Lxml}.

Lemma detect_elements_entries (root : Node) (ns : Namespaces)
  (pattern : string) (all_elements : list XItem) :
  In pattern group_patterns ->
  xpath root pattern ns = Ok all_elements ->
  forall elements d,
    (forall x, In x elements -> In x all_elements) ->
    Forall (detected_entry root ns) d ->
    NoDup (List.map fst d) ->
    Forall (detected_entry root ns) (detect_elements root elements d)
    /\ NoDup (List.map fst (detect_elements root elements d)).
Proof.
  intros Hp Hx. induction elements as [|[element|] elements IH];
    intros d Hsub Hd Hnd; cbn [detect_elements]; [now split| |now split].
  apply IH.
  - intros x Hin. apply Hsub. now right.
  - destruct (any_repeated _) eqn:E; [|exact Hd].
    apply sset_Forall; [exact Hd|].
    exists pattern, all_elements, element.
    repeat split; try assumption; [apply Hsub; now left|].
    now apply repeated_children.
  - destruct (any_repeated _); [now apply sset_NoDup_keys|exact Hnd].
Qed.

(** X9.  What [_detect_repeating_groups] reports.  Every reported group
    is an element selected by one of the five name patterns, filed
    under its structural path, with its children as rows; at least two
    of the rows bear the same local name, so a group has never fewer
    than two rows; and no path is reported twice, although an element
    may be selected by several patterns. *)
Theorem detected_groups_have_repeated_rows (root : Node) (ns : Namespaces) :
  let detected := _detect_repeating_groups (XNode root) ns in
  NoDup (List.map fst detected)
  /\ forall path rows,
       In (path, rows) detected ->
       (exists pattern elements element,
           In pattern group_patterns
           /\ xpath root pattern ns = Ok elements
           /\ In (XNode element) elements
           /\ path = getpath element
           /\ rows = children element)
       /\ repeats_a_name rows
       /\ (2 <= List.length rows)%nat.
Proof.
  cbn zeta. unfold _detect_repeating_groups.
  assert (Hfold : forall patterns d,
    (forall p, In p patterns -> In p group_patterns) ->
    Forall (detected_entry root ns) d ->
    NoDup (List.map fst d) ->
    let d' := fold_left
                (fun repeating_groups pattern =>
                   match xpath root pattern ns with
                   | Ok elements => detect_elements root elements repeating_groups
                   | Raise _ => repeating_groups
                   end) patterns d in
    Forall (detected_entry root ns) d' /\ NoDup (List.map fst d')).
  { induction patterns as [|p patterns IH]; intros d Hsub Hd Hnd; [now split|].
    cbn [fold_left]. cbn zeta in IH.
    destruct (xpath root p ns) as [elements|e] eqn:Ex.
    - destruct (detect_elements_entries root ns p elements
                  (Hsub p (or_introl eq_refl)) Ex elements d
                  (fun x H => H) Hd Hnd) as [Hd' Hnd'].
      apply IH; [|exact Hd'|exact Hnd'].
      intros q Hq. apply Hsub. now right.
    - apply IH; [|exact Hd|exact Hnd].
      intros q Hq. apply Hsub. now right. }
  destruct (Hfold group_patterns [] (fun p H => H)
              ltac:(constructor) ltac:(constructor)) as [Hall Hnd].
  split; [exact Hnd|].
  intros path rows Hin.
  rewrite List.Forall_forall in Hall. specialize (Hall _ Hin).
  destruct Hall as (pattern & elements & element & Hp & Hx & He & Hpath & Hrows & Hrep).
  cbn [fst snd] in Hpath, Hrows. subst path rows.
  split; [now exists pattern, elements, element|].
  split; [exact Hrep|now apply repeats_a_name_two].
Qed.
End DetectionProperties.

(** ** Groups in the store *)

Lemma stored_groups_ids (groups : list RepeatingGroup.t) :
  forall seq r,
    In r (stored_groups seq groups) ->
    (seq < GroupRow.group_id r <= seq + Z.of_nat (List.length groups))%Z.
Proof.
  induction groups as [|g groups IH]; intros seq r; cbn [stored_groups List.length].
  - intros [].
  - intros [<-|Hin]; [cbn; lia|]. specialize (IH _ _ Hin). lia.
Qed.

Lemma stored_groups_NoDup (groups : list RepeatingGroup.t) :
  forall seq, NoDup (List.map GroupRow.group_id (stored_groups seq groups)).
Proof.
  induction groups as [|g groups IH]; intros seq; cbn [stored_groups List.map].
  - constructor.
  - apply NoDup_cons. split; [|apply IH].
    intros Hin. apply list_elem_of_In, in_map_iff in Hin.
    destruct Hin as (r & Hid & Hin). apply stored_groups_ids in Hin.
    cbn in Hid. lia.
Qed.


Lemma stored_groups_app (g1 g2 : list RepeatingGroup.t) :
  forall seq,
    stored_groups seq (g1 ++ g2)
    = stored_groups seq g1
      ++ stored_groups (seq + Z.of_nat (List.length g1)) g2.
Proof.
  induction g1 as [|g g1 IH]; intros seq; cbn [stored_groups app List.length].
  - now rewrite Z.add_0_r.
  - rewrite IH. cbn [app]. do 3 f_equal. lia.
Qed.

(** What the loop over the groups does to the store and to the map. *)
Lemma insert_groups_spec (groups : list RepeatingGroup.t) :
  forall db m,
    let '(db', m') := fold_left insert_group groups (db, m) in
    repeating_groups_tbl (db_tables db')
    = repeating_groups_tbl (db_tables db) ++ stored_groups (group_id_seq db) groups
    /\ group_id_seq db' = (group_id_seq db + Z.of_nat (List.length groups))%Z
    /\ xml_metadata (db_tables db') = xml_metadata (db_tables db)
    /\ forall k v,
         m' !! k = Some v ->
         m !! k = Some v
         \/ exists g, In g groups /\ RepeatingGroup.group_id g = k
                      /\ In (stored_group v g)
                            (stored_groups (group_id_seq db) groups).
Proof.
  induction groups as [|g groups IH]; intros db m.
  - cbn. rewrite app_nil_r, Z.add_0_r. repeat split; auto.
  - cbn [fold_left]. unfold insert_group at 2.
    match goal with
    | |- context [fold_left insert_group groups (?d, ?mm)] =>
        specialize (IH d mm);
        destruct (fold_left insert_group groups (d, mm)) as [db' m']
    end.
    cbn [db_tables group_id_seq repeating_groups_tbl xml_metadata] in IH.
    destruct IH as (Ht & Hs & Hx & Hm).
    split; [|split; [|split]].
    + rewrite Ht, <- app_assoc. reflexivity.
    + rewrite Hs. cbn [List.length]. lia.
    + exact Hx.
    + intros k v Hkv. destruct (Hm k v Hkv) as [Hold|(g' & Hin & Hk & Hrow)].
      * destruct (decide (k = RepeatingGroup.group_id g)) as [->|Hne].
        -- rewrite lookup_insert_eq in Hold. injection Hold as <-.
           right. exists g. split; [now left|]. split; [reflexivity|].
           cbn [stored_groups]. now left.
        -- rewrite lookup_insert_ne in Hold by congruence. now left.
      * right. exists g'. split; [now right|]. split; [exact Hk|].
        cbn [stored_groups]. now right.
Qed.

Section UpsertMembership.
Context {R K : Type} (key : R -> K) (eqb : K -> K -> bool).

Lemma upsert_In (tbl : list R) (r x : R) :
  In x (Sql.upsert_row key eqb tbl r) -> In x tbl \/ x = r.
Proof.
  unfold Sql.upsert_row. destruct (existsb _ tbl).
  - intros Hin. apply in_map_iff in Hin. destruct Hin as (r' & Hx & Hin).
    destruct (eqb (key r') (key r)); [now right|left; now subst].
  - intros Hin. apply in_app_or in Hin. destruct Hin as [H|[<-|[]]]; auto.
Qed.

Lemma upsert_fold_In (rs : list R) :
  forall tbl x, In x (fold_left (Sql.upsert_row key eqb) rs tbl) ->
                In x tbl \/ In x rs.
Proof.
  induction rs as [|r rs IH]; intros tbl x; cbn [fold_left]; [now left|].
  intros Hin. destruct (IH _ _ Hin) as [H|H]; [|right; now right].
  destruct (upsert_In _ _ _ H) as [Hold | ->]; [now left|right; now left].
Qed.
End UpsertMembership.

Lemma group_value_rows_In (m : gmap Z Z) (batch : list GroupValue.t)
  (r : GroupValueRow.t) :
  In r (group_value_rows m batch) ->
  exists v, In v batch
            /\ m !! GroupValue.group_id v = Some (GroupValueRow.group_id r)
            /\ GroupValueRow.field_id r = GroupValue.field_id v
            /\ GroupValueRow.slots r = GroupValue.slots v.
Proof.
  unfold group_value_rows. intros Hin. apply in_flat_map in Hin.
  destruct Hin as (v & Hv & Hr). exists v. split; [exact Hv|].
  destruct (m !! GroupValue.group_id v) as [id|]; [|destruct Hr].
  destruct Hr as [<-|[]]. cbn. auto.
Qed.

Lemma load_group_batches_rows (m : gmap Z Z) (bs : list (list GroupValue.t)) :
  forall db,
    let db' := outcome_db (load_group_batches db m bs) in
    repeating_groups_tbl (db_tables db') = repeating_groups_tbl (db_tables db)
    /\ xml_metadata (db_tables db') = xml_metadata (db_tables db)
    /\ group_id_seq db' = group_id_seq db
    /\ forall db1, load_group_batches db m bs = Done db1 ->
         forall r, In r (repeating_group_values (db_tables db1)) ->
           In r (repeating_group_values (db_tables db))
           \/ exists batch, In batch bs /\ In r (group_value_rows m batch).
Proof.
  induction bs as [|batch bs IH]; intros db; cbn [load_group_batches].
  - cbn. repeat split; auto. intros db1 [= <-] r Hr. now left.
  - destruct (group_value_rows m batch) as [|row rws] eqn:Erows.
    + destruct (IH db) as (Ht & Hx & Hs & Hrows).
      repeat split; try assumption.
      intros db1 Hd r Hr. destruct (Hrows db1 Hd r Hr) as [H|(b & Hb & Hin)];
        [now left|]. right. exists b. split; [now right|exact Hin].
    + destruct (Sql.execute_values _ _ _ _) as [tbl [e|]] eqn:Hex.
      * cbn. repeat split; auto. discriminate.
      * destruct (IH (with_group_values db tbl)) as (Ht & Hx & Hs & Hrows).
        cbn in Ht, Hx, Hs. repeat split; try assumption.
        intros db1 Hd r Hr.
        destruct (Hrows db1 Hd r Hr) as [H|(b & Hb & Hin)].
        -- cbn in H. apply execute_values_ok in Hex. subst tbl.
           apply upsert_fold_In in H. destruct H as [H|H]; [now left|].
           right. exists batch. split; [now left|]. now rewrite Erows.
        -- right. exists b. split; [now right|exact Hin].
Qed.

Lemma batches_In {A} (batch_size : Z) (l : list A) (bs : list (list A))
  (b : list A) (x : A) :
  Sql.batches batch_size l = Ok bs -> In b bs -> In x b -> In x l.
Proof.
  unfold Sql.batches.
  destruct (batch_size =? 0)%Z; [discriminate|].
  destruct (batch_size <? 0)%Z; intros [= <-]; [intros []|].
  intros Hb Hx. apply chunks_sublist in Hb.
  apply list_elem_of_In. eapply elem_of_sublist; [|exact Hb].
  now apply list_elem_of_In.
Qed.

Lemma load_repeating_groups_spec (batch_size : Z) (db : Db)
  (groups : list RepeatingGroup.t) (values : list GroupValue.t) :
  let db' := outcome_db (_load_repeating_groups batch_size db groups values) in
  repeating_groups_tbl (db_tables db')
  = repeating_groups_tbl (db_tables db) ++ stored_groups (group_id_seq db) groups
  /\ group_id_seq db' = (group_id_seq db + Z.of_nat (List.length groups))%Z
  /\ xml_metadata (db_tables db') = xml_metadata (db_tables db)
  /\ forall db1,
       _load_repeating_groups batch_size db groups values = Done db1 ->
       forall r, In r (repeating_group_values (db_tables db1)) ->
         In r (repeating_group_values (db_tables db))
         \/ exists v g,
              In v values /\ In g groups
              /\ GroupValue.group_id v = RepeatingGroup.group_id g
              /\ GroupValueRow.field_id r = GroupValue.field_id v
              /\ GroupValueRow.slots r = GroupValue.slots v
              /\ In (stored_group (GroupValueRow.group_id r) g)
                    (stored_groups (group_id_seq db) groups).
Proof.
  unfold _load_repeating_groups. destruct groups as [|g groups].
  { cbn. rewrite app_nil_r, Z.add_0_r. repeat split; auto.
    intros db1 [= <-] r Hr. now left. }
  pose proof (insert_groups_spec (g :: groups) db ∅) as Hspec.
  pose proof (insert_groups_frame (g :: groups) (db, ∅)) as Hframe.
  destruct (fold_left insert_group (g :: groups) (db, ∅)) as [db1 m].
  cbn [fst] in Hframe. destruct Hframe as (_ & _ & _ & Hgv).
  destruct Hspec as (Ht & Hs & Hx & Hm).
  destruct values as [|v values].
  { cbn [outcome_db]. repeat split; try assumption.
    intros db2 [= <-] r Hr. left. now rewrite <- Hgv. }
  destruct (Sql.batches batch_size (v :: values)) as [bs|e] eqn:Eb.
  - destruct (load_group_batches_rows m bs db1) as (Ht' & Hx' & Hs' & Hrows).
    split; [now rewrite Ht'|]. split; [now rewrite Hs'|].
    split; [now rewrite Hx'|].
    intros db2 Hd r Hr. destruct (Hrows db2 Hd r Hr) as [H|(b & Hb & Hin)].
    + left. now rewrite <- Hgv.
    + right. apply group_value_rows_In in Hin.
      destruct Hin as (gv & Hgvb & Hmap & Hf & Hsl).
      destruct (Hm _ _ Hmap) as [Hempty|(g' & Hg' & Hk & Hrow)];
        [now rewrite lookup_empty in Hempty|].
      exists gv, g'. repeat split; try assumption.
      * exact (batches_In _ _ _ _ _ Eb Hb Hgvb).
      * now symmetry.
  - cbn [outcome_db]. repeat split; try assumption. discriminate.
Qed.

(** X10.  The group values [_load_repeating_groups] writes are those of
    the call, each rewritten to the id the store gave to a group of the
    call that bears the value's client-side id.  A value whose client id
    names none of the groups handed over is not written, and no value is
    ever filed under a group stored by an earlier call; the group rows
    themselves are appended with the next ids of the sequence, in the
    order given. *)
Theorem group_values_follow_their_groups (batch_size : Z) (db db' : Db)
  (groups : list RepeatingGroup.t) (values : list GroupValue.t) :
  _load_repeating_groups batch_size db groups values = Done db' ->
  repeating_groups_tbl (db_tables db')
  = repeating_groups_tbl (db_tables db) ++ stored_groups (group_id_seq db) groups
  /\ group_id_seq db' = (group_id_seq db + Z.of_nat (List.length groups))%Z
  /\ forall r,
       In r (repeating_group_values (db_tables db')) ->
       In r (repeating_group_values (db_tables db))
       \/ exists v g,
            In v values /\ In g groups
            /\ GroupValue.group_id v = RepeatingGroup.group_id g
            /\ GroupValueRow.field_id r = GroupValue.field_id v
            /\ GroupValueRow.slots r = GroupValue.slots v
            /\ In (stored_group (GroupValueRow.group_id r) g)
                  (repeating_groups_tbl (db_tables db'))
            /\ (group_id_seq db < GroupValueRow.group_id r <= group_id_seq db')%Z.
Proof.
  intros Hd.
  pose proof (load_repeating_groups_spec batch_size db groups values) as Hspec.
  rewrite Hd in Hspec. cbn [outcome_db] in Hspec.
  destruct Hspec as (Ht & Hs & _ & Hrows).
  split; [exact Ht|]. split; [exact Hs|].
  intros r Hr. destruct (Hrows db' eq_refl r Hr) as [H|(v & g & Hv & Hg & Hk & Hf & Hsl & Hrow)];
    [now left|].
  right. exists v, g. repeat split; try assumption.
  - rewrite Ht. apply in_or_app. now right.
  - apply stored_groups_ids in Hrow. cbn in Hrow. lia.
  - apply stored_groups_ids in Hrow. cbn in Hrow. lia.
Qed.

(** ** One transaction per document *)

Lemma load_organization_rest (db : Db) (o : Organization.t) :
  let db' := outcome_db (_load_organization db o) in
  repeating_groups_tbl (db_tables db') = repeating_groups_tbl (db_tables db)
  /\ xml_metadata (db_tables db') = xml_metadata (db_tables db)
  /\ group_id_seq db' = group_id_seq db.
Proof.
  unfold _load_organization.
  destruct (negb (PyStr.truthy (Organization.ein o))); [now cbn|].
  destruct (Sql.organization_exists db _); now cbn.
Qed.

Lemma load_filing_record_rest (db : Db) (m : Metadata.t) :
  let db' := outcome_db (_load_filing_record db m) in
  repeating_groups_tbl (db_tables db') = repeating_groups_tbl (db_tables db)
  /\ xml_metadata (db_tables db') = xml_metadata (db_tables db)
  /\ group_id_seq db' = group_id_seq db.
Proof.
  unfold _load_filing_record.
  destruct (negb (PyStr.truthy (Metadata.filing_id m))
            || negb (PyStr.truthy (Metadata.ein m))); [now cbn|].
  destruct (Sql.filing_exists db _); now cbn.
Qed.

Lemma load_value_batches_rest (bs : list (list FilingValue.t)) :
  forall db,
    let db' := outcome_db (load_value_batches db bs) in
    repeating_groups_tbl (db_tables db') = repeating_groups_tbl (db_tables db)
    /\ xml_metadata (db_tables db') = xml_metadata (db_tables db)
    /\ group_id_seq db' = group_id_seq db.
Proof.
  induction bs as [|b bs IH]; intros db; cbn [load_value_batches]; [now cbn|].
  destruct (Sql.execute_values _ _ _ _) as [tbl [e|]]; [now cbn|].
  destruct (IH (with_filing_values db tbl)) as (Ht & Hx & Hs). now cbn in *.
Qed.

Lemma load_filing_values_rest (batch_size : Z) (db : Db)
  (values : list FilingValue.t) :
  let db' := outcome_db (_load_filing_values batch_size db values) in
  repeating_groups_tbl (db_tables db') = repeating_groups_tbl (db_tables db)
  /\ xml_metadata (db_tables db') = xml_metadata (db_tables db)
  /\ group_id_seq db' = group_id_seq db.
Proof.
  unfold _load_filing_values. destruct values as [|v values]; [now cbn|].
  destruct (Sql.batches batch_size (v :: values)) as [bs|e]; [|now cbn].
  apply load_value_batches_rest.
Qed.

(** The groups table and the sequence after the statements of one
    document: either no group was inserted yet, or all of them were. *)
Lemma load_statements_groups (batch_size : Z) (db : Db) (filing_id : string)
  (data : ProcessedData) :
  let o := load_statements batch_size db filing_id data in
  let appended db' :=
    repeating_groups_tbl (db_tables db')
    = repeating_groups_tbl (db_tables db)
      ++ stored_groups (group_id_seq db) (repeating_groups data)
    /\ group_id_seq db'
       = (group_id_seq db + Z.of_nat (List.length (repeating_groups data)))%Z in
  match o with
  | Done db' => appended db'
  | Failed _ db' =>
      (repeating_groups_tbl (db_tables db') = repeating_groups_tbl (db_tables db)
       /\ group_id_seq db' = group_id_seq db)
      \/ appended db'
  end.
Proof.
  cbn zeta. unfold load_statements.
  pose proof (load_organization_rest db (organization data)) as H1.
  destruct (_load_organization db (organization data)) as [db1|e1 db1];
    cbn [outcome_db andthen] in *; destruct H1 as (T1 & _ & S1); [|now left].
  pose proof (load_filing_record_rest db1 (metadata data)) as H2.
  destruct (_load_filing_record db1 (metadata data)) as [db2|e2 db2];
    cbn [outcome_db andthen] in *; destruct H2 as (T2 & _ & S2);
    [|left; split; congruence].
  pose proof (load_filing_values_rest batch_size db2 (filing_values data)) as H3.
  destruct (_load_filing_values batch_size db2 (filing_values data))
    as [db3|e3 db3];
    cbn [outcome_db andthen] in *; destruct H3 as (T3 & _ & S3);
    [|left; split; congruence].
  pose proof (load_repeating_groups_spec batch_size db3 (repeating_groups data)
                (group_values data)) as H4.
  assert (Tall : repeating_groups_tbl (db_tables db3)
                 = repeating_groups_tbl (db_tables db)) by congruence.
  assert (Sall : group_id_seq db3 = group_id_seq db) by congruence.
  destruct (_load_repeating_groups batch_size db3 (repeating_groups data)
              (group_values data)) as [db4|e4 db4];
    cbn [outcome_db andthen] in *; destruct H4 as (T4 & S4 & _ & _);
    rewrite Tall, Sall in T4; rewrite Sall in S4; [|right; now split].
  destruct (xml_hash data); cbn; now split.
Qed.

(** The same, seen from [_load_filing]. *)
Lemma load_filing_groups (batch_size : Z) (db : Db) (data : ProcessedData) :
  let '(r, db') := _load_filing batch_size db data in
  match r with
  | Ok _ =>
      repeating_groups_tbl (db_tables db')
      = repeating_groups_tbl (db_tables db)
        ++ stored_groups (group_id_seq db) (repeating_groups data)
      /\ group_id_seq db'
         = (group_id_seq db + Z.of_nat (List.length (repeating_groups data)))%Z
  | Raise _ =>
      db_tables db' = db_tables db
      /\ (group_id_seq db <= group_id_seq db')%Z
  end.
Proof.
  unfold _load_filing.
  destruct (negb (PyStr.truthy (Metadata.filing_id (metadata data))));
    [split; [reflexivity|lia]|].
  pose proof (load_statements_groups batch_size db
                (default "" (Metadata.filing_id (metadata data))) data) as H.
  cbn zeta in H.
  destruct (load_statements _ _ _ _) as [db'|e db']; [exact H|].
  cbn [db_tables group_id_seq]. split; [reflexivity|].
  destruct H as [[_ ->]|[_ ->]]; lia.
Qed.

Lemma group_ids_fresh_append (db db' : Db) (groups : list RepeatingGroup.t) :
  group_ids_fresh db ->
  repeating_groups_tbl (db_tables db')
  = repeating_groups_tbl (db_tables db) ++ stored_groups (group_id_seq db) groups ->
  group_id_seq db' = (group_id_seq db + Z.of_nat (List.length groups))%Z ->
  group_ids_fresh db'.
Proof.
  intros [Hnd Hb] Ht Hs. unfold group_ids_fresh. rewrite Ht, Hs. split.
  - rewrite List.map_app. apply NoDup_app.
    split; [exact Hnd|]. split; [|apply stored_groups_NoDup].
    intros x Hx Hx'. apply list_elem_of_In, in_map_iff in Hx.
    apply list_elem_of_In, in_map_iff in Hx'.
    destruct Hx as (r & <- & Hr). destruct Hx' as (r' & Heq & Hr').
    specialize (Hb r Hr). apply stored_groups_ids in Hr'. lia.
  - intros r Hr. apply in_app_or in Hr. destruct Hr as [Hr|Hr].
    + specialize (Hb r Hr). lia.
    + apply stored_groups_ids in Hr. lia.
Qed.

Lemma load_filing_fresh (batch_size : Z) (db : Db) (data : ProcessedData) :
  group_ids_fresh db ->
  group_ids_fresh (snd (_load_filing batch_size db data))
  /\ (group_id_seq db <= group_id_seq (snd (_load_filing batch_size db data)))%Z.
Proof.
  intros Hf. pose proof (load_filing_groups batch_size db data) as H.
  destruct (_load_filing batch_size db data) as [[r|e] db']; cbn [snd].
  - destruct H as [Ht Hs].
    split; [now apply (group_ids_fresh_append db db' (repeating_groups data))|lia].
  - destruct H as [Ht Hs]. split; [|exact Hs].
    destruct Hf as [Hnd Hb]. unfold group_ids_fresh. rewrite Ht.
    split; [exact Hnd|]. intros r Hr. specialize (Hb r Hr). lia.
Qed.

Lemma load_cons (batch_size : Z) (db : Db) (data : ProcessedData)
  (rest : list ProcessedData) :
  load batch_size db (data :: rest)
  = (match fst (_load_filing batch_size db data) with
     | Ok result => result
     | Raise e =>
         Error (exn_str e)
               (default "unknown" (Metadata.filing_id (metadata data)))
     end :: fst (load batch_size (snd (_load_filing batch_size db data)) rest),
     snd (load batch_size (snd (_load_filing batch_size db data)) rest)).
Proof.
  cbn [load]. destruct (_load_filing batch_size db data) as [r db1]. cbn [fst snd].
  now destruct (load batch_size db1 rest).
Qed.

(** X11.  Group ids never collide.  If no two stored groups bear the
    same id and the sequence has passed every stored id, the same holds
    after [load] has gone through any list of documents, whether they
    were committed or rolled back: a committed document appends its
    groups under the next ids of the sequence, a failed one leaves the
    table as it was, and the sequence never goes back (the ids a
    rolled-back document consumed are not given out again). *)
Theorem stored_group_ids_stay_unique (batch_size : Z)
  (datas : list ProcessedData) :
  forall db,
    group_ids_fresh db ->
    group_ids_fresh (snd (load batch_size db datas))
    /\ (group_id_seq db <= group_id_seq (snd (load batch_size db datas)))%Z.
Proof.
  induction datas as [|data datas IH]; intros db Hf.
  - cbn. split; [exact Hf|lia].
  - rewrite load_cons. cbn [snd].
    destruct (load_filing_fresh batch_size db data Hf) as [Hf1 Hs1].
    destruct (IH _ Hf1) as [Hf2 Hs2]. split; [exact Hf2|lia].
Qed.

Lemma load_length (batch_size : Z) (datas : list ProcessedData) :
  forall db, List.length (fst (load batch_size db datas)) = List.length datas.
Proof.
  induction datas as [|data datas IH]; intros db; [reflexivity|].
  rewrite load_cons. cbn [fst List.length]. f_equal. apply IH.
Qed.

Lemma load_app (batch_size : Z) (datas more : list ProcessedData) :
  forall db,
    load batch_size db (datas ++ more)
    = (fst (load batch_size db datas)
       ++ fst (load batch_size (snd (load batch_size db datas)) more),
       snd (load batch_size (snd (load batch_size db datas)) more)).
Proof.
  induction datas as [|data datas IH]; intros db.
  - cbn [app load fst snd]. now destruct (load batch_size db more).
  - cbn [app]. rewrite !load_cons. cbn [fst snd].
    rewrite (IH (snd (_load_filing batch_size db data))). reflexivity.
Qed.

(** X12.  [load] handles its documents one at a time and never raises:
    it returns one result per document, in order; loading a list in two
    parts, one after the other, gives the same results and the same
    store as loading it at once; a document that fails leaves every
    table as it was before it, and the documents after it are loaded
    all the same. *)
Theorem load_goes_document_by_document (batch_size : Z)
  (datas : list ProcessedData) (db : Db) :
    List.length (fst (load batch_size db datas)) = List.length datas
    /\ (forall more,
          load batch_size db (datas ++ more)
          = (fst (load batch_size db datas)
             ++ fst (load batch_size (snd (load batch_size db datas)) more),
             snd (load batch_size (snd (load batch_size db datas)) more)))
    /\ (forall data e db',
          _load_filing batch_size db data = (Raise e, db') ->
          db_tables db' = db_tables db
          /\ load batch_size db (data :: datas)
             = (Error (exn_str e)
                      (default "unknown" (Metadata.filing_id (metadata data)))
                :: fst (load batch_size db' datas),
                snd (load batch_size db' datas))).
Proof.
  split; [apply load_length|]. split; [intros more; apply load_app|].
  intros data e db' Hfail. split.
  - pose proof (load_filing_groups batch_size db data) as H.
    rewrite Hfail in H. apply H.
  - rewrite load_cons, Hfail. reflexivity.
Qed.

(** ** Loading a document again *)





Lemma load_organization_write (db db' : Db) (o : Organization.t) :
  _load_organization db o = Done db' ->
  exists e,
    Organization.ein o = Some e
    /\ organizations (db_tables db')
       = entity_write OrgRow.ein (Sql.merge_organization o)
           (new_organization e o) e (organizations (db_tables db)).
Proof.
  unfold _load_organization.
  destruct (PyStr.truthy (Organization.ein o)) eqn:Ht; cbn [negb]; [|discriminate].
  destruct (Organization.ein o) as [e|]; [|discriminate]. cbn [default].
  intros Hd. exists e. split; [reflexivity|].
  unfold entity_write, Sql.organization_exists in *.
  destruct (existsb _ (organizations (db_tables db))); injection Hd as <-;
    reflexivity.
Qed.

Lemma load_filing_record_write (db db' : Db) (m : Metadata.t) :
  _load_filing_record db m = Done db' ->
  exists f,
    Metadata.filing_id m = Some f
    /\ filings (db_tables db')
       = entity_write FilingRow.filing_id (Sql.overwrite_filing m)
           (new_filing f (default "" (Metadata.ein m)) m) f
           (filings (db_tables db)).
Proof.
  unfold _load_filing_record.
  destruct (PyStr.truthy (Metadata.filing_id m)) eqn:Ht; cbn [negb orb];
    [|discriminate].
  destruct (PyStr.truthy (Metadata.ein m)); cbn [negb]; [|discriminate].
  destruct (Metadata.filing_id m) as [f|]; [|discriminate]. cbn [default].
  intros Hd. exists f. split; [reflexivity|].
  unfold entity_write, Sql.filing_exists in *.
  destruct (existsb _ (filings (db_tables db))); injection Hd as <-;
    reflexivity.
Qed.

Lemma store_xml_metadata_write (db : Db) (filing_id xml_hash : string) :
  xml_metadata (db_tables (_store_xml_metadata db filing_id xml_hash))
  = entity_write XmlMetadataRow.filing_id
      (fun r => XmlMetadataRow.mk (XmlMetadataRow.filing_id r) xml_hash)
      (XmlMetadataRow.mk filing_id xml_hash) filing_id
      (xml_metadata (db_tables db))
  /\ organizations (db_tables (_store_xml_metadata db filing_id xml_hash))
     = organizations (db_tables db)
  /\ filings (db_tables (_store_xml_metadata db filing_id xml_hash))
     = filings (db_tables db)
  /\ filing_values_tbl (db_tables (_store_xml_metadata db filing_id xml_hash))
     = filing_values_tbl (db_tables db).
Proof. unfold _store_xml_metadata, entity_write. now cbn. Qed.

(** *** Upserting the same rows twice *)

Section UpsertTwice.
Context {R K : Type} (key : R -> K) (eqb : K -> K -> bool).
Hypothesis eqb_eq : forall a b, eqb a b = true <-> a = b.

Local Abbreviation upsert := (Sql.upsert_row key eqb).
Local Abbreviation lookup_key := (find_key key eqb).





End UpsertTwice.

Lemma load_filing_values_sent (batch_size : Z) (db db' : Db)
  (values : list FilingValue.t) :
  _load_filing_values batch_size db values = Done db' ->
  filing_values_tbl (db_tables db')
  = fold_left (Sql.upsert_row FilingValueRow.key Sql.fv_key_eqb)
              (List.map filing_value_row (sent_values batch_size values))
              (filing_values_tbl (db_tables db)).
Proof.
  unfold _load_filing_values, sent_values.
  destruct values as [|v values].
  { intros [= <-]. now destruct (0 <? batch_size)%Z. }
  unfold Sql.batches.
  destruct (Z.eqb_spec batch_size 0); [discriminate|].
  destruct (Z.ltb_spec batch_size 0).
  - cbn [load_value_batches]. intros [= <-].
    destruct (Z.ltb_spec 0 batch_size); [lia|reflexivity].
  - intros Hd. apply load_value_batches_done in Hd as (_ & _ & _ & Hv).
    rewrite chunks_concat in Hv.
    destruct (Z.ltb_spec 0 batch_size); [exact Hv|lia].
Qed.

(** What the statements of one document write to the tables other than
    those of the groups. *)
Lemma load_statements_tables (batch_size : Z) (db db' : Db)
  (filing_id : string) (data : ProcessedData) :
  load_statements batch_size db filing_id data = Done db' ->
  exists e f,
    Organization.ein (organization data) = Some e
    /\ Metadata.filing_id (metadata data) = Some f
    /\ organizations (db_tables db')
       = entity_write OrgRow.ein (Sql.merge_organization (organization data))
           (new_organization e (organization data)) e
           (organizations (db_tables db))
    /\ filings (db_tables db')
       = entity_write FilingRow.filing_id (Sql.overwrite_filing (metadata data))
           (new_filing f (default "" (Metadata.ein (metadata data)))
                       (metadata data)) f
           (filings (db_tables db))
    /\ filing_values_tbl (db_tables db')
       = fold_left (Sql.upsert_row FilingValueRow.key Sql.fv_key_eqb)
           (List.map filing_value_row
                     (sent_values batch_size (filing_values data)))
           (filing_values_tbl (db_tables db))
    /\ xml_metadata (db_tables db')
       = match xml_hash data with
         | Some h =>
             entity_write XmlMetadataRow.filing_id
               (fun r => XmlMetadataRow.mk (XmlMetadataRow.filing_id r) h)
               (XmlMetadataRow.mk filing_id h) filing_id
               (xml_metadata (db_tables db))
         | None => xml_metadata (db_tables db)
         end.
Proof.
  unfold load_statements.
  pose proof (load_organization_rest db (organization data)) as R1.
  destruct (_load_organization db (organization data)) as [db1|] eqn:H1;
    [|discriminate]. cbn [andthen outcome_db] in *.
  pose proof (load_filing_record_rest db1 (metadata data)) as R2.
  destruct (_load_filing_record db1 (metadata data)) as [db2|] eqn:H2;
    [|discriminate]. cbn [andthen outcome_db] in *.
  pose proof (load_filing_values_rest batch_size db2 (filing_values data)) as R3.
  destruct (_load_filing_values batch_size db2 (filing_values data))
    as [db3|] eqn:H3; [|discriminate]. cbn [andthen outcome_db] in *.
  pose proof (load_repeating_groups_spec batch_size db3 (repeating_groups data)
                (group_values data)) as R4.
  destruct (_load_repeating_groups batch_size db3 (repeating_groups data)
              (group_values data)) as [db4|] eqn:H4; [|discriminate].
  cbn [andthen outcome_db] in *.
  intros Hlast.
  destruct R1 as (_ & X1 & _). destruct R2 as (_ & X2 & _).
  destruct R3 as (_ & X3 & _). destruct R4 as (_ & _ & X4 & _).
  pose proof (load_organization_done _ _ _ H1) as (e0 & _ & F1 & V1 & _).
  pose proof (load_filing_record_done _ _ _ H2) as (f0 & _ & O2 & V2 & _).
  pose proof (load_filing_values_done _ _ _ _ H3) as (O3 & F3 & _).
  pose proof (load_repeating_groups_done _ _ _ _ _ H4) as (O4 & F4 & V4 & _).
  apply load_organization_write in H1. destruct H1 as (e & He & Ho).
  apply load_filing_record_write in H2. destruct H2 as (f & Hf & Hfl).
  apply load_filing_values_sent in H3.
  exists e, f. split; [exact He|]. split; [exact Hf|].
  assert (E : organizations (db_tables db') = organizations (db_tables db4)
              /\ filings (db_tables db') = filings (db_tables db4)
              /\ filing_values_tbl (db_tables db') = filing_values_tbl (db_tables db4)
              /\ xml_metadata (db_tables db')
                 = match xml_hash data with
                   | Some h =>
                       entity_write XmlMetadataRow.filing_id
                         (fun r => XmlMetadataRow.mk (XmlMetadataRow.filing_id r) h)
                         (XmlMetadataRow.mk filing_id h) filing_id
                         (xml_metadata (db_tables db4))
                   | None => xml_metadata (db_tables db4)
                   end).
  { destruct (xml_hash data) as [h|]; injection Hlast as <-.
    - destruct (store_xml_metadata_write db4 filing_id h) as (Hx & Ho' & Hf' & Hv').
      now repeat split.
    - now repeat split. }
  destruct E as (Eo & Ef & Ev & Ex).
  split; [rewrite Eo, O4, O3, O2; exact Ho|].
  split; [rewrite Ef, F4, F3, Hfl, F1; reflexivity|].
  split; [rewrite Ev, V4, H3, V2, V1; reflexivity|].
  rewrite Ex, X4, X3, X2, X1. reflexivity.
Qed.

Lemma load_filing_Ok (batch_size : Z) (db db' : Db) (data : ProcessedData)
  (r : LoadResult) :
  _load_filing batch_size db data = (Ok r, db') ->
  exists f,
    Metadata.filing_id (metadata data) = Some f
    /\ load_statements batch_size db f data = Done db'
    /\ r = Success f (List.length (filing_values data))
             (List.length (repeating_groups data))
             (List.length (group_values data)).
Proof.
  unfold _load_filing.
  destruct (PyStr.truthy (Metadata.filing_id (metadata data))) eqn:Ht;
    cbn [negb]; [|discriminate].
  destruct (Metadata.filing_id (metadata data)) as [f|]; [|discriminate].
  change (default "" (Some f)) with f.
  destruct (load_statements batch_size db f data) as [db1|e db1] eqn:E;
    [|discriminate].
  intros [= <- <-]. now exists f.
Qed.



(** ** Batch sizes that are not positive *)

Lemma load_statements_zero (db : Db) (filing_id : string) (data : ProcessedData) :
  filing_values data <> [] ->
  exists e db', load_statements 0 db filing_id data = Failed e db'.
Proof.
  intros Hne. unfold load_statements.
  destruct (_load_organization db (organization data)) as [db1|e1 db1];
    cbn [andthen]; [|eauto].
  destruct (_load_filing_record db1 (metadata data)) as [db2|e2 db2];
    cbn [andthen]; [|eauto].
  unfold _load_filing_values.
  destruct (filing_values data) as [|v values]; [congruence|].
  cbn. eauto.
Qed.

Lemma load_group_values_negative (batch_size : Z) (db db' : Db)
  (groups : list RepeatingGroup.t) (values : list GroupValue.t) :
  (batch_size < 0)%Z ->
  _load_repeating_groups batch_size db groups values = Done db' ->
  repeating_group_values (db_tables db') = repeating_group_values (db_tables db).
Proof.
  intros Hneg. unfold _load_repeating_groups.
  destruct groups as [|g groups]; [now intros [= <-]|].
  pose proof (insert_groups_frame (g :: groups) (db, ∅)) as Hframe.
  destruct (fold_left insert_group (g :: groups) (db, ∅)) as [db1 m].
  cbn [fst] in Hframe. destruct Hframe as (_ & _ & _ & Hgv).
  destruct values as [|v values]; [now intros [= <-]|].
  unfold Sql.batches.
  destruct (Z.eqb_spec batch_size 0); [lia|].
  destruct (Z.ltb_spec batch_size 0); [|lia].
  cbn [load_group_batches]. now intros [= <-].
Qed.

(** X14.  The batch size is taken as given.  With [batch_size = 0] the
    loop [range(0, len(values), 0)] raises, so every document that has a
    filing value fails and is rolled back.  With a negative batch size
    the loops over the values are empty: the document is reported as a
    success with the counts of the values it brought, and not one of its
    filing values or group values is stored. *)
Theorem nonpositive_batch_size_stores_no_value :
  (forall db data,
      filing_values data <> [] ->
      (exists e, fst (_load_filing 0 db data) = Raise e)
      /\ db_tables (snd (_load_filing 0 db data)) = db_tables db)
  /\ (forall batch_size db data r db',
        (batch_size < 0)%Z ->
        _load_filing batch_size db data = (Ok r, db') ->
        (exists f, r = Success f (List.length (filing_values data))
                       (List.length (repeating_groups data))
                       (List.length (group_values data)))
        /\ filing_values_tbl (db_tables db') = filing_values_tbl (db_tables db)
        /\ repeating_group_values (db_tables db')
           = repeating_group_values (db_tables db)).
Proof.
  split.
  - intros db data Hne. unfold _load_filing.
    destruct (negb (PyStr.truthy (Metadata.filing_id (metadata data))));
      [split; [eauto|reflexivity]|].
    destruct (load_statements_zero db
                (default "" (Metadata.filing_id (metadata data))) data Hne)
      as (e & db' & ->).
    cbn. split; [eauto|reflexivity].
  - intros batch_size db data r db' Hneg Hload.
    apply load_filing_Ok in Hload. destruct Hload as (f & Hf & Hst & ->).
    split; [now exists f|].
    pose proof (load_statements_tables _ _ _ _ _ Hst)
      as (e & f' & _ & _ & _ & _ & Hv & _).
    split.
    + rewrite Hv. unfold sent_values.
      destruct (Z.ltb_spec 0 batch_size); [lia|reflexivity].
    + unfold load_statements in Hst.
      destruct (_load_organization db (organization data)) as [db1|] eqn:H1;
        [|discriminate]. cbn [andthen] in Hst.
      destruct (_load_filing_record db1 (metadata data)) as [db2|] eqn:H2;
        [|discriminate]. cbn [andthen] in Hst.
      destruct (_load_filing_values batch_size db2 (filing_values data))
        as [db3|] eqn:H3; [|discriminate]. cbn [andthen] in Hst.
      destruct (_load_repeating_groups batch_size db3 (repeating_groups data)
                  (group_values data)) as [db4|] eqn:H4; [|discriminate].
      cbn [andthen] in Hst.
      apply load_organization_done in H1 as (_ & _ & _ & _ & G1 & _).
      apply load_filing_record_done in H2 as (_ & _ & _ & _ & G2 & _).
      apply load_filing_values_done in H3 as (_ & _ & G3 & _).
      apply (load_group_values_negative _ _ _ _ _ Hneg) in H4.
      destruct (xml_hash data); injection Hst as <-; cbn; congruence.
Qed.

(** ** The exact criterion of validation *)

Lemma string_compare_refl (s : string) : String.compare s s = Eq.
Proof.
  induction s as [|c s IH]; [reflexivity|]. cbn.
  unfold Ascii.compare. now rewrite N.compare_refl.
Qed.

Lemma string_leb_trans (a b c : string) :
  String.leb a b = true -> String.leb b c = true -> String.leb a c = true.
Proof.
  unfold String.leb. revert b c.
  induction a as [|x a IH]; intros [|y b] [|z c]; cbn; try congruence.
  unfold Ascii.compare.
  destruct (N.compare_spec (N_of_ascii x) (N_of_ascii y)) as [Exy|Lxy|Gxy];
    destruct (N.compare_spec (N_of_ascii y) (N_of_ascii z)) as [Eyz|Lyz|Gyz];
    destruct (N.compare_spec (N_of_ascii x) (N_of_ascii z)) as [Exz|Lxz|Gxz];
    try congruence; try lia; try (intros; reflexivity).
  apply IH.
Qed.

Lemma sorted_insert_sorted (x : string) (l : list string) :
  Sorted.StronglySorted (fun a b => String.leb a b = true) l ->
  Sorted.StronglySorted (fun a b => String.leb a b = true) (sorted_insert x l).
Proof.
  induction 1 as [|y l Hs IH Hall]; cbn [sorted_insert].
  - repeat constructor.
  - destruct (String.leb x y) eqn:E.
    + constructor; [now constructor|].
      constructor; [exact E|].
      eapply Forall_impl; [exact Hall|].
      intros z Hz. now apply (string_leb_trans x y z).
    + constructor; [exact IH|].
      assert (Hyx : String.leb y x = true).
      { destruct (String.leb_total x y) as [H|H]; [congruence|exact H]. }
      apply Forall_forall. intros z Hz.
      apply list_elem_of_In in Hz.
      apply (Permutation_in _ (sorted_insert_perm x l)) in Hz.
      destruct Hz as [<-|Hz]; [exact Hyx|].
      rewrite Forall_forall in Hall. apply Hall. now apply list_elem_of_In.
Qed.

Lemma sorted_sorted (l : list string) :
  Sorted.StronglySorted (fun a b => String.leb a b = true) (sorted l).
Proof.
  induction l as [|x l IH]; cbn [sorted]; [constructor|].
  now apply sorted_insert_sorted.
Qed.

Lemma strongly_sorted_unique (l1 l2 : list string) :
  Sorted.StronglySorted (fun a b => String.leb a b = true) l1 ->
  Sorted.StronglySorted (fun a b => String.leb a b = true) l2 ->
  Permutation l1 l2 -> l1 = l2.
Proof.
  intros H1. revert l2.
  induction H1 as [|x l1 Hs1 IH Hall1]; intros l2 H2 Hp.
  - apply Permutation_nil in Hp. now subst.
  - destruct H2 as [|y l2 Hs2 Hall2].
    + apply Permutation_sym, Permutation_nil in Hp. discriminate.
    + assert (Hxy : x = y).
      { assert (Hx : In x (y :: l2))
          by (apply (Permutation_in _ Hp); now left).
        assert (Hy : In y (x :: l1))
          by (apply (Permutation_in _ (Permutation_sym Hp)); now left).
        rewrite Forall_forall in Hall1, Hall2.
        destruct Hx as [->|Hx]; [reflexivity|].
        destruct Hy as [->|Hy]; [reflexivity|].
        apply String.leb_antisym.
        - apply Hall1. now apply list_elem_of_In.
        - apply Hall2. now apply list_elem_of_In. }
      subst y. f_equal. apply IH; [exact Hs2|].
      now apply Permutation_cons_inv in Hp.
Qed.

Lemma sorted_eq_iff_perm (l1 l2 : list string) :
  sorted l1 = sorted l2 <-> Permutation l1 l2.
Proof.
  split.
  - intros E. rewrite <- (sorted_perm l1), <- (sorted_perm l2), E. reflexivity.
  - intros Hp. apply strongly_sorted_unique; try apply sorted_sorted.
    now rewrite !sorted_perm.
Qed.

(** X15.  The exact criterion of [_validate_groups].  A candidate is
    confirmed exactly when two of its children have the same grandchild
    names counted with their repetitions, in whatever order (the code
    compares the sorted tuples of the names).  Two children with no
    grandchildren at all thus confirm a candidate.  The confirmed list
    keeps the order of the candidates, and validating it again changes
    nothing. *)
Theorem validation_compares_name_multisets
  (potential_groups : list (Node * string)) :
  (forall element name,
      In (element, name) (_validate_groups potential_groups)
      <-> In (element, name) potential_groups
          /\ exists i j ci cj,
               (i < j)%nat
               /\ children element !! i = Some ci
               /\ children element !! j = Some cj
               /\ Permutation (child_names ci) (child_names cj))
  /\ (forall element,
        (exists i j ci cj,
            (i < j)%nat
            /\ children element !! i = Some ci
            /\ children element !! j = Some cj
            /\ children ci = [] /\ children cj = []) ->
        validates element = true)
  /\ _validate_groups potential_groups `sublist_of` potential_groups
  /\ _validate_groups (_validate_groups potential_groups)
     = _validate_groups potential_groups.
Proof.
  assert (Hval : forall element,
    validates element = true
    <-> exists i j ci cj,
          (i < j)%nat
          /\ children element !! i = Some ci
          /\ children element !! j = Some cj
          /\ Permutation (child_names ci) (child_names cj)).
  { intros element. rewrite validates_iff. unfold structure_key.
    split; intros (i & j & ci & cj & Hij & Hi & Hj & H);
      exists i, j, ci, cj; repeat split; try assumption;
      now apply sorted_eq_iff_perm. }
  split; [|split; [|split]].
  - intros element name. unfold _validate_groups.
    rewrite filter_In. cbn [fst]. now rewrite Hval.
  - intros element (i & j & ci & cj & Hij & Hi & Hj & Hci & Hcj).
    apply Hval. exists i, j, ci, cj. repeat split; try assumption.
    unfold child_names. now rewrite Hci, Hcj.
  - unfold _validate_groups.
    induction potential_groups as [|en l IH]; cbn [List.filter]; [constructor|].
    destruct (validates (fst en)); [now apply sublist_skip|now apply sublist_cons].
  - unfold _validate_groups.
    induction potential_groups as [|en l IH]; cbn [List.filter]; [reflexivity|].
    destruct (validates (fst en)) eqn:E; [|exact IH].
    cbn [List.filter]. now rewrite E, IH.
Qed.

(** ** The hierarchy of groups, as a property of its own *)

Section HierarchyTheorem.
Context {LX : Lxml}.

(** X16.  The parent [build_group_hierarchy] records for a confirmed
    group is the confirmed group whose path is the longest strict,
    segment-aligned prefix of its own path; a group with no such prefix
    has no entry.  A recorded parent is the path of another group and is
    strictly shorter than the child's path, so following parents always
    ends.  (A path is never empty: [getpath] starts every path with
    ['/'].) *)
Theorem hierarchy_gives_closest_group (groups : list (Node * string))
  (child : Node) (name : string) :
  In (child, name) groups ->
  match sget (getpath child) (build_group_hierarchy groups) with
  | Some p =>
      In p (group_path_list groups) /\ seg_prefix p (getpath child) /\ p <> ""
      /\ p <> getpath child
      /\ (String.length p < String.length (getpath child))%nat
      /\ forall q, In q (group_path_list groups) ->
                   seg_prefix q (getpath child) ->
                   (String.length q <= String.length p)%nat
  | None =>
      forall q, In q (group_path_list groups) ->
                seg_prefix q (getpath child) -> q = ""
  end.
Proof.
  intros Hin.
  pose proof (build_group_hierarchy_closest groups child name Hin) as H.
  destruct (sget (getpath child) (build_group_hierarchy groups)) as [p|];
    [|exact H].
  destruct H as (Hp & Hseg & Hne & Hmax).
  pose proof (seg_prefix_shorter _ _ Hseg) as Hlt.
  repeat split; try assumption.
  intros ->. lia.
Qed.
End HierarchyTheorem.

(** ** Batches are consecutive slices *)

Lemma chunks_from_unfold {A} (n : nat) (l : list A) :
  forall cur,
    (List.length cur < n)%nat ->
    Sql.chunks_from n cur l
    = match cur ++ l with
      | [] => []
      | _ => (cur ++ firstn (n - List.length cur) l)
             :: Sql.chunks_from n [] (skipn (n - List.length cur) l)
      end.
Proof.
  induction l as [|x l IH]; intros cur Hlt.
  - cbn [Sql.chunks_from]. rewrite app_nil_r.
    destruct cur as [|c cur]; [reflexivity|].
    rewrite firstn_nil, skipn_nil, app_nil_r. reflexivity.
  - cbn [Sql.chunks_from].
    assert (Hne : exists y ys, cur ++ x :: l = y :: ys).
    { destruct cur as [|c cur]; cbn; eauto. }
    destruct Hne as (y & ys & ->).
    rewrite List.length_app. cbn [List.length].
    destruct (Nat.eqb_spec (List.length cur + 1) n) as [E|E].
    + replace (n - List.length cur)%nat with 1%nat by lia.
      cbn [firstn skipn]. reflexivity.
    + rewrite IH by (rewrite List.length_app; cbn [List.length]; lia).
      rewrite List.length_app. cbn [List.length].
      replace (n - List.length cur)%nat
        with (S (n - (List.length cur + 1)))%nat by lia.
      cbn [firstn skipn].
      destruct ((cur ++ [x]) ++ l) as [|z zs] eqn:Ez.
      * destruct cur; discriminate.
      * now rewrite <- app_assoc.
Qed.

Lemma chunks_unfold {A} (n : nat) (l : list A) :
  (0 < n)%nat ->
  Sql.chunks n l
  = match l with
    | [] => []
    | _ => firstn n l :: Sql.chunks n (skipn n l)
    end.
Proof.
  intros Hn. unfold Sql.chunks. rewrite chunks_from_unfold by exact Hn.
  cbn [app List.length]. now rewrite Nat.sub_0_r.
Qed.

Lemma chunks_lookup {A} (n : nat) (i : nat) :
  (0 < n)%nat ->
  forall l : list A,
    Sql.chunks n l !! i
    = if (i * n <? List.length l)%nat
      then Some (firstn n (skipn (i * n) l)) else None.
Proof.
  intros Hn. induction i as [|i IH]; intros l; rewrite chunks_unfold by exact Hn.
  - destruct l as [|x l]; [reflexivity|]. cbn [Nat.mul List.length skipn].
    reflexivity.
  - destruct l as [|x l]; [reflexivity|].
    change ((firstn n (x :: l) :: Sql.chunks n (skipn n (x :: l))) !! S i)
      with (Sql.chunks n (skipn n (x :: l)) !! i).
    rewrite IH, List.length_skipn, List.skipn_skipn.
    replace (i * n + n)%nat with (S i * n)%nat by lia.
    destruct (Nat.ltb_spec (i * n) (List.length (x :: l) - n));
      destruct (Nat.ltb_spec (S i * n) (List.length (x :: l)));
      try reflexivity; lia.
Qed.

(** X17.  The batches of the loader and of the extractor are the
    consecutive slices of the list: for a positive batch size the
    [i]-th batch is [l[i*n : i*n + n]] as long as [i*n] is below the
    length, there is no further batch, and the batches put together are
    the list, so that every value is sent once and in order; a batch is
    never empty and never longer than the batch size. *)
Theorem batches_are_consecutive_slices {A} (batch_size : Z) (l : list A)
  (batches : list (list A)) :
  (0 < batch_size)%Z ->
  Sql.batches batch_size l = Ok batches ->
  let n := Z.to_nat batch_size in
  (forall i, batches !! i
             = if (i * n <? List.length l)%nat
               then Some (firstn n (skipn (i * n) l)) else None)
  /\ List.concat batches = l
  /\ Forall (fun b => b <> [] /\ (List.length b <= n)%nat) batches.
Proof.
  intros Hpos. unfold Sql.batches.
  destruct (Z.eqb_spec batch_size 0); [lia|].
  destruct (Z.ltb_spec batch_size 0); [lia|].
  intros [= <-]. cbv zeta.
  assert (Hn : (0 < Z.to_nat batch_size)%nat) by lia.
  split; [intros i; now apply chunks_lookup|].
  split; [apply chunks_concat|].
  apply Forall_forall. intros b Hb. apply list_elem_of_lookup in Hb.
  destruct Hb as [i Hi]. rewrite chunks_lookup in Hi by exact Hn.
  destruct (Nat.ltb_spec (i * Z.to_nat batch_size) (List.length l)) as [Hlt|];
    [|discriminate].
  injection Hi as <-. split.
  - intros E. apply (f_equal (@List.length A)) in E.
    rewrite List.length_firstn, List.length_skipn in E. cbn in E. lia.
  - rewrite List.length_firstn. lia.
Qed.

(** ** The directory extractor *)

Lemma chunks_head {A} (n : nat) (x : A) (l : list A) :
  (0 < n)%nat ->
  Sql.chunks n (x :: l) = firstn n (x :: l) :: Sql.chunks n (skipn n (x :: l)).
Proof. intros Hn. now rewrite chunks_unfold at 1 by exact Hn. Qed.

(** X18.  [XMLDirectoryExtractor.extract] returns the first batch and
    nothing else: with a positive batch size, the first [batch_size]
    paths of the listing, whatever its length, so that the paths beyond
    them are returned by no call; with a negative batch size, no path at
    all; with batch size 0 and a listing that is not empty, and when the
    directory does not exist, [ExtractionError]. *)
Theorem extract_returns_the_first_batch_only (directory_path : string)
  (batch_size : Z) (xml_files : list string) :
  ((0 < batch_size)%Z ->
   extract directory_path batch_size (Some xml_files)
   = Batch (firstn (Z.to_nat batch_size) xml_files))
  /\ ((batch_size < 0)%Z ->
      extract directory_path batch_size (Some xml_files) = Batch [])
  /\ (batch_size = 0%Z -> xml_files <> [] ->
      exists msg,
        extract directory_path batch_size (Some xml_files) = ExtractionError msg)
  /\ exists msg, extract directory_path batch_size None = ExtractionError msg.
Proof.
  unfold extract, _batch_files, Sql.batches.
  split; [|split; [|split]].
  - intros Hpos. destruct xml_files as [|x l]; [now rewrite firstn_nil|].
    destruct (Z.eqb_spec batch_size 0); [lia|].
    destruct (Z.ltb_spec batch_size 0); [lia|].
    now rewrite chunks_head by lia.
  - intros Hneg. destruct xml_files as [|x l]; [reflexivity|].
    destruct (Z.eqb_spec batch_size 0); [lia|].
    destruct (Z.ltb_spec batch_size 0); [reflexivity|lia].
  - intros -> Hne. destruct xml_files as [|x l]; [congruence|].
    cbn. eauto.
  - eauto.
Qed.

(** ** The command: batches and one pass *)

Section CommandProperties.
Context {LX : Lxml} {HS : Host}.

Lemma one_pass_nil (batch_size : Z) (st : TState) (db : Db) (stats : Stats) :
  one_pass batch_size [] st db stats = (stats, st, db).
Proof. reflexivity. Qed.

Lemma one_pass_app (batch_size : Z) (files1 files2 : list string)
  (st : TState) (db : Db) (stats : Stats) :
  one_pass batch_size (files1 ++ files2) st db stats
  = let '(stats1, st1, db1) := one_pass batch_size files1 st db stats in
    one_pass batch_size files2 st1 db1 stats1.
Proof.
  unfold one_pass. rewrite transform_app.
  destruct (transform st files1) as [r1 st1].
  destruct (load batch_size db r1) as [l1 db1] eqn:E1.
  destruct (transform st1 files2) as [r2 st2].
  rewrite load_app, E1. cbn [fst snd].
  destruct (load batch_size db1 r2) as [l2 db2]. cbn [fst snd].
  now rewrite fold_left_app.
Qed.

(** The loop of the command without its limit. *)
Lemma process_batches_unlimited (batch_size : Z) (max_files : option Z)
  (batches : list (list string)) :
  max_files = None \/ max_files = Some 0%Z ->
  forall st db stats processed_count,
    process_batches batch_size max_files batches st db stats processed_count
    = one_pass batch_size (List.concat batches) st db stats.
Proof.
  intros Hmax. induction batches as [|batch rest IH]; intros st db stats pc.
  - reflexivity.
  - cbn [List.concat]. rewrite one_pass_app. cbn [process_batches].
    unfold one_pass at 1.
    destruct Hmax as [-> | ->]; cbn [Z.eqb].
    + destruct (transform st batch) as [r st1].
      destruct (load batch_size db r) as [l db1]. apply IH.
    + destruct (transform st batch) as [r st1].
      destruct (load batch_size db r) as [l db1]. apply IH.
Qed.

(** The loop of the command under a limit. *)
Lemma process_batches_limited (batch_size m : Z) (batches : list (list string)) :
  m <> 0%Z ->
  forall st db stats processed_count,
    process_batches batch_size (Some m) batches st db stats processed_count
    = one_pass batch_size
        (firstn (Z.to_nat (m - processed_count)) (List.concat batches))
        st db stats.
Proof.
  intros Hm. induction batches as [|batch rest IH]; intros st db stats pc.
  - cbn [List.concat]. now rewrite firstn_nil.
  - cbn [process_batches List.concat].
    destruct (Z.eqb_spec m 0) as [|_]; [contradiction|].
    destruct (Z.geb_spec pc m) as [Hge|Hlt].
    + replace (Z.to_nat (m - pc)) with 0%nat by lia. reflexivity.
    + rewrite List.firstn_app, one_pass_app.
      set (batch' := if (m - pc <? Z.of_nat (List.length batch))%Z
                     then firstn (Z.to_nat (m - pc)) batch else batch).
      assert (Hb : batch' = firstn (Z.to_nat (m - pc)) batch).
      { subst batch'. destruct (Z.ltb_spec (m - pc) (Z.of_nat (List.length batch)));
          [reflexivity|]. symmetry. apply List.firstn_all2. lia. }
      rewrite <- Hb. unfold one_pass at 1.
      destruct (transform st batch') as [r st1].
      destruct (load batch_size db r) as [l db1].
      rewrite IH. f_equal. f_equal.
      rewrite Hb, List.length_firstn. lia.
Qed.

Lemma process_batches_one_pass (batch_size : Z) (max_files : option Z)
  (batches : list (list string)) (st : TState) (db : Db) (stats : Stats) :
  process_batches batch_size max_files batches st db stats 0
  = one_pass batch_size (files_taken max_files (List.concat batches)) st db stats.
Proof.
  unfold files_taken. destruct max_files as [m|].
  - destruct (Z.eqb_spec m 0) as [->|Hm].
    + apply process_batches_unlimited. now right.
    + rewrite process_batches_limited by exact Hm. now rewrite Z.sub_0_r.
  - apply process_batches_unlimited. now left.
Qed.

Lemma tally_counts (results : list LoadResult) :
  forall stats,
    let stats' := fold_left tally results stats in
    (processed_files stats' + failed_files stats'
     = processed_files stats + failed_files stats + List.length results)%nat
    /\ total_files stats' = total_files stats
    /\ skipped_files stats' = skipped_files stats.
Proof.
  induction results as [|r results IH]; intros stats; cbn [fold_left List.length].
  - cbv zeta. lia.
  - specialize (IH (tally stats r)). cbv zeta in IH |- *.
    destruct IH as (H1 & H2 & H3). rewrite H1, H2, H3.
    destruct r; cbn; lia.
Qed.

Lemma transformer_starts_clean (path : string) (st : TState) :
  IRS990Transformer path = Ok st -> failures st = 0%nat.
Proof.
  unfold IRS990Transformer, _load_concordance. cbn [concordance_path].
  destruct (path_exists path); cbn [negb]; [|discriminate].
  destruct (read_csv path) as [df|e]; cbn [bind]; [|discriminate].
  pose proof (concordance_rows_registry df (rows df)
                (mkTState path [] [] [] false []) 1%Z) as H.
  destruct (fold_left (concordance_row df) (rows df) _) as [st' fid'].
  intros [= <-]. unfold failures. cbn [log].
  destruct H as (_ & _ & _ & _ & -> & _); [|reflexivity].
  repeat split; cbn; try constructor; try lia; try (intros; contradiction);
    try (intros; discriminate).
Qed.
End CommandProperties.

Section CommandTheorems.
Context {LX : Lxml} {HS : Host}.

(** X19.  Once the settings are read and the concordance is loaded,
    and with a positive batch size, [process_xml_files] leaves the
    transformer and the store, and reports the statistics, that one
    [transform] followed by one [load] over the files it takes would
    give, however the files fall into batches.  The files taken are all
    the files found when [max_files] is [None] or [0], the first
    [max_files] of them otherwise (none when it is negative).
    [total_files] counts the files found, [skipped_files] stays 0, and
    each file taken is counted once: as processed, as failed, or by a
    [Failed to transform] record in the log of the transformer. *)
Theorem command_makes_one_pass_over_the_files_taken
  (all_xml_files : list string) (xml_dir concordance_path : string)
  (batch_size : Z) (max_files : option Z) (db : Db) (st0 : TState) :
  (0 < batch_size)%Z ->
  IRS990Transformer concordance_path = Ok st0 ->
  exists stats st db',
    process_xml_files (Ok db) (Some all_xml_files) xml_dir concordance_path
      batch_size max_files
    = Finished stats st db'
    /\ (stats, st, db')
       = one_pass batch_size (files_taken max_files all_xml_files) st0 db
           (mkStats (List.length all_xml_files) 0 0 0 0 0)
    /\ total_files stats = List.length all_xml_files
    /\ skipped_files stats = 0%nat
    /\ (processed_files stats + failed_files stats + failures st
        = List.length (files_taken max_files all_xml_files))%nat.
Proof.
  intros Hpos Hst. unfold process_xml_files. rewrite Hst.
  unfold _batch_files.
  destruct (Sql.batches batch_size all_xml_files) as [batches|e] eqn:Hb.
  2:{ unfold Sql.batches in Hb.
      destruct (Z.eqb_spec batch_size 0); [lia|].
      destruct (Z.ltb_spec batch_size 0); [lia|discriminate]. }
  assert (Hcat : List.concat batches = all_xml_files).
  { unfold Sql.batches in Hb.
    destruct (Z.eqb_spec batch_size 0); [lia|].
    destruct (Z.ltb_spec batch_size 0); [lia|].
    injection Hb as <-. apply chunks_concat. }
  rewrite process_batches_one_pass, Hcat.
  set (taken := files_taken max_files all_xml_files).
  unfold one_pass.
  pose proof (transform_accounting taken st0) as Hacc.
  destruct (transform st0 taken) as [docs st].
  destruct Hacc as (Hcount & _ & _).
  pose proof (load_length batch_size docs db) as Hlen.
  destruct (load batch_size db docs) as [results db']. cbn [fst] in Hlen.
  pose proof (tally_counts results
                (mkStats (List.length all_xml_files) 0 0 0 0 0)) as Ht.
  cbv zeta in Ht. cbn [processed_files failed_files total_files skipped_files] in Ht.
  destruct Ht as (Hpf & Htot & Hskip).
  eexists _, _, _. split; [reflexivity|]. split; [reflexivity|].
  split; [exact Htot|]. split; [exact Hskip|].
  rewrite (transformer_starts_clean _ _ Hst) in Hcount. lia.
Qed.

(** X20.  What stops [process_xml_files] before its first batch, in
    this order.  Settings that cannot be read raise their exception; a
    concordance that cannot be loaded raises [ConcordanceError] whatever
    the directory holds; a directory that does not exist raises
    [ExtractionError]; batch size 0 raises [ValueError], even when no
    file was found; a negative batch size makes no batch, so that the
    command returns with every count at 0 but [total_files] and leaves
    the store as it was. *)
Theorem command_without_a_batch (found : option (list string))
  (xml_dir concordance_path : string) (batch_size : Z) (max_files : option Z) :
  (forall e,
     process_xml_files (Raise e) found xml_dir concordance_path batch_size
       max_files
     = Raised e)
  /\ (forall db e,
        IRS990Transformer concordance_path = Raise e ->
        process_xml_files (Ok db) found xml_dir concordance_path batch_size
          max_files
        = Raised e
        /\ exists msg, e = ConcordanceError msg)
  /\ (forall db st0,
        IRS990Transformer concordance_path = Ok st0 ->
        match found with
        | None =>
            process_xml_files (Ok db) found xml_dir concordance_path batch_size
              max_files
            = RaisedExtractionError ("Directory not found: " +:+ xml_dir)
        | Some all_xml_files =>
            (batch_size = 0%Z ->
             process_xml_files (Ok db) found xml_dir concordance_path
               batch_size max_files
             = Raised ValueError)
            /\ ((batch_size < 0)%Z ->
                process_xml_files (Ok db) found xml_dir concordance_path
                  batch_size max_files
                = Finished (mkStats (List.length all_xml_files) 0 0 0 0 0) st0 db)
        end).
Proof.
  split; [reflexivity|]. split.
  - intros db e He. unfold process_xml_files. rewrite He. split; [reflexivity|].
    unfold IRS990Transformer, _load_concordance in He.
    destruct (if negb _ then _ else _) as [st'|e']; [discriminate|].
    injection He as <-. eauto.
  - intros db st0 Hst. unfold process_xml_files. rewrite Hst.
    destruct found as [all_xml_files|]; [|reflexivity].
    unfold _batch_files, Sql.batches. split.
    + intros ->. reflexivity.
    + intros Hneg. destruct (Z.eqb_spec batch_size 0); [lia|].
      destruct (Z.ltb_spec batch_size 0); [reflexivity|lia].
Qed.
End CommandTheorems.

(** ** The groups the detector reports *)

Section DetectorProperties.
Context {LX : Lxml}.
Variable etree_parse : string -> result Tree.

Lemma candidates_by_name_Forall (P : Node * string -> Prop)
  (elements : list XItem) :
  (forall element, _has_repeating_children element = true ->
                   P (element, localname element)) ->
  forall acc, Forall P acc -> Forall P (candidates_by_name elements acc).
Proof.
  intros HP. induction elements as [|[element|] rest IH]; intros acc Hacc;
    cbn [candidates_by_name]; try exact Hacc.
  apply IH. destruct (_has_repeating_children element) eqn:E; [|exact Hacc].
  apply Forall_app. split; [exact Hacc|]. constructor; [|constructor].
  now apply HP.
Qed.

Lemma candidates_by_child_Forall (P : Node * string -> Prop)
  (elements : list XItem) :
  (forall parent name, _has_repeating_children parent = true ->
                       P (parent, name)) ->
  forall acc, Forall P acc -> Forall P (candidates_by_child elements acc).
Proof.
  intros HP. induction elements as [|[element|] rest IH]; intros acc Hacc;
    cbn [candidates_by_child]; try exact Hacc.
  apply IH. destruct (getparent element) as [parent|]; [|exact Hacc].
  destruct (_has_repeating_children parent) eqn:E; [|exact Hacc].
  apply Forall_app. split; [exact Hacc|]. constructor; [|constructor].
  now apply HP.
Qed.

Lemma scan_patterns_Forall (ns : Namespaces) (P : Node * string -> Prop)
  (scan : list XItem -> list (Node * string) -> list (Node * string))
  (search_root : XItem) (patterns : list string) :
  (forall elements acc, Forall P acc -> Forall P (scan elements acc)) ->
  forall acc, Forall P acc ->
              Forall P (scan_patterns ns scan search_root patterns acc).
Proof.
  intros Hscan. unfold scan_patterns.
  destruct search_root as [search_root|]; [|trivial].
  induction patterns as [|pattern rest IH]; intros acc Hacc; cbn [fold_left];
    [exact Hacc|].
  apply IH. destruct (xpath search_root pattern ns); [now apply Hscan|exact Hacc].
Qed.

Lemma remove_duplicates_spec (l : list (Node * string)) :
  forall seen,
    (forall g, In g (remove_duplicates seen l) -> In g l)
    /\ (forall g, In g (remove_duplicates seen l) ->
                  ~ In (getpath (fst g)) seen)
    /\ NoDup (List.map (fun g => getpath (fst g)) (remove_duplicates seen l)).
Proof.
  induction l as [|[element name] rest IH]; intros seen; cbn [remove_duplicates].
  - split; [tauto|]. split; [intros g []|constructor].
  - destruct (PyStr.mem (getpath element) seen) eqn:Hm.
    + destruct (IH seen) as (H1 & H2 & H3).
      split; [intros g Hg; right; now apply H1|]. split; assumption.
    + destruct (IH (getpath element :: seen)) as (H1 & H2 & H3).
      assert (Hnot : ~ In (getpath element) seen).
      { intros Hin. apply mem_In in Hin. congruence. }
      split; [|split].
      * intros g [<-|Hg]; [now left|right; now apply H1].
      * intros g [<-|Hg]; [exact Hnot|].
        intros Hin. apply (H2 g Hg). now right.
      * cbn [List.map fst]. apply NoDup_cons. split; [|exact H3].
        intros Hin. apply list_elem_of_In, in_map_iff in Hin.
        destruct Hin as (g & Hpath & Hg).
        apply (H2 g Hg). left. now symmetry.
Qed.

(** Every candidate has a child name that comes twice, and no two
    candidates have the same path. *)
Lemma identify_potential_groups_spec (ns : Namespaces) (root : Node) :
  Forall (fun g => _has_repeating_children (fst g) = true)
         (_identify_potential_groups ns root)
  /\ NoDup (List.map (fun g => getpath (fst g))
                     (_identify_potential_groups ns root)).
Proof.
  unfold _identify_potential_groups.
  set (search_root := default (XNode root) _).
  set (all := scan_patterns ns candidates_by_child search_root _ _).
  assert (Hall : Forall (fun g => _has_repeating_children (fst g) = true) all).
  { subst all. apply scan_patterns_Forall.
    - intros elements acc. apply candidates_by_child_Forall. now intros.
    - apply scan_patterns_Forall; [|constructor].
      intros elements acc. apply candidates_by_name_Forall. now intros. }
  destruct (remove_duplicates_spec all []) as (H1 & _ & H3).
  split; [|exact H3].
  apply List.Forall_forall. intros g Hg.
  rewrite List.Forall_forall in Hall. apply Hall, H1, Hg.
Qed.

Lemma filter_map_NoDup {A B} (f : A -> B) (p : A -> bool) (l : list A) :
  NoDup (List.map f l) -> NoDup (List.map f (List.filter p l)).
Proof.
  induction l as [|x l IH]; cbn [List.map List.filter]; [trivial|].
  intros Hnd. apply NoDup_cons in Hnd as [Hx Hnd].
  destruct (p x); [|now apply IH].
  cbn [List.map]. apply NoDup_cons. split; [|now apply IH].
  intros Hin. apply Hx. apply list_elem_of_In in Hin. apply list_elem_of_In.
  apply in_map_iff in Hin as (y & Hy & Hin). apply in_map_iff.
  exists y. split; [exact Hy|]. now apply List.filter_In in Hin.
Qed.

Lemma validates_two_children (element : Node) :
  validates element = true -> (2 <= List.length (children element))%nat.
Proof.
  intros Hv. apply validates_iff in Hv.
  destruct Hv as (i & j & ci & cj & Hij & _ & Hj & _).
  apply lookup_lt_Some in Hj.
  assert (Hsj : (2 <= S j)%nat) by lia.
  exact (Nat.le_trans _ _ _ Hsj Hj).
Qed.

(** The confirmed groups of a document. *)
Lemma validated_groups_spec (ns : Namespaces) (root : Node) :
  let validated := _validate_groups (_identify_potential_groups ns root) in
  Forall (fun g => _has_repeating_children (fst g) = true
                   /\ validates (fst g) = true) validated
  /\ NoDup (group_path_list validated).
Proof.
  cbv zeta. destruct (identify_potential_groups_spec ns root) as [Hrep Hnd].
  unfold _validate_groups, group_path_list. split.
  - apply List.Forall_forall. intros g Hg. apply List.filter_In in Hg as [Hin Hv].
    rewrite List.Forall_forall in Hrep. split; [now apply Hrep|exact Hv].
  - now apply filter_map_NoDup.
Qed.

Lemma extract_group_metadata_fields (group : Node * string) :
  let g := _extract_group_metadata group in
  gi_name g = snd group
  /\ gi_element g = fst group
  /\ gi_path g = getpath (fst group)
  /\ gi_count g = List.length (children (fst group))
  /\ List.length (gi_sample_values g) = Nat.min 3 (gi_count g)
  /\ gi_parent_path g = None
  /\ gi_nesting_level g = None
  /\ gi_parent_xpath g = None
  /\ gi_nested_groups g = None.
Proof.
  destruct group as [element name]. cbn.
  repeat split. now rewrite List.length_map, List.length_firstn.
Qed.

(** The paths of the report are the paths of the confirmed groups. *)
Lemma report_paths (hierarchy : list (string * string))
  (validated : list (Node * string)) :
  List.map gi_path
    (List.map
       (fun group =>
          let group_info := _extract_group_metadata group in
          match sget (getpath (fst group)) hierarchy with
          | Some parent_path => set_parent_path group_info parent_path
          | None => group_info
          end) validated)
  = group_path_list validated.
Proof.
  unfold group_path_list. rewrite List.map_map. apply List.map_ext.
  intros [element name]. cbn.
  destruct (sget (getpath element) hierarchy); reflexivity.
Qed.

(** What [find_repeating_groups] comes to. *)
Lemma find_repeating_groups_spec (ns : Namespaces) (xml_file_path : string) :
  match find_repeating_groups etree_parse ns xml_file_path with
  | Detected (groups, group_hierarchy) =>
      exists tree,
        etree_parse xml_file_path = Ok tree
        /\ group_hierarchy
           = build_group_hierarchy
               (_validate_groups (_identify_potential_groups ns (root_node tree)))
        /\ List.map gi_path groups
           = group_path_list
               (_validate_groups (_identify_potential_groups ns (root_node tree)))
        /\ NoDup (List.map gi_path groups)
        /\ Forall (reported_group (List.map gi_path groups)) groups
  | RepeatingGroupError msg =>
      exists e,
        etree_parse xml_file_path = Raise e
        /\ msg = "Failed to parse XML file " +:+ xml_file_path +:+ ": "
                 +:+ exn_str e
  end.
Proof.
  unfold find_repeating_groups, _load_xml.
  destruct (etree_parse xml_file_path) as [tree|e]; [|eauto].
  exists tree. split; [reflexivity|]. split; [reflexivity|].
  set (validated := _validate_groups _).
  destruct (validated_groups_spec ns (root_node tree)) as [Hval Hnd].
  fold validated in Hval, Hnd.
  rewrite report_paths. split; [reflexivity|]. split; [exact Hnd|].
  apply List.Forall_forall. intros g Hg. apply in_map_iff in Hg.
  destruct Hg as ([element name] & <- & Hin).
  rewrite List.Forall_forall in Hval. destruct (Hval _ Hin) as [Hrep Hv].
  cbn [fst] in Hrep, Hv.
  pose proof (build_group_hierarchy_closest validated element name Hin) as Hc.
  pose proof (validates_two_children element Hv) as H2.
  unfold reported_group. cbv zeta. cbn [fst].
  destruct (sget (getpath element) (build_group_hierarchy validated)) as [p|];
    cbn; (repeat split; try assumption;
          try (now rewrite List.length_map, List.length_firstn)).
  - apply Hc.
  - apply Hc.
  - apply Hc.
Qed.
End DetectorProperties.

(** ** Nested groups *)

Section NestedProperties.
Context {LX : Lxml}.
Variable etree_parse : string -> result Tree.

Lemma levelled_eq (bound level : Z) (parent_xpath : option string)
  (g : GroupInfo) :
  levelled bound level parent_xpath g
  <-> gi_nesting_level g = Some level
      /\ (level <= bound)%Z
      /\ gi_parent_xpath g = Some parent_xpath
      /\ match gi_nested_groups g with
         | None => True
         | Some gs =>
             gs <> []
             /\ Forall (levelled bound (level + 1) (Some (gi_path g))) gs
         end.
Proof.
  destruct g as [name path count fields samples element pp nl px nested].
  cbn [levelled gi_nesting_level gi_parent_xpath gi_nested_groups gi_path].
  assert (Hall : forall gs,
             (fix all (l : list GroupInfo) : Prop :=
                match l with
                | [] => True
                | n :: l' => levelled bound (level + 1) (Some path) n /\ all l'
                end) gs
             <-> Forall (levelled bound (level + 1) (Some path)) gs).
  { induction gs as [|n gs IH]; [split; [constructor|trivial]|].
    rewrite List.Forall_cons_iff, IH. reflexivity. }
  destruct nested as [gs|]; [rewrite Hall|]; reflexivity.
Qed.

(** The calls that remain never exceed the levels that remain. *)
Lemma nested_fuel_enough (xml_file_path : string) (max_nesting_level : Z)
  (namespaces : Namespaces) (fuel : nat) :
  forall parent_group_xpath current_level,
    (Z.to_nat (max_nesting_level - current_level) <= fuel)%nat ->
    nested_groups_upto etree_parse fuel xml_file_path parent_group_xpath
      max_nesting_level current_level namespaces
    = find_nested_repeating_groups etree_parse xml_file_path
        parent_group_xpath max_nesting_level current_level namespaces.
Proof.
  unfold find_nested_repeating_groups.
  induction fuel as [|fuel IH]; intros xp cur Hle.
  - replace (Z.to_nat (max_nesting_level - cur)) with 0%nat by lia. reflexivity.
  - destruct (Z.geb_spec cur max_nesting_level) as [Hge|Hlt].
    + replace (Z.to_nat (max_nesting_level - cur)) with 0%nat by lia.
      cbn [nested_groups_upto].
      destruct (Z.geb_spec cur max_nesting_level); [reflexivity|lia].
    + replace (Z.to_nat (max_nesting_level - cur))
        with (S (Z.to_nat (max_nesting_level - (cur + 1)))) by lia.
      cbn [nested_groups_upto].
      destruct (Z.geb_spec cur max_nesting_level); [lia|].
      destruct (etree_parse xml_file_path) as [tree|]; [|reflexivity].
      destruct (nested_search_root _ xp namespaces) as [[search_root|]|];
        try reflexivity.
      apply List.map_ext. intros group.
      destruct (cur + 1 <? max_nesting_level)%Z; [|reflexivity].
      f_equal. apply IH. lia.
Qed.

Lemma nested_groups_upto_levelled (xml_file_path : string)
  (max_nesting_level : Z) (namespaces : Namespaces) (fuel : nat) :
  forall parent_group_xpath current_level,
    Forall (levelled max_nesting_level (current_level + 1) parent_group_xpath)
      (nested_groups_upto etree_parse fuel xml_file_path parent_group_xpath
         max_nesting_level current_level namespaces).
Proof.
  induction fuel as [|fuel IH]; intros xp cur; cbn [nested_groups_upto];
    destruct (Z.geb_spec cur max_nesting_level) as [Hge|Hlt];
    try constructor.
  destruct (etree_parse xml_file_path) as [tree|]; [|constructor].
  destruct (nested_search_root _ xp namespaces) as [[search_root|]|];
    try constructor.
  apply List.Forall_forall. intros g Hg. apply in_map_iff in Hg.
  destruct Hg as ([element name] & <- & _).
  cbv zeta.
  set (info := set_nesting (_extract_group_metadata (element, name)) (cur + 1) xp).
  assert (Hinfo : levelled max_nesting_level (cur + 1) xp info).
  { apply levelled_eq. cbn. repeat split. lia. }
  destruct (cur + 1 <? max_nesting_level)%Z; [|exact Hinfo].
  specialize (IH (Some (gi_path info)) (cur + 1)%Z).
  destruct (nested_groups_upto etree_parse fuel xml_file_path
              (Some (gi_path info)) max_nesting_level (cur + 1) namespaces)
    as [|n gs] eqn:E; [exact Hinfo|].
  apply levelled_eq. cbn. repeat split; try lia; try discriminate.
  exact IH.
Qed.

Lemma find_return_data_same (ns : Namespaces) (a b : Node)
  (patterns : list string) :
  (forall p, In p patterns -> xpath a p ns = xpath b p ns) ->
  find_return_data a ns patterns = find_return_data b ns patterns.
Proof.
  induction patterns as [|p rest IH]; intros H; [reflexivity|].
  cbn [find_return_data]. rewrite (H p) by now left.
  rewrite IH by (intros q Hq; apply H; now right). reflexivity.
Qed.

(** The search passes over the element it is given when the document
    has a [ReturnData] element. *)
Lemma identify_potential_groups_restarts (ns : Namespaces) (a b : Node)
  (rd : XItem) :
  (forall p, In p return_data_patterns -> xpath a p ns = xpath b p ns) ->
  find_return_data b ns return_data_patterns = Some rd ->
  _identify_potential_groups ns a = _identify_potential_groups ns b.
Proof.
  intros Hsame Hrd. unfold _identify_potential_groups.
  rewrite (find_return_data_same ns a b _ Hsame), Hrd. reflexivity.
Qed.

Lemma nested_groups_elements (xml_file_path : string) (xp : option string)
  (max_nesting_level current_level : Z) (namespaces : Namespaces)
  (tree : Tree) (search_root : Node) :
  (current_level < max_nesting_level)%Z ->
  etree_parse xml_file_path = Ok tree ->
  nested_search_root (root_node tree) xp namespaces = Some (XNode search_root) ->
  List.map (fun g => (gi_element g, gi_name g))
    (find_nested_repeating_groups etree_parse xml_file_path xp
       max_nesting_level current_level namespaces)
  = _validate_groups (_identify_potential_groups namespaces search_root).
Proof.
  intros Hlt Hparse Hroot. unfold find_nested_repeating_groups.
  replace (Z.to_nat (max_nesting_level - current_level))
    with (S (Z.to_nat (max_nesting_level - (current_level + 1)))) by lia.
  cbn [nested_groups_upto].
  destruct (Z.geb_spec current_level max_nesting_level); [lia|].
  rewrite Hparse, Hroot, List.map_map.
  rewrite <- (List.map_id (_validate_groups _)) at 2.
  apply List.map_ext. intros [element name]. cbv zeta.
  destruct (current_level + 1 <? max_nesting_level)%Z; [|reflexivity].
  destruct (nested_groups_upto _ _ _ _ _ _ _); reflexivity.
Qed.

Lemma top_level_elements (ns : Namespaces) (xml_file_path : string)
  (tree : Tree) :
  etree_parse xml_file_path = Ok tree ->
  exists groups hierarchy,
    find_repeating_groups etree_parse ns xml_file_path
    = Detected (groups, hierarchy)
    /\ List.map (fun g => (gi_element g, gi_name g)) groups
       = _validate_groups (_identify_potential_groups ns (root_node tree)).
Proof.
  intros Hparse. unfold find_repeating_groups, _load_xml. rewrite Hparse.
  eexists _, _. split; [reflexivity|].
  rewrite List.map_map.
  rewrite <- (List.map_id (_validate_groups _)) at 2.
  apply List.map_ext. intros [element name]. cbv zeta. cbn [fst].
  destruct (sget _ _); reflexivity.
Qed.
End NestedProperties.

Section DetectorTheorems.
Context {LX : Lxml}.
Variable etree_parse : string -> result Tree.

(** X21.  What [find_repeating_groups] reports.  For a file that
    parses, the groups have pairwise distinct paths; each has at least
    two rows, two of them with the same sorted names of children, and a
    child name that comes twice; ['count'] is the number of its rows and
    ['sample_values'] holds the first three of them, or all when there
    are fewer; ['parent_path'] is the path of the reported group that is
    the longest strict, segment-aligned prefix of its own, and is absent
    when there is none; no key of the nested search is set.  For a file
    that does not parse, the call raises [RepeatingGroupError] with the
    message of the parser. *)
Theorem reported_groups_are_confirmed_and_distinct (ns : Namespaces)
  (xml_file_path : string) :
  match find_repeating_groups etree_parse ns xml_file_path with
  | Detected (groups, group_hierarchy) =>
      exists tree,
        etree_parse xml_file_path = Ok tree
        /\ group_hierarchy
           = build_group_hierarchy
               (_validate_groups (_identify_potential_groups ns (root_node tree)))
        /\ List.map gi_path groups
           = group_path_list
               (_validate_groups (_identify_potential_groups ns (root_node tree)))
        /\ NoDup (List.map gi_path groups)
        /\ Forall (reported_group (List.map gi_path groups)) groups
  | RepeatingGroupError msg =>
      exists e,
        etree_parse xml_file_path = Raise e
        /\ msg = "Failed to parse XML file " +:+ xml_file_path +:+ ": "
                 +:+ exn_str e
  end.
Proof. apply find_repeating_groups_spec. Qed.

(** X22.  The nested search keeps to its levels.  Every group
    [find_nested_repeating_groups] returns carries the level after the
    current one and the expression it was searched under; the groups
    attached to a group carry the next level and that group's path; no
    level passes [max_nesting_level].  The search returns nothing when
    the current level has reached the maximum or the file does not
    parse, and the levels that remain bound the calls it makes.  The
    groups [find_nested_groups] attaches to the groups of the first
    search start at level 2. *)
Theorem nested_groups_keep_to_their_levels (xml_file_path : string)
  (parent_group_xpath : option string) (max_nesting_level current_level : Z)
  (namespaces : Namespaces) :
  Forall (levelled max_nesting_level (current_level + 1) parent_group_xpath)
    (find_nested_repeating_groups etree_parse xml_file_path
       parent_group_xpath max_nesting_level current_level namespaces)
  /\ ((max_nesting_level <= current_level)%Z ->
      find_nested_repeating_groups etree_parse xml_file_path
        parent_group_xpath max_nesting_level current_level namespaces = [])
  /\ (forall e,
        etree_parse xml_file_path = Raise e ->
        find_nested_repeating_groups etree_parse xml_file_path
          parent_group_xpath max_nesting_level current_level namespaces = [])
  /\ (forall fuel,
        (Z.to_nat (max_nesting_level - current_level) <= fuel)%nat ->
        nested_groups_upto etree_parse fuel xml_file_path parent_group_xpath
          max_nesting_level current_level namespaces
        = find_nested_repeating_groups etree_parse xml_file_path
            parent_group_xpath max_nesting_level current_level namespaces)
  /\ match find_nested_groups etree_parse namespaces max_nesting_level
             xml_file_path with
     | Detected groups =>
         Forall (fun g =>
                   gi_nesting_level g = None
                   /\ match gi_nested_groups g with
                      | Some gs =>
                          gs <> []
                          /\ Forall (levelled max_nesting_level 2
                                       (Some (gi_path g))) gs
                      | None => True
                      end) groups
     | RepeatingGroupError _ =>
         exists e, etree_parse xml_file_path = Raise e
     end.
Proof.
  split; [apply nested_groups_upto_levelled|].
  split.
  { intros Hle. unfold find_nested_repeating_groups.
    replace (Z.to_nat (max_nesting_level - current_level)) with 0%nat by lia.
    cbn [nested_groups_upto].
    destruct (Z.geb_spec current_level max_nesting_level); [reflexivity|lia]. }
  split.
  { intros e He. unfold find_nested_repeating_groups.
    destruct (Z.to_nat (max_nesting_level - current_level));
      cbn [nested_groups_upto];
      destruct (current_level >=? max_nesting_level)%Z; try reflexivity.
    now rewrite He. }
  split; [intros fuel; apply nested_fuel_enough|].
  unfold find_nested_groups.
  pose proof (find_repeating_groups_spec etree_parse namespaces xml_file_path)
    as Hspec.
  destruct (find_repeating_groups etree_parse namespaces xml_file_path)
    as [[top hierarchy]|msg].
  - destruct Hspec as (tree & _ & _ & _ & _ & Htop).
    apply List.Forall_forall. intros g Hg. apply in_map_iff in Hg.
    destruct Hg as (g0 & <- & Hin).
    rewrite List.Forall_forall in Htop.
    destruct (Htop g0 Hin) as (_ & _ & _ & _ & _ & _ & Hlevel & _ & Hnone & _).
    pose proof (nested_groups_upto_levelled etree_parse xml_file_path
                  max_nesting_level namespaces
                  (Z.to_nat (max_nesting_level - 1)) (Some (gi_path g0)) 1%Z)
      as Hnested.
    unfold find_nested_repeating_groups.
    destruct (nested_groups_upto _ _ _ _ _ _ _) as [|n gs];
      cbn [attach_nested].
    + rewrite Hnone. split; [exact Hlevel|exact I].
    + cbn. split; [exact Hlevel|]. split; [discriminate|exact Hnested].
  - destruct Hspec as (e & He & _). eauto.
Qed.

(** X23.  In a document that has a [ReturnData] element the nested
    search passes over the group it is asked to search in.  The location
    of [ReturnData] is an absolute expression, which selects the same
    elements from every element of a document; [_identify_potential_groups]
    then starts from [ReturnData], not from the element it was given.
    So the groups found inside a group are the groups of the whole
    document again, the group itself among them: the same elements under
    the same names, in the same order, as [find_repeating_groups]
    reports. *)
Theorem nested_search_restarts_at_return_data (namespaces : Namespaces)
  (xml_file_path parent_group_xpath : string)
  (max_nesting_level current_level : Z) (tree : Tree) (parent : Node)
  (others : list XItem) (return_data : XItem) :
  etree_parse xml_file_path = Ok tree ->
  find_return_data (root_node tree) namespaces return_data_patterns
  = Some return_data ->
  (forall p, In p return_data_patterns ->
             xpath parent p namespaces = xpath (root_node tree) p namespaces) ->
  parent_group_xpath <> "" ->
  xpath (root_node tree) parent_group_xpath namespaces
  = Ok (XNode parent :: others) ->
  (current_level < max_nesting_level)%Z ->
  exists groups group_hierarchy,
    find_repeating_groups etree_parse namespaces xml_file_path
    = Detected (groups, group_hierarchy)
    /\ List.map (fun g => (gi_element g, gi_name g))
         (find_nested_repeating_groups etree_parse xml_file_path
            (Some parent_group_xpath) max_nesting_level current_level
            namespaces)
       = List.map (fun g => (gi_element g, gi_name g)) groups.
Proof.
  intros Hparse Hrd Habs Hne Hsel Hlt.
  destruct (top_level_elements etree_parse namespaces xml_file_path tree Hparse)
    as (groups & hierarchy & Htop & Hgroups).
  exists groups, hierarchy. split; [exact Htop|].
  rewrite Hgroups.
  rewrite (nested_groups_elements etree_parse xml_file_path
             (Some parent_group_xpath) max_nesting_level current_level
             namespaces tree parent Hlt Hparse).
  - f_equal. now apply (identify_potential_groups_restarts _ _ _ return_data).
  - unfold nested_search_root, PyStr.truthy.
    change (default "" (Some parent_group_xpath)) with parent_group_xpath.
    destruct (String.eqb_spec parent_group_xpath ""); [contradiction|].
    cbn [negb]. now rewrite Hsel.
Qed.

(** X24.  For a group of the list, [is_nested_in_another_group] says
    what [build_group_hierarchy] records: it is true exactly when the
    hierarchy holds a parent for the path of the group.  The comparison
    of the elements plays no part in it, as long as one element has one
    path. *)
Theorem nested_exactly_when_the_hierarchy_has_a_parent
  (same_element : Node -> Node -> bool) (groups : list (Node * string))
  (element : Node) (name : string) :
  (forall a b, same_element a b = true -> getpath a = getpath b) ->
  (forall p, In p (group_path_list groups) -> p <> "") ->
  In (element, name) groups ->
  is_nested_in_another_group same_element element groups = true
  <-> exists parent_path,
        sget (getpath element) (build_group_hierarchy groups) = Some parent_path.
Proof.
  intros Hsame Hpaths Hin.
  assert (Hnested : is_nested_in_another_group same_element element groups = true
                    <-> exists q, In q (group_path_list groups)
                                  /\ seg_prefix q (getpath element)).
  { unfold is_nested_in_another_group, group_path_list. cbv zeta.
    rewrite existsb_exists. split.
    - intros ([parent n] & Hg & Htest). cbn [fst] in Htest.
      destruct (same_element parent element); [discriminate|].
      apply startswith_seg_prefix in Htest.
      exists (getpath parent). split; [|exact Htest].
      apply in_map_iff. now exists (parent, n).
    - intros (q & Hq & Hseg). apply in_map_iff in Hq.
      destruct Hq as ([parent n] & <- & Hg). cbn [fst] in Hseg.
      exists (parent, n). split; [exact Hg|]. cbn [fst].
      destruct (same_element parent element) eqn:E.
      + apply Hsame in E. rewrite E in Hseg.
        apply seg_prefix_shorter in Hseg. lia.
      + now apply startswith_seg_prefix. }
  rewrite Hnested.
  pose proof (build_group_hierarchy_closest groups element name Hin) as Hc.
  destruct (sget (getpath element) (build_group_hierarchy groups)) as [p|].
  - destruct Hc as (Hp & Hseg & _). split; [eauto|]. intros _. eauto.
  - split; [|intros [p Hp]; discriminate].
    intros (q & Hq & Hseg). exfalso. apply (Hpaths q Hq). now apply Hc.
Qed.
End DetectorTheorems.

(** ** The parser: groups and files *)

Lemma sset_keys_NoDup {V} (k : string) (v : V) (d : list (string * V)) :
  NoDup (List.map fst d) -> NoDup (List.map fst (sset k v d)).
Proof.
  induction d as [|[k' v'] d IH]; cbn [sset List.map fst]; intros Hnd.
  - apply NoDup_cons. split; [apply not_elem_of_nil|constructor].
  - apply NoDup_cons in Hnd as [Hk Hnd].
    destruct (String.eqb_spec k k') as [->|Hne]; cbn [List.map fst].
    + apply NoDup_cons. split; assumption.
    + apply NoDup_cons. split; [|now apply IH].
      intros Hin. apply Hk. apply list_elem_of_In in Hin. apply list_elem_of_In.
      apply in_map_iff in Hin as ([k1 v1] & Hk1 & Hin). cbn [fst] in Hk1. subst k1.
      apply in_map_iff.
      assert (Hcases : forall d0 : list (string * V),
                 In (k', v1) (sset k v d0) ->
                 In k' (List.map fst d0)).
      { induction d0 as [|[k2 v2] d0 IH0]; cbn [sset].
        - intros [[= -> _]|[]]. congruence.
        - destruct (String.eqb_spec k k2) as [->|Hne2].
          + intros [[= -> _]|Hin0]; [now left|].
            right. apply in_map_iff. now exists (k', v1).
          + intros [[= -> _]|Hin0]; [now left|]. right. now apply IH0. }
      apply Hcases in Hin. now apply in_map_iff in Hin.
Qed.

(** A dictionary filled by a loop that assigns under a key holds, for
    each key, the value of the last assignment under it. *)
Lemma fold_sset_last {A V} (key : A -> string) (val : A -> V) (q : A -> bool)
  (k : string) (l : list A) :
  forall d,
    sget k (fold_left (fun d a => if q a then sset (key a) (val a) d else d) l d)
    = match last (List.filter (fun a => String.eqb (key a) k && q a) l) with
      | Some a => Some (val a)
      | None => sget k d
      end.
Proof.
  induction l as [|a l IH]; intros d; cbn [fold_left List.filter]; [reflexivity|].
  rewrite IH.
  destruct (String.eqb_spec (key a) k) as [Hk|Hk]; cbn [andb].
  - destruct (q a).
    + rewrite last_cons.
      destruct (last (List.filter _ l)); [reflexivity|].
      subst k. rewrite sget_sset. now rewrite String.eqb_refl.
    + reflexivity.
  - destruct (last (List.filter _ l)); [reflexivity|].
    destruct (q a); [|reflexivity].
    rewrite sget_sset. destruct (String.eqb_spec k (key a)); congruence.
Qed.

Lemma fold_sset_NoDup {A V} (key : A -> string) (val : A -> V) (q : A -> bool)
  (l : list A) :
  forall d,
    NoDup (List.map fst d) ->
    NoDup (List.map fst
             (fold_left (fun d a => if q a then sset (key a) (val a) d else d)
                        l d)).
Proof.
  induction l as [|a l IH]; intros d Hnd; cbn [fold_left]; [exact Hnd|].
  apply IH. destruct (q a); [now apply sset_keys_NoDup|exact Hnd].
Qed.

Section ParserFileProperties.
Context {LX : Lxml}.
Variable etree_parse : string -> result Tree.

Lemma group_step_eq (grp_element : Node)
  (d : list (string * list (list (string * option string)))) :
  XMLParserFile.group_step d grp_element
  = if kept_as_group grp_element
    then sset (localname grp_element)
              (XMLParserFile.group_data_of grp_element) d
    else d.
Proof.
  unfold XMLParserFile.group_step, kept_as_group. cbv zeta.
  destruct (Nat.ltb_spec (List.length (children grp_element)) 2) as [Hlt|Hge].
  - destruct (Nat.leb_spec 2 (List.length (children grp_element))); [lia|].
    reflexivity.
  - destruct (Nat.leb_spec 2 (List.length (children grp_element))); [|lia].
    cbn [andb].
    destruct (XMLParserFile.group_data_of grp_element); reflexivity.
Qed.

Lemma extract_groups_elements (grp_elements : list Node) :
  forall d,
    XMLParserFile.extract_groups (List.map XNode grp_elements) d
    = Ok (fold_left
            (fun d g =>
               if kept_as_group g
               then sset (localname g) (XMLParserFile.group_data_of g) d
               else d)
            grp_elements d).
Proof.
  induction grp_elements as [|g rest IH]; intros d; [reflexivity|].
  cbn [List.map XMLParserFile.extract_groups fold_left].
  now rewrite IH, group_step_eq.
Qed.

(** X25.  The groups of [XMLParser._extract_repeating_groups].  When
    the expression selects the elements [grp_elements], the result holds
    one entry per local name, and under a name the rows of the last
    selected element of that name that is kept as a group: an element is
    kept when it has at least two children and one of them has a child,
    whatever the names of these are; its rows are the name-to-text
    dictionaries of its children that have children.  The rows of an
    earlier element of the same name are not in the result.  When the
    expression raises, so does the function. *)
Theorem parser_keeps_the_last_group_of_a_name (element : Node)
  (grp_elements : list Node) :
  xpath element ".//*[contains(local-name(), 'Grp')]" []
  = Ok (List.map XNode grp_elements) ->
  exists repeating_groups,
    XMLParserFile._extract_repeating_groups element = Ok repeating_groups
    /\ NoDup (List.map fst repeating_groups)
    /\ (forall group_name,
          sget group_name repeating_groups
          = option_map XMLParserFile.group_data_of
              (last (List.filter
                       (fun g => String.eqb (localname g) group_name
                                 && kept_as_group g)
                       grp_elements)))
    /\ (forall group_name group_data,
          In (group_name, group_data) repeating_groups ->
          group_data <> [] /\ Forall (fun item_data => item_data <> []) group_data).
Proof.
  intros Hx. unfold XMLParserFile._extract_repeating_groups.
  rewrite Hx. cbn [bind]. rewrite extract_groups_elements.
  eexists. split; [reflexivity|].
  set (groups := fold_left _ grp_elements []).
  assert (Hnd : NoDup (List.map fst groups)).
  { subst groups. apply fold_sset_NoDup. constructor. }
  assert (Hget : forall group_name,
             sget group_name groups
             = option_map XMLParserFile.group_data_of
                 (last (List.filter
                          (fun g => String.eqb (localname g) group_name
                                    && kept_as_group g)
                          grp_elements))).
  { intros group_name. subst groups.
    rewrite (fold_sset_last localname XMLParserFile.group_data_of kept_as_group).
    now destruct (last _). }
  split; [exact Hnd|]. split; [exact Hget|].
  intros group_name group_data Hin.
  assert (Hs : sget group_name groups = Some group_data).
  { clear Hget. induction groups as [|[k v] groups IH]; [contradiction|].
    cbn [List.map fst] in Hnd. apply NoDup_cons in Hnd as [Hk Hnd].
    cbn [sget]. destruct Hin as [[= -> ->]|Hin].
    - now rewrite String.eqb_refl.
    - destruct (String.eqb_spec group_name k) as [->|_]; [|now apply IH].
      exfalso. apply Hk, list_elem_of_In, in_map_iff.
      now exists (k, group_data). }
  rewrite Hget in Hs.
  destruct (last _) as [g|] eqn:Hlast; [|discriminate].
  injection Hs as <-.
  apply last_Some_elem_of, list_elem_of_In, List.filter_In in Hlast.
  destruct Hlast as [_ Hkept]. apply andb_true_iff in Hkept as [_ Hkept].
  unfold kept_as_group in Hkept. apply andb_true_iff in Hkept as [_ Hne].
  split.
  - intros E. rewrite E in Hne. discriminate.
  - unfold XMLParserFile.group_data_of. apply List.Forall_forall.
    intros item Hitem. apply List.filter_In in Hitem as [_ Hitem].
    intros ->. discriminate.
Qed.

Lemma init_nonempty (namespaces : option Namespaces) :
  XMLParser.init namespaces <> [].
Proof. destruct namespaces as [[|b ns]|]; discriminate. Qed.

Lemma extract_metadata_keeps_namespaces (namespaces : option Namespaces)
  (root : Node) :
  snd (XMLParser._extract_metadata (XMLParser.init namespaces) root)
  = XMLParser.init namespaces.
Proof.
  pose proof (init_nonempty namespaces) as Hne.
  unfold XMLParser._extract_metadata.
  destruct (XMLParser.init namespaces) as [|b ns]; [congruence|reflexivity].
Qed.

(** X26.  What [XMLParser.parse_file] comes to, for a parser as
    [__init__] leaves it.  The parser never takes its prefixes from the
    document: [__init__] puts [NAMESPACES] in the place of an empty
    dictionary, so the dictionary is the same after every call.  A
    result echoes the path, always has a form version (['Unknown'] when
    the root has none), takes the tax year from the tax period up to its
    first ['-'], and has the key ['repeating_groups'] exactly when a
    [ReturnData] element was found.  Whatever goes wrong is raised as
    [XMLProcessingError] with the path in the message. *)
Theorem parse_file_result (namespaces : option Namespaces)
  (file_path : string) :
  let self_namespaces := XMLParser.init namespaces in
  snd (XMLParserFile.parse_file etree_parse self_namespaces file_path)
  = self_namespaces
  /\ match fst (XMLParserFile.parse_file etree_parse self_namespaces file_path)
     with
     | Ok parsed =>
         exists tree,
           etree_parse file_path = Ok tree
           /\ XMLParserFile.file_path parsed = file_path
           /\ XMLParserFile.metadata parsed
              = fst (XMLParser._extract_metadata self_namespaces (root_node tree))
           /\ PyStr.truthy (XMLParser.form_version (XMLParserFile.metadata parsed))
              = true
           /\ XMLParser.tax_year (XMLParserFile.metadata parsed)
              = (if PyStr.truthy
                      (XMLParser.tax_period (XMLParserFile.metadata parsed))
                 then option_map before_dash
                        (XMLParser.tax_period (XMLParserFile.metadata parsed))
                 else None)
           /\ (XMLParserFile.repeating_groups (XMLParserFile.form_data parsed)
               = None
               <-> find_return_data (root_node tree) self_namespaces
                     return_data_patterns = None)
     | Raise e =>
         exists msg,
           e = XMLProcessingError ("Failed to parse XML file " +:+ file_path
                                   +:+ ": " +:+ msg)
     end.
Proof.
  cbv zeta. unfold XMLParserFile.parse_file.
  destruct (etree_parse file_path) as [tree|e];
    [|split; [reflexivity|eexists; reflexivity]].
  pose proof (extract_metadata_keeps_namespaces namespaces (root_node tree)) as Hns.
  destruct (XMLParser._extract_metadata (XMLParser.init namespaces)
              (root_node tree)) as [md ns'] eqn:Hmd.
  cbn [snd] in Hns. subst ns'.
  destruct (XMLParserFile._extract_form_data (XMLParser.init namespaces)
              (root_node tree)) as [fd|e] eqn:Hfd;
    cbn [fst snd]; (split; [reflexivity|]); [|eexists; reflexivity].
  exists tree. split; [reflexivity|]. split; [reflexivity|].
  split; [now rewrite Hmd|].
  cbn [XMLParserFile.metadata XMLParserFile.form_data].
  assert (Hmeta : md = fst (XMLParser._extract_metadata
                              (XMLParser.init namespaces) (root_node tree)))
    by now rewrite Hmd.
  split; [|split].
  - rewrite Hmeta. unfold XMLParser._extract_metadata. cbv zeta.
    cbn [fst XMLParser.form_version].
    match goal with
    | |- PyStr.truthy (if PyStr.truthy ?x then ?x else _) = true =>
        destruct (PyStr.truthy x) eqn:E; [exact E|reflexivity]
    end.
  - rewrite Hmeta. unfold XMLParser._extract_metadata. cbv zeta.
    cbn [fst XMLParser.tax_year XMLParser.tax_period].
    destruct (get_text _ _ _) as [tp|]; [|reflexivity].
    unfold PyStr.truthy. destruct (String.eqb tp ""); reflexivity.
  - unfold XMLParserFile._extract_form_data in Hfd.
    destruct (find_return_data _ _ _) as [[rd|]|]; [| |].
    + destruct (XMLParserFile._extract_repeating_groups rd); cbn [bind] in Hfd;
        [|discriminate].
      injection Hfd as <-. cbn. split; discriminate.
    + discriminate.
    + injection Hfd as <-. cbn. split; reflexivity.
Qed.
End ParserFileProperties.

(** ** Names of the repeating-group utilities *)

Lemma name_char_lower_ident (c : ascii) :
  Utils.name_char (PyStr.lower_char c) = true ->
  ident_char (PyStr.lower_char c) = true.
Proof. destruct c as [[] [] [] [] [] [] [] []]; intros H; (reflexivity || discriminate). Qed.

Lemma filter_lower_ident (s : string) :
  PyStr.forallb ident_char (PyStr.filter Utils.name_char (PyStr.lower s)) = true.
Proof.
  unfold PyStr.lower.
  induction s as [|c s IH]; [reflexivity|].
  cbn [PyStr.map PyStr.filter].
  destruct (Utils.name_char (PyStr.lower_char c)) eqn:E; [|exact IH].
  cbn [PyStr.forallb]. now rewrite (name_char_lower_ident c E), IH.
Qed.

Lemma clean_element_name_ident (name : string) :
  PyStr.forallb ident_char (Utils.clean_element_name name) = true.
Proof. unfold Utils.clean_element_name. apply filter_lower_ident. Qed.

Lemma mappings_identifiers :
  Forall (fun kv => is_identifier (snd kv)) Utils.mappings.
Proof.
  unfold Utils.mappings, is_identifier.
  repeat constructor; discriminate.
Qed.

Lemma sget_In_pair {V} (k : string) (v : V) (d : list (string * V)) :
  sget k d = Some v -> In (k, v) d.
Proof.
  induction d as [|[k' v'] d IH]; cbn [sget]; [discriminate|].
  destruct (String.eqb_spec k k') as [->|_].
  - intros [= ->]. now left.
  - intros H. right. now apply IH.
Qed.

(** X27.  The table name [guess_table_name] of the utilities gives a
    group.  It is one of the ten tables of the mappings or [repeating_]
    followed by the cleaned name, and in both cases never empty and made
    of lower-case letters, digits and ['_'] only: [clean_element_name]
    returns no other character, whatever it is given.  The cleaned name
    is used only when the name matches no key, and a name matches every
    key it is part of: the empty name, which [_process_group] passes for
    a group without a name, is filed under [compensation_officers]. *)
Theorem utility_table_names_are_identifiers (group_name : string) :
  is_identifier (Utils.guess_table_name group_name)
  /\ PyStr.forallb ident_char (Utils.clean_element_name group_name) = true
  /\ (In (Utils.guess_table_name group_name) (List.map snd Utils.mappings)
      \/ (Utils.guess_table_name group_name
          = "repeating_" +:+ Utils.clean_element_name group_name
          /\ forall key table,
               In (key, table) Utils.mappings ->
               PyStr.contains group_name key = false
               /\ PyStr.contains key group_name = false))
  /\ Utils.guess_table_name "" = "compensation_officers".
Proof.
  assert (Hcases :
            In (Utils.guess_table_name group_name) (List.map snd Utils.mappings)
            \/ (Utils.guess_table_name group_name
                = "repeating_" +:+ Utils.clean_element_name group_name
                /\ forall key table,
                     In (key, table) Utils.mappings ->
                     PyStr.contains group_name key = false
                     /\ PyStr.contains key group_name = false)).
  { unfold Utils.guess_table_name.
    destruct (sget group_name Utils.mappings) as [table|] eqn:Hget.
    - left. apply sget_In_pair in Hget. apply in_map_iff.
      now exists (group_name, table).
    - destruct (List.find _ Utils.mappings) as [kv|] eqn:Hfind.
      + left. apply find_some in Hfind. apply in_map_iff.
        exists kv. split; [reflexivity|apply Hfind].
      + right. split; [reflexivity|].
        intros key table Hin.
        pose proof (find_none _ _ Hfind (key, table) Hin) as Hno.
        unfold Utils.partial_match in Hno. cbn [fst] in Hno.
        now apply orb_false_elim in Hno. }
  split; [|split; [apply clean_element_name_ident|split; [exact Hcases|]]].
  - destruct Hcases as [Hin|[-> _]].
    + apply in_map_iff in Hin as (kv & <- & Hin).
      pose proof mappings_identifiers as HF.
      rewrite List.Forall_forall in HF. now apply HF.
    + split; [discriminate|].
      rewrite forallb_app. apply andb_true_intro.
      split; [reflexivity|apply clean_element_name_ident].
  - reflexivity.
Qed.

(** ** The values of a group *)

Lemma stripped_text_stripped (e : Node) (v : string) :
  Processor.stripped_text e = Some v -> PyStr.strip v = v.
Proof.
  unfold Processor.stripped_text.
  destruct (text e) as [t|]; [|discriminate].
  destruct (String.eqb t ""); [discriminate|].
  intros [= <-]. apply strip_by_idem.
Qed.

Lemma fold_left_Forall {A B} (P : B -> Prop) (f : list B -> A -> list B)
  (l : list A) :
  (forall acc a, In a l -> Forall P acc -> Forall P (f acc a)) ->
  forall acc, Forall P acc -> Forall P (fold_left f l acc).
Proof.
  induction l as [|a l IH]; intros Hf acc Hacc; cbn [fold_left]; [exact Hacc|].
  apply IH.
  - intros acc' a' Hin. apply Hf. now right.
  - apply Hf; [now left|exact Hacc].
Qed.

Lemma fold_left_keys_NoDup {A V} (f : list (string * V) -> A -> list (string * V))
  (l : list A) :
  (forall acc a, NoDup (List.map fst acc) -> NoDup (List.map fst (f acc a))) ->
  forall acc, NoDup (List.map fst acc) ->
              NoDup (List.map fst (fold_left f l acc)).
Proof.
  intros Hf. induction l as [|a l IH]; intros acc Hacc; cbn [fold_left];
    [exact Hacc|].
  apply IH, Hf, Hacc.
Qed.

Lemma row_values_of_entries (child_element : Node) :
  let row_values := Processor.row_values_of child_element in
  NoDup (List.map fst row_values)
  /\ Forall (fun entry => PyStr.strip (snd entry) = snd entry) row_values
  /\ Forall (entry_from child_element) row_values.
Proof.
  cbv zeta. unfold Processor.row_values_of. split; [|split].
  - apply fold_left_keys_NoDup; [|constructor].
    intros acc grandchild Hacc. unfold Processor.field_step. cbv zeta.
    destruct (Processor.stripped_text grandchild); [|exact Hacc].
    apply fold_left_keys_NoDup; [|now apply sset_keys_NoDup].
    intros acc' ggc Hacc'. unfold Processor.nested_step. cbv zeta.
    destruct (Processor.stripped_text ggc); [|exact Hacc'].
    now apply sset_keys_NoDup.
  - apply fold_left_Forall; [|constructor].
    intros acc grandchild _ Hacc. unfold Processor.field_step. cbv zeta.
    destruct (Processor.stripped_text grandchild) as [v|] eqn:Ev; [|exact Hacc].
    apply fold_left_Forall.
    + intros acc' ggc _ Hacc'. unfold Processor.nested_step. cbv zeta.
      destruct (Processor.stripped_text ggc) as [w|] eqn:Ew; [|exact Hacc'].
      apply sset_Forall; [exact Hacc'|]. cbn [snd].
      now apply (stripped_text_stripped ggc).
    + apply sset_Forall; [exact Hacc|]. cbn [snd].
      now apply (stripped_text_stripped grandchild).
  - apply fold_left_Forall; [|constructor].
    intros acc grandchild Hin Hacc. unfold Processor.field_step. cbv zeta.
    destruct (Processor.stripped_text grandchild) as [v|] eqn:Ev; [|exact Hacc].
    apply fold_left_Forall.
    + intros acc' ggc Hggc Hacc'. unfold Processor.nested_step. cbv zeta.
      destruct (Processor.stripped_text ggc) as [w|] eqn:Ew; [|exact Hacc'].
      apply sset_Forall; [exact Hacc'|].
      exists grandchild, v. split; [exact Hin|]. split; [exact Ev|].
      right. exists ggc. cbn [fst snd]. now repeat split.
    + apply sset_Forall; [exact Hacc|].
      exists grandchild, v. split; [exact Hin|]. split; [exact Ev|].
      left. now split.
Qed.

(** X28.  The rows [_extract_values] returns for a group.  There is at
    most one row per child of the group element, in their order, and no
    row is empty; within a row no name comes twice and every value is
    stripped text.  Every entry comes from a field that has text of its
    own: the field itself, under its name, or one of its children, under
    both names joined by ['_'].  So the children of a field that holds
    no text are not read, and a row whose fields hold no text is left
    out whatever lies below them.  Without an element there is no
    row. *)
Theorem group_rows_come_from_fields_with_text (element : Node) :
  let rows := Processor._extract_values (Some element) in
  rows `sublist_of` List.map Processor.row_values_of (children element)
  /\ Forall (fun row_values =>
               row_values <> []
               /\ NoDup (List.map fst row_values)
               /\ Forall (fun entry => PyStr.strip (snd entry) = snd entry)
                         row_values)
            rows
  /\ (forall child_element,
        In child_element (children element) ->
        Forall (entry_from child_element)
               (Processor.row_values_of child_element)
        /\ ((forall grandchild,
               In grandchild (children child_element) ->
               Processor.stripped_text grandchild = None) ->
            Processor.row_values_of child_element = []))
  /\ Processor._extract_values None = [].
Proof.
  cbv zeta. unfold Processor._extract_values.
  split; [|split; [|split; [|reflexivity]]].
  - generalize (List.map Processor.row_values_of (children element)).
    intros l. induction l as [|row l IH]; cbn [List.filter]; [constructor|].
    destruct (negb _); [now apply sublist_skip|now apply sublist_cons].
  - apply List.Forall_forall. intros row Hrow.
    apply List.filter_In in Hrow as [Hin Hne].
    apply in_map_iff in Hin as (child & <- & _).
    destruct (row_values_of_entries child) as (Hnd & Hstrip & _).
    split; [|split; assumption].
    intros E. rewrite E in Hne. discriminate.
  - intros child Hchild.
    destruct (row_values_of_entries child) as (_ & _ & Hfrom).
    split; [exact Hfrom|].
    intros Hnone.
    destruct (Processor.row_values_of child) as [|entry row]; [reflexivity|].
    apply List.Forall_cons_iff in Hfrom as [(gc & v & Hin & Hv & _) _].
    rewrite (Hnone gc Hin) in Hv. discriminate.
Qed.

(** ** Generic fields and the names of elements *)

Lemma contains_iff (s needle : string) :
  PyStr.contains s needle = true
  <-> exists before after, s = before +:+ needle +:+ after.
Proof.
  induction s as [|c s IH]; cbn [PyStr.contains].
  - rewrite orb_false_r, string_prefix_iff. split.
    + intros [r Hr]. now exists "", r.
    + intros (b & a & H). destruct b as [|x b]; [|discriminate].
      now exists a.
  - rewrite orb_true_iff, string_prefix_iff, IH. split.
    + intros [[r Hr]|(b & a & Hs)].
      * now exists "", r.
      * exists (String c b), a. now rewrite Hs.
    + intros (b & a & H). destruct b as [|x b].
      * left. now exists a.
      * right. injection H as _ H. now exists b, a.
Qed.

Lemma contains_self (s : string) : PyStr.contains s s = true.
Proof.
  apply contains_iff. exists "", "".
  change ("" +:+ s +:+ "") with (s +:+ "").
  induction s as [|c s IH]; [reflexivity|].
  change (String c s +:+ "") with (String c (s +:+ "")). now rewrite <- IH.
Qed.

Lemma contains_middle (s a b c : string) :
  PyStr.contains s (a +:+ b +:+ c) = true -> PyStr.contains s b = true.
Proof.
  rewrite !contains_iff. intros (pre & post & ->).
  exists (pre +:+ a), (c +:+ post).
  now rewrite !string_app_assoc.
Qed.

Section GenericFieldProperties.
Context {LX : Lxml} {HS : Host}.

Lemma direct_child_text_source (field_name : string) (cs : list Node)
  (t : string) :
  direct_child_text field_name cs = Some t ->
  exists child raw,
    In child cs /\ localname child = field_name
    /\ text child = Some raw /\ t = PyStr.strip raw.
Proof.
  induction cs as [|child rest IH]; cbn [direct_child_text]; [discriminate|].
  intros H.
  assert (Hrest : direct_child_text field_name rest = Some t ->
                  exists child0 raw,
                    In child0 (child :: rest) /\ localname child0 = field_name
                    /\ text child0 = Some raw /\ t = PyStr.strip raw).
  { intros Hr. destruct (IH Hr) as (c0 & raw & Hin & Hrest).
    exists c0, raw. split; [now right|exact Hrest]. }
  destruct (String.eqb_spec (localname child) field_name) as [Hn|_];
    [|now apply Hrest].
  destruct (text child) as [raw|] eqn:Et; [|now apply Hrest].
  destruct (String.eqb raw ""); [now apply Hrest|].
  injection H as <-. exists child, raw. split; [now left|]. now repeat split.
Qed.

Lemma prefixed_text_source (element : Node) (field_name : string)
  (namespaces : Namespaces) (prefixes : list string) (t : string) :
  prefixed_text element field_name namespaces prefixes = Some t ->
  exists prefix elements,
    In prefix prefixes
    /\ xpath element (".//" +:+ prefix +:+ ":" +:+ field_name) namespaces
       = Ok elements
    /\ first_text elements = Some t.
Proof.
  induction prefixes as [|prefix rest IH]; cbn [prefixed_text]; [discriminate|].
  destruct (xpath element (".//" +:+ prefix +:+ ":" +:+ field_name) namespaces)
    as [elements|] eqn:Ex.
  - destruct (first_text elements) as [t0|] eqn:Ef.
    + intros [= <-]. exists prefix, elements. split; [now left|]. now split.
    + intros H. destruct (IH H) as (p & els & Hin & Hrest).
      exists p, els. split; [now right|exact Hrest].
  - intros H. destruct (IH H) as (p & els & Hin & Hrest).
    exists p, els. split; [now right|exact Hrest].
Qed.

(** A value found for a field is the stripped text of an element that
    has the name of the field within its own. *)
Lemma extract_value_from_element_source (below : Node -> Prop)
  (element : Node) (field_name : string) (namespaces : Namespaces)
  (t : string) :
  (forall child, In child (children element) -> below child) ->
  names_honoured below element field_name namespaces ->
  _extract_value_from_element element field_name namespaces = Some t ->
  exists n raw,
    below n /\ PyStr.contains (localname n) field_name = true
    /\ text n = Some raw /\ t = PyStr.strip raw.
Proof.
  intros Hchildren Hnames.
  assert (Hsel : forall expr ns items,
             In (expr, ns) (element_lookups field_name namespaces) ->
             xpath element expr ns = Ok items ->
             first_text items = Some t ->
             exists n raw,
               below n /\ PyStr.contains (localname n) field_name = true
               /\ text n = Some raw /\ t = PyStr.strip raw).
  { intros expr ns items Hin Hx Hf.
    apply first_text_spec in Hf as (n & rest & raw & -> & Ht & _ & ->).
    destruct (Hnames expr ns _ n Hin Hx (or_introl eq_refl)) as [Hb Hc].
    now exists n, raw. }
  assert (Hlast : forall expr,
             In expr [".//*[local-name()='" +:+ field_name +:+ "']";
                      ".//*[contains(local-name(), '" +:+ field_name +:+ "')]";
                      ".//*[ends-with(local-name(), '" +:+ field_name +:+ "')]"] ->
             In (expr, @nil (string * string))
                (element_lookups field_name namespaces)).
  { intros expr Hin. unfold element_lookups. apply in_or_app. right.
    cbn [In] in Hin |- *.
    destruct Hin as [<-|[<-|[<-|[]]]]; [now left|right; now left|].
    right. right. now left. }
  unfold _extract_value_from_element.
  destruct (direct_child_text field_name (children element)) as [t0|] eqn:Ed.
  { intros [= <-]. apply direct_child_text_source in Ed.
    destruct Ed as (child & raw & Hin & Hname & Ht & ->).
    exists child, raw. split; [now apply Hchildren|].
    split; [rewrite Hname; apply contains_self|]. now split. }
  destruct (prefixed_text element field_name namespaces _) as [t0|] eqn:Ep.
  { intros [= <-]. apply prefixed_text_source in Ep.
    destruct Ep as (prefix & elements & Hin & Hx & Hf).
    refine (Hsel _ namespaces elements _ Hx Hf).
    unfold element_lookups. apply in_or_app. left.
    apply in_map_iff. now exists prefix. }
  cbv zeta.
  destruct (xpath element (".//*[local-name()='" +:+ field_name +:+ "']") [])
    as [els1|] eqn:E1.
  - destruct (first_text els1) as [t1|] eqn:F1.
    + intros [= <-]. refine (Hsel _ [] els1 _ E1 F1).
      apply Hlast. now left.
    + destruct (xpath element
                  (".//*[contains(local-name(), '" +:+ field_name +:+ "')]") [])
        as [els2|] eqn:E2; [|discriminate].
      destruct (first_text els2) as [t2|] eqn:F2.
      * intros [= <-]. refine (Hsel _ [] els2 _ E2 F2).
        apply Hlast. right. now left.
      * destruct (xpath element
                    (".//*[ends-with(local-name(), '" +:+ field_name +:+ "')]") [])
          as [els3|] eqn:E3; [|discriminate].
        intros F3. refine (Hsel _ [] els3 _ E3 F3).
        apply Hlast. right. right. now left.
  - destruct (xpath element
                (".//*[contains(local-name(), '" +:+ field_name +:+ "')]") [])
      as [els2|] eqn:E2; [|discriminate].
    destruct (first_text els2) as [t2|] eqn:F2.
    + intros [= <-]. refine (Hsel _ [] els2 _ E2 F2).
      apply Hlast. right. now left.
    + destruct (xpath element
                  (".//*[ends-with(local-name(), '" +:+ field_name +:+ "')]") [])
        as [els3|] eqn:E3; [|discriminate].
      intros F3. refine (Hsel _ [] els3 _ E3 F3).
      apply Hlast. right. right. now left.
Qed.

Lemma add_field_specs_fields (table_name : string) (specs : list FieldSpec)
  (P : FieldInfo.t -> Prop) :
  (forall spec field_id,
     In spec specs ->
     P (FieldInfo.mk (table_name +:+ "_" +:+ spec_name spec) field_id
                     (spec_path spec) (spec_type spec))) ->
  forall st next fields,
    Forall P fields ->
    Forall P (snd (fold_left (add_field_spec table_name) specs
                             (st, next, fields))).
Proof.
  induction specs as [|spec specs IH]; intros HP st next fields Hf;
    cbn [fold_left]; [exact Hf|].
  assert (Hstep : exists st1 next1 fields1,
             add_field_spec table_name (st, next, fields) spec
             = (st1, next1, fields1) /\ Forall P fields1).
  { unfold add_field_spec.
    destruct (smem _ (field_ids st)); [now eexists _, _, _|].
    eexists _, _, _. split; [reflexivity|].
    apply Forall_app. split; [exact Hf|].
    constructor; [|constructor]. apply HP. now left. }
  destruct Hstep as (st1 & next1 & fields1 & -> & Hf1).
  apply IH; [|exact Hf1]. intros s fid Hin. apply HP. now right.
Qed.

(** The generic fields of a table bear the name of the table before
    the name of their template. *)
Lemma generic_fields_names (st : TState) (table_name : string) :
  match sget table_name (tables st) with
  | Some tf => MANY tf = []
  | None => True
  end ->
  Forall (fun field_info =>
            exists spec,
              In spec (default default_fields (sget table_name common_fields))
              /\ FieldInfo.var_name field_info
                 = table_name +:+ "_" +:+ spec_name spec
              /\ FieldInfo.xpath field_info = spec_path spec
              /\ FieldInfo.data_type field_info = spec_type spec)
         (fst (_get_fields_for_table st table_name)).
Proof.
  intros Hno. unfold _get_fields_for_table.
  destruct (sget table_name (tables st)) as [[one many]|] eqn:Hget.
  - cbn in Hno. subst many.
    set (st0 := logger _ _ st).
    pose proof (add_field_specs_fields table_name
                  (default default_fields (sget table_name common_fields))
                  (fun field_info =>
                     exists spec,
                       In spec (default default_fields
                                  (sget table_name common_fields))
                       /\ FieldInfo.var_name field_info
                          = table_name +:+ "_" +:+ spec_name spec
                       /\ FieldInfo.xpath field_info = spec_path spec
                       /\ FieldInfo.data_type field_info = spec_type spec)
                  ltac:(intros spec fid Hin; exists spec; now repeat split)
                  st0 (Z.of_nat (List.length (field_ids st0)) + 1)%Z []
                  ltac:(constructor)) as H.
    destruct (fold_left _ _ _) as [[st1 next1] fields1]. exact H.
  - set (st0 := logger _ _ st).
    pose proof (add_field_specs_fields table_name
                  (default default_fields (sget table_name common_fields))
                  (fun field_info =>
                     exists spec,
                       In spec (default default_fields
                                  (sget table_name common_fields))
                       /\ FieldInfo.var_name field_info
                          = table_name +:+ "_" +:+ spec_name spec
                       /\ FieldInfo.xpath field_info = spec_path spec
                       /\ FieldInfo.data_type field_info = spec_type spec)
                  ltac:(intros spec fid Hin; exists spec; now repeat split)
                  st0 (Z.of_nat (List.length (field_ids st0)) + 1)%Z []
                  ltac:(constructor)) as H.
    destruct (fold_left _ _ _) as [[st1 next1] fields1]. exact H.
Qed.

(** X29.  What a generic field finds in a row.  A table the concordance
    gives no ['MANY'] field gets its fields from the templates, and each
    is looked up in the rows under its variable name, the name of the
    table, ['_'] and the name of the template; the path of the template
    is carried along and never evaluated.  When the expressions select
    by name among the elements below a row, a value found is the text of
    an element that has this whole name within its local name; so a row
    below which no element has a ['_'] in its name gives no value for
    any generic field. *)
Theorem generic_fields_look_for_prefixed_names (below : Node -> Prop)
  (st : TState) (table_name : string) (namespaces : Namespaces)
  (group_id : Z) (group_element : Node) (field_info : FieldInfo.t) :
  match sget table_name (tables st) with
  | Some tf => MANY tf = []
  | None => True
  end ->
  In field_info (fst (_get_fields_for_table st table_name)) ->
  (forall child, In child (children group_element) -> below child) ->
  names_honoured below group_element (FieldInfo.var_name field_info)
                 namespaces ->
  (exists spec,
     In spec (default default_fields (sget table_name common_fields))
     /\ FieldInfo.var_name field_info = table_name +:+ "_" +:+ spec_name spec
     /\ FieldInfo.xpath field_info = spec_path spec)
  /\ (forall t,
        _extract_value_from_element group_element
          (FieldInfo.var_name field_info) namespaces = Some t ->
        exists n raw,
          below n
          /\ PyStr.contains (localname n) (FieldInfo.var_name field_info) = true
          /\ PyStr.contains (localname n) "_" = true
          /\ text n = Some raw /\ t = PyStr.strip raw)
  /\ ((forall n, below n -> PyStr.contains (localname n) "_" = false) ->
      group_value_of group_id namespaces group_element field_info = Ok []).
Proof.
  intros Hno Hin Hchildren Hnames.
  pose proof (generic_fields_names st table_name Hno) as Hgen.
  rewrite List.Forall_forall in Hgen.
  destruct (Hgen field_info Hin) as (spec & Hspec & Hvar & Hpath & _).
  assert (Hfound : forall t,
             _extract_value_from_element group_element
               (FieldInfo.var_name field_info) namespaces = Some t ->
             exists n raw,
               below n
               /\ PyStr.contains (localname n) (FieldInfo.var_name field_info)
                  = true
               /\ PyStr.contains (localname n) "_" = true
               /\ text n = Some raw /\ t = PyStr.strip raw).
  { intros t Ht.
    destruct (extract_value_from_element_source below group_element _
                namespaces t Hchildren Hnames Ht)
      as (n & raw & Hb & Hc & Htext & Hstrip).
    exists n, raw. split; [exact Hb|]. split; [exact Hc|].
    split; [|now split].
    rewrite Hvar in Hc. now apply contains_middle in Hc. }
  split; [now exists spec|]. split; [exact Hfound|].
  intros Hnone. unfold group_value_of.
  destruct (_extract_value_from_element group_element
              (FieldInfo.var_name field_info) namespaces) as [t|] eqn:Et;
    [|reflexivity].
  destruct (Hfound t eq_refl) as (n & raw & Hb & _ & Hc & _).
  rewrite (Hnone n Hb) in Hc. discriminate.
Qed.
End GenericFieldProperties.

(** ** The further properties at concrete inputs *)

Section FurtherInstances.
Import Examples.

Local Abbreviation serialize := plain_serialize.
Local Abbreviation digest := plain_digest.

(** The templates of [expenses_other], a table the concordance of the
    examples does not mention: five fields at the first call, none at
    the second. *)
Lemma generic_fields_are_handed_out_once_witness :
  match sget "expenses_other" (tables officers_state) with
  | Some tf => MANY tf = []
  | None => True
  end
  /\ List.length (fst (_get_fields_for_table officers_state "expenses_other"))
     = 5%nat
  /\ fst (_get_fields_for_table
            (snd (_get_fields_for_table officers_state "expenses_other"))
            "expenses_other")
     = [].
Proof.
  assert (Hno : match sget "expenses_other" (tables officers_state) with
                | Some tf => MANY tf = []
                | None => True
                end) by (vm_compute; exact I).
  split; [exact Hno|]. split; [vm_compute; reflexivity|].
  pose proof (generic_fields_are_handed_out_once officers_state
                "expenses_other" Hno) as H.
  destruct (_get_fields_for_table officers_state "expenses_other")
    as [fields1 st1].
  cbn [snd]. destruct (_get_fields_for_table st1 "expenses_other")
    as [fields2 st2].
  cbn [fst]. exact (proj1 (proj2 (proj2 H))).
Defined.

(** A concordance that names [EIN] in its first and in its third row:
    [EIN] holds the id 3, [TaxPeriodEndDt] the id 2. *)
Lemma concordance_ids_are_distinct_witness :
  @path_exists (MoreExamples.HS digest) "plain.csv" = true
  /\ @read_csv (MoreExamples.HS digest) "plain.csv" = Ok MoreExamples.plain_frame
  /\ accepted_names MoreExamples.plain_frame = ["EIN"; "TaxPeriodEndDt"; "EIN"]
  /\ exists st,
       @IRS990Transformer (MoreExamples.HS digest) "plain.csv" = Ok st
       /\ field_ids st = [("EIN", 3%Z); ("TaxPeriodEndDt", 2%Z)]
       /\ NoDup (List.map snd (field_ids st))
       /\ last_row_wins (field_ids st) (accepted_names MoreExamples.plain_frame).
Proof.
  assert (He : @path_exists (MoreExamples.HS digest) "plain.csv" = true)
    by reflexivity.
  assert (Hr : @read_csv (MoreExamples.HS digest) "plain.csv"
               = Ok MoreExamples.plain_frame) by reflexivity.
  split; [exact He|]. split; [exact Hr|]. split; [vm_compute; reflexivity|].
  destruct (@concordance_ids_are_distinct (MoreExamples.HS digest) "plain.csv"
              MoreExamples.plain_frame He Hr)
    as (st & Hst & _ & _ & _ & Hnd & _ & _ & _ & Hlast & _).
  exists st. split; [exact Hst|]. split; [|split; [exact Hnd|exact Hlast]].
  assert (Hc : @IRS990Transformer (MoreExamples.HS digest) "plain.csv"
               = Ok MoreExamples.plain_state) by (vm_compute; reflexivity).
  rewrite Hc in Hst. injection Hst as <-. reflexivity.
Defined.

(** The return of the examples, as processed. *)
Lemma processed_document_is_consistent_witness :
  @_process_xml_file (LX serialize) (HS digest) officers_state "a.xml"
  = (Some (officers_data (digest (serialize officers_doc))), officers_state)
  /\ exists filing_id ein,
       filing_id <> "" /\ ein <> ""
       /\ Metadata.filing_id
            (metadata (officers_data (digest (serialize officers_doc))))
          = Some filing_id
       /\ Organization.ein
            (organization (officers_data (digest (serialize officers_doc))))
          = Some ein.
Proof.
  assert (H : @_process_xml_file (LX serialize) (HS digest) officers_state "a.xml"
              = (Some (officers_data (digest (serialize officers_doc))),
                 officers_state)) by (vm_compute; reflexivity).
  split; [exact H|].
  destruct (@processed_document_is_consistent (LX serialize) (HS digest)
              officers_state "a.xml" _ _ H)
    as (filing_id & ein & Hf & He & Hfid & _ & Horg & _).
  exists filing_id, ein. exact (conj Hf (conj He (conj Hfid Horg))).
Defined.


(** With the concordance that names no table, the return of the
    examples has no filing value, although the concordance locates its
    [EIN]. *)
Lemma default_table_variables_are_never_extracted_witness :
  @path_exists (MoreExamples.HS digest) "plain.csv" = true
  /\ @read_csv (MoreExamples.HS digest) "plain.csv" = Ok MoreExamples.plain_frame
  /\ @IRS990Transformer (MoreExamples.HS digest) "plain.csv"
     = Ok MoreExamples.plain_state
  /\ (~ In "rdb_table" (columns MoreExamples.plain_frame)
      /\ ~ In "DATABASE_TABLE" (columns MoreExamples.plain_frame))
  /\ List.length
       (fst (@transform (LX serialize) (MoreExamples.HS digest)
               MoreExamples.plain_state ["a.xml"]))
     = 1%nat
  /\ Forall (fun data => filing_values data = [])
            (fst (@transform (LX serialize) (MoreExamples.HS digest)
                    MoreExamples.plain_state ["a.xml"])).
Proof.
  assert (He : @path_exists (MoreExamples.HS digest) "plain.csv" = true)
    by reflexivity.
  assert (Hr : @read_csv (MoreExamples.HS digest) "plain.csv"
               = Ok MoreExamples.plain_frame) by reflexivity.
  assert (Hc : @IRS990Transformer (MoreExamples.HS digest) "plain.csv"
               = Ok MoreExamples.plain_state) by (vm_compute; reflexivity).
  assert (Hcols : ~ In "rdb_table" (columns MoreExamples.plain_frame)
                  /\ ~ In "DATABASE_TABLE" (columns MoreExamples.plain_frame)).
  { split; intros Hin; apply mem_In in Hin; vm_compute in Hin; discriminate. }
  split; [exact He|]. split; [exact Hr|]. split; [exact Hc|].
  split; [exact Hcols|]. split; [vm_compute; reflexivity|].
  exact (proj2 (@default_table_variables_are_never_extracted
                  (LX serialize) (MoreExamples.HS digest) "plain.csv"
                  MoreExamples.plain_frame MoreExamples.plain_state He Hr Hc)
               Hcols ["a.xml"]).
Defined.

(** Two groups and three values, one of them naming a group that is not
    there, loaded into a store that holds three groups: the groups take
    the ids 4 and 5, and two values are stored. *)
Lemma group_values_follow_their_groups_witness :
  let data := MoreExamples.grouped_data in
  let db' := outcome_db (_load_repeating_groups 100 MoreExamples.three_groups_db
                           (repeating_groups data) (group_values data)) in
  _load_repeating_groups 100 MoreExamples.three_groups_db
    (repeating_groups data) (group_values data) = Done db'
  /\ group_id_seq db' = 5%Z
  /\ List.map GroupValueRow.group_id (repeating_group_values (db_tables db'))
     = [4%Z; 5%Z]
  /\ forall r,
       In r (repeating_group_values (db_tables db')) ->
       (3 < GroupValueRow.group_id r <= 5)%Z.
Proof.
  cbv zeta.
  set (data := MoreExamples.grouped_data).
  set (db' := outcome_db _).
  assert (Hd : _load_repeating_groups 100 MoreExamples.three_groups_db
                 (repeating_groups data) (group_values data) = Done db')
    by (vm_compute; reflexivity).
  split; [exact Hd|].
  destruct (group_values_follow_their_groups 100 MoreExamples.three_groups_db
              db' (repeating_groups data) (group_values data) Hd)
    as (_ & Hs & Hrows).
  split; [rewrite Hs; reflexivity|]. split; [vm_compute; reflexivity|].
  intros r Hr. destruct (Hrows r Hr) as [Hold|(v & g & _ & _ & _ & _ & _ & _ & Hb)].
  - destruct Hold.
  - rewrite Hs in Hb. exact Hb.
Defined.

(** From the empty store, through two documents with three groups. *)
Lemma stored_group_ids_stay_unique_witness :
  group_ids_fresh empty_db
  /\ group_ids_fresh (snd (load 100 empty_db [first_data; nested_data]))
  /\ List.map GroupRow.group_id
       (repeating_groups_tbl
          (db_tables (snd (load 100 empty_db [first_data; nested_data]))))
     = [1%Z; 2%Z; 3%Z].
Proof.
  assert (Hf : group_ids_fresh empty_db).
  { split; [constructor|intros r []]. }
  split; [exact Hf|]. split; [|vm_compute; reflexivity].
  exact (proj1 (stored_group_ids_stay_unique 100 [first_data; nested_data]
                  empty_db Hf)).
Defined.


(** The payments of the first grant lie inside the grants. *)
Lemma hierarchy_gives_closest_group_witness :
  In (MoreExamples.payment_group, "PaymentGrp") MoreExamples.grant_groups
  /\ sget (@getpath (LX serialize) MoreExamples.payment_group)
          (@build_group_hierarchy (LX serialize) MoreExamples.grant_groups)
     = Some "/Return/ReturnData/GrantGrp"
  /\ match sget (@getpath (LX serialize) MoreExamples.payment_group)
                (@build_group_hierarchy (LX serialize) MoreExamples.grant_groups)
     with
     | Some p =>
         seg_prefix p (@getpath (LX serialize) MoreExamples.payment_group)
     | None => True
     end.
Proof.
  assert (Hin : In (MoreExamples.payment_group, "PaymentGrp")
                   MoreExamples.grant_groups) by (right; left; reflexivity).
  split; [exact Hin|]. split; [vm_compute; reflexivity|].
  pose proof (@hierarchy_gives_closest_group (LX serialize)
                MoreExamples.grant_groups MoreExamples.payment_group
                "PaymentGrp" Hin) as H.
  destruct (sget _ _) as [p|]; [|exact I].
  exact (proj1 (proj2 H)).
Defined.
End FurtherInstances.

(** ** The batches and the command at concrete inputs *)

Section CommandInstances.
Import Examples.

Local Abbreviation serialize := plain_serialize.
Local Abbreviation digest := plain_digest.

(** Five values in batches of two. *)
Lemma batches_are_consecutive_slices_witness :
  Sql.batches 2 [1; 2; 3; 4; 5]%Z = Ok [[1; 2]; [3; 4]; [5]]%Z
  /\ List.concat [[1; 2]; [3; 4]; [5]]%Z = [1; 2; 3; 4; 5]%Z.
Proof.
  assert (Hb : Sql.batches 2 [1; 2; 3; 4; 5]%Z = Ok [[1; 2]; [3; 4]; [5]]%Z)
    by reflexivity.
  split; [exact Hb|].
  exact (proj1 (proj2 (batches_are_consecutive_slices 2 [1; 2; 3; 4; 5]%Z
                         _ ltac:(lia) Hb))).
Defined.

(** Three files, one of which has no EIN, in batches of two with a limit
    of three files: two files are processed and none fails to load. *)
Lemma command_makes_one_pass_over_the_files_taken_witness :
  @IRS990Transformer (MoreExamples.HS digest) "plain.csv"
  = Ok MoreExamples.plain_state
  /\ exists stats st db',
       @process_xml_files (MoreExamples.LX serialize) (MoreExamples.HS digest)
         (Ok empty_db) (Some ["a.xml"; "bad.xml"; "g.xml"; "a.xml"]) "dir"
         "plain.csv" 2 (Some 3%Z)
       = Finished stats st db'
       /\ total_files stats = 4%nat
       /\ (processed_files stats + failed_files stats + failures st = 3)%nat.
Proof.
  assert (Hc : @IRS990Transformer (MoreExamples.HS digest) "plain.csv"
               = Ok MoreExamples.plain_state) by (vm_compute; reflexivity).
  split; [exact Hc|].
  destruct (@command_makes_one_pass_over_the_files_taken
              (MoreExamples.LX serialize) (MoreExamples.HS digest)
              ["a.xml"; "bad.xml"; "g.xml"; "a.xml"] "dir" "plain.csv" 2
              (Some 3%Z) empty_db MoreExamples.plain_state ltac:(lia) Hc)
    as (stats & st & db' & Hrun & _ & Htot & _ & Hcount).
  exists stats, st, db'.
  exact (conj Hrun (conj Htot Hcount)).
Defined.
End CommandInstances.

(** ** The detector at concrete inputs *)

Section DetectorInstances.
Import Examples.

Local Abbreviation serialize := plain_serialize.

(** The search for the groups inside [GrantGrp] returns [GrantGrp]
    itself and the two [PaymentGrp] of the document. *)
Lemma nested_search_restarts_at_return_data_witness :
  List.map gi_path
    (@find_nested_repeating_groups (MoreExamples.LX serialize)
       (Reference.ref_parse MoreExamples.files) "g.xml"
       (Some "//*[local-name()='GrantGrp']") 3 1 [])
  = ["/Return/ReturnData/GrantGrp";
     "/Return/ReturnData/GrantGrp/Grant[1]/PaymentGrp";
     "/Return/ReturnData/GrantGrp/Grant[2]/PaymentGrp"]
  /\ exists groups group_hierarchy,
       @find_repeating_groups (MoreExamples.LX serialize)
         (Reference.ref_parse MoreExamples.files) [] "g.xml"
       = Detected (groups, group_hierarchy)
       /\ List.map (fun g => (gi_element g, gi_name g))
            (@find_nested_repeating_groups (MoreExamples.LX serialize)
               (Reference.ref_parse MoreExamples.files) "g.xml"
               (Some "//*[local-name()='GrantGrp']") 3 1 [])
          = List.map (fun g => (gi_element g, gi_name g)) groups.
Proof.
  split; [vm_compute; reflexivity|].
  apply (@nested_search_restarts_at_return_data (MoreExamples.LX serialize)
           (Reference.ref_parse MoreExamples.files) [] "g.xml"
           "//*[local-name()='GrantGrp']" 3 1 MoreExamples.grants_doc
           MoreExamples.grant_group []
           (XNode (mkNode MoreExamples.grants_doc [1%nat]
                     (Reference.el "ReturnData" [MoreExamples.grant_rows])))).
  - reflexivity.
  - vm_compute. reflexivity.
  - intros p Hp. cbn [return_data_patterns In] in Hp.
    destruct Hp as [<-|[<-|[<-|[]]]]; vm_compute; reflexivity.
  - discriminate.
  - vm_compute. reflexivity.
  - lia.
Defined.

(** The [PaymentGrp] of the first grant lies in [GrantGrp]; two
    elements of the document are the same when their paths are. *)
Lemma nested_exactly_when_the_hierarchy_has_a_parent_witness :
  @is_nested_in_another_group (MoreExamples.LX serialize)
    (fun a b => String.eqb (@getpath (MoreExamples.LX serialize) a)
                           (@getpath (MoreExamples.LX serialize) b))
    MoreExamples.payment_group MoreExamples.grant_groups = true
  /\ exists parent_path,
       sget (@getpath (MoreExamples.LX serialize) MoreExamples.payment_group)
         (@build_group_hierarchy (MoreExamples.LX serialize)
            MoreExamples.grant_groups)
       = Some parent_path.
Proof.
  assert (Hnested :
            @is_nested_in_another_group (MoreExamples.LX serialize)
              (fun a b => String.eqb (@getpath (MoreExamples.LX serialize) a)
                                     (@getpath (MoreExamples.LX serialize) b))
              MoreExamples.payment_group MoreExamples.grant_groups = true)
    by (vm_compute; reflexivity).
  split; [exact Hnested|].
  refine (proj1 (@nested_exactly_when_the_hierarchy_has_a_parent
                   (MoreExamples.LX serialize)
                   (fun a b => String.eqb (@getpath (MoreExamples.LX serialize) a)
                                          (@getpath (MoreExamples.LX serialize) b))
                   MoreExamples.grant_groups MoreExamples.payment_group
                   "PaymentGrp" _ _ _) Hnested).
  - intros a b Hab. now apply String.eqb_eq in Hab.
  - intros p Hp. vm_compute in Hp. destruct Hp as [<-|[<-|[]]]; discriminate.
  - right. left. reflexivity.
Defined.
End DetectorInstances.

(** ** The parser at a concrete input *)

Section ParserInstances.
Import Examples.

Local Abbreviation serialize := plain_serialize.

(** The document with a [GrantGrp] and a [PaymentGrp] in each of its two
    grants: the parser keeps one [PaymentGrp], the second. *)
Lemma parser_keeps_the_last_group_of_a_name_witness :
  exists repeating_groups,
    @XMLParserFile._extract_repeating_groups (MoreExamples.LX serialize)
      (root_node MoreExamples.grants_doc)
    = Ok repeating_groups
    /\ NoDup (List.map fst repeating_groups)
    /\ sget "PaymentGrp" repeating_groups
       = Some (XMLParserFile.group_data_of
                 (mkNode MoreExamples.grants_doc [1; 0; 1; 1]%nat
                         MoreExamples.payment_rows)).
Proof.
  destruct (@parser_keeps_the_last_group_of_a_name (MoreExamples.LX serialize)
              (root_node MoreExamples.grants_doc)
              [MoreExamples.grant_group; MoreExamples.payment_group;
               mkNode MoreExamples.grants_doc [1; 0; 1; 1]%nat
                      MoreExamples.payment_rows]
              ltac:(vm_compute; reflexivity))
    as (repeating_groups & Hrun & Hnd & Hget & _).
  exists repeating_groups. split; [exact Hrun|]. split; [exact Hnd|].
  rewrite Hget. vm_compute. reflexivity.
Defined.
End ParserInstances.

(** ** Generic fields at a concrete input *)

Section GenericFieldInstances.
Import Examples.

Local Abbreviation serialize := plain_serialize.
Local Abbreviation digest := plain_digest.

(** With a concordance that names no table, the officers are looked up
    under [compensation_officers_PersonNm]: the first officer gives no
    value, although the row has a [PersonNm] with text. *)
Lemma generic_fields_look_for_prefixed_names_witness :
  let row :=
    mkNode officers_doc [1; 0; 0; 0]%nat
      (Reference.el "Officer"
         [Reference.leaf "PersonNm" "John Smith";
          Reference.leaf "TitleTxt" "President"]) in
  let field_info :=
    FieldInfo.mk "compensation_officers_PersonNm" 3 "./PersonNm" "text" in
  In row (children officer_group)
  /\ List.map localname (children row) = ["PersonNm"; "TitleTxt"]
  /\ In field_info
        (fst (_get_fields_for_table MoreExamples.plain_state
                "compensation_officers"))
  /\ @group_value_of (LX serialize) 1 [] row field_info = Ok [].
Proof.
  cbv zeta.
  set (row := mkNode officers_doc [1; 0; 0; 0]%nat _).
  set (field_info := FieldInfo.mk _ _ _ _).
  assert (Hrow : In row (children officer_group)) by (left; reflexivity).
  assert (Hnames : List.map localname (children row) = ["PersonNm"; "TitleTxt"])
    by reflexivity.
  assert (Hfield : In field_info
                      (fst (_get_fields_for_table MoreExamples.plain_state
                              "compensation_officers")))
    by (left; reflexivity).
  split; [exact Hrow|]. split; [exact Hnames|]. split; [exact Hfield|].
  refine (proj2 (proj2
            (@generic_fields_look_for_prefixed_names (LX serialize)
               (fun n => In n (children row))
               MoreExamples.plain_state "compensation_officers" [] 1 row
               field_info I Hfield (fun child H => H) _)) _).
  - intros expr ns items n Hin Hx Hitem.
    cbn [element_lookups List.map app In FieldInfo.var_name field_info] in Hin.
    destruct Hin as [[= <- <-]|[[= <- <-]|[[= <- <-]|[]]]];
      vm_compute in Hx; try discriminate;
      injection Hx as <-; destruct Hitem.
  - intros n Hn. cbn in Hn.
    destruct Hn as [<-|[<-|[]]]; reflexivity.
Defined.
End GenericFieldInstances.
